(** * A shallow embedding of the xv6 kernel core

    Frame allocator (kalloc.c), spin locks (spinlock.c), sleep locks
    (sleeplock.c), buffer cache (bio.c), redo log (log.c), ELF loader
    (exec.c) and pipes (pipe.c), as executable Rocq functions over an
    explicit kernel state, with the properties of the specification
    stated and proved about them. *)

From Stdlib Require Import ZArith List Lia Bool String.
From stdpp Require Import base list.
Import ListNotations.
Local Open Scope Z_scope.

(** ** Machine integers

    C integers are modelled as [Z] with the wrap-around written out:
    [uint] and [uint64] wrap modulo a power of two, [int] wraps into
    the two's-complement range. *)

Definition u32 (x : Z) : Z := x mod 2 ^ 32.
Definition u64 (x : Z) : Z := x mod 2 ^ 64.
Definition s32 (x : Z) : Z := (x + 2 ^ 31) mod 2 ^ 32 - 2 ^ 31.

Definition is_s32 (x : Z) : Prop := - 2 ^ 31 <= x < 2 ^ 31.
Definition is_u32 (x : Z) : Prop := 0 <= x < 2 ^ 32.
Definition is_u64 (x : Z) : Prop := 0 <= x < 2 ^ 64.

(** C truth value of an integer. *)
Definition truthy (x : Z) : bool := negb (x =? 0).
Definition of_bool (b : bool) : Z := if b then 1 else 0.

(** ** Kernel state seen from one hart

    [cpu_t] is [struct cpu] of proc.h (the fields the core reads) plus
    the hart's interrupt-enable bit, which [intr_get], [intr_on] and
    [intr_off] of riscv.h read and write. *)

Record cpu_t := mkCpu {
  cpu_id : Z;       (* identity of this [struct cpu], as [mycpu()] returns it *)
  noff : Z;         (* int noff: depth of push_off() nesting *)
  intena : Z;       (* int intena: were interrupts enabled before push_off()? *)
  sie : bool        (* sstatus.SIE: are device interrupts enabled? *)
}.

(** [struct spinlock] of spinlock.h; the name is for diagnostics only. *)
Record spinlock := mkSpin {
  locked : Z;            (* uint locked *)
  lk_cpu : option Z      (* struct cpu *cpu; None is the null pointer *)
}.

(** [enum procstate] and the part of [struct proc] that sleep and
    wakeup use. *)
Inductive procstate := UNUSED | USED | SLEEPING | RUNNABLE | RUNNING | ZOMBIE.

Record proc_t := mkProc {
  p_pid : Z;
  p_state : procstate;
  p_chan : Z             (* void *chan; 0 when not sleeping *)
}.

(** The state one kernel control flow runs on: its hart, the identity
    of the current process, the process table, the state [S] of the
    subsystem under study, and the schedule [env]: what the rest of
    the system does to [S] each time the caller is parked in [sleep]. *)
Record world (S : Type) := mkWorld {
  cpu : cpu_t;
  mypid : Z;                       (* myproc()->pid *)
  ptable : list proc_t;
  st : S;
  env : list (S -> S)
}.
Arguments mkWorld {S}.
Arguments cpu {S}.
Arguments mypid {S}.
Arguments ptable {S}.
Arguments st {S}.
Arguments env {S}.

Definition set_cpu {S} (c : cpu_t) (w : world S) : world S :=
  mkWorld c (mypid w) (ptable w) (st w) (env w).
Definition set_ptable {S} (t : list proc_t) (w : world S) : world S :=
  mkWorld (cpu w) (mypid w) t (st w) (env w).
Definition set_st {S} (s : S) (w : world S) : world S :=
  mkWorld (cpu w) (mypid w) (ptable w) s (env w).
Definition set_env {S} (e : list (S -> S)) (w : world S) : world S :=
  mkWorld (cpu w) (mypid w) (ptable w) (st w) e.
Arguments set_cpu {S} c w /.
Arguments set_ptable {S} t w /.
Arguments set_st {S} s w /.
Arguments set_env {S} e w /.

(** ** Outcomes and the kernel monad

    A call either returns, or is fatal ([panic] prints and halts), or
    cannot go on without another hart or process acting (spinning on a
    lock somebody else holds, or parked with nobody left to run). *)
Inductive result (S A : Type) :=
| Ok (a : A) (w : world S)
| Panic (msg : string) (w : world S)
| Blocked (w : world S).
Arguments Ok {S A}.
Arguments Panic {S A}.
Arguments Blocked {S A}.

Definition K (S A : Type) : Type := world S -> result S A.

Definition ret {S A} (a : A) : K S A := fun w => Ok a w.
Definition bind {S A B} (m : K S A) (f : A -> K S B) : K S B :=
  fun w => match m w with
           | Ok a w' => f a w'
           | Panic msg w' => Panic msg w'
           | Blocked w' => Blocked w'
           end.
Definition panic {S A} (msg : string) : K S A := fun w => Panic msg w.
(** C gives some executions no meaning: a store past the end of an
    array, a use of an object whose memory has been freed. The model
    does not guess what they do; such a run stops there, with an outcome
    that is not a return and is marked as undefined. *)
Definition undefined {S A} (what : string) : K S A :=
  fun w => Panic (String.append "undefined: " what) w.
Definition gets {S A} (f : world S -> A) : K S A := fun w => Ok (f w) w.
Definition modify {S} (f : world S -> world S) : K S unit := fun w => Ok tt (f w).

Declare Scope kernel_scope.
Delimit Scope kernel_scope with K.
Notation "x <- m ;; k" := (bind m (fun x => k))
  (at level 100, m at next level, right associativity) : kernel_scope.
Notation "m ;; k" := (bind m (fun _ => k))
  (at level 100, right associativity) : kernel_scope.
Local Open Scope kernel_scope.

Definition final_world {S A} (r : result S A) : world S :=
  match r with Ok _ w | Panic _ w | Blocked w => w end.

Definition returned {S A} (r : result S A) : bool :=
  match r with Ok _ _ => true | _ => false end.

(** A typed pointer into the subsystem state: the address (used as a
    sleep channel) and the accessors of the pointed-to object. *)
Record ref (S T : Type) := mkRef {
  addr : Z;
  view : S -> T;
  update : T -> S -> S
}.
Arguments mkRef {S T}.
Arguments addr {S T}.
Arguments view {S T}.
Arguments update {S T}.

Definition load {S T} (r : ref S T) : K S T := fun w => Ok (view r (st w)) w.
Definition store {S T} (r : ref S T) (x : T) : K S unit :=
  fun w => Ok tt (set_st (update r x (st w)) w).

(** ** spinlock.c *)

Section Spinlock.
Context {S : Type}.

(** riscv.h: [intr_get], [intr_off], [intr_on]. *)
Definition intr_get : K S Z := gets (fun w => of_bool (sie (cpu w))).
Definition intr_off : K S unit :=
  modify (fun w => set_cpu (mkCpu (cpu_id (cpu w)) (noff (cpu w)) (intena (cpu w)) false) w).
Definition intr_on : K S unit :=
  modify (fun w => set_cpu (mkCpu (cpu_id (cpu w)) (noff (cpu w)) (intena (cpu w)) true) w).

Definition mycpu : K S cpu_t := gets cpu.
Definition set_noff (n : Z) : K S unit :=
  modify (fun w => set_cpu (mkCpu (cpu_id (cpu w)) n (intena (cpu w)) (sie (cpu w))) w).
Definition set_intena (v : Z) : K S unit :=
  modify (fun w => set_cpu (mkCpu (cpu_id (cpu w)) (noff (cpu w)) v (sie (cpu w))) w).

Definition push_off : K S unit :=
  old <- intr_get ;;
  intr_off ;;
  c <- mycpu ;;
  (if noff c =? 0 then set_intena old else ret tt) ;;
  c <- mycpu ;;
  set_noff (s32 (noff c + 1)).

Definition pop_off : K S unit :=
  c <- mycpu ;;
  i <- intr_get ;;
  if truthy i then panic "pop_off - interruptible" else
  if noff c <? 1 then panic "pop_off" else
  set_noff (s32 (noff c - 1)) ;;
  c <- mycpu ;;
  if (noff c =? 0) && truthy (intena c) then intr_on else ret tt.

(** Check whether this cpu is holding the lock. *)
Definition holding (lk : ref S spinlock) : K S Z :=
  l <- load lk ;;
  c <- mycpu ;;
  ret (of_bool (truthy (locked l) && bool_decide (lk_cpu l = Some (cpu_id c)))).

(** [__sync_lock_test_and_set(&lk->locked, 1)]: store 1, return the
    old value. *)
Definition test_and_set (lk : ref S spinlock) : K S Z :=
  l <- load lk ;;
  store lk (mkSpin 1 (lk_cpu l)) ;;
  ret (locked l).

(** The acquire loop spins while the swap returns non-zero; nothing
    this hart does ends the spin, so the model stops there. *)
Definition acquire (lk : ref S spinlock) : K S unit :=
  push_off ;;
  h <- holding lk ;;
  if truthy h then panic "acquire" else
  old <- test_and_set lk ;;
  if truthy old then (fun w => Blocked w) else
  c <- mycpu ;;
  l <- load lk ;;
  store lk (mkSpin (locked l) (Some (cpu_id c))).

Definition release (lk : ref S spinlock) : K S unit :=
  h <- holding lk ;;
  if negb (truthy h) then panic "release" else
  l <- load lk ;;
  store lk (mkSpin (locked l) None) ;;
  l <- load lk ;;
  store lk (mkSpin 0 (lk_cpu l)) ;;
  pop_off.
End Spinlock.

(** ** The scheduler's wait and wake (proc.c, outside the core) *)

Section SleepWakeup.
Context {S : Type}.

Definition set_proc (pid : Z) (s : procstate) (ch : Z) (p : proc_t) : proc_t :=
  if p_pid p =? pid then mkProc (p_pid p) s ch else p.

(** Modelled from the spec: proc.c is absent; [wakeup(chan)] marks
    all processes parked on [chan] runnable. *)
Definition wake (ch : Z) (p : proc_t) : proc_t :=
  match p_state p with
  | SLEEPING => if p_chan p =? ch then mkProc (p_pid p) RUNNABLE (p_chan p) else p
  | _ => p
  end.

Definition wakeup (ch : Z) : K S unit :=
  modify (fun w => set_ptable (map (wake ch) (ptable w)) w).

(** The caller is parked on [ch] and the rest of the system runs: the
    next step of the schedule is applied to the shared state, after
    which the caller is running again. With nothing left in the
    schedule the caller stays parked. *)
Definition park (ch : Z) : K S unit :=
  fun w =>
    let w1 := set_ptable (map (set_proc (mypid w) SLEEPING ch) (ptable w)) w in
    match env w1 with
    | [] => Blocked w1
    | e :: rest =>
        Ok tt (set_ptable (map (set_proc (mypid w) RUNNING 0) (ptable w1))
                 (set_env rest (set_st (e (st w1)) w1)))
    end.

(** Modelled from the spec: proc.c is absent; [sleep(chan, lk)]
    atomically releases the spinlock, parks the caller on [chan], and
    reacquires the spinlock on wake. *)
Definition sleep (ch : Z) (lk : ref S spinlock) : K S unit :=
  release lk ;;
  park ch ;;
  acquire lk.

Definition blocked {A} : K S A := fun w => Blocked w.
End SleepWakeup.

(** ** sleeplock.c *)

(** [struct sleeplock] (sleeplock.h): the lock word, the spinlock
  protecting it, and the holder's pid. *)
Record sleeplock := mkSleep {
sl_locked : Z;       (* uint locked *)
sl_lk : spinlock;    (* struct spinlock lk *)
sl_pid : Z           (* int pid *)
}.

Section Sleeplock.
Context {S : Type}.

(** [&lk->lk] *)
Definition inner (lk : ref S sleeplock) : ref S spinlock :=
  mkRef (addr lk + 8)
    (fun s => sl_lk (view lk s))
    (fun l s => update lk (mkSleep (sl_locked (view lk s)) l (sl_pid (view lk s))) s).

Definition set_sl_locked (lk : ref S sleeplock) (v : Z) : K S unit :=
  l <- load lk ;; store lk (mkSleep v (sl_lk l) (sl_pid l)).
Definition set_sl_pid (lk : ref S sleeplock) (v : Z) : K S unit :=
  l <- load lk ;; store lk (mkSleep (sl_locked l) (sl_lk l) v).

(** [while (lk->locked) sleep(lk, &lk->lk);] Each turn of the loop
    that sleeps uses up one step of the schedule, so as many turns as
    the schedule is long, plus one, are enough. *)
Fixpoint acquiresleep_wait (fuel : nat) (lk : ref S sleeplock) : K S unit :=
  l <- load lk ;;
  if truthy (sl_locked l) then
    sleep (addr lk) (inner lk) ;;
    match fuel with
    | O => blocked
    | Datatypes.S fuel' => acquiresleep_wait fuel' lk
    end
  else ret tt.

Definition acquiresleep (lk : ref S sleeplock) : K S unit :=
  acquire (inner lk) ;;
  n <- gets (fun w => length (env w)) ;;
  acquiresleep_wait n lk ;;
  set_sl_locked lk 1 ;;
  pid <- gets mypid ;;
  set_sl_pid lk pid ;;
  release (inner lk).

Definition releasesleep (lk : ref S sleeplock) : K S unit :=
  acquire (inner lk) ;;
  set_sl_locked lk 0 ;;
  set_sl_pid lk 0 ;;
  wakeup (addr lk) ;;
  release (inner lk).

Definition holdingsleep (lk : ref S sleeplock) : K S Z :=
  acquire (inner lk) ;;
  l <- load lk ;;
  pid <- gets mypid ;;
  let r := of_bool (truthy (sl_locked l) && (sl_pid l =? pid)) in
  release (inner lk) ;;
  ret r.
End Sleeplock.

(** ** Running a callee on a part of the state

    [zoom r m] runs [m], written for the object [r] points to, on the
    state that contains it; nothing outside that object changes. The
    schedule is seen through [r]: a step acts on the object in the
    context of the state at the call. *)
Definition zoom {S T A} (r : ref S T) (m : K T A) : K S A :=
  fun w =>
    let inside := mkWorld (cpu w) (mypid w) (ptable w) (view r (st w))
                    (map (fun e t => view r (e (update r t (st w)))) (env w)) in
    let out (wt : world T) :=
      mkWorld (cpu wt) (mypid wt) (ptable wt) (update r (st wt) (st w))
        (drop (length (env w) - length (env wt)) (env w)) in
    match m inside with
    | Ok a wt => Ok a (out wt)
    | Panic msg wt => Panic msg (out wt)
    | Blocked wt => Blocked (out wt)
    end.

(** ** kalloc.c *)

(** Modelled from the spec: riscv.h is absent; a frame is a 4 KiB
    region, and [PGROUNDUP] gives the next page-aligned address. *)
Definition PGSIZE : Z := 4096.
Definition PGROUNDUP (sz : Z) : Z := Z.land (u64 (sz + PGSIZE - 1)) (Z.lnot (PGSIZE - 1) mod 2 ^ 64).
Definition PGROUNDDOWN (a : Z) : Z := Z.land a (Z.lnot (PGSIZE - 1) mod 2 ^ 64).

(** Physical memory, a byte at each address. *)
Definition memory := Z -> Z.

Definition memset (m : memory) (dst c n : Z) : memory :=
  fun a => if (dst <=? a) && (a <? dst + n) then c mod 256 else m a.

(** Little-endian store and load of an [n]-byte word. *)
Fixpoint store_le (n : nat) (m : memory) (a v : Z) : memory :=
  match n with
  | O => m
  | Datatypes.S k => store_le k (fun x => if x =? a then v mod 256 else m x) (a + 1) (v / 256)
  end.

Fixpoint load_le (n : nat) (m : memory) (a : Z) : Z :=
  match n with
  | O => 0
  | Datatypes.S k => m a + 256 * load_le k m (a + 1)
  end.

(** [struct { struct spinlock lock; struct run *freelist; } kmem] and
    the memory the free list is threaded through: [r->next] is the
    first machine word of the free frame [r]. *)
Record kmem_t := mkKmem {
  km_lock : spinlock;
  freelist : Z
}.

Record kalloc_state := mkKalloc {
  kmem : kmem_t;
  ram : memory
}.

Definition kmem_lock : ref kalloc_state spinlock :=
  mkRef 0 (fun s => km_lock (kmem s))
    (fun l s => mkKalloc (mkKmem l (freelist (kmem s))) (ram s)).

Definition set_freelist (r : Z) : K kalloc_state unit :=
  modify (fun w => set_st (mkKalloc (mkKmem (km_lock (kmem (st w))) r) (ram (st w))) w).
Definition set_ram (m : memory) : K kalloc_state unit :=
  modify (fun w => set_st (mkKalloc (kmem (st w)) m) w).

Section Kalloc.
(** [end] is the first address after the kernel (kernel.ld) and
    [PHYSTOP] the end of physical memory (memlayout.h). *)
Variable end_ : Z.
Variable PHYSTOP : Z.

Definition kfree (pa : Z) : K kalloc_state unit :=
  if negb (pa mod PGSIZE =? 0) || (pa <? end_) || (pa >=? PHYSTOP) then panic "kfree" else
  (* Fill with junk to catch dangling refs. *)
  m <- gets (fun w => ram (st w)) ;;
  set_ram (memset m pa 1 PGSIZE) ;;
  acquire kmem_lock ;;
  (* r->next = kmem.freelist; kmem.freelist = r; *)
  fl <- gets (fun w => freelist (kmem (st w))) ;;
  m <- gets (fun w => ram (st w)) ;;
  set_ram (store_le 8 m pa fl) ;;
  set_freelist pa ;;
  release kmem_lock.

(** [for (; p + PGSIZE <= pa_end; p += PGSIZE) kfree(p);] *)
Fixpoint freerange_loop (fuel : nat) (p pa_end : Z) : K kalloc_state unit :=
  if u64 (p + PGSIZE) <=? pa_end then
    match fuel with
    | O => blocked
    | Datatypes.S fuel' => kfree p ;; freerange_loop fuel' (u64 (p + PGSIZE)) pa_end
    end
  else ret tt.

(** The fuel is the number of whole pages between the rounded start
    and the end, which bounds the turns of the loop as long as the
    address does not wrap around. *)
Definition freerange (pa_start pa_end : Z) : K kalloc_state unit :=
  let p := PGROUNDUP pa_start in
  freerange_loop (Z.to_nat ((pa_end - p) / PGSIZE)) p pa_end.

(** [initlock(&kmem.lock, ...); freerange(end, PHYSTOP);] *)
Definition kinit : K kalloc_state unit :=
  store kmem_lock (mkSpin 0 None) ;;
  freerange end_ PHYSTOP.

Definition kalloc : K kalloc_state Z :=
  acquire kmem_lock ;;
  r <- gets (fun w => freelist (kmem (st w))) ;;
  (if truthy r then
     m <- gets (fun w => ram (st w)) ;;
     set_freelist (load_le 8 m r)
   else ret tt) ;;
  release kmem_lock ;;
  (if truthy r then
     m <- gets (fun w => ram (st w)) ;;
     set_ram (memset m r 5 PGSIZE)   (* fill with junk *)
   else ret tt) ;;
  ret r.
End Kalloc.

(** ** bio.c: the buffer cache *)

(** [struct buf] (buf.h). A pointer to a buffer is its index in
    [bcache.buf]; every index past the array stands for [&bcache.head],
    the list's sentinel. *)
Record buf := mkBuf {
  valid : Z;           (* int valid: has data been read from disk? *)
  disk : Z;            (* int disk: does the disk own the buffer? *)
  dev : Z;             (* uint dev *)
  blockno : Z;         (* uint blockno *)
  lock : sleeplock;
  refcnt : Z;          (* uint refcnt *)
  prev : nat;          (* struct buf *prev: LRU cache list *)
  next : nat;          (* struct buf *next *)
  data : list Z        (* uchar data[BSIZE] *)
}.

Record bcache_t := mkBcache {
  bc_lock : spinlock;
  bc_buf : list buf;       (* struct buf buf[NBUF] *)
  bc_head : buf            (* struct buf head *)
}.

(** [struct logheader] and [struct log] (log.c). *)
Record logheader := mkLh {
  lh_n : Z;                (* int n *)
  lh_block : list Z        (* int block[LOGSIZE] *)
}.

Record log_t := mkLog {
  lg_lock : spinlock;
  lg_start : Z;            (* int start *)
  lg_size : Z;             (* int size *)
  outstanding : Z;         (* int outstanding: how many FS sys calls are executing *)
  committing : Z;          (* int committing: in commit(), please wait *)
  lg_dev : Z;              (* int dev *)
  lh : logheader
}.

(** The file-system state of the core: the buffer cache, the log, the
    disk behind the driver, and the trace of the blocks the driver was
    asked to write, oldest first. *)
Record fs := mkFs {
  bcache : bcache_t;
  log : log_t;
  dsk : Z -> list Z;
  writes : list (Z * list Z)
}.

Definition set_bcache (bc : bcache_t) (s : fs) : fs := mkFs bc (log s) (dsk s) (writes s).
Definition set_log (l : log_t) (s : fs) : fs := mkFs (bcache s) l (dsk s) (writes s).

Arguments set_bcache bc s /.
Arguments set_log l s /.

Definition NBUF_of (s : fs) : nat := length (bc_buf (bcache s)).

Definition get_buf (b : nat) (s : fs) : buf := nth b (bc_buf (bcache s)) (bc_head (bcache s)).
Definition put_buf (b : nat) (x : buf) (s : fs) : fs :=
  if (b <? NBUF_of s)%nat
  then set_bcache (mkBcache (bc_lock (bcache s)) (<[b := x]> (bc_buf (bcache s))) (bc_head (bcache s))) s
  else set_bcache (mkBcache (bc_lock (bcache s)) (bc_buf (bcache s)) x) s.

Definition set_valid (v : Z) (x : buf) : buf :=
  mkBuf v (disk x) (dev x) (blockno x) (lock x) (refcnt x) (prev x) (next x) (data x).
Definition set_dev (v : Z) (x : buf) : buf :=
  mkBuf (valid x) (disk x) v (blockno x) (lock x) (refcnt x) (prev x) (next x) (data x).
Definition set_blockno (v : Z) (x : buf) : buf :=
  mkBuf (valid x) (disk x) (dev x) v (lock x) (refcnt x) (prev x) (next x) (data x).
Definition set_lock (v : sleeplock) (x : buf) : buf :=
  mkBuf (valid x) (disk x) (dev x) (blockno x) v (refcnt x) (prev x) (next x) (data x).
Definition set_refcnt (v : Z) (x : buf) : buf :=
  mkBuf (valid x) (disk x) (dev x) (blockno x) (lock x) v (prev x) (next x) (data x).
Definition set_prev (v : nat) (x : buf) : buf :=
  mkBuf (valid x) (disk x) (dev x) (blockno x) (lock x) (refcnt x) v (next x) (data x).
Definition set_next (v : nat) (x : buf) : buf :=
  mkBuf (valid x) (disk x) (dev x) (blockno x) (lock x) (refcnt x) (prev x) v (data x).
Definition set_data (v : list Z) (x : buf) : buf :=
  mkBuf (valid x) (disk x) (dev x) (blockno x) (lock x) (refcnt x) (prev x) (next x) v.

Arguments set_valid v x /.
Arguments set_dev v x /.
Arguments set_blockno v x /.
Arguments set_lock v x /.
Arguments set_refcnt v x /.
Arguments set_prev v x /.
Arguments set_next v x /.
Arguments set_data v x /.

Section Bio.
(** Addresses of the buffers, used only to name sleep channels. *)
Variable buf_addr : nat -> Z.

Definition bcache_lock : ref fs spinlock :=
  mkRef 0 (fun s => bc_lock (bcache s))
    (fun l s => set_bcache (mkBcache l (bc_buf (bcache s)) (bc_head (bcache s))) s).

(** [&bcache.buf[b].lock] *)
Definition buf_lock (b : nat) : ref fs sleeplock :=
  mkRef (buf_addr b + 16) (fun s => lock (get_buf b s))
    (fun l s => put_buf b (set_lock l (get_buf b s)) s).

(** [b->field] and [b->field = v] *)
Definition rd {A} (b : nat) (f : buf -> A) : K fs A := gets (fun w => f (get_buf b (st w))).
Definition wr (b : nat) (f : buf -> buf) : K fs unit :=
  modify (fun w => set_st (put_buf b (f (get_buf b (st w))) (st w)) w).

(** [&bcache.head] *)
Definition head : K fs nat := gets (fun w => NBUF_of (st w)).
Definition is_head (b : nat) : K fs bool := gets (fun w => (NBUF_of (st w) <=? b)%nat).

Definition initlock {S} (lk : ref S spinlock) : K S unit := store lk (mkSpin 0 None).
Definition initsleeplock {S} (lk : ref S sleeplock) : K S unit :=
  initlock (inner lk) ;; set_sl_locked lk 0 ;; set_sl_pid lk 0.

(** The loop of [binit] over [b = bcache.buf .. bcache.buf + NBUF],
    [k] buffers still to link, [b] the next one. *)
Fixpoint binit_loop (k : nat) (b : nat) : K fs unit :=
  match k with
  | O => ret tt
  | Datatypes.S k' =>
      h <- head ;;
      hn <- rd h next ;;
      wr b (set_next hn) ;;
      wr b (set_prev h) ;;
      initsleeplock (buf_lock b) ;;
      hn <- rd h next ;;
      wr hn (set_prev b) ;;
      wr h (set_next b) ;;
      binit_loop k' (Datatypes.S b)
  end.

Definition binit : K fs unit :=
  initlock bcache_lock ;;
  h <- head ;;
  wr h (set_prev h) ;;
  wr h (set_next h) ;;
  n <- gets (fun w => NBUF_of (st w)) ;;
  binit_loop n 0%nat.

(** First loop of [bget]: is the block already cached? [Some b] is a
    return from inside the loop. A walk of more than NBUF buffers that
    has not met the head never will. *)
Fixpoint bget_cached (fuel : nat) (dv bno : Z) (b : nat) : K fs (option nat) :=
  e <- is_head b ;;
  if e then ret None else
  d <- rd b dev ;;
  n <- rd b blockno ;;
  if (d =? dv) && (n =? bno) then
    c <- rd b refcnt ;;
    wr b (set_refcnt (u32 (c + 1))) ;;
    release bcache_lock ;;
    acquiresleep (buf_lock b) ;;
    ret (Some b)
  else
    match fuel with
    | O => blocked
    | Datatypes.S fuel' => nx <- rd b next ;; bget_cached fuel' dv bno nx
    end.

(** Second loop: recycle the least recently used unused buffer. *)
Fixpoint bget_recycle (fuel : nat) (dv bno : Z) (b : nat) : K fs (option nat) :=
  e <- is_head b ;;
  if e then ret None else
  c <- rd b refcnt ;;
  if c =? 0 then
    wr b (set_dev dv) ;;
    wr b (set_blockno bno) ;;
    wr b (set_valid 0) ;;
    wr b (set_refcnt 1) ;;
    release bcache_lock ;;
    acquiresleep (buf_lock b) ;;
    ret (Some b)
  else
    match fuel with
    | O => blocked
    | Datatypes.S fuel' => pv <- rd b prev ;; bget_recycle fuel' dv bno pv
    end.

Definition bget (dv bno : Z) : K fs nat :=
  acquire bcache_lock ;;
  h <- head ;;
  n <- gets (fun w => NBUF_of (st w)) ;;
  first <- rd h next ;;
  r <- bget_cached n dv bno first ;;
  match r with
  | Some b => ret b
  | None =>
      last <- rd h prev ;;
      r <- bget_recycle n dv bno last ;;
      match r with
      | Some b => ret b
      | None => panic "bget: no buffers"
      end
  end.

(** Modelled from the spec: the disk driver is absent;
    [virtio_disk_rw(b, 0)] reads block [b->blockno] from the disk into
    [b->data], [virtio_disk_rw(b, 1)] writes [b->data] to it. *)
Definition virtio_disk_rw (b : nat) (writing : bool) : K fs unit :=
  fun w =>
    let s := st w in
    let x := get_buf b s in
    if writing then
      Ok tt (set_st (mkFs (bcache s) (log s)
                       (fun k => if k =? blockno x then data x else dsk s k)
                       (writes s ++ [(blockno x, data x)])) w)
    else
      Ok tt (set_st (put_buf b (set_data (dsk s (blockno x)) x) s) w).

(** Return a locked buf with the contents of the indicated block. *)
Definition bread (dv bno : Z) : K fs nat :=
  b <- bget dv bno ;;
  v <- rd b valid ;;
  (if negb (truthy v) then
     virtio_disk_rw b false ;;
     wr b (set_valid 1)
   else ret tt) ;;
  ret b.

(** Write b's contents to disk. Must be locked. *)
Definition bwrite (b : nat) : K fs unit :=
  h <- holdingsleep (buf_lock b) ;;
  if negb (truthy h) then panic "bwrite" else
  virtio_disk_rw b true.

(** Release a locked buffer. Move to the head of the
    most-recently-used list. *)
Definition brelse (b : nat) : K fs unit :=
  h <- holdingsleep (buf_lock b) ;;
  if negb (truthy h) then panic "brelse" else
  releasesleep (buf_lock b) ;;
  acquire bcache_lock ;;
  c <- rd b refcnt ;;
  wr b (set_refcnt (u32 (c - 1))) ;;
  c <- rd b refcnt ;;
  (if c =? 0 then
     (* no one is waiting for it. *)
     bn <- rd b next ;; bp <- rd b prev ;; wr bn (set_prev bp) ;;
     bp <- rd b prev ;; bn <- rd b next ;; wr bp (set_next bn) ;;
     h <- head ;;
     hn <- rd h next ;; wr b (set_next hn) ;;
     wr b (set_prev h) ;;
     hn <- rd h next ;; wr hn (set_prev b) ;;
     wr h (set_next b)
   else ret tt) ;;
  release bcache_lock.

Definition bpin (b : nat) : K fs unit :=
  acquire bcache_lock ;;
  c <- rd b refcnt ;;
  wr b (set_refcnt (u32 (c + 1))) ;;
  release bcache_lock.

Definition bunpin (b : nat) : K fs unit :=
  acquire bcache_lock ;;
  c <- rd b refcnt ;;
  wr b (set_refcnt (u32 (c - 1))) ;;
  release bcache_lock.
End Bio.

(** ** log.c: the redo log *)

(** A C [int] stored in, and read from, a byte array at a byte
    offset, little-endian two's complement: the log header lives in
    the data of the buffer of the log's first block. *)
Definition put32 (d : list Z) (off : nat) (v : Z) : list Z :=
  <[off := v mod 256]>
    (<[(off + 1)%nat := (v / 2 ^ 8) mod 256]>
       (<[(off + 2)%nat := (v / 2 ^ 16) mod 256]>
          (<[(off + 3)%nat := (v / 2 ^ 24) mod 256]> d))).

Definition get32 (d : list Z) (off : nat) : Z :=
  s32 (nth off d 0 + 2 ^ 8 * nth (off + 1) d 0 + 2 ^ 16 * nth (off + 2) d 0
       + 2 ^ 24 * nth (off + 3) d 0).

(** The fields [n] and [block[i]] of the [struct logheader] laid over
    a buffer's data. *)
Definition hdr_n (d : list Z) : Z := get32 d 0.
Definition hdr_block (d : list Z) (i : Z) : Z := get32 d (4 + 4 * Z.to_nat i).
Definition hdr_set_n (v : Z) (d : list Z) : list Z := put32 d 0 v.
Definition hdr_set_block (i v : Z) (d : list Z) : list Z := put32 d (4 + 4 * Z.to_nat i) v.

(** [memmove(dst, src, n)] on two arrays. *)
Definition memmove (dst src : list Z) (n : Z) : list Z :=
  take (Z.to_nat n) src ++ drop (Z.to_nat n) dst.

Definition log_lock : ref fs spinlock :=
  mkRef 0 (fun s => lg_lock (log s))
    (fun l s => set_log (mkLog l (lg_start (log s)) (lg_size (log s)) (outstanding (log s))
                           (committing (log s)) (lg_dev (log s)) (lh (log s))) s).

Definition the_log : K fs log_t := gets (fun w => log (st w)).
Definition wr_log (f : log_t -> log_t) : K fs unit :=
  modify (fun w => set_st (set_log (f (log (st w))) (st w)) w).

Definition set_outstanding (v : Z) (l : log_t) : log_t :=
  mkLog (lg_lock l) (lg_start l) (lg_size l) v (committing l) (lg_dev l) (lh l).
Definition set_committing (v : Z) (l : log_t) : log_t :=
  mkLog (lg_lock l) (lg_start l) (lg_size l) (outstanding l) v (lg_dev l) (lh l).
Definition set_lh_n (v : Z) (l : log_t) : log_t :=
  mkLog (lg_lock l) (lg_start l) (lg_size l) (outstanding l) (committing l) (lg_dev l)
    (mkLh v (lh_block (lh l))).
Definition set_lh_block (i v : Z) (l : log_t) : log_t :=
  mkLog (lg_lock l) (lg_start l) (lg_size l) (outstanding l) (committing l) (lg_dev l)
    (mkLh (lh_n (lh l)) (<[Z.to_nat i := v]> (lh_block (lh l)))).
Definition set_geometry (start size dv : Z) (l : log_t) : log_t :=
  mkLog (lg_lock l) start size (outstanding l) (committing l) dv (lh l).

(** [log.lh.block[i]] *)
Definition block_at (l : log_t) (i : Z) : Z := nth (Z.to_nat i) (lh_block (lh l)) 0.

Section Log.
Variable buf_addr : nat -> Z.
(** The address of [log], the channel [begin_op] sleeps on. *)
Variable log_addr : Z.
(** param.h and fs.h are absent: the constants are parameters. *)
Variable LOGSIZE : Z.
Variable MAXOPBLOCKS : Z.
Variable BSIZE : Z.

Local Abbreviation bread := (bread buf_addr).
Local Abbreviation bwrite := (bwrite buf_addr).
Local Abbreviation brelse := (brelse buf_addr).

(** Copy committed blocks from log to their home location:
    [for (tail = 0; tail < log.lh.n; tail++)]. *)
Fixpoint install_trans_loop (fuel : nat) (recovering : Z) (tail : Z) : K fs unit :=
  l <- the_log ;;
  if tail <? lh_n (lh l) then
    match fuel with
    | O => blocked
    | Datatypes.S fuel' =>
        lbuf <- bread (u32 (lg_dev l)) (u32 (s32 (s32 (lg_start l + tail) + 1))) ;;  (* read log block *)
        dbuf <- bread (u32 (lg_dev l)) (u32 (block_at l tail)) ;;                    (* read dst *)
        src <- rd lbuf data ;;
        wr dbuf (fun x => set_data (memmove (data x) src BSIZE) x) ;;                (* copy block to dst *)
        bwrite dbuf ;;                                                               (* write dst to disk *)
        (if recovering =? 0 then bunpin dbuf else ret tt) ;;
        brelse lbuf ;;
        brelse dbuf ;;
        install_trans_loop fuel' recovering (s32 (tail + 1))
    end
  else ret tt.

Definition install_trans (recovering : Z) : K fs unit :=
  l <- the_log ;;
  install_trans_loop (Z.to_nat (lh_n (lh l))) recovering 0.

(** [for (i = 0; i < log.lh.n; i++) log.lh.block[i] = lh->block[i];] *)
Fixpoint read_head_loop (fuel : nat) (b : nat) (i : Z) : K fs unit :=
  l <- the_log ;;
  if i <? lh_n (lh l) then
    match fuel with
    | O => blocked
    | Datatypes.S fuel' =>
        d <- rd b data ;;
        wr_log (set_lh_block i (hdr_block d i)) ;;
        read_head_loop fuel' b (s32 (i + 1))
    end
  else ret tt.

(** Read the log header from disk into the in-memory log header. *)
Definition read_head : K fs unit :=
  l <- the_log ;;
  b <- bread (u32 (lg_dev l)) (u32 (lg_start l)) ;;
  d <- rd b data ;;
  wr_log (set_lh_n (hdr_n d)) ;;
  l <- the_log ;;
  read_head_loop (Z.to_nat (lh_n (lh l))) b 0 ;;
  brelse b.

(** [for (i = 0; i < log.lh.n; i++) hb->block[i] = log.lh.block[i];] *)
Fixpoint write_head_loop (fuel : nat) (b : nat) (i : Z) : K fs unit :=
  l <- the_log ;;
  if i <? lh_n (lh l) then
    match fuel with
    | O => blocked
    | Datatypes.S fuel' =>
        wr b (fun x => set_data (hdr_set_block i (block_at l i) (data x)) x) ;;
        write_head_loop fuel' b (s32 (i + 1))
    end
  else ret tt.

(** Write in-memory log header to disk. This is the true point at
    which the current transaction commits. *)
Definition write_head : K fs unit :=
  l <- the_log ;;
  b <- bread (u32 (lg_dev l)) (u32 (lg_start l)) ;;
  wr b (fun x => set_data (hdr_set_n (lh_n (lh l)) (data x)) x) ;;
  write_head_loop (Z.to_nat (lh_n (lh l))) b 0 ;;
  bwrite b ;;
  brelse b.

Definition recover_from_log : K fs unit :=
  read_head ;;
  install_trans 1 ;;    (* if committed, copy from log to disk *)
  wr_log (set_lh_n 0) ;;
  write_head.           (* clear the log *)

(** [initlog(dev, sb)], with [sb->logstart] and [sb->nlog]. *)
Definition initlog (dv logstart nlog : Z) : K fs unit :=
  if 4 * (1 + LOGSIZE) >=? BSIZE then panic "initlog: too big logheader" else
  initlock log_lock ;;
  wr_log (set_geometry (s32 logstart) (s32 nlog) dv) ;;
  recover_from_log.

(** The [while (1)] of [begin_op]; a turn that does not return sleeps,
    and uses up one step of the schedule. *)
Fixpoint begin_op_loop (fuel : nat) : K fs unit :=
  l <- the_log ;;
  let again := match fuel with O => blocked | Datatypes.S fuel' => begin_op_loop fuel' end in
  if truthy (committing l) then
    sleep log_addr log_lock ;; again
  else if s32 (lh_n (lh l) + s32 (s32 (outstanding l + 1) * MAXOPBLOCKS)) >? LOGSIZE then
    (* this op might exhaust log space; wait for commit. *)
    sleep log_addr log_lock ;; again
  else
    wr_log (set_outstanding (s32 (outstanding l + 1))) ;;
    release log_lock.

(** called at the start of each FS system call. *)
Definition begin_op : K fs unit :=
  acquire log_lock ;;
  n <- gets (fun w => length (env w)) ;;
  begin_op_loop n.

(** Copy modified blocks from cache to log. *)
Fixpoint write_log_loop (fuel : nat) (tail : Z) : K fs unit :=
  l <- the_log ;;
  if tail <? lh_n (lh l) then
    match fuel with
    | O => blocked
    | Datatypes.S fuel' =>
        to <- bread (u32 (lg_dev l)) (u32 (s32 (s32 (lg_start l + tail) + 1))) ;;  (* log block *)
        from <- bread (u32 (lg_dev l)) (u32 (block_at l tail)) ;;                  (* cache block *)
        src <- rd from data ;;
        wr to (fun x => set_data (memmove (data x) src BSIZE) x) ;;
        bwrite to ;;                                                               (* write the log *)
        brelse from ;;
        brelse to ;;
        write_log_loop fuel' (s32 (tail + 1))
    end
  else ret tt.

Definition write_log : K fs unit :=
  l <- the_log ;;
  write_log_loop (Z.to_nat (lh_n (lh l))) 0.

Definition commit : K fs unit :=
  l <- the_log ;;
  if lh_n (lh l) >? 0 then
    write_log ;;           (* Write modified blocks from cache to log *)
    write_head ;;          (* Write header to disk -- the real commit *)
    install_trans 0 ;;     (* Now install writes to home locations *)
    wr_log (set_lh_n 0) ;;
    write_head             (* Erase the transaction from the log *)
  else ret tt.

(** called at the end of each FS system call. commits if this was
    the last outstanding operation. *)
Definition end_op : K fs unit :=
  acquire log_lock ;;
  l <- the_log ;;
  wr_log (set_outstanding (s32 (outstanding l - 1))) ;;
  l <- the_log ;;
  if truthy (committing l) then panic "log.committing" else
  do_commit <-
    (if outstanding l =? 0 then
       wr_log (set_committing 1) ;; ret 1
     else
       (* begin_op() may be waiting for log space. *)
       wakeup log_addr ;; ret 0) ;;
  release log_lock ;;
  if truthy do_commit then
    (* call commit w/o holding locks, since not allowed to sleep with locks. *)
    commit ;;
    acquire log_lock ;;
    wr_log (set_committing 0) ;;
    wakeup log_addr ;;
    release log_lock
  else ret tt.

(** [for (i = 0; i < log.lh.n; i++) if (log.lh.block[i] == b->blockno) break;]
    returns the value of [i] after the loop. *)
Fixpoint log_write_find (fuel : nat) (bno : Z) (i : Z) : K fs Z :=
  l <- the_log ;;
  if i <? lh_n (lh l) then
    if u32 (block_at l i) =? bno then ret i     (* log absorption *)
    else
      match fuel with
      | O => blocked
      | Datatypes.S fuel' => log_write_find fuel' bno (s32 (i + 1))
      end
  else ret i.

Definition log_write (b : nat) : K fs unit :=
  acquire log_lock ;;
  l <- the_log ;;
  if (lh_n (lh l) >=? LOGSIZE) || (lh_n (lh l) >=? s32 (lg_size l - 1)) then
    panic "too big a transaction" else
  if outstanding l <? 1 then panic "log_write outside of trans" else
  bno <- rd b blockno ;;
  i <- log_write_find (Z.to_nat (lh_n (lh l))) bno 0 ;;
  wr_log (set_lh_block i (s32 bno)) ;;
  l <- the_log ;;
  (if i =? lh_n (lh l) then   (* Add new block to log? *)
     bpin b ;;
     l <- the_log ;;
     wr_log (set_lh_n (s32 (lh_n (lh l) + 1)))
   else ret tt) ;;
  release log_lock.
End Log.

(** ** pipe.c *)

Definition PIPESIZE : Z := 512.

Record pipe_t := mkPipe {
  pi_lock : spinlock;
  pi_data : list Z;      (* char data[PIPESIZE] *)
  nread : Z;             (* uint nread: number of bytes read *)
  nwrite : Z;            (* uint nwrite: number of bytes written *)
  readopen : Z;          (* int readopen: read fd is still open *)
  writeopen : Z          (* int writeopen: write fd is still open *)
}.

(** What a pipe call works on: the pipe, the caller's [killed] flag
    (another process may set it while the caller sleeps), and the
    caller's user memory, a byte at each mapped address. *)
Record pipe_state := mkPipeSt {
  pipe : pipe_t;
  pkilled : Z;
  umem : Z -> option Z
}.

Definition set_pipe (p : pipe_t) (s : pipe_state) : pipe_state := mkPipeSt p (pkilled s) (umem s).

Definition set_nread (v : Z) (p : pipe_t) : pipe_t :=
  mkPipe (pi_lock p) (pi_data p) v (nwrite p) (readopen p) (writeopen p).
Definition set_nwrite (v : Z) (p : pipe_t) : pipe_t :=
  mkPipe (pi_lock p) (pi_data p) (nread p) v (readopen p) (writeopen p).
Definition set_pi_data (d : list Z) (p : pipe_t) : pipe_t :=
  mkPipe (pi_lock p) d (nread p) (nwrite p) (readopen p) (writeopen p).

Section Pipe.
(** The address of the pipe; [&pi->nread] and [&pi->nwrite] are the
    two sleep channels. *)
Variable pipe_addr : Z.

Definition pipe_lock : ref pipe_state spinlock :=
  mkRef pipe_addr (fun s => pi_lock (pipe s))
    (fun l s => set_pipe (mkPipe l (pi_data (pipe s)) (nread (pipe s)) (nwrite (pipe s))
                            (readopen (pipe s)) (writeopen (pipe s))) s).
Definition chan_nread : Z := pipe_addr + 536.
Definition chan_nwrite : Z := pipe_addr + 540.

Definition the_pipe : K pipe_state pipe_t := gets (fun w => pipe (st w)).
Definition wr_pipe (f : pipe_t -> pipe_t) : K pipe_state unit :=
  modify (fun w => set_st (set_pipe (f (pipe (st w))) (st w)) w).

(** [killed(pr)] (proc.c): the caller's killed flag. *)
Definition killed : K pipe_state Z := gets (fun w => pkilled (st w)).

(** Modelled from the spec: vm.c is absent; [copyin] and [copyout]
    of one byte between the kernel and the caller's address space;
    they fail on an address that is not mapped. *)
Definition copyin1 (uva : Z) : K pipe_state (option Z) := gets (fun w => umem (st w) uva).
Definition copyout1 (uva ch : Z) : K pipe_state Z :=
  fun w =>
    match umem (st w) uva with
    | Some _ =>
        Ok 0 (set_st (mkPipeSt (pipe (st w)) (pkilled (st w))
                        (fun a => if a =? uva then Some ch else umem (st w) a)) w)
    | None => Ok (-1) w
    end.

(** The [while (i < n)] of [pipewrite], with what follows it. *)
Fixpoint pipewrite_loop (fuel : nat) (addr n i : Z) : K pipe_state Z :=
  let again (i' : Z) :=
    match fuel with O => blocked | Datatypes.S fuel' => pipewrite_loop fuel' addr n i' end in
  let done (i' : Z) := wakeup chan_nread ;; release pipe_lock ;; ret i' in
  if i <? n then
    pi <- the_pipe ;;
    k <- killed ;;
    if (readopen pi =? 0) || truthy k then
      release pipe_lock ;; ret (-1)
    else if nwrite pi =? u32 (nread pi + PIPESIZE) then   (* DOC: pipewrite-full *)
      wakeup chan_nread ;;
      sleep chan_nwrite pipe_lock ;;
      again i
    else
      r <- copyin1 (u64 (addr + i)) ;;
      match r with
      | None => done i                                    (* break *)
      | Some ch =>
          wr_pipe (fun p => set_nwrite (u32 (nwrite p + 1))
                              (set_pi_data (<[Z.to_nat (nwrite p mod PIPESIZE) := ch]> (pi_data p)) p)) ;;
          again (s32 (i + 1))
      end
  else done i.

Definition pipewrite (addr n : Z) : K pipe_state Z :=
  acquire pipe_lock ;;
  e <- gets (fun w => length (env w)) ;;
  pipewrite_loop (Z.to_nat n + e) addr n 0.

(** [while (pi->nread == pi->nwrite && pi->writeopen)]; the result says
    whether the loop returned from [piperead] (the caller was killed). *)
Fixpoint piperead_wait (fuel : nat) : K pipe_state bool :=
  pi <- the_pipe ;;
  if (nread pi =? nwrite pi) && truthy (writeopen pi) then   (* DOC: pipe-empty *)
    k <- killed ;;
    if truthy k then release pipe_lock ;; ret true
    else
      sleep chan_nread pipe_lock ;;                           (* DOC: piperead-sleep *)
      match fuel with O => blocked | Datatypes.S fuel' => piperead_wait fuel' end
  else ret false.

(** [for (i = 0; i < n; i++)], returning [i] after the loop. *)
Fixpoint piperead_copy (fuel : nat) (addr n i : Z) : K pipe_state Z :=
  if i <? n then                                              (* DOC: piperead-copy *)
    pi <- the_pipe ;;
    if nread pi =? nwrite pi then ret i
    else
      let ch := nth (Z.to_nat (nread pi mod PIPESIZE)) (pi_data pi) 0 in
      wr_pipe (set_nread (u32 (nread pi + 1))) ;;
      r <- copyout1 (u64 (addr + i)) ch ;;
      if r =? -1 then ret i
      else match fuel with
           | O => blocked
           | Datatypes.S fuel' => piperead_copy fuel' addr n (s32 (i + 1))
           end
  else ret i.

Definition piperead (addr n : Z) : K pipe_state Z :=
  acquire pipe_lock ;;
  e <- gets (fun w => length (env w)) ;;
  gone <- piperead_wait e ;;
  if (gone : bool) then ret (-1) else
  i <- piperead_copy (Z.to_nat n) addr n 0 ;;
  wakeup chan_nwrite ;;                                       (* DOC: piperead-wakeup *)
  release pipe_lock ;;
  ret i.
End Pipe.

(** ** exec.c *)

(** [struct elfhdr] and [struct proghdr] (elf.h). *)
Record elfhdr := mkElf {
  e_magic : Z;       (* uint magic: must equal ELF_MAGIC *)
  e_entry : Z;       (* uint64 entry *)
  e_phoff : Z;       (* uint64 phoff *)
  e_phnum : Z        (* ushort phnum *)
}.

Record proghdr := mkPh {
  ph_type : Z;       (* uint32 type *)
  ph_flags : Z;      (* uint32 flags *)
  ph_off : Z;        (* uint64 off *)
  ph_vaddr : Z;      (* uint64 vaddr *)
  ph_paddr : Z;
  ph_filesz : Z;     (* uint64 filesz *)
  ph_memsz : Z;      (* uint64 memsz *)
  ph_align : Z
}.

Definition ELF_MAGIC : Z := 0x464C457F.
Definition ELF_PROG_LOAD : Z := 1.
Definition sizeof_elfhdr : Z := 64.
Definition sizeof_proghdr : Z := 56.

(** The fields of [struct proc] that are private to the process and
    that exec touches. The trap frame is its 36 machine words; [epc],
    [sp] and [a1] sit at byte offsets 24, 48 and 120. *)
Record proc_priv := mkPriv {
  p_sz : Z;                (* uint64 sz *)
  p_pagetable : Z;         (* pagetable_t pagetable *)
  p_trapframe : list Z;    (* struct trapframe *trapframe *)
  p_name : list Z          (* char name[16] *)
}.

Definition TF_EPC : nat := 3.
Definition TF_SP : nat := 6.
Definition TF_A1 : nat := 15.

Definition set_tf (i : nat) (v : Z) (p : proc_priv) : proc_priv :=
  mkPriv (p_sz p) (p_pagetable p) (<[i := v]> (p_trapframe p)) (p_name p).
Definition set_sz (v : Z) (p : proc_priv) : proc_priv :=
  mkPriv v (p_pagetable p) (p_trapframe p) (p_name p).
Definition set_pagetable (v : Z) (p : proc_priv) : proc_priv :=
  mkPriv (p_sz p) v (p_trapframe p) (p_name p).
Definition set_name (v : list Z) (p : proc_priv) : proc_priv :=
  mkPriv (p_sz p) (p_pagetable p) (p_trapframe p) v.

(** The loop of exec that finds the last path component (it moves
    [last] past every slash), on a path given as its bytes. *)
Fixpoint last_component (s last : list Z) : list Z :=
  match s with
  | [] => last
  | c :: s' => last_component s' (if c =? 47 then s' else last)
  end.

(** [safestrcpy(dst, src, n)] (string.c, which is not among the
    sources; its contract): at most [n - 1] bytes of [src], then a
    terminating zero. *)
Definition safestrcpy (src : list Z) (n : Z) : list Z :=
  take (Z.to_nat (n - 1)) src ++ [0].

Section Exec.
(** The state of what is outside the core (inodes, page tables, user
    memory), and the state exec runs on. *)
Variable U : Type.

Record exec_state := mkExec {
  x_fs : fs;
  x_proc : proc_priv;
  x_ext : U
}.

Definition fs_part : ref exec_state fs :=
  mkRef 0 x_fs (fun f s => mkExec f (x_proc s) (x_ext s)).
Definition ext_part : ref exec_state U :=
  mkRef 0 x_ext (fun u s => mkExec (x_fs s) (x_proc s) u).

(** [myproc()] and updates of the caller's private fields. *)
Definition myproc : K exec_state proc_priv := gets (fun w => x_proc (st w)).
Definition wr_proc (f : proc_priv -> proc_priv) : K exec_state unit :=
  modify (fun w => set_st (mkExec (x_fs (st w)) (f (x_proc (st w))) (x_ext (st w))) w).

Variable buf_addr : nat -> Z.
Variable log_addr : Z.
Variable LOGSIZE MAXOPBLOCKS BSIZE : Z.
(** param.h and riscv.h are absent. *)
Variable MAXARG : Z.
Variable PTE_X PTE_W : Z.

(** The helpers exec calls outside the core. They work on the outside
    state; what the C code reads through a pointer argument is part of
    the result. *)
Variable namei : list Z -> K U Z.
Variable ilock : Z -> K U unit.
Variable iunlockput : Z -> K U unit.
(** [readi(ip, 0, &elf, 0, sizeof(elf))]: bytes read, and the header. *)
Variable readi_elfhdr : Z -> K U (Z * elfhdr).
(** [readi(ip, 0, &ph, off, sizeof(ph))] *)
Variable readi_proghdr : Z -> Z -> K U (Z * proghdr).
(** [readi(ip, 0, pa, off, n)] into physical memory. *)
Variable readi_pa : Z -> Z -> Z -> Z -> K U Z.
Variable proc_pagetable : proc_priv -> K U Z.
Variable proc_freepagetable : Z -> Z -> K U unit.
Variable uvmalloc : Z -> Z -> Z -> Z -> K U Z.
Variable uvmclear : Z -> Z -> K U unit.
Variable walkaddr : Z -> Z -> K U Z.
(** [copyout(pagetable, dstva, src, len)], the source given by its
    bytes or its 64-bit words. *)
Variable copyout_bytes : Z -> Z -> list Z -> Z -> K U Z.
Variable copyout_words : Z -> Z -> list Z -> Z -> K U Z.

Local Abbreviation out m := (zoom ext_part m).
Local Abbreviation begin_op := (zoom fs_part (begin_op log_addr LOGSIZE MAXOPBLOCKS)).
Local Abbreviation end_op := (zoom fs_part (end_op buf_addr log_addr BSIZE)).

Definition flags2perm (flags : Z) : Z :=
  let perm := 0 in
  let perm := if truthy (Z.land flags 1) then PTE_X else perm in
  let perm := if truthy (Z.land flags 2) then Z.lor perm PTE_W else perm in
  perm.

(** Load a program segment into pagetable at virtual address va.
    [for (i = 0; i < sz; i += PGSIZE)], on [uint i, n, offset, sz]. *)
Fixpoint loadseg_loop (fuel : nat) (pt va ip offset sz i : Z) : K exec_state Z :=
  if i <? sz then
    pa <- out (walkaddr pt (u64 (va + i))) ;;
    if pa =? 0 then panic "loadseg: address should exist" else
    let n := if u32 (sz - i) <? PGSIZE then u32 (sz - i) else PGSIZE in
    r <- out (readi_pa ip pa (u32 (offset + i)) n) ;;
    if negb (r =? n) then ret (-1)
    else match fuel with
         | O => blocked
         | Datatypes.S fuel' => loadseg_loop fuel' pt va ip offset sz (u32 (i + PGSIZE))
         end
  else ret 0.

Definition loadseg (pt va ip offset sz : Z) : K exec_state Z :=
  loadseg_loop (Z.to_nat (u32 sz / PGSIZE) + 1) pt va ip (u32 offset) (u32 sz) 0.

(** The loop of exec over the program headers. The result is the
    value of [sz] and whether the loop ended by [goto bad]. *)
Fixpoint exec_load (fuel : nat) (elf : elfhdr) (ip pt : Z) (i off sz : Z)
  : K exec_state (bool * Z) :=
  if i <? e_phnum elf then
    match fuel with
    | O => blocked
    | Datatypes.S fuel' =>
        let next sz' := exec_load fuel' elf ip pt (s32 (i + 1)) (s32 (off + sizeof_proghdr)) sz' in
        r <- out (readi_proghdr ip (u32 off)) ;;
        let ph := snd r in
        if negb (fst r =? sizeof_proghdr) then ret (true, sz) else
        if negb (ph_type ph =? ELF_PROG_LOAD) then next sz else
        if ph_memsz ph <? ph_filesz ph then ret (true, sz) else
        if u64 (ph_vaddr ph + ph_memsz ph) <? ph_vaddr ph then ret (true, sz) else
        if negb (ph_vaddr ph mod PGSIZE =? 0) then ret (true, sz) else
        sz1 <- out (uvmalloc pt sz (u64 (ph_vaddr ph + ph_memsz ph)) (flags2perm (s32 (ph_flags ph)))) ;;
        if sz1 =? 0 then ret (true, sz) else
        r <- loadseg pt (ph_vaddr ph) ip (ph_off ph) (ph_filesz ph) ;;
        if r <? 0 then ret (true, sz1) else
        next sz1
    end
  else ret (false, sz).

(** Push argument strings, prepare rest of stack in ustack:
    [for (argc = 0; argv[argc]; argc++)]. [ustack] is the array
    [uint64 ustack[MAXARG]]; the check at the top of the loop keeps the
    store [ustack[argc] = sp] inside it. The result is [argc], [sp],
    [ustack], and whether the loop ended by [goto bad]. *)
Fixpoint exec_args (pt stackbase : Z) (rest : list (list Z)) (argc sp : Z) (ustack : list Z)
  : K exec_state (bool * (Z * Z * list Z)) :=
  match rest with
  | [] => ret (false, (argc, sp, ustack))
  | arg :: rest' =>
      if argc >=? MAXARG then ret (true, (argc, sp, ustack)) else
      let sp := u64 (sp - (Z.of_nat (length arg) + 1)) in
      let sp := u64 (sp - sp mod 16) in     (* riscv sp must be 16-byte aligned *)
      if sp <? stackbase then ret (true, (argc, sp, ustack)) else
      r <- out (copyout_bytes pt sp (arg ++ [0]) (Z.of_nat (length arg) + 1)) ;;
      if r <? 0 then ret (true, (argc, sp, ustack)) else
      exec_args pt stackbase rest' (argc + 1) sp (<[Z.to_nat argc := sp]> ustack)
  end.

(** The code at the label [bad]. *)
Definition exec_bad (pt sz ip : Z) : K exec_state Z :=
  (if truthy pt then out (proc_freepagetable pt sz) else ret tt) ;;
  (if truthy ip then out (iunlockput ip) ;; end_op else ret tt) ;;
  ret (-1).

Definition exec (path : list Z) (argv : list (list Z)) : K exec_state Z :=
  p <- myproc ;;
  begin_op ;;
  ip <- out (namei path) ;;
  if ip =? 0 then end_op ;; ret (-1) else
  out (ilock ip) ;;
  (* Check ELF header *)
  r <- out (readi_elfhdr ip) ;;
  let elf := snd r in
  if negb (fst r =? sizeof_elfhdr) then exec_bad 0 0 ip else
  if negb (e_magic elf =? ELF_MAGIC) then exec_bad 0 0 ip else
  pt <- out (proc_pagetable p) ;;
  if pt =? 0 then exec_bad pt 0 ip else
  (* Load program into memory. *)
  r <- exec_load (Z.to_nat (e_phnum elf)) elf ip pt 0 (s32 (e_phoff elf)) 0 ;;
  let sz := snd r in
  if (fst r : bool) then exec_bad pt sz ip else
  out (iunlockput ip) ;;
  end_op ;;
  let ip := 0 in
  p <- myproc ;;
  let oldsz := p_sz p in
  (* Allocate two pages at the next page boundary. *)
  let sz := PGROUNDUP sz in
  sz1 <- out (uvmalloc pt sz (u64 (sz + 2 * PGSIZE)) PTE_W) ;;
  if sz1 =? 0 then exec_bad pt sz ip else
  let sz := sz1 in
  out (uvmclear pt (u64 (sz - 2 * PGSIZE))) ;;
  let sp := sz in
  let stackbase := u64 (sp - PGSIZE) in
  (* the contents of ustack before the loop are indeterminate, and are
     not read: the argc + 1 words copied out below have all been stored. *)
  r <- exec_args pt stackbase argv 0 sp (repeat 0 (Z.to_nat MAXARG)) ;;
  let '(argc, sp, ustack) := snd r in
  if (fst r : bool) then exec_bad pt sz ip else
  (* ustack[argc] = 0: with exactly MAXARG strings argc is MAXARG here,
     one past the last element of ustack. *)
  if argc >=? MAXARG then undefined "exec: ustack[argc] = 0 with argc = MAXARG" else
  let ustack := <[Z.to_nat argc := 0]> ustack in
  (* push the array of argv[] pointers. *)
  let sp := u64 (sp - u64 ((argc + 1) * 8)) in
  let sp := u64 (sp - sp mod 16) in
  if sp <? stackbase then exec_bad pt sz ip else
  r <- out (copyout_words pt sp (take (Z.to_nat (argc + 1)) ustack) (u64 ((argc + 1) * 8))) ;;
  if r <? 0 then exec_bad pt sz ip else
  (* arguments to user main(argc, argv): argc is returned via the
     system call return value, which goes in a0. *)
  wr_proc (set_tf TF_A1 sp) ;;
  (* Save program name for debugging. *)
  wr_proc (set_name (safestrcpy (last_component path path) 16)) ;;
  (* Commit to the user image. *)
  p <- myproc ;;
  let oldpagetable := p_pagetable p in
  wr_proc (set_pagetable pt) ;;
  wr_proc (set_sz sz) ;;
  wr_proc (set_tf TF_EPC (e_entry elf)) ;;   (* initial program counter = main *)
  wr_proc (set_tf TF_SP sp) ;;               (* initial stack pointer *)
  out (proc_freepagetable oldpagetable oldsz) ;;
  ret (s32 argc).   (* this ends up in a0, the first argument to main(argc, argv) *)
End Exec.

(** ** pipe.c: closing an end *)

Definition set_readopen (v : Z) (p : pipe_t) : pipe_t :=
  mkPipe (pi_lock p) (pi_data p) (nread p) (nwrite p) v (writeopen p).
Definition set_writeopen (v : Z) (p : pipe_t) : pipe_t :=
  mkPipe (pi_lock p) (pi_data p) (nread p) (nwrite p) (readopen p) v.

(** A pipe is an object in a page of the frame allocator
    ([pipealloc] gets it from [kalloc]). While the page is allocated
    what it holds are the fields [ps_pipe], and the bytes [ram] has
    for the page mean nothing. [kfree] of the page ends the object: the
    page is then junk and the link of the free list, as [ram] has it,
    and [ps_pipe] is [None]. *)
Record pipe_sys := mkPipeSys {
  ps_pipe : option pipe_state;
  ps_kalloc : kalloc_state
}.

(** The pipe, while it is live with fields [p]. *)
Definition live_pipe (p : pipe_state) : ref pipe_sys pipe_state :=
  mkRef 0 (fun s => default p (ps_pipe s)) (fun p' s => mkPipeSys (Some p') (ps_kalloc s)).
Definition kalloc_part : ref pipe_sys kalloc_state :=
  mkRef 0 ps_kalloc (fun k s => mkPipeSys (ps_pipe s) k).

(** [pi->...]: a step on the pipe object. *)
Definition on_pipe {A} (m : K pipe_state A) : K pipe_sys A :=
  fun w =>
    match ps_pipe (st w) with
    | Some p => zoom (live_pipe p) m w
    | None => undefined "use of a pipe after its page was freed" w
    end.

Section PipeClose.
(** [pi], and the bounds [kfree] checks. *)
Variable pipe_addr : Z.
Variable end_ : Z.
Variable PHYSTOP : Z.

(** [kfree(pi)]: the page goes back to the allocator, and with
    it the pipe object. *)
Definition free_pipe : K pipe_sys unit :=
  zoom kalloc_part (kfree end_ PHYSTOP pipe_addr) ;;
  modify (fun w => set_st (mkPipeSys None (ps_kalloc (st w))) w).

Definition pipeclose (writable : Z) : K pipe_sys unit :=
  on_pipe (acquire (pipe_lock pipe_addr)) ;;
  (if truthy writable then
     on_pipe (wr_pipe (set_writeopen 0)) ;;
     on_pipe (wakeup (chan_nread pipe_addr))
   else
     on_pipe (wr_pipe (set_readopen 0)) ;;
     on_pipe (wakeup (chan_nwrite pipe_addr))) ;;
  pi <- on_pipe the_pipe ;;
  if (readopen pi =? 0) && (writeopen pi =? 0) then
    on_pipe (release (pipe_lock pipe_addr)) ;;
    free_pipe
  else
    on_pipe (release (pipe_lock pipe_addr)).
End PipeClose.

(** ** trap.c *)

(** The supervisor registers the trap code reads and writes. The
    interrupt-enable bit of [sstatus] is the [sie] of the hart; the
    field holds the other bits. *)
Record csrs := mkCsrs {
  scause : Z;
  sepc : Z;
  sstatus : Z;
  stval : Z;
  sip : Z;
  stvec : Z
}.

Section Trap.
(** The state of what is outside the core: devices and the console. *)
Variable U : Type.

Record trap_state := mkTrap {
  tickslock : spinlock;     (* struct spinlock tickslock *)
  ticks : Z;                (* uint ticks *)
  regs : csrs;
  t_ext : U
}.

(** [&ticks], the channel the sleepers on the clock wait on, and
    [&tickslock]. *)
Variable ticks_addr : Z.
Variable tickslock_addr : Z.
(** memlayout.h and riscv.h are absent: the constants are parameters. *)
Variable UART0_IRQ VIRTIO0_IRQ : Z.
Variable SSTATUS_SPP SSTATUS_SIE : Z.
(** The address of [kernelvec] (kernelvec.S). *)
Variable kernelvec : Z.

Definition tickslock_ref : ref trap_state spinlock :=
  mkRef tickslock_addr tickslock (fun l s => mkTrap l (ticks s) (regs s) (t_ext s)).
Definition dev_part : ref trap_state U :=
  mkRef 0 t_ext (fun u s => mkTrap (tickslock s) (ticks s) (regs s) u).

Definition set_ticks (v : Z) : K trap_state unit :=
  modify (fun w => set_st (mkTrap (tickslock (st w)) v (regs (st w)) (t_ext (st w))) w).
Definition set_regs (f : csrs -> csrs) : K trap_state unit :=
  modify (fun w => set_st (mkTrap (tickslock (st w)) (ticks (st w)) (f (regs (st w)))
                             (t_ext (st w))) w).

(** Modelled from the spec: riscv.h is absent; the primitive register
    operations read and write one supervisor register. *)
Definition r_scause : K trap_state Z := gets (fun w => scause (regs (st w))).
Definition r_sepc : K trap_state Z := gets (fun w => sepc (regs (st w))).
Definition r_stval : K trap_state Z := gets (fun w => stval (regs (st w))).
Definition r_sip : K trap_state Z := gets (fun w => sip (regs (st w))).
Definition w_sepc (x : Z) : K trap_state unit :=
  set_regs (fun r => mkCsrs (scause r) x (sstatus r) (stval r) (sip r) (stvec r)).
Definition w_sip (x : Z) : K trap_state unit :=
  set_regs (fun r => mkCsrs (scause r) (sepc r) (sstatus r) (stval r) x (stvec r)).
Definition w_stvec (x : Z) : K trap_state unit :=
  set_regs (fun r => mkCsrs (scause r) (sepc r) (sstatus r) (stval r) (sip r) x).

(** The value of [sstatus] as the hart reads it. *)
Definition sstatus_of (w : world trap_state) : Z :=
  if sie (cpu w) then Z.lor (sstatus (regs (st w))) SSTATUS_SIE
  else Z.land (sstatus (regs (st w))) (Z.lnot SSTATUS_SIE).
Definition r_sstatus : K trap_state Z := gets sstatus_of.
Definition w_sstatus (x : Z) : K trap_state unit :=
  set_regs (fun r => mkCsrs (scause r) (sepc r) x (stval r) (sip r) (stvec r)) ;;
  modify (fun w => set_cpu (mkCpu (cpu_id (cpu w)) (noff (cpu w)) (intena (cpu w))
                              (truthy (Z.land x SSTATUS_SIE))) w).

(** Modelled from the spec: proc.c is absent; [cpuid()] is the number
    of this hart, and [myproc()] the process it runs, or 0 when it runs
    none. *)
Definition cpuid : K trap_state Z := gets (fun w => cpu_id (cpu w)).
Definition myproc0 : K trap_state (option proc_t) :=
  gets (fun w => List.find (fun p => p_pid p =? mypid w) (ptable w)).

(** The helpers outside the core: PLIC, device drivers, console and
    scheduler. *)
Variable plic_claim : K U Z.
Variable plic_complete : Z -> K U unit.
Variable uartintr : K U unit.
Variable virtio_disk_intr : K U unit.
Variable printf : string -> list Z -> K U unit.
Variable yield : K trap_state unit.

Local Abbreviation dev m := (zoom dev_part m).

Definition trapinit : K trap_state unit := initlock tickslock_ref.

(** set up to take exceptions and traps while in the kernel. *)
Definition trapinithart : K trap_state unit := w_stvec kernelvec.

Definition clockintr : K trap_state unit :=
  acquire tickslock_ref ;;
  t <- gets (fun w => ticks (st w)) ;;
  set_ticks (u32 (t + 1)) ;;
  wakeup ticks_addr ;;
  release tickslock_ref.

(** check if it's an external interrupt or software interrupt, and
    handle it. returns 2 if timer interrupt, 1 if other device, 0 if
    not recognized. *)
Definition devintr : K trap_state Z :=
  sc <- r_scause ;;
  if truthy (Z.land sc 0x8000000000000000) && (Z.land sc 0xff =? 9) then
    (* this is a supervisor external interrupt, via PLIC. *)
    irq <- dev plic_claim ;;
    (if irq =? UART0_IRQ then dev uartintr
     else if irq =? VIRTIO0_IRQ then dev virtio_disk_intr
     else if truthy irq then dev (printf "unexpected interrupt irq=%d\n" [irq])
     else ret tt) ;;
    (if truthy irq then dev (plic_complete irq) else ret tt) ;;
    ret 1
  else if sc =? 0x8000000000000001 then
    (* software interrupt from a machine-mode timer interrupt *)
    id <- cpuid ;;
    (if id =? 0 then clockintr else ret tt) ;;
    (* acknowledge the software interrupt by clearing the SSIP bit in sip. *)
    x <- r_sip ;;
    w_sip (Z.land x (u64 (Z.lnot 2))) ;;
    ret 2
  else ret 0.

(** interrupts and exceptions from kernel code go here via kernelvec,
    on whatever the current kernel stack is. *)
Definition kerneltrap : K trap_state unit :=
  epc <- r_sepc ;;
  status <- r_sstatus ;;
  sc <- r_scause ;;
  if Z.land status SSTATUS_SPP =? 0 then panic "kerneltrap: not from supervisor mode" else
  i <- intr_get ;;
  if negb (i =? 0) then panic "kerneltrap: interrupts enabled" else
  which_dev <- devintr ;;
  (if which_dev =? 0 then
     dev (printf "scause %p\n" [sc]) ;;
     e <- r_sepc ;; v <- r_stval ;;
     dev (printf "sepc=%p stval=%p\n" [e; v]) ;;
     panic "kerneltrap"
   else ret tt) ;;
  (* give up the CPU if this is a timer interrupt. *)
  p <- myproc0 ;;
  (if (which_dev =? 2) &&
      match p with
      | Some pr => match p_state pr with RUNNING => true | _ => false end
      | None => false
      end
   then yield else ret tt) ;;
  (* the yield() may have caused some traps to occur, so restore trap
     registers for use by kernelvec.S's sepc instruction. *)
  w_sepc epc ;;
  w_sstatus status.
End Trap.

(** * Properties *)

(** ** Machine integers *)

Lemma s32_id x : is_s32 x -> s32 x = x.
Proof.
  unfold is_s32, s32. intros H.
  rewrite Z.mod_small by lia. lia.
Qed.

Lemma u32_id x : is_u32 x -> u32 x = x.
Proof. unfold is_u32, u32. intros H. apply Z.mod_small. lia. Qed.

Lemma u64_id x : is_u64 x -> u64 x = x.
Proof. unfold is_u64, u64. intros H. apply Z.mod_small. lia. Qed.

Lemma s32_range x : is_s32 (s32 x).
Proof.
  unfold is_s32, s32.
  pose proof (Z.mod_pos_bound (x + 2 ^ 31) (2 ^ 32) ltac:(lia)). lia.
Qed.

Lemma u32_range x : is_u32 (u32 x).
Proof. unfold is_u32, u32. apply Z.mod_pos_bound. lia. Qed.

Lemma u32_s32 x : is_u32 x -> u32 (s32 x) = x.
Proof.
  unfold is_u32, u32, s32. intros H.
  rewrite Zminus_mod_idemp_l.
  replace (x + 2 ^ 31 - 2 ^ 31) with x by lia.
  apply Z.mod_small. lia.
Qed.

Lemma s32_u32 x : is_s32 x -> s32 (u32 x) = x.
Proof.
  unfold is_s32, u32, s32. intros H.
  rewrite Zplus_mod_idemp_l.
  rewrite Z.mod_small by lia. lia.
Qed.

Lemma truthy_true x : x <> 0 -> truthy x = true.
Proof. unfold truthy. intros H. apply Z.eqb_neq in H. now rewrite H. Qed.

Lemma truthy_false x : truthy x = false -> x = 0.
Proof. unfold truthy. intros H. apply negb_false_iff in H. lia. Qed.

(** ** The monad *)

Lemma bind_Ok {S A B} (m : K S A) (f : A -> K S B) w a w' :
  m w = Ok a w' -> bind m f w = f a w'.
Proof. unfold bind. now intros ->. Qed.

Lemma bind_Panic {S A B} (m : K S A) (f : A -> K S B) w msg w' :
  m w = Panic msg w' -> bind m f w = Panic msg w'.
Proof. unfold bind. now intros ->. Qed.

Lemma bind_Blocked {S A B} (m : K S A) (f : A -> K S B) w w' :
  m w = Blocked w' -> bind m f w = Blocked w'.
Proof. unfold bind. now intros ->. Qed.

Lemma bind_assoc {S A B C} (m : K S A) (f : A -> K S B) (g : B -> K S C) w :
  bind (bind m f) g w = bind m (fun a => bind (f a) g) w.
Proof. unfold bind. destruct (m w); reflexivity. Qed.

(** A pointer reads back what was stored through it. *)
Definition lawful {S T} (r : ref S T) : Prop :=
  (forall x s, view r (update r x s) = x) /\
  (forall x y s, update r x (update r y s) = update r x s).

Lemma inner_lawful {S} (lk : ref S sleeplock) : lawful lk -> lawful (inner lk).
Proof.
  intros [H1 H2]. split.
  - intros l s. unfold inner. cbn. now rewrite H1.
  - intros x y s. unfold inner. cbn. rewrite H1, H2. reflexivity.
Qed.

(** ** spinlock.c *)

(** The per-CPU state after [push_off] and after a [pop_off] that
    does not panic. *)
Definition pushed (c : cpu_t) : cpu_t :=
  mkCpu (cpu_id c) (s32 (noff c + 1)) (if noff c =? 0 then of_bool (sie c) else intena c) false.

Definition popped (c : cpu_t) : cpu_t :=
  mkCpu (cpu_id c) (s32 (noff c - 1)) (intena c)
    (if (s32 (noff c - 1) =? 0) && truthy (intena c) then true else sie c).

Lemma push_off_eq {S} (w : world S) : push_off w = Ok tt (set_cpu (pushed (cpu w)) w).
Proof.
  unfold push_off, bind, intr_get, intr_off, mycpu, set_intena, set_noff, gets, modify, ret, pushed.
  destruct w as [[id n ie s] pid pt x e]; cbn.
  destruct (n =? 0); reflexivity.
Qed.

Lemma pop_off_eq {S} (w : world S) :
  pop_off w =
    if sie (cpu w) then Panic "pop_off - interruptible" w
    else if noff (cpu w) <? 1 then Panic "pop_off" w
    else Ok tt (set_cpu (popped (cpu w)) w).
Proof.
  unfold pop_off, bind, intr_get, intr_on, mycpu, set_noff, gets, modify, ret, panic, popped.
  destruct w as [[id n ie s] pid pt x e]; cbn.
  destruct s; cbn; [reflexivity|].
  destruct (n <? 1); [reflexivity|]. cbn.
  destruct ((s32 (n - 1) =? 0) && truthy ie); reflexivity.
Qed.

(** Does this hart hold the lock? *)
Definition held_by (c : cpu_t) (l : spinlock) : bool :=
  truthy (locked l) && bool_decide (lk_cpu l = Some (cpu_id c)).

Lemma holding_eq {S} (lk : ref S spinlock) (w : world S) :
  holding lk w = Ok (of_bool (held_by (cpu w) (view lk (st w)))) w.
Proof. reflexivity. Qed.

Lemma truthy_of_bool b : truthy (of_bool b) = b.
Proof. now destruct b. Qed.

Lemma acquire_eq {S} (lk : ref S spinlock) (w : world S) :
  lawful lk ->
  acquire lk w =
    let w1 := set_cpu (pushed (cpu w)) w in
    let l := view lk (st w) in
    if held_by (cpu w) l then Panic "acquire" w1
    else if truthy (locked l)
         then Blocked (set_st (update lk (mkSpin 1 (lk_cpu l)) (st w)) w1)
         else Ok tt (set_st (update lk (mkSpin 1 (Some (cpu_id (cpu w)))) (st w)) w1).
Proof.
  intros [Hl Hpp]. unfold acquire.
  rewrite (bind_Ok _ _ _ _ _ (push_off_eq w)).
  unfold bind at 1. rewrite holding_eq. rewrite truthy_of_bool.
  destruct w as [c pid pt x e]; cbn.
  replace (held_by (pushed c) (view lk x)) with (held_by c (view lk x)) by reflexivity.
  destruct (held_by c (view lk x)); [reflexivity|].
  unfold test_and_set, bind, load, store, ret, mycpu, gets; cbn.
  destruct (truthy (locked (view lk x))); [reflexivity|].
  cbn. rewrite Hl, Hpp. reflexivity.
Qed.


Lemma release_eq {S} (lk : ref S spinlock) (w : world S) :
  lawful lk ->
  release lk w =
    if held_by (cpu w) (view lk (st w))
    then pop_off (set_st (update lk (mkSpin 0 None) (st w)) w)
    else Panic "release" w.
Proof.
  intros [Hl Hpp]. unfold release.
  unfold bind at 1. rewrite holding_eq, truthy_of_bool.
  destruct (held_by (cpu w) (view lk (st w))); [|reflexivity].
  unfold bind, load, store, ret; cbn.
  rewrite Hl, Hpp. reflexivity.
Qed.

(** *** The interrupt-disable discipline *)

(** [noff > 0] implies interrupts are off. *)
Definition cpu_inv (c : cpu_t) : Prop := noff c > 0 -> sie c = false.

Lemma pushed_inv c : cpu_inv (pushed c).
Proof. intros _. reflexivity. Qed.

Lemma popped_inv c : sie c = false -> cpu_inv (popped c).
Proof.
  intros Hs Hn. unfold popped in *. cbn in *.
  destruct (s32 (noff c - 1) =? 0) eqn:E; [apply Z.eqb_eq in E; lia|].
  cbn. exact Hs.
Qed.

Lemma push_off_inv {S} (w : world S) : cpu_inv (cpu (final_world (push_off w))).
Proof. rewrite push_off_eq. cbn. apply pushed_inv. Qed.

Lemma pop_off_inv {S} (w : world S) :
  cpu_inv (cpu w) -> cpu_inv (cpu (final_world (pop_off w))).
Proof.
  intros H. rewrite pop_off_eq.
  destruct (sie (cpu w)) eqn:Hs; [exact H|].
  destruct (noff (cpu w) <? 1); [exact H|].
  cbn. now apply popped_inv.
Qed.

Lemma acquire_inv {S} (lk : ref S spinlock) (w : world S) :
  lawful lk -> cpu_inv (cpu (final_world (acquire lk w))).
Proof.
  intros Hl. rewrite acquire_eq by assumption. cbn.
  destruct (held_by _ _); [apply pushed_inv|].
  destruct (truthy _); apply pushed_inv.
Qed.

Lemma release_inv {S} (lk : ref S spinlock) (w : world S) :
  lawful lk -> cpu_inv (cpu w) -> cpu_inv (cpu (final_world (release lk w))).
Proof.
  intros Hl H. rewrite release_eq by assumption.
  destruct (held_by _ _); [|exact H].
  apply pop_off_inv. exact H.
Qed.

Arguments push_off : simpl never.
Arguments pop_off : simpl never.
Arguments acquire : simpl never.
Arguments release : simpl never.
Arguments holding : simpl never.

(** Two spin locks side by side, for the nesting scenario. *)
Definition lock_A : ref (spinlock * spinlock) spinlock :=
  mkRef 0 fst (fun l s => (l, snd s)).
Definition lock_B : ref (spinlock * spinlock) spinlock :=
  mkRef 24 snd (fun l s => (fst s, l)).

Lemma pop_off_reenables {S} (w w' : world S) :
  pop_off w = Ok tt w' ->
  (sie (cpu w') = true <-> noff (cpu w') = 0 /\ intena (cpu w) <> 0).
Proof.
  rewrite pop_off_eq.
  destruct (sie (cpu w)) eqn:Hs; [discriminate|].
  destruct (noff (cpu w) <? 1); [discriminate|].
  intros [= <-]. cbn. rewrite Hs.
  destruct (s32 (noff (cpu w) - 1) =? 0) eqn:E; cbn.
  - apply Z.eqb_eq in E. unfold truthy.
    destruct (intena (cpu w) =? 0) eqn:E'; cbn.
    + apply Z.eqb_eq in E'. split; [discriminate|]. intros [_ H]. contradiction.
    + apply Z.eqb_neq in E'. split; auto.
  - apply Z.eqb_neq in E. split; [discriminate|]. intros [H _]. contradiction.
Qed.

Lemma spin_nesting (w : world (spinlock * spinlock)) :
  cpu_inv (cpu w) -> 0 <= noff (cpu w) -> sie (cpu w) = true ->
  locked (fst (st w)) = 0 -> locked (snd (st w)) = 0 ->
  exists w3 w4,
    (acquire lock_A ;; acquire lock_B ;; release lock_B) w = Ok tt w3 /\
    sie (cpu w3) = false /\ noff (cpu w3) = 1 /\
    release lock_A w3 = Ok tt w4 /\
    sie (cpu w4) = true /\ noff (cpu w4) = 0.
Proof.
  intros Hinv Hn Hs HA HB.
  assert (Hn0 : noff (cpu w) = 0).
  { destruct (Z.eq_dec (noff (cpu w)) 0) as [|Hne]; [assumption|].
    assert (noff (cpu w) > 0) as Hp by lia. apply Hinv in Hp. congruence. }
  destruct w as [[id n ie s] pid pt [[la ca] [lb cb]] e]. cbn in *. subst.
  assert (LA : lawful lock_A) by (split; intros; reflexivity).
  assert (LB : lawful lock_B) by (split; intros; reflexivity).
  eexists. eexists.
  unfold bind. rewrite acquire_eq by assumption. cbn.
  rewrite acquire_eq by assumption. cbn.
  unfold held_by; cbn.
  rewrite release_eq by assumption. cbn. unfold held_by; cbn.
  rewrite bool_decide_true by reflexivity. cbn.
  rewrite pop_off_eq. cbn.
  split; [reflexivity|]. cbn.
  split; [reflexivity|]. split; [reflexivity|].
  rewrite release_eq by assumption. cbn. unfold held_by; cbn.
  rewrite bool_decide_true by reflexivity. cbn.
  rewrite pop_off_eq. cbn.
  split; [reflexivity|]. cbn. split; reflexivity.
Qed.


(** A hart with interrupts enabled and two free locks. *)
Definition two_locks_world : world (spinlock * spinlock) :=
  mkWorld (mkCpu 0 0 0 true) 1 [] (mkSpin 0 None, mkSpin 0 None) [].


(** ** sleeplock.c *)

Arguments wakeup : simpl never.
Arguments sleep : simpl never.
Arguments releasesleep : simpl never.
Arguments acquiresleep : simpl never.
Arguments holdingsleep : simpl never.

(** The nesting depth is a non-negative [int] that can still grow. *)
Definition noff_ok (c : cpu_t) : Prop := 0 <= noff c < 2 ^ 31 - 1.

(** The per-CPU state after a matched [acquire] and [release]. *)
Definition settle (c : cpu_t) : cpu_t :=
  mkCpu (cpu_id c) (noff c) (if noff c =? 0 then of_bool (sie c) else intena c)
    (if noff c =? 0 then sie c else false).

Lemma pushed_popped c : noff_ok c -> popped (pushed c) = settle c.
Proof.
  intros [H1 H2]. unfold popped, pushed, settle. cbn.
  rewrite (s32_id (noff c + 1)) by (unfold is_s32; lia).
  replace (noff c + 1 - 1) with (noff c) by lia.
  rewrite (s32_id (noff c)) by (unfold is_s32; lia).
  destruct (noff c =? 0); cbn; [|reflexivity].
  destruct (sie c); reflexivity.
Qed.

Lemma settle_settle c : settle (settle c) = settle c.
Proof.
  unfold settle. cbn. destruct (noff c =? 0); [|reflexivity].
  destruct (sie c); reflexivity.
Qed.

Lemma settle_noff_ok c : noff_ok c -> noff_ok (settle c).
Proof. exact (fun H => H). Qed.

Lemma settle_inv c : noff_ok c -> cpu_inv (settle c).
Proof.
  intros [H _] Hn. unfold settle in *. cbn in *.
  destruct (noff c =? 0) eqn:E; [apply Z.eqb_eq in E; lia|reflexivity].
Qed.

(** A critical section: what [acquire(lk); body; release(lk)] amounts
    to when the lock is free and the body leaves the lock and the hart
    alone. *)
Lemma acquire_free {S} (lk : ref S spinlock) (w : world S) :
  lawful lk -> locked (view lk (st w)) = 0 ->
  acquire lk w =
    Ok tt (mkWorld (pushed (cpu w)) (mypid w) (ptable w)
             (update lk (mkSpin 1 (Some (cpu_id (cpu w)))) (st w)) (env w)).
Proof.
  intros Hl H0. rewrite acquire_eq by assumption. cbn.
  unfold held_by. rewrite H0. reflexivity.
Qed.

Lemma release_pushed {S} (lk : ref S spinlock) c0 pid pt s e :
  lawful lk -> noff_ok c0 ->
  view lk s = mkSpin 1 (Some (cpu_id c0)) ->
  release lk (mkWorld (pushed c0) pid pt s e) =
    Ok tt (mkWorld (settle c0) pid pt (update lk (mkSpin 0 None) s) e).
Proof.
  intros Hl Hn Hv. rewrite release_eq by assumption. cbn.
  unfold held_by. rewrite Hv. cbn.
  rewrite bool_decide_true by reflexivity. cbn.
  rewrite pop_off_eq. cbn.
  destruct Hn as [Hn1 Hn2].
  rewrite (s32_id (noff c0 + 1)) by (unfold is_s32; lia).
  destruct (noff c0 + 1 <? 1) eqn:E; [apply Z.ltb_lt in E; lia|].
  rewrite pushed_popped by (split; assumption). reflexivity.
Qed.

Section SleeplockSpecs.
Context {S : Type} (lk : ref S sleeplock).
Hypothesis Hlaw : lawful lk.

Lemma releasesleep_eq (w : world S) :
  locked (sl_lk (view lk (st w))) = 0 ->
  noff_ok (cpu w) ->
  releasesleep lk w =
    Ok tt (mkWorld (settle (cpu w)) (mypid w) (map (wake (addr lk)) (ptable w))
             (update lk (mkSleep 0 (mkSpin 0 None) 0) (st w)) (env w)).
Proof.
  intros Hfree Hn.
  pose proof (inner_lawful lk Hlaw) as Hin. destruct Hlaw as [Hgp Hpp].
  unfold releasesleep.
  unfold bind at 1. rewrite acquire_free by assumption.
  unfold bind at 1, set_sl_locked at 1, bind, load, store. cbn.
  unfold set_sl_pid, bind, load, store. cbn.
  unfold wakeup, modify. cbn.
  rewrite release_pushed; try assumption.
  - cbn. rewrite !Hgp, !Hpp. cbn. reflexivity.
  - cbn. rewrite !Hgp. reflexivity.
Qed.

Lemma holdingsleep_eq (w : world S) :
  locked (sl_lk (view lk (st w))) = 0 ->
  noff_ok (cpu w) ->
  holdingsleep lk w =
    Ok (of_bool (truthy (sl_locked (view lk (st w))) && (sl_pid (view lk (st w)) =? mypid w)))
      (mkWorld (settle (cpu w)) (mypid w) (ptable w)
         (update lk (mkSleep (sl_locked (view lk (st w))) (mkSpin 0 None) (sl_pid (view lk (st w))))
            (st w)) (env w)).
Proof.
  intros Hfree Hn.
  pose proof (inner_lawful lk Hlaw) as Hin. destruct Hlaw as [Hgp Hpp].
  unfold holdingsleep.
  unfold bind at 1. rewrite acquire_free by assumption.
  unfold bind, load, gets, ret. cbn.
  rewrite release_pushed; try assumption.
  - cbn. rewrite !Hgp, !Hpp. cbn. reflexivity.
  - cbn. rewrite !Hgp. reflexivity.
Qed.

Lemma acquiresleep_free (w : world S) :
  locked (sl_lk (view lk (st w))) = 0 ->
  sl_locked (view lk (st w)) = 0 ->
  noff_ok (cpu w) ->
  acquiresleep lk w =
    Ok tt (mkWorld (settle (cpu w)) (mypid w) (ptable w)
             (update lk (mkSleep 1 (mkSpin 0 None) (mypid w)) (st w)) (env w)).
Proof.
  intros Hfree H0 Hn.
  pose proof (inner_lawful lk Hlaw) as Hin. destruct Hlaw as [Hgp Hpp].
  unfold acquiresleep.
  unfold bind at 1. rewrite acquire_free by assumption.
  unfold bind at 1, gets at 1. cbn.
  unfold bind at 1.
  replace (acquiresleep_wait _ lk _) with
    (Ok tt (mkWorld (pushed (cpu w)) (mypid w) (ptable w)
             (update lk (mkSleep 0 (mkSpin 1 (Some (cpu_id (cpu w)))) (sl_pid (view lk (st w)))) (st w))
             (env w)) : result S unit).
  2:{ destruct (length (env w)); cbn; unfold bind, load; cbn; rewrite !Hgp; cbn;
      rewrite H0; reflexivity. }
  unfold set_sl_locked, set_sl_pid, bind, load, store, gets. cbn.
  rewrite release_pushed; try assumption.
  - cbn. rewrite !Hgp, !Hpp. cbn. reflexivity.
  - cbn. rewrite !Hgp. reflexivity.
Qed.
End SleeplockSpecs.

(** ** bio.c: buffers as objects of the state *)

Lemma NBUF_put_buf b x s : NBUF_of (put_buf b x s) = NBUF_of s.
Proof.
  unfold put_buf, NBUF_of. destruct (b <? _)%nat; cbn; [|reflexivity].
  apply length_insert.
Qed.

Lemma get_put_buf b x s : get_buf b (put_buf b x s) = x.
Proof.
  unfold put_buf, get_buf, NBUF_of.
  destruct (b <? _)%nat eqn:E; cbn.
  - apply Nat.ltb_lt in E.
    rewrite nth_lookup. rewrite list_lookup_insert_eq by assumption. reflexivity.
  - apply Nat.ltb_ge in E. apply nth_overflow. assumption.
Qed.

Lemma get_put_buf_ne b b' x s :
  b <> b' -> (b < NBUF_of s \/ b' < NBUF_of s)%nat ->
  get_buf b' (put_buf b x s) = get_buf b' s.
Proof.
  intros Hne Hr. unfold put_buf, get_buf, NBUF_of in *.
  destruct (b <? _)%nat eqn:E; cbn.
  - rewrite !nth_lookup. rewrite list_lookup_insert_ne by assumption. reflexivity.
  - apply Nat.ltb_ge in E.
    destruct Hr as [Hr|Hr]; [lia|].
    apply nth_indep. assumption.
Qed.

Lemma put_put_buf b x y s : put_buf b x (put_buf b y s) = put_buf b x s.
Proof.
  unfold put_buf at 1. rewrite NBUF_put_buf.
  unfold put_buf, NBUF_of.
  destruct (b <? _)%nat eqn:E; cbn; [|reflexivity].
  rewrite list_insert_insert_eq. reflexivity.
Qed.

Lemma buf_lock_lawful ba b : lawful (buf_lock ba b).
Proof.
  split.
  - intros l s. cbn. rewrite get_put_buf. reflexivity.
  - intros x y s. cbn. rewrite get_put_buf, put_put_buf. reflexivity.
Qed.

Lemma bcache_lock_lawful : lawful bcache_lock.
Proof. split; intros; reflexivity. Qed.

Lemma log_lock_lawful : lawful log_lock.
Proof. split; intros; reflexivity. Qed.

(** *** Releasing a sleep lock one does not hold *)

Lemma wake_parked ch (t : list proc_t) i p :
  t !! i = Some p -> p_state p = SLEEPING -> p_chan p = ch ->
  exists p', map (wake ch) t !! i = Some p' /\ p_state p' = RUNNABLE /\ p_pid p' = p_pid p.
Proof.
  intros Hi Hs Hc. exists (wake ch p). split.
  - change (map (wake ch) t) with (wake ch <$> t).
    rewrite list_lookup_fmap, Hi. reflexivity.
  - unfold wake. rewrite Hs, Hc, Z.eqb_refl. cbn. split; reflexivity.
Qed.

Lemma release_not_held {S} (lk : ref S spinlock) (w : world S) :
  lawful lk -> held_by (cpu w) (view lk (st w)) = false ->
  release lk w = Panic "release" w.
Proof. intros Hl H. rewrite release_eq by assumption. now rewrite H. Qed.

(** Does the current process hold the sleep lock? *)
Definition holds_sleep {S} (w : world S) (l : sleeplock) : bool :=
  truthy (sl_locked l) && (sl_pid l =? mypid w).

Lemma bwrite_not_held ba b (w : world fs) :
  locked (sl_lk (lock (get_buf b (st w)))) = 0 -> noff_ok (cpu w) ->
  holds_sleep w (lock (get_buf b (st w))) = false ->
  exists w', bwrite ba b w = Panic "bwrite" w' /\ writes (st w') = writes (st w).
Proof.
  intros Hf Hn Hh. unfold bwrite.
  unfold bind. rewrite (holdingsleep_eq _ (buf_lock_lawful ba b)) by assumption.
  cbn. unfold holds_sleep in Hh. rewrite Hh. cbn.
  eexists. split; [reflexivity|]. cbn.
  unfold put_buf. destruct (_ <? _)%nat; reflexivity.
Qed.

Lemma brelse_not_held ba b (w : world fs) :
  locked (sl_lk (lock (get_buf b (st w)))) = 0 -> noff_ok (cpu w) ->
  holds_sleep w (lock (get_buf b (st w))) = false ->
  exists w', brelse ba b w = Panic "brelse" w' /\
             refcnt (get_buf b (st w')) = refcnt (get_buf b (st w)).
Proof.
  intros Hf Hn Hh. unfold brelse.
  unfold bind. rewrite (holdingsleep_eq _ (buf_lock_lawful ba b)) by assumption.
  cbn. unfold holds_sleep in Hh. rewrite Hh. cbn.
  eexists. split; [reflexivity|]. cbn.
  rewrite get_put_buf. reflexivity.
Qed.

(** C10: [releasesleep(l)] never checks that the caller holds [l]:
    whatever the state of the lock word and the recorded holder, and
    whoever calls, it returns, with [locked] and [pid] cleared and
    every process parked on [l] made runnable; whereas [release] of a
    spin lock this hart does not hold, and [bwrite] and [brelse] of a
    buffer whose sleep lock the caller does not hold, are fatal. *)
Theorem releasesleep_unchecked :
  (forall S (lk : ref S sleeplock) (w : world S),
      lawful lk ->
      locked (sl_lk (view lk (st w))) = 0 -> noff_ok (cpu w) ->
      exists w',
        releasesleep lk w = Ok tt w' /\
        sl_locked (view lk (st w')) = 0 /\ sl_pid (view lk (st w')) = 0 /\
        ptable w' = map (wake (addr lk)) (ptable w) /\
        (forall i p, ptable w !! i = Some p -> p_state p = SLEEPING -> p_chan p = addr lk ->
           exists p', ptable w' !! i = Some p' /\ p_state p' = RUNNABLE /\ p_pid p' = p_pid p)) /\
  (forall S (lk : ref S spinlock) (w : world S),
      lawful lk -> held_by (cpu w) (view lk (st w)) = false ->
      release lk w = Panic "release" w) /\
  (forall ba b (w : world fs),
      locked (sl_lk (lock (get_buf b (st w)))) = 0 -> noff_ok (cpu w) ->
      holds_sleep w (lock (get_buf b (st w))) = false ->
      (exists w', bwrite ba b w = Panic "bwrite" w' /\ writes (st w') = writes (st w)) /\
      (exists w', brelse ba b w = Panic "brelse" w' /\
                  refcnt (get_buf b (st w')) = refcnt (get_buf b (st w)))).
Proof.
  split; [|split].
  - intros S lk w Hl Hf Hn.
    eexists. split; [apply releasesleep_eq; assumption|]. cbn.
    destruct Hl as [Hgp _]. rewrite Hgp. cbn.
    repeat split; try reflexivity.
    intros i p. apply wake_parked.
  - intros S lk w. apply release_not_held.
  - intros ba b w Hf Hn Hh. split.
    + now apply bwrite_not_held.
    + now apply brelse_not_held.
Qed.

(** A sleep lock held by process 7, with process 9 parked on it, and
    process 1 (which does not hold it) calling. *)
Definition self_ref (a : Z) : ref sleeplock sleeplock := mkRef a (fun s => s) (fun x _ => x).

Definition foreign_lock_world : world sleeplock :=
  mkWorld (mkCpu 0 0 0 true) 1 [mkProc 1 RUNNING 0; mkProc 7 RUNNABLE 0; mkProc 9 SLEEPING 4096]
    (mkSleep 1 (mkSpin 0 None) 7) [].

Lemma releasesleep_unchecked_witness :
  exists w',
    releasesleep (self_ref 4096) foreign_lock_world = Ok tt w' /\
    sl_locked (st w') = 0 /\ sl_pid (st w') = 0 /\
    ptable w' = [mkProc 1 RUNNING 0; mkProc 7 RUNNABLE 0; mkProc 9 RUNNABLE 4096].
Proof.
  destruct (proj1 releasesleep_unchecked sleeplock (self_ref 4096) foreign_lock_world)
    as (w' & H1 & H2 & H3 & H4 & _).
  - split; intros; reflexivity.
  - reflexivity.
  - unfold noff_ok. cbn. lia.
  - exists w'. repeat split; assumption.
Defined.

(** ** Arrays *)

Lemma nth_insert_same {A} (l : list A) i x d :
  (i < length l)%nat -> nth i (<[i := x]> l) d = x.
Proof. intros H. rewrite nth_lookup, list_lookup_insert_eq by assumption. reflexivity. Qed.

Lemma nth_insert_other {A} (l : list A) i j x d :
  i <> j -> nth j (<[i := x]> l) d = nth j l d.
Proof. intros H. rewrite !nth_lookup, list_lookup_insert_ne by assumption. reflexivity. Qed.

Arguments zoom : simpl never.

(** ** log.c: admission of operations *)

Arguments begin_op : simpl never.

Section BeginOp.
Variable log_addr LOGSIZE MAXOPBLOCKS : Z.

(** The condition under which [begin_op] waits, as the specification
    words it. *)
Definition must_wait (l : log_t) : bool :=
  truthy (committing l) || (lh_n (lh l) + (outstanding l + 1) * MAXOPBLOCKS >? LOGSIZE).

(** The reservation arithmetic stays within [int]. *)
Definition reserve_ok (l : log_t) : Prop :=
  is_s32 (outstanding l + 1) /\
  is_s32 ((outstanding l + 1) * MAXOPBLOCKS) /\
  is_s32 (lh_n (lh l) + (outstanding l + 1) * MAXOPBLOCKS).

Definition unlocked (l : log_t) : log_t :=
  mkLog (mkSpin 0 None) (lg_start l) (lg_size l) (outstanding l) (committing l) (lg_dev l) (lh l).

(** The process table while, and after, the caller is parked. *)
Definition parked_on (ch : Z) {S} (w : world S) : list proc_t :=
  map (set_proc (mypid w) SLEEPING ch) (ptable w).
Definition woken_from (ch : Z) {S} (w : world S) : list proc_t :=
  map (set_proc (mypid w) RUNNING 0) (parked_on ch w).

Lemma begin_op_loop_admit fuel c0 pid pt s e :
  noff_ok c0 ->
  lg_lock (log s) = mkSpin 1 (Some (cpu_id c0)) ->
  reserve_ok (log s) ->
  must_wait (log s) = false ->
  begin_op_loop log_addr LOGSIZE MAXOPBLOCKS fuel (mkWorld (pushed c0) pid pt s e) =
    Ok tt (mkWorld (settle c0) pid pt
             (set_log (unlocked (set_outstanding (outstanding (log s) + 1) (log s))) s) e).
Proof.
  intros Hn Hl (R1 & R2 & R3) Hw.
  unfold must_wait in Hw. apply orb_false_iff in Hw. destruct Hw as [Hc Hs].
  destruct fuel; cbn; unfold bind at 1, the_log, gets; cbn; rewrite Hc;
    rewrite (s32_id _ R1), (s32_id _ R2), (s32_id _ R3), Hs;
    unfold bind, wr_log, modify; cbn;
    (rewrite release_pushed; [reflexivity|apply log_lock_lawful|assumption|cbn; assumption]).
Qed.

Lemma begin_op_admit (w : world fs) :
  noff_ok (cpu w) ->
  locked (lg_lock (log (st w))) = 0 ->
  reserve_ok (log (st w)) ->
  must_wait (log (st w)) = false ->
  begin_op log_addr LOGSIZE MAXOPBLOCKS w =
    Ok tt (mkWorld (settle (cpu w)) (mypid w) (ptable w)
             (set_log (unlocked (set_outstanding (outstanding (log (st w)) + 1) (log (st w)))) (st w))
             (env w)).
Proof.
  intros Hn Hf Hr Hw. unfold begin_op.
  unfold bind at 1. rewrite acquire_free by (try apply log_lock_lawful; assumption).
  unfold bind at 1, gets at 1. cbn.
  rewrite begin_op_loop_admit; try assumption; reflexivity.
Qed.

Lemma sleep_pushed {S} (lk : ref S spinlock) ch c0 pid pt s e :
  lawful lk -> noff_ok c0 ->
  view lk s = mkSpin 1 (Some (cpu_id c0)) ->
  sleep ch lk (mkWorld (pushed c0) pid pt s e) =
    let w1 := mkWorld (settle c0) pid pt (update lk (mkSpin 0 None) s) e in
    match e with
    | [] => Blocked (set_ptable (parked_on ch w1) w1)
    | f :: rest =>
        acquire lk (mkWorld (settle c0) pid (woken_from ch w1) (f (update lk (mkSpin 0 None) s)) rest)
    end.
Proof.
  intros Hl Hn Hv. unfold sleep.
  unfold bind at 1. rewrite release_pushed by assumption.
  unfold bind, park. cbn. destruct e; reflexivity.
Qed.

Lemma acquire_env {S} (lk : ref S spinlock) (w w' : world S) a :
  lawful lk -> acquire lk w = Ok a w' -> env w' = env w.
Proof.
  intros Hl. rewrite acquire_eq by assumption. cbv zeta.
  destruct (held_by _ _); [discriminate|].
  destruct (truthy _); [discriminate|].
  intros [= _ <-]. reflexivity.
Qed.

Lemma begin_op_resume (f : fs -> fs) c pid pt s rest :
  bind (acquire log_lock) (fun _ => begin_op_loop log_addr LOGSIZE MAXOPBLOCKS (length rest))
    (mkWorld c pid pt (f s) rest) =
  begin_op log_addr LOGSIZE MAXOPBLOCKS (mkWorld c pid pt (f s) rest).
Proof.
  unfold begin_op, bind, gets.
  destruct (acquire log_lock _) as [a w'|m w'|w'] eqn:E; try reflexivity.
  apply acquire_env in E; [|apply log_lock_lawful]. cbn [env] in E. rewrite E. reflexivity.
Qed.

Lemma begin_op_loop_wait c0 pid pt s e :
  noff_ok c0 ->
  lg_lock (log s) = mkSpin 1 (Some (cpu_id c0)) ->
  reserve_ok (log s) ->
  must_wait (log s) = true ->
  begin_op_loop log_addr LOGSIZE MAXOPBLOCKS (length e) (mkWorld (pushed c0) pid pt s e) =
    let w1 := mkWorld (settle c0) pid pt (set_log (unlocked (log s)) s) e in
    match e with
    | [] => Blocked (set_ptable (parked_on log_addr w1) w1)
    | f :: rest =>
        begin_op log_addr LOGSIZE MAXOPBLOCKS
          (mkWorld (settle c0) pid (woken_from log_addr w1) (f (set_log (unlocked (log s)) s)) rest)
    end.
Proof.
  intros Hn Hl (R1 & R2 & R3) Hw.
  assert (Hsl := sleep_pushed log_lock log_addr c0 pid pt s e log_lock_lawful Hn Hl).
  change (update log_lock (mkSpin 0 None) s) with (set_log (unlocked (log s)) s) in Hsl.
  cbv zeta in *.
  assert (Hstep : forall k : K fs unit,
             bind (sleep log_addr log_lock) (fun _ => k) (mkWorld (pushed c0) pid pt s e) =
             match e with
             | [] => Blocked (set_ptable
                        (parked_on log_addr (mkWorld (settle c0) pid pt (set_log (unlocked (log s)) s) e))
                        (mkWorld (settle c0) pid pt (set_log (unlocked (log s)) s) e))
             | f :: rest =>
                 bind (acquire log_lock) (fun _ => k)
                   (mkWorld (settle c0) pid
                      (woken_from log_addr (mkWorld (settle c0) pid pt (set_log (unlocked (log s)) s) e))
                      (f (set_log (unlocked (log s)) s)) rest)
             end).
  { intros k. unfold bind at 1. rewrite Hsl. destruct e; reflexivity. }
  unfold must_wait in Hw.
  destruct e as [|f rest]; cbn [length begin_op_loop];
    unfold bind at 1, the_log, gets; cbn [st];
    rewrite (s32_id _ R1), (s32_id _ R2), (s32_id _ R3);
    destruct (truthy (committing (log s))); cbn [orb] in Hw; try rewrite Hw;
    rewrite Hstep; try reflexivity; apply begin_op_resume.
Qed.

Lemma begin_op_wait (w : world fs) :
  noff_ok (cpu w) ->
  locked (lg_lock (log (st w))) = 0 ->
  reserve_ok (log (st w)) ->
  must_wait (log (st w)) = true ->
  begin_op log_addr LOGSIZE MAXOPBLOCKS w =
    let w1 := mkWorld (settle (cpu w)) (mypid w) (ptable w)
                (set_log (unlocked (log (st w))) (st w)) (env w) in
    match env w with
    | [] => Blocked (set_ptable (parked_on log_addr w1) w1)
    | f :: rest =>
        begin_op log_addr LOGSIZE MAXOPBLOCKS
          (mkWorld (settle (cpu w)) (mypid w) (woken_from log_addr w1)
             (f (set_log (unlocked (log (st w))) (st w))) rest)
    end.
Proof.
  intros Hn Hf Hr Hw. unfold begin_op at 1.
  unfold bind at 1. rewrite acquire_free by (try apply log_lock_lawful; assumption).
  unfold bind at 1, gets at 1. cbn [env].
  rewrite begin_op_loop_wait; try assumption; try reflexivity.
Qed.
End BeginOp.

(** C5: [begin_op] waits exactly while the log is committing or while
    one more operation could overflow the log, that is while
    [committing] is set or [n + (outstanding + 1) * MAXOPBLOCKS >
    LOGSIZE]: when neither holds it returns with [outstanding] one
    higher and nothing else of the log, the cache or the disk changed;
    when one holds it sleeps on the log, and once woken (by the next
    step of the schedule) it starts over on the state it finds; with
    nobody to wake it, it stays parked. *)
Theorem begin_op_waits_exactly_while (log_addr LOGSIZE MAXOPBLOCKS : Z) (w : world fs) :
  noff_ok (cpu w) ->
  locked (lg_lock (log (st w))) = 0 ->
  reserve_ok MAXOPBLOCKS (log (st w)) ->
  (must_wait LOGSIZE MAXOPBLOCKS (log (st w)) = false ->
   begin_op log_addr LOGSIZE MAXOPBLOCKS w =
     Ok tt (mkWorld (settle (cpu w)) (mypid w) (ptable w)
              (set_log (unlocked (set_outstanding (outstanding (log (st w)) + 1) (log (st w))))
                 (st w))
              (env w))) /\
  (must_wait LOGSIZE MAXOPBLOCKS (log (st w)) = true ->
   begin_op log_addr LOGSIZE MAXOPBLOCKS w =
     let w1 := mkWorld (settle (cpu w)) (mypid w) (ptable w)
                 (set_log (unlocked (log (st w))) (st w)) (env w) in
     match env w with
     | [] => Blocked (set_ptable (parked_on log_addr w1) w1)
     | f :: rest =>
         begin_op log_addr LOGSIZE MAXOPBLOCKS
           (mkWorld (settle (cpu w)) (mypid w) (woken_from log_addr w1)
              (f (set_log (unlocked (log (st w))) (st w))) rest)
     end).
Proof.
  intros Hn Hf Hr. split; intros Hw.
  - now apply begin_op_admit.
  - now apply begin_op_wait.
Qed.

(** A small file system for examples: [n] buffers of [bs] bytes, not
    yet linked, a log of [size] blocks at block [start] of device 1
    with room for [slots] block numbers, and an all-zero disk. *)
Definition blank_buf (bs : nat) : buf :=
  mkBuf 0 0 0 0 (mkSleep 0 (mkSpin 0 None) 0) 0 0%nat 0%nat (repeat 0 bs).

Definition blank_fs (n bs : nat) (start size : Z) (slots : nat) : fs :=
  mkFs (mkBcache (mkSpin 0 None) (repeat (blank_buf bs) n) (blank_buf bs))
    (mkLog (mkSpin 0 None) start size 0 0 1 (mkLh 0 (repeat 0 slots)))
    (fun _ => repeat 0 bs) [].

Definition boot_cpu : cpu_t := mkCpu 0 0 0 true.

(** Two operations are open; a third is let in (with LOGSIZE = 30
    and MAXOPBLOCKS = 10). *)
Definition two_ops_world : world fs :=
  mkWorld boot_cpu 1 []
    (set_log (set_outstanding 2 (log (blank_fs 3 64 2 31 30))) (blank_fs 3 64 2 31 30)) [].

Lemma begin_op_waits_exactly_while_witness :
  exists w', begin_op 0 30 10 two_ops_world = Ok tt w' /\ outstanding (log (st w')) = 3.
Proof.
  eexists. split.
  - apply (proj1 (begin_op_waits_exactly_while 0 30 10 two_ops_world
                    ltac:(unfold noff_ok; cbn; lia) eq_refl
                    ltac:(unfold reserve_ok, is_s32; cbn; lia))).
    reflexivity.
  - reflexivity.
Defined.

(** ** log.c: log absorption *)

Arguments bpin : simpl never.
Arguments bunpin : simpl never.
Arguments log_write : simpl never.

Lemma pushed_noff c : noff_ok c -> noff (pushed c) = noff c + 1.
Proof. intros [H1 H2]. cbn. apply s32_id. unfold is_s32. lia. Qed.

Lemma settle_pushed c : noff_ok c -> settle (pushed c) = pushed c.
Proof.
  intros H. pose proof (pushed_noff c H) as Hp. destruct H as [H1 H2].
  unfold settle. rewrite Hp.
  destruct (noff c + 1 =? 0) eqn:E; [apply Z.eqb_eq in E; lia|].
  unfold pushed in *. cbn in *. rewrite Hp. reflexivity.
Qed.

Ltac case_put_buf :=
  unfold put_buf, NBUF_of; cbn -[Nat.ltb];
  repeat match goal with
         | |- context [if (?a <? ?b)%nat then _ else _] => destruct (a <? b)%nat eqn:?
         end.

(** [bpin] and [bunpin] change the reference count of one buffer. *)
Definition with_refcnt (f : Z -> Z) (b : nat) (s : fs) : fs :=
  put_buf b (set_refcnt (u32 (f (refcnt (get_buf b s)))) (get_buf b s))
    (update bcache_lock (mkSpin 0 None) s).

Lemma refcnt_critical (f : Z -> Z) b (w : world fs) :
  noff_ok (cpu w) -> locked (bc_lock (bcache (st w))) = 0 ->
  (acquire bcache_lock ;;
   c <- rd b refcnt ;;
   wr b (set_refcnt (u32 (f c))) ;;
   release bcache_lock) w =
  Ok tt (mkWorld (settle (cpu w)) (mypid w) (ptable w) (with_refcnt f b (st w)) (env w)).
Proof.
  intros Hn Hf.
  unfold bind at 1. rewrite acquire_free by (try apply bcache_lock_lawful; assumption).
  unfold bind, rd, wr, gets, modify. cbn [st set_st cpu mypid ptable env].
  rewrite release_pushed; try assumption; try apply bcache_lock_lawful.
  - f_equal. f_equal. unfold with_refcnt, get_buf, NBUF_of. cbn.
    case_put_buf; reflexivity.
  - cbn. case_put_buf; reflexivity.
Qed.

Lemma bpin_eq b (w : world fs) :
  noff_ok (cpu w) -> locked (bc_lock (bcache (st w))) = 0 ->
  bpin b w = Ok tt (mkWorld (settle (cpu w)) (mypid w) (ptable w)
                      (with_refcnt (fun c => c + 1) b (st w)) (env w)).
Proof. apply (refcnt_critical (fun c => c + 1)). Qed.

Lemma bunpin_eq b (w : world fs) :
  noff_ok (cpu w) -> locked (bc_lock (bcache (st w))) = 0 ->
  bunpin b w = Ok tt (mkWorld (settle (cpu w)) (mypid w) (ptable w)
                        (with_refcnt (fun c => c - 1) b (st w)) (env w)).
Proof. apply (refcnt_critical (fun c => c - 1)). Qed.

Lemma log_with_refcnt f b s : log (with_refcnt f b s) = log s.
Proof. unfold with_refcnt. case_put_buf; reflexivity. Qed.

Lemma get_with_refcnt f b s :
  get_buf b (with_refcnt f b s) = set_refcnt (u32 (f (refcnt (get_buf b s)))) (get_buf b s).
Proof. unfold with_refcnt. apply get_put_buf. Qed.

(** The scan of [log_write] for the block number. *)
Lemma log_write_find_spec bno fuel i0 (w : world fs) :
  let l := log (st w) in
  0 <= i0 <= lh_n (lh l) -> lh_n (lh l) < 2 ^ 31 ->
  (Z.to_nat (lh_n (lh l) - i0) <= fuel)%nat ->
  exists i,
    log_write_find fuel bno i0 w = Ok i w /\
    i0 <= i <= lh_n (lh l) /\
    (i < lh_n (lh l) -> u32 (block_at l i) = bno) /\
    (forall j, i0 <= j < i -> u32 (block_at l j) <> bno).
Proof.
  cbv zeta. revert i0. induction fuel as [|fuel IH]; intros i0 Hi Hn Hfuel.
  - assert (i0 = lh_n (lh (log (st w)))) as -> by lia.
    exists (lh_n (lh (log (st w)))). cbn [log_write_find].
    unfold bind, the_log, gets, ret. cbn [st].
    rewrite Z.ltb_irrefl. repeat split; try lia; try reflexivity.
  - cbn [log_write_find]. unfold bind at 1, the_log, gets. cbn [st].
    destruct (i0 <? lh_n (lh (log (st w)))) eqn:E.
    + apply Z.ltb_lt in E.
      destruct (u32 (block_at (log (st w)) i0) =? bno) eqn:E1.
      * apply Z.eqb_eq in E1. exists i0. repeat split; try lia; auto.
      * apply Z.eqb_neq in E1.
        rewrite (s32_id (i0 + 1)) by (unfold is_s32; lia).
        destruct (IH (i0 + 1)) as (i & H1 & H2 & H3 & H4); try lia.
        exists i. repeat split; try lia; auto.
        intros j Hj. destruct (Z.eq_dec j i0) as [->|]; [assumption|]. apply H4. lia.
    + apply Z.ltb_ge in E. exists i0. repeat split; try lia; try reflexivity.
Qed.

Section LogWrite.
Variable LOGSIZE : Z.

(** The header in memory: [n] counts slots of the array [block], whose
    entries are C ints. *)
Definition log_shape_ok (l : log_t) : Prop :=
  0 <= lh_n (lh l) <= LOGSIZE /\
  LOGSIZE <= Z.of_nat (length (lh_block (lh l))) /\ LOGSIZE < 2 ^ 31 /\
  Forall is_s32 (lh_block (lh l)).

(** [log_write(b)] is not fatal: the log has room and an operation is open. *)
Definition has_room (l : log_t) : Prop :=
  lh_n (lh l) < LOGSIZE /\ lh_n (lh l) < s32 (lg_size l - 1) /\ 1 <= outstanding l.

(** The log and the cache are quiescent around the call. *)
Definition log_call_ok (w : world fs) : Prop :=
  noff_ok (cpu w) /\ noff_ok (pushed (cpu w)) /\
  locked (lg_lock (log (st w))) = 0 /\ locked (bc_lock (bcache (st w))) = 0.

Lemma log_write_run b (w : world fs) :
  log_call_ok w -> log_shape_ok (log (st w)) -> has_room (log (st w)) ->
  let l := log (st w) in
  let bno := blockno (get_buf b (st w)) in
  exists i,
    0 <= i <= lh_n (lh l) /\
    (i < lh_n (lh l) -> u32 (block_at l i) = bno) /\
    (forall j, 0 <= j < i -> u32 (block_at l j) <> bno) /\
    log_write LOGSIZE b w =
      Ok tt (mkWorld (settle (cpu w)) (mypid w) (ptable w)
               (if i =? lh_n (lh l)
                then set_log (unlocked (set_lh_n (lh_n (lh l) + 1) (set_lh_block i (s32 bno) l)))
                       (with_refcnt (fun c => c + 1) b (st w))
                else set_log (unlocked (set_lh_block i (s32 bno) l)) (st w))
               (env w)).
Proof.
  intros (Hn & Hn' & Hf & Hbf) (Hr0 & Hr4 & Hr5 & _) (Hr1 & Hr2 & Hr3). cbv zeta.
  destruct (log_write_find_spec (blockno (get_buf b (st w))) (Z.to_nat (lh_n (lh (log (st w))))) 0
              (mkWorld (pushed (cpu w)) (mypid w) (ptable w)
                 (update log_lock (mkSpin 1 (Some (cpu_id (cpu w)))) (st w)) (env w)))
    as (i & Hfind & Hi & Hhit & Hmiss); cbn [st update log_lock log set_log lh lh_n]; try lia.
  exists i. cbn [st update log_lock log set_log lh lh_n] in *.
  split; [lia|]. split; [exact Hhit|]. split; [exact Hmiss|].
  unfold log_write.
  unfold bind at 1. rewrite acquire_free by (try apply log_lock_lawful; assumption).
  unfold bind at 1, the_log at 1, gets at 1. cbn [st update log_lock log set_log lh lh_n lg_size outstanding].
  destruct (lh_n (lh (log (st w))) >=? LOGSIZE) eqn:E1; [apply Z.geb_le in E1; lia|].
  destruct (lh_n (lh (log (st w))) >=? s32 (lg_size (log (st w)) - 1)) eqn:E2; [apply Z.geb_le in E2; lia|].
  destruct (outstanding (log (st w)) <? 1) eqn:E3; [apply Z.ltb_lt in E3; lia|].
  cbn [orb].
  unfold bind at 1, rd at 1, gets at 1. cbn [st].
  change (get_buf b _) with (get_buf b (st w)).
  unfold bind at 1. rewrite Hfind.
  unfold bind at 1, wr_log at 1, modify at 1. cbn [st set_st cpu mypid ptable env log set_log].
  unfold bind at 1, the_log at 1, gets at 1. cbn [st log lh lh_n set_lh_block].
  destruct (i =? lh_n (lh (log (st w)))) eqn:Ei.
  - unfold bind at 1. unfold bind at 1.
    rewrite bpin_eq by assumption.
    cbn [cpu]. rewrite settle_pushed by assumption.
    unfold bind at 1, the_log at 1, gets at 1.
    unfold wr_log, modify. cbn [set_st st cpu mypid ptable env].
    rewrite release_pushed; try assumption; try apply log_lock_lawful.
    + rewrite (s32_id (_ + 1)).
      * f_equal. f_equal. unfold with_refcnt, get_buf.
        case_put_buf; reflexivity.
      * unfold with_refcnt. case_put_buf; cbn; unfold is_s32; lia.
    + unfold with_refcnt. case_put_buf; reflexivity.
  - unfold bind at 1, ret.
    rewrite release_pushed; try assumption; try apply log_lock_lawful; reflexivity.
Qed.

Lemma log_write_fatal b (w : world fs) :
  log_call_ok w -> ~ has_room (log (st w)) ->
  exists msg w', log_write LOGSIZE b w = Panic msg w' /\ lh (log (st w')) = lh (log (st w)).
Proof.
  intros (Hn & Hn' & Hf & Hbf) Hno.
  unfold log_write.
  unfold bind at 1. rewrite acquire_free by (try apply log_lock_lawful; assumption).
  unfold bind at 1, the_log at 1, gets at 1. cbn [st update log_lock log set_log lh lh_n lg_size outstanding].
  destruct (lh_n (lh (log (st w))) >=? LOGSIZE) eqn:E1; cbn [orb].
  { eexists. eexists. split; reflexivity. }
  destruct (lh_n (lh (log (st w))) >=? s32 (lg_size (log (st w)) - 1)) eqn:E2.
  { eexists. eexists. split; reflexivity. }
  destruct (outstanding (log (st w)) <? 1) eqn:E3.
  { eexists. eexists. split; reflexivity. }
  exfalso. apply Hno. unfold has_room.
  rewrite Z.geb_leb in E1, E2. apply Z.leb_gt in E1, E2. apply Z.ltb_ge in E3. lia.
Qed.

(** The block number is one of [block[0..n)]. *)
Definition logged (l : log_t) (bno : Z) : Prop :=
  exists i, 0 <= i < lh_n (lh l) /\ u32 (block_at l i) = bno.

(** How often the block number occurs in [block[0..n)]. *)
Definition occurrences (l : log_t) (bno : Z) : nat :=
  length (List.filter (fun x => u32 x =? bno) (take (Z.to_nat (lh_n (lh l))) (lh_block (lh l)))).

Lemma log_write_absorbed b (w : world fs) :
  log_call_ok w -> log_shape_ok (log (st w)) ->
  logged (log (st w)) (blockno (get_buf b (st w))) ->
  lh (log (st (final_world (log_write LOGSIZE b w)))) = lh (log (st w)) /\
  (has_room (log (st w)) ->
   exists w', log_write LOGSIZE b w = Ok tt w' /\
              refcnt (get_buf b (st w')) = refcnt (get_buf b (st w))).
Proof.
  intros Hc Hs (k & Hk & Hkb).
  assert (Hroom : has_room (log (st w)) ->
                  exists w', log_write LOGSIZE b w = Ok tt w' /\
                             lh (log (st w')) = lh (log (st w)) /\
                             refcnt (get_buf b (st w')) = refcnt (get_buf b (st w))).
  { intros Hr. destruct (log_write_run b w Hc Hs Hr) as (i & Hi & Hhit & Hmiss & Hrun).
    assert (Hlt : i < lh_n (lh (log (st w)))).
    { destruct (Z.lt_ge_cases k i) as [Hki|Hki]; [|lia].
      exfalso. apply (Hmiss k); [lia|assumption]. }
    destruct (i =? lh_n (lh (log (st w)))) eqn:Ei; [apply Z.eqb_eq in Ei; lia|].
    eexists. split; [exact Hrun|]. cbn [st set_log log].
    split; [|reflexivity].
    unfold set_lh_block, unlocked. cbn [lh lh_n lh_block].
    destruct Hs as (Hn0 & Hlen & _ & Hints).
    specialize (Hhit Hlt). unfold block_at in Hhit.
    destruct (lh (log (st w))) as [n blocks] eqn:El. cbn [lh_n lh_block] in *.
    f_equal. apply list_insert_id.
    assert (Hin : (Z.to_nat i < length blocks)%nat) by lia.
    destruct (lookup_lt_is_Some_2 blocks _ Hin) as [x Hx].
    rewrite Hx. f_equal.
    rewrite nth_lookup, Hx in Hhit. cbn in Hhit.
    rewrite <- Hhit. symmetry. apply s32_u32.
    rewrite Forall_forall in Hints. apply Hints. apply list_elem_of_lookup. eauto. }
  split; [|intros Hr; destruct (Hroom Hr) as (w' & H1 & _ & H3); eauto].
  assert (Hdec : has_room (log (st w)) \/ ~ has_room (log (st w))).
  { unfold has_room.
    destruct (Z_lt_dec (lh_n (lh (log (st w)))) LOGSIZE);
      destruct (Z_lt_dec (lh_n (lh (log (st w)))) (s32 (lg_size (log (st w)) - 1)));
      destruct (Z_le_dec 1 (outstanding (log (st w)))); tauto. }
  destruct Hdec as [Hr|Hr].
  - destruct (Hroom Hr) as (w' & -> & H2 & _). exact H2.
  - destruct (log_write_fatal b w Hc Hr) as (msg & w' & -> & H2). exact H2.
Qed.

Lemma filter_none_take (P : Z -> bool) (l : list Z) (n : nat) :
  (forall i, (i < n)%nat -> P (nth i l 0) = false) ->
  (n <= length l)%nat ->
  List.filter P (take n l) = [].
Proof.
  revert n. induction l as [|x l IH]; intros n H Hn; destruct n; cbn in *; try reflexivity; try lia.
  rewrite (H 0%nat) by lia.
  apply IH; [|lia]. intros i Hi. apply (H (Datatypes.S i)). lia.
Qed.

Lemma log_call_ok_after c pid pt e (s s' : fs) :
  log_call_ok (mkWorld c pid pt s e) ->
  locked (lg_lock (log s')) = 0 -> locked (bc_lock (bcache s')) = 0 ->
  log_call_ok (mkWorld (settle c) pid pt s' e).
Proof.
  intros (H1 & H2 & _ & _) H3 H4. unfold log_call_ok, noff_ok in *. cbn in *.
  repeat split; try assumption; lia.
Qed.

Lemma log_write_appended b (w : world fs) :
  log_call_ok w -> log_shape_ok (log (st w)) -> has_room (log (st w)) ->
  let l := log (st w) in
  let bno := blockno (get_buf b (st w)) in
  is_u32 bno ->
  (forall i, 0 <= i < lh_n (lh l) -> u32 (block_at l i) <> bno) ->
  exists w',
    log_write LOGSIZE b w = Ok tt w' /\
    lh (log (st w')) = mkLh (lh_n (lh l) + 1) (<[Z.to_nat (lh_n (lh l)) := s32 bno]> (lh_block (lh l))) /\
    refcnt (get_buf b (st w')) = u32 (refcnt (get_buf b (st w)) + 1) /\
    blockno (get_buf b (st w')) = bno /\
    occurrences (log (st w')) bno = 1%nat /\
    logged (log (st w')) bno /\
    log_call_ok w' /\ log_shape_ok (log (st w')).
Proof.
  intros Hc Hs Hr. cbv zeta. intros Hu Hnot.
  destruct (log_write_run b w Hc Hs Hr) as (i & Hi & Hhit & Hmiss & Hrun).
  assert (Hin : i = lh_n (lh (log (st w)))).
  { destruct (Z.eq_dec i (lh_n (lh (log (st w))))) as [|Hne]; [assumption|].
    exfalso. apply (Hnot i); [lia|]. apply Hhit. lia. }
  subst i. rewrite Z.eqb_refl in Hrun.
  destruct Hs as (Hn0 & Hlen & Hl31 & Hints). destruct Hr as (Hr1 & Hr2 & Hr3).
  set (n := lh_n (lh (log (st w)))) in *. set (bno := blockno (get_buf b (st w))) in *.
  assert (Hlt : (Z.to_nat n < length (lh_block (lh (log (st w)))))%nat) by lia.
  assert (Htake : take (Z.to_nat (n + 1)) (<[Z.to_nat n := s32 bno]> (lh_block (lh (log (st w))))) =
                  take (Z.to_nat n) (lh_block (lh (log (st w)))) ++ [s32 bno]).
  { replace (Z.to_nat (n + 1)) with (Datatypes.S (Z.to_nat n)) by lia.
    rewrite (take_S_r _ _ (s32 bno)) by (apply list_lookup_insert_eq; assumption).
    rewrite take_insert_ge by lia. reflexivity. }
  eexists. split; [exact Hrun|]. cbn [st].
  change (get_buf b (set_log ?l ?s)) with (get_buf b s).
  rewrite get_with_refcnt.
  cbn [st set_log log lh unlocked set_lh_n set_lh_block lh_n lh_block].
  split; [reflexivity|].
  split; [reflexivity|].
  split; [reflexivity|].
  split.
  { unfold occurrences. cbn [lh lh_n lh_block unlocked set_lh_n set_lh_block]. rewrite Htake.
    rewrite List.filter_app, filter_none_take.
    + cbn. rewrite u32_s32 by assumption. rewrite Z.eqb_refl. reflexivity.
    + intros j Hj. apply Z.eqb_neq. specialize (Hnot (Z.of_nat j) ltac:(lia)).
      unfold block_at in Hnot. rewrite Nat2Z.id in Hnot. exact Hnot.
    + lia. }
  split.
  { exists n. cbn [lh lh_n lh_block unlocked set_lh_n set_lh_block]. split; [lia|].
    unfold block_at. cbn [lh lh_block unlocked set_lh_n set_lh_block].
    rewrite nth_lookup, list_lookup_insert_eq by assumption. cbn.
    apply u32_s32. assumption. }
  split.
  { destruct w as [c pid pt s0 e]. cbn [cpu mypid ptable st env] in *.
    apply (log_call_ok_after c pid pt e s0); [assumption|reflexivity|].
    unfold with_refcnt. case_put_buf; reflexivity. }
  unfold log_shape_ok. cbn [lh lh_n lh_block unlocked set_lh_n set_lh_block].
  split; [lia|]. split; [rewrite length_insert; assumption|]. split; [assumption|].
  apply Forall_insert; [assumption|apply s32_range].
Qed.

Lemma log_write_twice b (w : world fs) :
  log_call_ok w -> log_shape_ok (log (st w)) -> has_room (log (st w)) ->
  let l := log (st w) in
  let bno := blockno (get_buf b (st w)) in
  is_u32 bno ->
  (forall i, 0 <= i < lh_n (lh l) -> u32 (block_at l i) <> bno) ->
  let l' := log (st (final_world ((log_write LOGSIZE b ;; log_write LOGSIZE b) w))) in
  lh_n (lh l') = lh_n (lh l) + 1 /\ occurrences l' bno = 1%nat.
Proof.
  intros Hc Hs Hr. cbv zeta. intros Hu Hnot.
  destruct (log_write_appended b w Hc Hs Hr Hu Hnot)
    as (w' & Hrun & Hlh & _ & Hb & Hocc & Hlog & Hc' & Hs').
  rewrite (bind_Ok _ _ _ _ _ Hrun).
  rewrite <- Hb in Hlog.
  destruct (log_write_absorbed b w' Hc' Hs' Hlog) as [Hsame _].
  unfold occurrences in *. rewrite Hsame. split; [|exact Hocc].
  rewrite Hlh. reflexivity.
Qed.
End LogWrite.

(** C6: [log_write] absorbs repeated writes. For a buffer whose block
    number is already among [block[0..n)], the call leaves [n] and the
    whole of [block[]] as they were (and, when it is not fatal, does
    not pin the buffer again); for a block number not yet there, it
    stores it in slot [n], pins the buffer and makes [n] one larger;
    so two calls for the same, not yet logged, buffer make [n] larger
    by exactly one, with the block number exactly once in
    [block[0..n)]. *)
Theorem log_write_absorbs (LOGSIZE : Z) (b : nat) (w : world fs) :
  let l := log (st w) in
  let bno := blockno (get_buf b (st w)) in
  log_call_ok w -> log_shape_ok LOGSIZE l -> is_u32 bno ->
  (logged l bno ->
   lh (log (st (final_world (log_write LOGSIZE b w)))) = lh l /\
   (has_room LOGSIZE l ->
    exists w', log_write LOGSIZE b w = Ok tt w' /\
               refcnt (get_buf b (st w')) = refcnt (get_buf b (st w)))) /\
  ((forall i, 0 <= i < lh_n (lh l) -> u32 (block_at l i) <> bno) ->
   has_room LOGSIZE l ->
   (exists w',
       log_write LOGSIZE b w = Ok tt w' /\
       lh (log (st w')) =
         mkLh (lh_n (lh l) + 1) (<[Z.to_nat (lh_n (lh l)) := s32 bno]> (lh_block (lh l))) /\
       refcnt (get_buf b (st w')) = u32 (refcnt (get_buf b (st w)) + 1) /\
       occurrences (log (st w')) bno = 1%nat) /\
   (let l' := log (st (final_world ((log_write LOGSIZE b ;; log_write LOGSIZE b) w))) in
    lh_n (lh l') = lh_n (lh l) + 1 /\ occurrences l' bno = 1%nat)).
Proof.
  cbv zeta. intros Hc Hs Hu. split.
  - intros Hl. now apply log_write_absorbed.
  - intros Hnot Hr. split.
    + destruct (log_write_appended LOGSIZE b w Hc Hs Hr Hu Hnot)
        as (w' & H1 & H2 & H3 & _ & H5 & _).
      exists w'. repeat split; assumption.
    + now apply log_write_twice.
Qed.

(** Buffer 0 holds block 42, one operation is open and the log is
    empty (LOGSIZE = 30). *)
Definition absorb_world : world fs :=
  mkWorld boot_cpu 1 []
    (put_buf 0 (set_blockno 42 (blank_buf 64))
       (set_log (set_outstanding 1 (log (blank_fs 3 64 2 31 30))) (blank_fs 3 64 2 31 30))) [].

Lemma log_write_absorbs_witness :
  let l' := log (st (final_world ((log_write 30 0 ;; log_write 30 0) absorb_world))) in
  lh_n (lh l') = 1 /\ occurrences l' 42 = 1%nat.
Proof.
  refine (proj2 (proj2 (log_write_absorbs 30 0 absorb_world _ _ _) _ _)).
  - unfold log_call_ok, noff_ok.
    replace (noff (pushed (cpu absorb_world))) with 1 by reflexivity.
    repeat split; try reflexivity; cbn; lia.
  - unfold log_shape_ok.
    split; [cbn; lia|]. split; [cbn; lia|]. split; [lia|].
    change (Forall is_s32 (repeat 0 30)).
    apply Forall_forall. intros x Hx. apply list_elem_of_In, repeat_spec in Hx.
    subst. unfold is_s32. lia.
  - unfold is_u32. change (blockno (get_buf 0 (st absorb_world))) with 42. lia.
  - intros i Hi. change (lh_n (lh (log (st absorb_world)))) with 0 in Hi. lia.
  - unfold has_room. repeat split; vm_compute; first [reflexivity | intros H; discriminate H].
Defined.

(** ** pipe.c: a call that stops early *)

Arguments pipewrite : simpl never.
Arguments piperead : simpl never.

Lemma pipe_lock_lawful a : lawful (pipe_lock a).
Proof. split; intros; reflexivity. Qed.

Section PipeStops.
Variable pipe_addr : Z.

Definition pipe_unlocked (s : pipe_state) : pipe_state :=
  update (pipe_lock pipe_addr) (mkSpin 0 None) s.

(** Inside the loop of [pipewrite] (the lock is held), with [i] bytes
    written so far and more to write. *)
Lemma pipewrite_loop_stops fuel addr n i c0 pid pt s e :
  noff_ok c0 ->
  pi_lock (pipe s) = mkSpin 1 (Some (cpu_id c0)) ->
  i < n ->
  readopen (pipe s) = 0 \/ pkilled s <> 0 ->
  pipewrite_loop pipe_addr fuel addr n i (mkWorld (pushed c0) pid pt s e) =
    Ok (-1) (mkWorld (settle c0) pid pt (pipe_unlocked s) e).
Proof.
  intros Hn Hl Hi Hstop.
  assert (Hc : (readopen (pipe s) =? 0) || truthy (pkilled s) = true).
  { destruct Hstop as [->|Hk]; [reflexivity|].
    rewrite (truthy_true _ Hk). apply orb_true_r. }
  apply Z.ltb_lt in Hi.
  destruct fuel; cbn [pipewrite_loop]; rewrite Hi;
    unfold bind at 1, the_pipe at 1, gets at 1;
    unfold bind at 1, killed at 1, gets at 1; cbn [st]; rewrite Hc;
    unfold bind at 1;
    (rewrite release_pushed; [reflexivity|apply pipe_lock_lawful|assumption|exact Hl]).
Qed.

Lemma pipewrite_stops addr n (w : world pipe_state) :
  noff_ok (cpu w) ->
  locked (pi_lock (pipe (st w))) = 0 ->
  0 < n ->
  readopen (pipe (st w)) = 0 \/ pkilled (st w) <> 0 ->
  pipewrite pipe_addr addr n w =
    Ok (-1) (mkWorld (settle (cpu w)) (mypid w) (ptable w) (pipe_unlocked (st w)) (env w)).
Proof.
  intros Hn Hf Hpos Hstop. unfold pipewrite.
  unfold bind at 1. rewrite acquire_free by (try apply pipe_lock_lawful; assumption).
  unfold bind at 1, gets at 1. cbn [env].
  rewrite pipewrite_loop_stops; try assumption; try reflexivity.
Qed.

Lemma piperead_killed addr n (w : world pipe_state) :
  noff_ok (cpu w) ->
  locked (pi_lock (pipe (st w))) = 0 ->
  nread (pipe (st w)) = nwrite (pipe (st w)) ->
  writeopen (pipe (st w)) <> 0 ->
  pkilled (st w) <> 0 ->
  piperead pipe_addr addr n w =
    Ok (-1) (mkWorld (settle (cpu w)) (mypid w) (ptable w) (pipe_unlocked (st w)) (env w)).
Proof.
  intros Hn Hf He Hw Hk. unfold piperead.
  unfold bind at 1. rewrite acquire_free by (try apply pipe_lock_lawful; assumption).
  unfold bind at 1, gets at 1. cbn [env].
  unfold bind at 1.
  assert (Hwait : forall fuel,
    piperead_wait pipe_addr fuel
      (mkWorld (pushed (cpu w)) (mypid w) (ptable w)
         (update (pipe_lock pipe_addr) (mkSpin 1 (Some (cpu_id (cpu w)))) (st w)) (env w)) =
    Ok true (mkWorld (settle (cpu w)) (mypid w) (ptable w) (pipe_unlocked (st w)) (env w))).
  { intros fuel.
    destruct fuel; cbn [piperead_wait];
      unfold bind at 1, the_pipe at 1, gets at 1; cbn;
      rewrite He, Z.eqb_refl, (truthy_true _ Hw); cbn [andb];
      unfold bind at 1, killed at 1, gets at 1; cbn; rewrite (truthy_true _ Hk);
      unfold bind at 1;
      (rewrite release_pushed; [reflexivity|apply pipe_lock_lawful|assumption|reflexivity]). }
  rewrite Hwait. reflexivity.
Qed.

Lemma piperead_eof addr n (w : world pipe_state) :
  noff_ok (cpu w) ->
  locked (pi_lock (pipe (st w))) = 0 ->
  nread (pipe (st w)) = nwrite (pipe (st w)) ->
  writeopen (pipe (st w)) = 0 ->
  piperead pipe_addr addr n w =
    Ok 0 (mkWorld (settle (cpu w)) (mypid w) (map (wake (chan_nwrite pipe_addr)) (ptable w))
            (pipe_unlocked (st w)) (env w)).
Proof.
  intros Hn Hf He Hw. unfold piperead.
  unfold bind at 1. rewrite acquire_free by (try apply pipe_lock_lawful; assumption).
  unfold bind at 1, gets at 1. cbn [env].
  unfold bind at 1.
  assert (Hwait : forall fuel,
    piperead_wait pipe_addr fuel
      (mkWorld (pushed (cpu w)) (mypid w) (ptable w)
         (update (pipe_lock pipe_addr) (mkSpin 1 (Some (cpu_id (cpu w)))) (st w)) (env w)) =
    Ok false (mkWorld (pushed (cpu w)) (mypid w) (ptable w)
         (update (pipe_lock pipe_addr) (mkSpin 1 (Some (cpu_id (cpu w)))) (st w)) (env w))).
  { intros fuel.
    destruct fuel; cbn [piperead_wait];
      unfold bind at 1, the_pipe at 1, gets at 1; cbn;
      rewrite He, Z.eqb_refl, Hw; reflexivity. }
  rewrite Hwait.
  assert (Hcopy : forall fuel,
    piperead_copy fuel addr n 0
      (mkWorld (pushed (cpu w)) (mypid w) (ptable w)
         (update (pipe_lock pipe_addr) (mkSpin 1 (Some (cpu_id (cpu w)))) (st w)) (env w)) =
    Ok 0 (mkWorld (pushed (cpu w)) (mypid w) (ptable w)
         (update (pipe_lock pipe_addr) (mkSpin 1 (Some (cpu_id (cpu w)))) (st w)) (env w))).
  { intros fuel.
    destruct fuel; cbn [piperead_copy]; destruct (0 <? n); try reflexivity;
      unfold bind at 1, the_pipe at 1, gets at 1; cbn;
      rewrite He, Z.eqb_refl; reflexivity. }
  unfold bind at 1. rewrite Hcopy.
  unfold bind at 1, wakeup at 1, modify at 1. cbn [set_ptable cpu mypid ptable st env].
  unfold bind at 1.
  rewrite release_pushed; [reflexivity|apply pipe_lock_lawful|assumption|reflexivity].
Qed.
End PipeStops.

(** *** A call that stops after sleeping *)

Lemma pushed_settle c : pushed (settle c) = pushed c.
Proof.
  unfold pushed, settle. cbn.
  destruct (noff c =? 0); reflexivity.
Qed.

(** The process table after the caller has slept on [ch] and been
    woken, [k] times. *)
Definition nap (pid ch : Z) (pt : list proc_t) : list proc_t :=
  map (set_proc pid RUNNING 0) (map (set_proc pid SLEEPING ch) pt).

Fixpoint naps (k : nat) (pid ch : Z) (pt : list proc_t) : list proc_t :=
  match k with
  | O => pt
  | Datatypes.S k' => naps k' pid ch (nap pid ch pt)
  end.

(** What makes [piperead] sleep: the pipe is empty, its write end is
    open and the caller is not killed. *)
Definition reader_waits (s : pipe_state) : Prop :=
  nread (pipe s) = nwrite (pipe s) /\ writeopen (pipe s) <> 0 /\ pkilled s = 0.

Section PipeSleeps.
Variable pipe_addr : Z.

(** The pipe as the rest of the system leaves it while the caller
    sleeps through the steps [es] of the schedule: each step finds the
    pipe's lock released by [sleep]. *)
Fixpoint while_asleep (es : list (pipe_state -> pipe_state)) (s : pipe_state) : pipe_state :=
  match es with
  | [] => s
  | e :: es' => while_asleep es' (e (pipe_unlocked pipe_addr s))
  end.

(** The reader sleeps through all of [es]: before each step it has
    to wait, and after each step it can take the lock again. *)
Fixpoint sleeps_through (es : list (pipe_state -> pipe_state)) (s : pipe_state) : Prop :=
  match es with
  | [] => True
  | e :: es' =>
      reader_waits s /\
      locked (pi_lock (pipe (e (pipe_unlocked pipe_addr s)))) = 0 /\
      sleeps_through es' (e (pipe_unlocked pipe_addr s))
  end.

Lemma piperead_resume addr n c pid pt s rest :
  bind (acquire (pipe_lock pipe_addr))
    (fun _ => bind (piperead_wait pipe_addr (length rest))
       (fun gone : bool =>
          if gone then ret (-1) else
          bind (piperead_copy (Z.to_nat n) addr n 0)
            (fun i => bind (wakeup (chan_nwrite pipe_addr))
               (fun _ => bind (release (pipe_lock pipe_addr)) (fun _ => ret i)))))
    (mkWorld c pid pt s rest) =
  piperead pipe_addr addr n (mkWorld c pid pt s rest).
Proof.
  unfold piperead, bind at 1 6, gets.
  destruct (acquire (pipe_lock pipe_addr) _) as [a w'|m w'|w'] eqn:E; try reflexivity.
  apply acquire_env in E; [|apply pipe_lock_lawful]. cbn [env] in E.
  unfold bind at 5. rewrite E. reflexivity.
Qed.

(** A reader that has to wait sleeps, and when it is woken starts
    over on the pipe as the rest of the system has left it. *)
Lemma piperead_retry addr n (w : world pipe_state) e rest :
  noff_ok (cpu w) ->
  locked (pi_lock (pipe (st w))) = 0 ->
  reader_waits (st w) ->
  env w = e :: rest ->
  piperead pipe_addr addr n w =
    piperead pipe_addr addr n
      (mkWorld (settle (cpu w)) (mypid w) (nap (mypid w) (chan_nread pipe_addr) (ptable w))
         (e (pipe_unlocked pipe_addr (st w))) rest).
Proof.
  intros Hn Hf (He & Hw & Hk) Henv.
  rewrite <- piperead_resume.
  unfold piperead at 1.
  unfold bind at 1. rewrite acquire_free by (try apply pipe_lock_lawful; assumption).
  unfold bind at 1, gets at 1. cbn [env]. rewrite Henv. cbn [length piperead_wait].
  set (s1 := update (pipe_lock pipe_addr) (mkSpin 1 (Some (cpu_id (cpu w)))) (st w)).
  assert (Hc : (nread (pipe s1) =? nwrite (pipe s1)) && truthy (writeopen (pipe s1)) = true).
  { subst s1. cbn. rewrite He, Z.eqb_refl, (truthy_true _ Hw). reflexivity. }
  assert (Hk1 : truthy (pkilled s1) = false).
  { subst s1. cbn. rewrite Hk. reflexivity. }
  unfold bind at 1. unfold bind at 1, the_pipe at 1, gets at 1. cbn [st].
  rewrite Hc.
  unfold bind at 1, killed at 1, gets at 1. cbn [st].
  rewrite Hk1.
  unfold bind at 1.
  rewrite sleep_pushed; [|apply pipe_lock_lawful|assumption|reflexivity].
  cbv zeta.
  change (update (pipe_lock pipe_addr) (mkSpin 0 None) s1) with (pipe_unlocked pipe_addr (st w)).
  unfold woken_from, parked_on. cbn [mypid ptable].
  fold (nap (mypid w) (chan_nread pipe_addr) (ptable w)).
  destruct (acquire (pipe_lock pipe_addr) _) as [a w'|m w'|w'] eqn:E;
    [rewrite (bind_Ok _ _ _ _ _ E)|rewrite (bind_Panic _ _ _ _ _ E)|rewrite (bind_Blocked _ _ _ _ E)];
    reflexivity.
Qed.

Lemma piperead_after_sleeps addr n es :
  forall (w : world pipe_state) rest,
    noff_ok (cpu w) ->
    locked (pi_lock (pipe (st w))) = 0 ->
    env w = es ++ rest ->
    sleeps_through es (st w) ->
    piperead pipe_addr addr n w =
      piperead pipe_addr addr n
        (mkWorld (settle (cpu w)) (mypid w)
           (naps (length es) (mypid w) (chan_nread pipe_addr) (ptable w))
           (while_asleep es (st w)) rest) \/
    es = [].
Proof.
  induction es as [|e es IH]; intros w rest Hn Hf Henv Hs; [right; reflexivity|left].
  destruct Hs as (Hw & Hfree & Hs).
  rewrite (piperead_retry addr n w e (es ++ rest) Hn Hf Hw Henv).
  destruct (IH (mkWorld (settle (cpu w)) (mypid w)
                  (nap (mypid w) (chan_nread pipe_addr) (ptable w))
                  (e (pipe_unlocked pipe_addr (st w))) (es ++ rest)) rest)
    as [IH'| ->]; try assumption; try reflexivity.
  rewrite IH'. cbn [cpu mypid ptable st]. rewrite settle_settle. reflexivity.
Qed.

(** The reader is killed, or loses the writer, while it sleeps. *)
Lemma piperead_woken addr n (w : world pipe_state) es rest :
  noff_ok (cpu w) ->
  locked (pi_lock (pipe (st w))) = 0 ->
  env w = es ++ rest ->
  sleeps_through es (st w) ->
  nread (pipe (while_asleep es (st w))) = nwrite (pipe (while_asleep es (st w))) ->
  (writeopen (pipe (while_asleep es (st w))) <> 0 ->
   pkilled (while_asleep es (st w)) <> 0 ->
   piperead pipe_addr addr n w =
     Ok (-1) (mkWorld (settle (cpu w)) (mypid w)
                (naps (length es) (mypid w) (chan_nread pipe_addr) (ptable w))
                (pipe_unlocked pipe_addr (while_asleep es (st w))) rest)) /\
  (writeopen (pipe (while_asleep es (st w))) = 0 ->
   piperead pipe_addr addr n w =
     Ok 0 (mkWorld (settle (cpu w)) (mypid w)
             (map (wake (chan_nwrite pipe_addr))
                (naps (length es) (mypid w) (chan_nread pipe_addr) (ptable w)))
             (pipe_unlocked pipe_addr (while_asleep es (st w))) rest)).
Proof.
  intros Hn Hf Henv Hs He.
  assert (Hlast : locked (pi_lock (pipe (while_asleep es (st w)))) = 0).
  { clear He Henv Hn. revert Hf Hs. generalize (st w). induction es as [|e es IH]; intros s Hf Hs.
    - exact Hf.
    - destruct Hs as (_ & Hfree & Hs). cbn [while_asleep]. apply IH; assumption. }
  destruct (piperead_after_sleeps addr n es w rest Hn Hf Henv Hs) as [E| ->].
  - rewrite E. split.
    + intros Hw Hk.
      rewrite piperead_killed; cbn [cpu mypid ptable st env]; try assumption.
      rewrite settle_settle. reflexivity.
    + intros Hw.
      rewrite piperead_eof; cbn [cpu mypid ptable st env]; try assumption.
      rewrite settle_settle. reflexivity.
  - cbn [app] in Henv. cbn [while_asleep length naps] in *. split.
    + intros Hw Hk. rewrite piperead_killed by assumption. rewrite Henv. reflexivity.
    + intros Hw. rewrite piperead_eof by assumption. rewrite Henv. reflexivity.
Qed.

(** A writer that sleeps on a full pipe and is woken to find the read
    end closed or itself killed. *)
Lemma pipewrite_loop_woken fuel addr n i c0 pid pt s e rest :
  noff_ok c0 ->
  pi_lock (pipe s) = mkSpin 1 (Some (cpu_id c0)) ->
  i < n ->
  readopen (pipe s) <> 0 -> pkilled s = 0 ->
  nwrite (pipe s) = u32 (nread (pipe s) + PIPESIZE) ->
  locked (pi_lock (pipe (e (pipe_unlocked pipe_addr s)))) = 0 ->
  readopen (pipe (e (pipe_unlocked pipe_addr s))) = 0 \/ pkilled (e (pipe_unlocked pipe_addr s)) <> 0 ->
  pipewrite_loop pipe_addr (Datatypes.S fuel) addr n i (mkWorld (pushed c0) pid pt s (e :: rest)) =
    Ok (-1) (mkWorld (settle c0) pid
               (nap pid (chan_nwrite pipe_addr) (map (wake (chan_nread pipe_addr)) pt))
               (pipe_unlocked pipe_addr (e (pipe_unlocked pipe_addr s))) rest).
Proof.
  intros Hn Hl Hi Hro Hk Hfull Hfree Hstop.
  cbn [pipewrite_loop].
  destruct (Z.ltb_spec i n) as [_|]; [|lia].
  unfold bind at 1, the_pipe at 1, gets at 1. cbn [st].
  unfold bind at 1, killed at 1, gets at 1. cbn [st].
  apply Z.eqb_neq in Hro. rewrite Hro, Hk. cbn [truthy Z.eqb negb orb].
  rewrite Hfull, Z.eqb_refl.
  unfold bind at 1, wakeup at 1, modify at 1. cbn [set_ptable cpu mypid ptable st env].
  unfold bind at 1.
  rewrite sleep_pushed; [|apply pipe_lock_lawful|assumption|exact Hl].
  cbv zeta.
  change (update (pipe_lock pipe_addr) (mkSpin 0 None) s) with (pipe_unlocked pipe_addr s).
  rewrite acquire_free; [|apply pipe_lock_lawful|exact Hfree].
  cbn [cpu mypid ptable st env].
  rewrite pushed_settle.
  rewrite pipewrite_loop_stops; try assumption; reflexivity.
Qed.
End PipeSleeps.

(** C2 (as amended): a [pipewrite] that finds, at the check it makes
    before each byte, the read end closed or the caller killed returns
    -1, whatever the number [i] of bytes it has written so far: on
    entry, after some bytes, or when it wakes from its sleep on a full
    pipe. A [piperead] that finds the pipe empty, the write end open
    and the caller killed returns -1, having transferred nothing, and
    a [piperead] that finds the pipe empty and the write end closed
    returns 0: on entry (no step of the schedule used) or when it
    wakes after sleeping through any number of steps, during which the
    caller may have been killed or the write end closed. In each case
    the pipe's contents and counters are left as the call found them. *)
Theorem pipe_early_return (pipe_addr addr n : Z) :
  (forall fuel i c0 pid pt s e,
      noff_ok c0 ->
      pi_lock (pipe s) = mkSpin 1 (Some (cpu_id c0)) ->
      i < n ->
      readopen (pipe s) = 0 \/ pkilled s <> 0 ->
      pipewrite_loop pipe_addr fuel addr n i (mkWorld (pushed c0) pid pt s e) =
        Ok (-1) (mkWorld (settle c0) pid pt (pipe_unlocked pipe_addr s) e)) /\
  (forall fuel i c0 pid pt s e rest,
      noff_ok c0 ->
      pi_lock (pipe s) = mkSpin 1 (Some (cpu_id c0)) ->
      i < n ->
      readopen (pipe s) <> 0 -> pkilled s = 0 ->
      nwrite (pipe s) = u32 (nread (pipe s) + PIPESIZE) ->
      locked (pi_lock (pipe (e (pipe_unlocked pipe_addr s)))) = 0 ->
      readopen (pipe (e (pipe_unlocked pipe_addr s))) = 0 \/
      pkilled (e (pipe_unlocked pipe_addr s)) <> 0 ->
      pipewrite_loop pipe_addr (Datatypes.S fuel) addr n i
        (mkWorld (pushed c0) pid pt s (e :: rest)) =
        Ok (-1) (mkWorld (settle c0) pid
                   (nap pid (chan_nwrite pipe_addr) (map (wake (chan_nread pipe_addr)) pt))
                   (pipe_unlocked pipe_addr (e (pipe_unlocked pipe_addr s))) rest)) /\
  (forall w : world pipe_state,
      noff_ok (cpu w) ->
      locked (pi_lock (pipe (st w))) = 0 ->
      (0 < n ->
       readopen (pipe (st w)) = 0 \/ pkilled (st w) <> 0 ->
       pipewrite pipe_addr addr n w =
         Ok (-1) (mkWorld (settle (cpu w)) (mypid w) (ptable w) (pipe_unlocked pipe_addr (st w)) (env w))) /\
      (forall es rest,
          env w = es ++ rest ->
          sleeps_through pipe_addr es (st w) ->
          nread (pipe (while_asleep pipe_addr es (st w))) =
            nwrite (pipe (while_asleep pipe_addr es (st w))) ->
          (writeopen (pipe (while_asleep pipe_addr es (st w))) <> 0 ->
           pkilled (while_asleep pipe_addr es (st w)) <> 0 ->
           piperead pipe_addr addr n w =
             Ok (-1) (mkWorld (settle (cpu w)) (mypid w)
                        (naps (length es) (mypid w) (chan_nread pipe_addr) (ptable w))
                        (pipe_unlocked pipe_addr (while_asleep pipe_addr es (st w))) rest)) /\
          (writeopen (pipe (while_asleep pipe_addr es (st w))) = 0 ->
           piperead pipe_addr addr n w =
             Ok 0 (mkWorld (settle (cpu w)) (mypid w)
                     (map (wake (chan_nwrite pipe_addr))
                        (naps (length es) (mypid w) (chan_nread pipe_addr) (ptable w)))
                     (pipe_unlocked pipe_addr (while_asleep pipe_addr es (st w))) rest)))).
Proof.
  split; [intros; now apply pipewrite_loop_stops|].
  split; [intros; now apply pipewrite_loop_woken|].
  intros w Hn Hf. split.
  - intros. now apply pipewrite_stops.
  - intros es rest Henv Hs He. now apply piperead_woken.
Qed.


(** A pipe holding 511 unread bytes, both ends open; while the writer
    sleeps, the reader closes its end. *)
Definition close_read_end (s : pipe_state) : pipe_state :=
  set_pipe (mkPipe (pi_lock (pipe s)) (pi_data (pipe s)) (nread (pipe s)) (nwrite (pipe s))
              0 (writeopen (pipe s))) s.

Definition nearly_full_pipe : world pipe_state :=
  mkWorld boot_cpu 1 []
    (mkPipeSt (mkPipe (mkSpin 0 None) (repeat 0 512) 0 511 1 1) 0 (fun _ => Some 7))
    [close_read_end].

(** An empty pipe whose write end is closed. *)
Definition drained_pipe : world pipe_state :=
  mkWorld boot_cpu 1 []
    (mkPipeSt (mkPipe (mkSpin 0 None) (repeat 0 512) 3 3 1 0) 0 (fun _ => Some 0)) [].

(** Writing two bytes into the nearly full pipe transfers one byte,
    sleeps, and returns -1 (not 1) once the reader has gone; reading
    from the drained pipe returns 0 (not -1). *)
Lemma pipe_return_counterexample :
  (exists w', pipewrite 4096 0 2 nearly_full_pipe = Ok (-1) w' /\
              nwrite (pipe (st w')) = nwrite (pipe (st nearly_full_pipe)) + 1) /\
  (exists w', piperead 4096 0 5 drained_pipe = Ok 0 w').
Proof.
  split.
  - eexists. split; [vm_compute; reflexivity|]. reflexivity.
  - eexists. vm_compute. reflexivity.
Qed.

(** An empty pipe with both ends open, read by process 1; while the
    reader sleeps it is killed. *)
Definition kill_caller (s : pipe_state) : pipe_state := mkPipeSt (pipe s) 1 (umem s).

Definition sleeping_reader : world pipe_state :=
  mkWorld boot_cpu 1 [mkProc 1 RUNNING 0]
    (mkPipeSt (mkPipe (mkSpin 0 None) (repeat 0 512) 3 3 1 1) 0 (fun _ => Some 0))
    [kill_caller].

Lemma pipe_early_return_witness :
  exists w', piperead 4096 0 5 sleeping_reader = Ok (-1) w' /\
             pkilled (st w') = 1 /\ nread (pipe (st w')) = 3 /\ env w' = [].
Proof.
  eexists. split.
  - refine (proj1 (proj2 (proj2 (proj2 (pipe_early_return 4096 0 5)) sleeping_reader _ _)
                     [kill_caller] [] _ _ _) _ _).
    + unfold noff_ok. cbn. lia.
    + reflexivity.
    + reflexivity.
    + cbn. unfold reader_waits. cbn. repeat split. discriminate.
    + reflexivity.
    + cbn. discriminate.
    + cbn. discriminate.
  - cbn. repeat split.
Defined.

(** ** kalloc.c *)

Arguments kfree : simpl never.
Arguments kalloc : simpl never.
Arguments memset : simpl never.

Lemma store_le_other n m a v x :
  x < a \/ a + Z.of_nat n <= x -> store_le n m a v x = m x.
Proof.
  revert m a v. induction n as [|n IH]; intros m a v H; cbn [store_le]; [reflexivity|].
  rewrite IH by lia.
  destruct (x =? a) eqn:E; [apply Z.eqb_eq in E; lia|reflexivity].
Qed.

Lemma load_le_ext n m m' a :
  (forall x, a <= x < a + Z.of_nat n -> m x = m' x) -> load_le n m a = load_le n m' a.
Proof.
  revert a. induction n as [|n IH]; intros a H; cbn [load_le]; [reflexivity|].
  rewrite (H a) by lia. rewrite (IH (a + 1)); [reflexivity|].
  intros x Hx. apply H. lia.
Qed.

Lemma load_store_le n m a v : load_le n (store_le n m a v) a = v mod 256 ^ Z.of_nat n.
Proof.
  revert m a v. induction n as [|n IH]; intros m a v.
  - cbn. now rewrite Z.mod_1_r.
  - cbn [store_le load_le]. rewrite IH.
    rewrite store_le_other by lia. rewrite Z.eqb_refl.
    rewrite Nat2Z.inj_succ, Z.pow_succ_r by lia.
    rewrite Z.rem_mul_r by lia. reflexivity.
Qed.

Lemma memset_other m dst c n x : x < dst \/ dst + n <= x -> memset m dst c n x = m x.
Proof.
  intros H. unfold memset.
  destruct (dst <=? x) eqn:E1; destruct (x <? dst + n) eqn:E2; cbn; try reflexivity.
  apply Z.leb_le in E1. apply Z.ltb_lt in E2. lia.
Qed.

Lemma kmem_lock_lawful : lawful kmem_lock.
Proof. split; intros; reflexivity. Qed.

Lemma land_page_mask x :
  0 <= x < 2 ^ 64 -> Z.land x (Z.lnot (PGSIZE - 1) mod 2 ^ 64) = PGSIZE * (x / PGSIZE).
Proof.
  intros Hx. unfold PGSIZE. change 4096 with (2 ^ 12).
  rewrite <- Z.shiftr_div_pow2 by lia. rewrite Z.mul_comm, <- Z.shiftl_mul_pow2 by lia.
  apply Z.bits_inj'. intros n Hn.
  rewrite Z.land_spec.
  change (2 ^ 12 - 1) with (Z.ones 12).
  destruct (Z.lt_ge_cases n 64) as [H64|H64].
  - rewrite Z.mod_pow2_bits_low by lia. rewrite Z.lnot_spec by lia.
    destruct (Z.lt_ge_cases n 12) as [H12|H12].
    + rewrite Z.ones_spec_low by lia. rewrite Z.shiftl_spec_low by lia. apply andb_false_r.
    + rewrite Z.ones_spec_high by lia. rewrite Z.shiftl_spec by lia.
      rewrite Z.shiftr_spec by lia. replace (n - 12 + 12) with n by lia. apply andb_true_r.
  - rewrite Z.mod_pow2_bits_high by lia. rewrite andb_false_r.
    rewrite Z.shiftl_spec by lia. rewrite Z.shiftr_spec by lia.
    replace (n - 12 + 12) with n by lia.
    rewrite <- (Z.mod_small x (2 ^ 64)) by lia.
    rewrite Z.mod_pow2_bits_high by lia. reflexivity.
Qed.

Lemma PGROUNDUP_spec a :
  0 <= a -> a + PGSIZE <= 2 ^ 64 ->
  PGROUNDUP a mod PGSIZE = 0 /\ a <= PGROUNDUP a < a + PGSIZE.
Proof.
  intros H0 H1. unfold PGROUNDUP, u64. unfold PGSIZE in *.
  rewrite (Z.mod_small (a + 4096 - 1)) by lia.
  pose proof (land_page_mask (a + 4096 - 1) ltac:(lia)) as E. unfold PGSIZE in E. rewrite E.
  split.
  - rewrite Z.mul_comm. apply Z.mod_mul. lia.
  - pose proof (Z.div_mod (a + 4096 - 1) 4096 ltac:(lia)).
    pose proof (Z.mod_pos_bound (a + 4096 - 1) 4096 ltac:(lia)). lia.
Qed.

Section KallocSpecs.
Variable end_ PHYSTOP : Z.

(** [kfree] accepts the address. *)
Definition frame_ok (p : Z) : Prop := p mod PGSIZE = 0 /\ end_ <= p < PHYSTOP.

Lemma kfree_eq p (w : world kalloc_state) :
  frame_ok p -> noff_ok (cpu w) -> locked (km_lock (kmem (st w))) = 0 ->
  kfree end_ PHYSTOP p w =
    Ok tt (mkWorld (settle (cpu w)) (mypid w) (ptable w)
             (mkKalloc (mkKmem (mkSpin 0 None) p)
                (store_le 8 (memset (ram (st w)) p 1 PGSIZE) p (freelist (kmem (st w)))))
             (env w)).
Proof.
  intros (Ha & Hlo & Hhi) Hn Hf. unfold kfree.
  rewrite Ha. cbn [Z.eqb negb orb].
  destruct (p <? end_) eqn:E1; [apply Z.ltb_lt in E1; lia|].
  destruct (p >=? PHYSTOP) eqn:E2; [rewrite Z.geb_leb in E2; apply Z.leb_le in E2; lia|].
  cbn [orb].
  unfold bind at 1, gets at 1. unfold bind at 1, set_ram at 1, modify at 1.
  cbn [st set_st cpu mypid ptable env ram kmem].
  unfold bind at 1. rewrite acquire_free by (try apply kmem_lock_lawful; assumption).
  unfold bind at 1, gets at 1. unfold bind at 1, gets at 1.
  unfold bind at 1, set_ram at 1, modify at 1.
  unfold bind at 1, set_freelist at 1, modify at 1.
  cbn [st set_st cpu mypid ptable env ram kmem update kmem_lock freelist km_lock].
  rewrite release_pushed; [reflexivity|apply kmem_lock_lawful|assumption|reflexivity].
Qed.

Lemma kalloc_eq (w : world kalloc_state) :
  noff_ok (cpu w) -> locked (km_lock (kmem (st w))) = 0 ->
  kalloc w =
    let r := freelist (kmem (st w)) in
    Ok r (mkWorld (settle (cpu w)) (mypid w) (ptable w)
            (if truthy r
             then mkKalloc (mkKmem (mkSpin 0 None) (load_le 8 (ram (st w)) r))
                    (memset (ram (st w)) r 5 PGSIZE)
             else mkKalloc (mkKmem (mkSpin 0 None) r) (ram (st w)))
            (env w)).
Proof.
  intros Hn Hf. unfold kalloc.
  unfold bind at 1. rewrite acquire_free by (try apply kmem_lock_lawful; assumption).
  unfold bind at 1, gets at 1.
  cbn [st set_st cpu mypid ptable env ram kmem update kmem_lock freelist km_lock].
  cbv zeta.
  destruct (truthy (freelist (kmem (st w)))).
  - unfold bind at 1. unfold bind at 1, gets at 1. unfold set_freelist at 1, modify at 1.
    cbn [st set_st cpu mypid ptable env ram kmem update kmem_lock freelist km_lock].
    unfold bind at 1.
    rewrite release_pushed; [|apply kmem_lock_lawful|assumption|reflexivity].
    unfold bind, gets, set_ram, modify, ret. reflexivity.
  - unfold bind at 1, ret at 1.
    unfold bind at 1.
    rewrite release_pushed; [|apply kmem_lock_lawful|assumption|reflexivity].
    unfold bind, ret. reflexivity.
Qed.

(** The free list as a list of frames: [h] is the head pointer, and
    the first machine word of each frame holds the address of the
    next, the last one holding null. *)
Fixpoint flist (m : memory) (h : Z) (L : list Z) : Prop :=
  match L with
  | [] => h = 0
  | p :: L' => h = p /\ p <> 0 /\ flist m (load_le 8 m p) L'
  end.

(** The allocator's invariant: the free list is a list of distinct
    frames that [kfree] accepts. *)
Definition kmem_inv (s : kalloc_state) (L : list Z) : Prop :=
  flist (ram s) (freelist (kmem s)) L /\ Forall frame_ok L /\ NoDup L.

Hypothesis end_pos : 0 < end_.
Hypothesis PHYSTOP_u64 : PHYSTOP <= 2 ^ 64.

Lemma frame_ok_apart p q x :
  frame_ok p -> frame_ok q -> p <> q -> q <= x < q + 8 -> x < p \/ p + PGSIZE <= x.
Proof.
  unfold frame_ok, PGSIZE. intros (Hp & _) (Hq & _) Hne Hx.
  apply Z.mod_divide in Hp; [|lia]. apply Z.mod_divide in Hq; [|lia].
  destruct Hp as [a ->]. destruct Hq as [b ->]. lia.
Qed.

Lemma flist_ext m m' h L :
  (forall q x, In q L -> q <= x < q + 8 -> m x = m' x) ->
  flist m h L -> flist m' h L.
Proof.
  revert h. induction L as [|p L IH]; intros h Hext; cbn [flist]; [auto|].
  intros (-> & Hp & Hl). split; [reflexivity|]. split; [assumption|].
  rewrite <- (load_le_ext 8 m m' p) by (intros x Hx; apply (Hext p); [left; reflexivity|lia]).
  apply IH; [|assumption].
  intros q x Hq. apply Hext. right. assumption.
Qed.

Lemma kmem_inv_push p s L :
  frame_ok p -> ~ In p L -> is_u64 (freelist (kmem s)) ->
  kmem_inv s L ->
  kmem_inv (mkKalloc (mkKmem (mkSpin 0 None) p)
              (store_le 8 (memset (ram s) p 1 PGSIZE) p (freelist (kmem s)))) (p :: L).
Proof.
  intros Hp Hnin Hu (Hl & Hok & Hnd). unfold kmem_inv. cbn [ram kmem freelist].
  split; [|split].
  - cbn [flist]. split; [reflexivity|]. split; [destruct Hp as (_ & Hlo & _); lia|].
    rewrite load_store_le. change (256 ^ Z.of_nat 8) with (2 ^ 64).
    rewrite Z.mod_small by exact Hu.
    apply (flist_ext (ram s)); [|assumption].
    intros q x Hq Hx.
    assert (Hqok : frame_ok q) by (rewrite Forall_forall in Hok; apply Hok, list_elem_of_In; assumption).
    assert (Hne : p <> q) by (intros ->; contradiction).
    destruct (frame_ok_apart p q x Hp Hqok Hne Hx) as [H|H].
    + rewrite store_le_other by lia. rewrite memset_other by lia. reflexivity.
    + unfold PGSIZE in H. rewrite store_le_other by lia.
      rewrite memset_other by (unfold PGSIZE; lia). reflexivity.
  - constructor; assumption.
  - apply NoDup_cons. split; [rewrite list_elem_of_In; assumption|assumption].
Qed.

Lemma kmem_inv_pop p s L :
  kmem_inv s (p :: L) ->
  kmem_inv (mkKalloc (mkKmem (mkSpin 0 None) (load_le 8 (ram s) p)) (memset (ram s) p 5 PGSIZE)) L.
Proof.
  intros (Hl & Hok & Hnd). unfold kmem_inv. cbn [ram kmem freelist].
  apply Forall_cons in Hok. destruct Hok as [Hp Hok].
  apply NoDup_cons in Hnd. destruct Hnd as [Hnin Hnd].
  cbn [flist] in Hl. destruct Hl as (_ & _ & Hl).
  split; [|split; assumption].
  apply (flist_ext (ram s)); [|assumption].
  intros q x Hq Hx.
  assert (Hqok : frame_ok q) by (rewrite Forall_forall in Hok; apply Hok, list_elem_of_In; assumption).
  assert (Hne : p <> q) by (intros ->; apply Hnin, list_elem_of_In; assumption).
  destruct (frame_ok_apart p q x Hp Hqok Hne Hx) as [H|H];
    rewrite memset_other by lia; reflexivity.
Qed.

Lemma flist_head m h L : flist m h L -> h = hd 0 L.
Proof. destruct L; cbn; [auto|]. intros (-> & _). reflexivity. Qed.

Lemma kmem_inv_u64 s L : kmem_inv s L -> is_u64 (freelist (kmem s)).
Proof.
  intros (Hl & Hok & _). apply flist_head in Hl. rewrite Hl.
  destruct L as [|p L]; cbn; [unfold is_u64; lia|].
  apply Forall_cons in Hok. destruct Hok as [(_ & Hlo & Hhi) _].
  unfold is_u64. lia.
Qed.

(** Successive calls of [kalloc], with their results. *)
Fixpoint kalloc_times (k : nat) : K kalloc_state (list Z) :=
  match k with
  | O => ret []
  | Datatypes.S k' => r <- kalloc ;; rs <- kalloc_times k' ;; ret (r :: rs)
  end.

Definition kalloc_ready (w : world kalloc_state) : Prop :=
  noff_ok (cpu w) /\ locked (km_lock (kmem (st w))) = 0.

Lemma kalloc_times_spec k : forall (w : world kalloc_state) L,
  kalloc_ready w -> kmem_inv (st w) L ->
  exists w',
    kalloc_times k w = Ok (take k L ++ repeat 0 (k - length L)) w' /\
    kalloc_ready w' /\ kmem_inv (st w') (drop k L).
Proof.
  induction k as [|k IH]; intros w L (Hn & Hf) Hinv.
  - exists w. cbn. rewrite drop_0. split; [reflexivity|]. split; [split|]; assumption.
  - cbn [kalloc_times]. unfold bind at 1. rewrite kalloc_eq by assumption. cbv zeta.
    pose proof Hinv as (Hl & _). apply flist_head in Hl.
    destruct L as [|p L]; cbn [hd] in Hl; rewrite Hl.
    + cbn [truthy Z.eqb negb].
      edestruct (IH (mkWorld (settle (cpu w)) (mypid w) (ptable w)
                       (mkKalloc (mkKmem (mkSpin 0 None) 0) (ram (st w))) (env w)) [])
        as (w' & Hrun & Hr' & Hinv').
      { split; [exact Hn|reflexivity]. }
      { destruct Hinv as (_ & H2 & H3). split; [reflexivity|split; assumption]. }
      rewrite take_nil, drop_nil in *. cbn [length app] in *. rewrite Nat.sub_0_r in Hrun.
      exists w'. unfold bind. rewrite Hrun. cbn. split; [reflexivity|]. split; assumption.
    + assert (Hp : p <> 0) by (destruct Hinv as ((_ & Hp & _) & _); exact Hp).
      rewrite (truthy_true _ Hp).
      edestruct (IH (mkWorld (settle (cpu w)) (mypid w) (ptable w)
                       (mkKalloc (mkKmem (mkSpin 0 None) (load_le 8 (ram (st w)) p))
                          (memset (ram (st w)) p 5 PGSIZE)) (env w)) L)
        as (w' & Hrun & Hr' & Hinv').
      { split; [exact Hn|reflexivity]. }
      { apply kmem_inv_pop. exact Hinv. }
      exists w'. unfold bind. rewrite Hrun. cbn. split; [reflexivity|]. split; assumption.
Qed.

(** The frames [p], [p + PGSIZE], ... , [k] of them. *)
Fixpoint frames (p : Z) (k : nat) : list Z :=
  match k with
  | O => []
  | Datatypes.S k' => p :: frames (p + PGSIZE) k'
  end.

Lemma freerange_loop_spec pa_end k : forall fuel p (w : world kalloc_state) L,
  (k <= fuel)%nat ->
  pa_end <= PHYSTOP -> PHYSTOP + 2 * PGSIZE <= 2 ^ 64 ->
  p mod PGSIZE = 0 -> end_ <= p -> p < PHYSTOP + PGSIZE ->
  pa_end < p + PGSIZE * (Z.of_nat k + 1) ->
  (k = 0%nat \/ p + PGSIZE * Z.of_nat k <= pa_end) ->
  kalloc_ready w -> kmem_inv (st w) L -> Forall (fun q => q < p) L ->
  exists w',
    freerange_loop end_ PHYSTOP fuel p pa_end w = Ok tt w' /\
    kalloc_ready w' /\ kmem_inv (st w') (rev (frames p k) ++ L).
Proof.
  unfold PGSIZE.
  induction k as [|k IH]; intros fuel p w L Hfuel Hend Hphys Hal Hlo Hhi Hk1 Hk2 (Hn & Hf) Hinv Hlt.
  - exists w. cbn [frames rev app].
    assert (Hc : (u64 (p + 4096) <=? pa_end) = false).
    { apply Z.leb_gt. rewrite u64_id by (unfold is_u64; lia). lia. }
    destruct fuel; cbn [freerange_loop]; unfold PGSIZE; rewrite Hc;
      (split; [reflexivity|]); (split; [split|]); assumption.
  - destruct Hk2 as [Hk2|Hk2]; [discriminate|].
    destruct fuel as [|fuel]; [lia|].
    cbn [freerange_loop]. unfold PGSIZE.
    rewrite u64_id by (unfold is_u64; lia).
    assert (Hc : (p + 4096 <=? pa_end) = true) by (apply Z.leb_le; lia).
    rewrite Hc. unfold bind at 1.
    assert (Hfr : frame_ok p) by (unfold frame_ok, PGSIZE; repeat split; lia).
    rewrite kfree_eq by assumption. unfold PGSIZE.
    destruct (IH fuel (p + 4096)
                 (mkWorld (settle (cpu w)) (mypid w) (ptable w)
                    (mkKalloc (mkKmem (mkSpin 0 None) p)
                       (store_le 8 (memset (ram (st w)) p 1 4096) p (freelist (kmem (st w)))))
                    (env w)) (p :: L)) as (w' & Hrun & Hr' & Hinv').
    { lia. }
    { lia. }
    { lia. }
    { rewrite <- Zplus_mod_idemp_l, Hal. reflexivity. }
    { lia. }
    { lia. }
    { lia. }
    { destruct k; [left; reflexivity|right; lia]. }
    { split; [exact Hn|reflexivity]. }
    { apply kmem_inv_push; try assumption.
      - intros Hin. rewrite Forall_forall in Hlt.
        apply list_elem_of_In, Hlt in Hin. lia.
      - eapply kmem_inv_u64; eassumption. }
    { constructor; [lia|]. eapply Forall_impl; [exact Hlt|]. cbn. intros; lia. }
    exists w'. rewrite Hrun. split; [reflexivity|]. split; [assumption|].
    cbn [frames rev]. unfold PGSIZE. rewrite <- app_assoc. exact Hinv'.
Qed.

Lemma frames_ok p k q :
  In q (frames p k) -> p mod PGSIZE = 0 -> end_ <= p -> p + PGSIZE * Z.of_nat k <= PHYSTOP ->
  frame_ok q.
Proof.
  revert p. induction k as [|k IH]; intros p Hin Hal Hlo Hhi; cbn [frames] in Hin; [contradiction|].
  destruct Hin as [<-|Hin].
  - unfold frame_ok, PGSIZE in *. repeat split; lia.
  - apply (IH (p + PGSIZE)); try assumption; unfold PGSIZE in *; try lia.
    rewrite <- Zplus_mod_idemp_l, Hal. reflexivity.
Qed.

(** The number of whole frames between [PGROUNDUP(end)] and [PHYSTOP]. *)
Definition nframes : nat := Z.to_nat ((PHYSTOP - PGROUNDUP end_) / PGSIZE).

Lemma kinit_spec (w : world kalloc_state) :
  end_ <= PHYSTOP -> PHYSTOP + 2 * PGSIZE <= 2 ^ 64 ->
  noff_ok (cpu w) -> freelist (kmem (st w)) = 0 ->
  exists w',
    kinit end_ PHYSTOP w = Ok tt w' /\
    kalloc_ready w' /\ kmem_inv (st w') (rev (frames (PGROUNDUP end_) nframes)).
Proof.
  intros Hle Hphys Hn Hfl.
  destruct (PGROUNDUP_spec end_ ltac:(lia) ltac:(unfold PGSIZE in *; lia)) as (Hal & Hlo & Hhi).
  unfold kinit, freerange. unfold bind at 1, store at 1.
  cbn [st set_st cpu mypid ptable env update kmem_lock].
  pose proof (Z.div_mod (PHYSTOP - PGROUNDUP end_) PGSIZE ltac:(unfold PGSIZE; lia)) as Hdm.
  pose proof (Z.mod_pos_bound (PHYSTOP - PGROUNDUP end_) PGSIZE ltac:(unfold PGSIZE; lia)) as Hmb.
  assert (H1 : PHYSTOP < PGROUNDUP end_ + PGSIZE * (Z.of_nat nframes + 1)).
  { unfold nframes. unfold PGSIZE in *.
    set (q := (PHYSTOP - PGROUNDUP end_) / 4096) in *.
    destruct (Z.le_gt_cases 0 q) as [Hq|Hq]; lia. }
  assert (H2 : nframes = 0%nat \/ PGROUNDUP end_ + PGSIZE * Z.of_nat nframes <= PHYSTOP).
  { unfold nframes. unfold PGSIZE in *.
    set (q := (PHYSTOP - PGROUNDUP end_) / 4096) in *.
    destruct (Z.le_gt_cases 0 q) as [Hq|Hq]; [|left; lia].
    destruct (Z.to_nat q) eqn:E; [left; reflexivity|right]. lia. }
  destruct (freerange_loop_spec PHYSTOP nframes nframes (PGROUNDUP end_)
              (mkWorld (cpu w) (mypid w) (ptable w)
                 (mkKalloc (mkKmem (mkSpin 0 None) (freelist (kmem (st w)))) (ram (st w))) (env w))
              [] (le_n _) (Z.le_refl _) Hphys Hal ltac:(lia) ltac:(lia) H1 H2)
    as (w' & Hrun & Hr' & Hinv').
  - split; [assumption|reflexivity].
  - cbn [st]. rewrite Hfl. split; [reflexivity|]. split; constructor.
  - constructor.
  - exists w'. rewrite app_nil_r in Hinv'. split; [exact Hrun|]. split; assumption.
Qed.

Lemma kalloc_empty (w : world kalloc_state) :
  kalloc_ready w -> freelist (kmem (st w)) = 0 ->
  exists w', kalloc w = Ok 0 w' /\ freelist (kmem (st w')) = 0.
Proof.
  intros (Hn & Hf) H0. rewrite kalloc_eq by assumption. cbv zeta. rewrite H0.
  eexists. split; reflexivity.
Qed.

Lemma kfree_kalloc p (w : world kalloc_state) :
  kalloc_ready w -> frame_ok p ->
  exists w',
    (kfree end_ PHYSTOP p ;; kalloc) w = Ok p w' /\
    (is_u64 (freelist (kmem (st w))) -> freelist (kmem (st w')) = freelist (kmem (st w))).
Proof.
  intros (Hn & Hf) Hp. unfold bind. rewrite kfree_eq by assumption.
  rewrite kalloc_eq by (try assumption; reflexivity). cbv zeta. cbn [st kmem freelist ram].
  assert (Hp0 : p <> 0) by (destruct Hp as (_ & Hlo & _); lia).
  rewrite (truthy_true _ Hp0).
  eexists. split; [reflexivity|]. cbn [st kmem freelist].
  intros Hu. rewrite load_store_le. change (256 ^ Z.of_nat 8) with (2 ^ 64).
  apply Z.mod_small. exact Hu.
Qed.
End KallocSpecs.

(** C9: the frame allocator's free list is last-in first-out. After
    [kinit], successive calls of [kalloc] return the frames between
    [PGROUNDUP(end)] and [PHYSTOP], last freed first, then null: the
    frames returned are distinct, 4096-aligned and within
    [[end, PHYSTOP)]; [kalloc] on an empty free list returns null; and
    a [kalloc] right after [kfree(p)] returns [p] and leaves the free
    list as it was before the [kfree]. *)
Theorem kalloc_kfree_lifo (end_ PHYSTOP : Z) :
  0 < end_ -> end_ <= PHYSTOP -> PHYSTOP + 2 * PGSIZE <= 2 ^ 64 ->
  (forall (w : world kalloc_state) (k : nat),
      noff_ok (cpu w) -> freelist (kmem (st w)) = 0 ->
      exists w1 rs w2,
        kinit end_ PHYSTOP w = Ok tt w1 /\
        kalloc_times k w1 = Ok rs w2 /\
        rs = take k (rev (frames (PGROUNDUP end_) (nframes end_ PHYSTOP)))
             ++ repeat 0 (k - nframes end_ PHYSTOP) /\
        (forall i j r, rs !! i = Some r -> rs !! j = Some r -> r <> 0 -> i = j) /\
        (forall i r, rs !! i = Some r -> r <> 0 -> r mod PGSIZE = 0 /\ end_ <= r < PHYSTOP)) /\
  (forall w : world kalloc_state,
      kalloc_ready w -> freelist (kmem (st w)) = 0 ->
      exists w', kalloc w = Ok 0 w' /\ freelist (kmem (st w')) = 0) /\
  (forall (w : world kalloc_state) (p : Z),
      kalloc_ready w -> frame_ok end_ PHYSTOP p ->
      exists w',
        (kfree end_ PHYSTOP p ;; kalloc) w = Ok p w' /\
        (is_u64 (freelist (kmem (st w))) -> freelist (kmem (st w')) = freelist (kmem (st w)))).
Proof.
  intros Hpos Hle Hphys. split; [|split].
  - intros w k Hn Hfl.
    assert (Hu : PHYSTOP <= 2 ^ 64) by (unfold PGSIZE in Hphys; lia).
    destruct (kinit_spec end_ PHYSTOP Hpos Hu w Hle Hphys Hn Hfl) as (w1 & Hinit & Hr1 & Hinv1).
    destruct (kalloc_times_spec end_ PHYSTOP k w1 _ Hr1 Hinv1) as (w2 & Hrun & _ & _).
    exists w1. eexists. exists w2. split; [exact Hinit|]. split; [exact Hrun|].
    rewrite length_rev.
    assert (Hlen : forall p n, length (frames p n) = n).
    { intros p n. revert p. induction n; intros p; cbn; [reflexivity|]. now rewrite IHn. }
    rewrite Hlen. split; [reflexivity|].
    destruct Hinv1 as (_ & Hok & Hnd).
    set (L := rev (frames (PGROUNDUP end_) (nframes end_ PHYSTOP))) in *.
    assert (Hsrc : forall i r, (take k L ++ repeat 0 (k - nframes end_ PHYSTOP)) !! i = Some r ->
                               r <> 0 -> L !! i = Some r).
    { intros i r Hi Hr. apply lookup_app_Some in Hi. destruct Hi as [Hi|[_ Hi]].
      - apply lookup_take_Some in Hi. tauto.
      - exfalso. apply Hr. apply list_elem_of_lookup_2, list_elem_of_In, repeat_spec in Hi.
        assumption. }
    split.
    + intros i j r Hi Hj Hr. eapply NoDup_lookup; [exact Hnd| |]; eapply Hsrc; eassumption.
    + intros i r Hi Hr. apply Hsrc in Hi; [|assumption].
      rewrite Forall_forall in Hok. apply Hok. eapply list_elem_of_lookup_2. exact Hi.
  - intros w Hr H0. now apply kalloc_empty.
  - intros w p Hr Hp. now apply (kfree_kalloc end_ PHYSTOP Hpos p w).
Qed.

(** The scenario over the synthetic region [0x80020000, 0x80022000):
    two frames, then null. *)
Definition boot_kmem : world kalloc_state :=
  mkWorld boot_cpu 1 [] (mkKalloc (mkKmem (mkSpin 0 None) 0) (fun _ => 0)) [].

Lemma kalloc_kfree_lifo_witness :
  exists w1 w2,
    kinit 0x80020000 0x80022000 boot_kmem = Ok tt w1 /\
    kalloc_times 3 w1 = Ok [0x80021000; 0x80020000; 0] w2.
Proof.
  destruct (proj1 (kalloc_kfree_lifo 0x80020000 0x80022000 ltac:(lia) ltac:(lia)
                     ltac:(unfold PGSIZE; lia)) boot_kmem 3%nat)
    as (w1 & rs & w2 & H1 & H2 & H3 & _).
  - unfold noff_ok. cbn. lia.
  - reflexivity.
  - exists w1, w2. split; [exact H1|]. rewrite H2, H3. reflexivity.
Defined.

(** Freeing the second frame and allocating again returns it. *)
Example frames_scenario :
  match (kinit 0x80020000 0x80022000 ;;
         a <- kalloc ;; b <- kalloc ;; c <- kalloc ;;
         kfree 0x80020000 0x80022000 b ;;
         d <- kalloc ;; ret (a, b, c, d)) boot_kmem with
  | Ok r _ => r = (0x80021000, 0x80020000, 0, 0x80020000)
  | _ => False
  end.
Proof. vm_compute. reflexivity. Qed.

(** ** bio.c: the LRU list

    The list is circular and doubly linked through [next] and [prev],
    with [bcache.head] as sentinel. [chain f N p l] says that following
    the link [f] from node [p] visits the buffers [l] in order and then
    arrives at the head [N]. *)

Local Open Scope nat_scope.

Fixpoint chain (f : nat -> nat) (N z : nat) (p : nat) (l : list nat) : Prop :=
  match l with
  | [] => f p = z
  | x :: l' => f p = x /\ x < N /\ chain f N z x l'
  end.

Definition upd (f : nat -> nat) (x v : nat) : nat -> nat :=
  fun i => if Nat.eqb i x then v else f i.

Lemma upd_same f x v : upd f x v x = v.
Proof. unfold upd. now rewrite Nat.eqb_refl. Qed.

Lemma upd_other f x v i : i <> x -> upd f x v i = f i.
Proof. unfold upd. intros H. apply Nat.eqb_neq in H. now rewrite H. Qed.

Lemma chain_ext f g N z p l :
  (forall x, In x (p :: l) -> f x = g x) -> chain f N z p l -> chain g N z p l.
Proof.
  revert p. induction l as [|x l IH]; intros p H; cbn [chain].
  - intros <-. symmetry. apply H. left. reflexivity.
  - intros (Hx & Hlt & Hc). split; [rewrite <- Hx; symmetry; apply H; left; reflexivity|].
    split; [assumption|]. apply IH; [|assumption].
    intros y Hy. apply H. right. assumption.
Qed.

Lemma chain_bound f N z p l x : chain f N z p l -> In x l -> x < N.
Proof.
  revert p. induction l as [|y l IH]; intros p Hc Hin; [contradiction|].
  cbn [chain] in Hc. destruct Hc as (_ & Hlt & Hc).
  destruct Hin as [<-|Hin]; [assumption|]. eapply IH; eassumption.
Qed.

Lemma last_cons_in {A} (l : list A) (x : A) : In (List.last l x) (x :: l).
Proof.
  induction l as [|y l IH]; [left; reflexivity|].
  destruct l as [|y' l]; [right; left; reflexivity|].
  change (List.last (y :: y' :: l) x) with (List.last (y' :: l) x).
  destruct IH as [IH|IH]; [left; assumption|right; right; assumption].
Qed.

Lemma last_cons {A} (l : list A) (x d : A) : List.last (x :: l) d = List.last l x.
Proof.
  revert x d. induction l as [|y l IH]; intros x d; [reflexivity|].
  change (List.last (x :: y :: l) d) with (List.last (y :: l) d).
  rewrite (IH y d), (IH y x). reflexivity.
Qed.

(** The successor of a node of the chain. *)
Lemma chain_succ f N z p l1 b l2 :
  chain f N z p (l1 ++ b :: l2) -> f b = hd z l2.
Proof.
  revert p. induction l1 as [|x l1 IH]; intros p; cbn [app chain].
  - intros (_ & _ & H). destruct l2; cbn in *; tauto.
  - intros (_ & _ & H). eapply IH. exact H.
Qed.

(** Taking [b] out of the chain: its predecessor is linked to its
    successor. *)
Lemma chain_unlink f N z p l1 b l2 :
  chain f N z p (l1 ++ b :: l2) -> List.NoDup (p :: l1 ++ b :: l2) ->
  chain (upd f (List.last l1 p) (f b)) N z p (l1 ++ l2).
Proof.
  revert p. induction l1 as [|x l1 IH]; intros p Hc Hnd.
  - cbn [app List.last] in *. destruct Hc as (Hb & Hlt & Hc).
    apply NoDup_cons_iff in Hnd. destruct Hnd as [Hp Hnd].
    destruct l2 as [|y l2]; cbn [chain] in *.
    + rewrite upd_same. assumption.
    + destruct Hc as (Hy & Hylt & Hc). rewrite upd_same.
      split; [assumption|]. split; [assumption|].
      apply (chain_ext f); [|assumption].
      intros u Hu. rewrite upd_other; [reflexivity|].
      intros ->. apply Hp. right. assumption.
  - cbn [app chain] in Hc. destruct Hc as (Hx & Hlt & Hc).
    rewrite last_cons. cbn [app chain].
    pose proof Hnd as Hnd'. apply NoDup_cons_iff in Hnd'. destruct Hnd' as [Hp Hnd'].
    split; [|split; [assumption|apply IH; assumption]].
    rewrite upd_other; [assumption|].
    intros ->. apply Hp. cbn [app].
    pose proof (last_cons_in l1 x) as Hin.
    destruct Hin as [<-|Hin]; [left; reflexivity|right; apply in_or_app; left; assumption].
Qed.

(** Putting [b] right after [p]. *)
Lemma chain_push_front f N z p l b :
  chain f N z p l -> ~ In b (p :: l) -> ~ In p l -> b < N ->
  chain (upd (upd f b (f p)) p b) N z p (b :: l).
Proof.
  intros Hc Hb Hp Hlt. cbn [chain].
  split; [apply upd_same|]. split; [assumption|].
  assert (Hbp : b <> p) by (intros ->; apply Hb; left; reflexivity).
  destruct l as [|y l]; cbn [chain] in *.
  - rewrite upd_other, upd_same by assumption. assumption.
  - destruct Hc as (Hy & Hylt & Hc).
    rewrite upd_other, upd_same by assumption.
    split; [assumption|]. split; [assumption|].
    apply (chain_ext f); [|assumption].
    intros u Hu. rewrite !upd_other; [reflexivity| |].
    + intros ->. apply Hb. right. assumption.
    + intros ->. apply Hp. assumption.
Qed.

(** Putting [b] at the end, right before the target. *)
Lemma chain_push_back g N z p l b :
  chain g N z p l -> ~ In b (p :: l) -> List.NoDup (p :: l) -> b < N ->
  chain (upd (upd g b z) (List.last l p) b) N z p (l ++ [b]).
Proof.
  revert p. induction l as [|x l IH]; intros p Hc Hb Hnd Hlt.
  - cbn [app List.last chain] in *.
    assert (Hbp : b <> p) by (intros ->; apply Hb; left; reflexivity).
    rewrite upd_same. split; [reflexivity|]. split; [assumption|].
    rewrite upd_other, upd_same by assumption. reflexivity.
  - cbn [chain] in Hc. destruct Hc as (Hx & Hxlt & Hc).
    rewrite last_cons. cbn [app chain].
    apply NoDup_cons_iff in Hnd. destruct Hnd as [Hp Hnd].
    split; [|split; [assumption|]].
    + rewrite !upd_other; [assumption| |].
      * intros ->. apply Hb. left. reflexivity.
      * intros ->. apply Hp. apply last_cons_in.
    + apply IH; try assumption.
      intros Hin. apply Hb. right. assumption.
Qed.

Local Close Scope nat_scope.

(** The links of a state, and one assignment to [x->next] or [x->prev]. *)
Definition nxt (s : fs) (i : nat) : nat := next (get_buf i s).
Definition prv (s : fs) (i : nat) : nat := prev (get_buf i s).

Definition wrn (x v : nat) (s : fs) : fs := put_buf x (set_next v (get_buf x s)) s.
Definition wrp (x v : nat) (s : fs) : fs := put_buf x (set_prev v (get_buf x s)) s.

(** What a buffer holds besides its links. *)
Definition info (x : buf) : Z * Z * Z * Z * sleeplock * Z * list Z :=
  (valid x, disk x, dev x, blockno x, lock x, refcnt x, data x).

(** The LRU list of the state is [l], most recently used first. *)
Definition dll (s : fs) (l : list nat) : Prop :=
  chain (nxt s) (NBUF_of s) (NBUF_of s) (NBUF_of s) l /\
  chain (prv s) (NBUF_of s) (NBUF_of s) (NBUF_of s) (rev l) /\
  List.NoDup l.

Section Links.
Variable s : fs.
Variables x v : nat.
Hypothesis Hx : (x <= NBUF_of s)%nat.

Lemma get_put_buf_canon i y :
  (i <= NBUF_of s)%nat -> get_buf i (put_buf x y s) = if Nat.eqb i x then y else get_buf i s.
Proof.
  intros Hi. destruct (Nat.eqb_spec i x) as [->|Hne]; [apply get_put_buf|].
  apply get_put_buf_ne; [congruence|lia].
Qed.

Lemma nxt_wrn i : (i <= NBUF_of s)%nat -> nxt (wrn x v s) i = upd (nxt s) x v i.
Proof.
  intros Hi. unfold nxt, wrn, upd. rewrite get_put_buf_canon by assumption.
  destruct (Nat.eqb i x) eqn:E; [|reflexivity]. reflexivity.
Qed.

Lemma prv_wrn i : (i <= NBUF_of s)%nat -> prv (wrn x v s) i = prv s i.
Proof.
  intros Hi. unfold prv, wrn. rewrite get_put_buf_canon by assumption.
  destruct (Nat.eqb_spec i x) as [->|]; reflexivity.
Qed.

Lemma prv_wrp i : (i <= NBUF_of s)%nat -> prv (wrp x v s) i = upd (prv s) x v i.
Proof.
  intros Hi. unfold prv, wrp, upd. rewrite get_put_buf_canon by assumption.
  destruct (Nat.eqb i x) eqn:E; reflexivity.
Qed.

Lemma nxt_wrp i : (i <= NBUF_of s)%nat -> nxt (wrp x v s) i = nxt s i.
Proof.
  intros Hi. unfold nxt, wrp. rewrite get_put_buf_canon by assumption.
  destruct (Nat.eqb_spec i x) as [->|]; reflexivity.
Qed.

Lemma info_wrn i : (i <= NBUF_of s)%nat -> info (get_buf i (wrn x v s)) = info (get_buf i s).
Proof.
  intros Hi. unfold wrn. rewrite get_put_buf_canon by assumption.
  destruct (Nat.eqb_spec i x) as [->|]; reflexivity.
Qed.

Lemma info_wrp i : (i <= NBUF_of s)%nat -> info (get_buf i (wrp x v s)) = info (get_buf i s).
Proof.
  intros Hi. unfold wrp. rewrite get_put_buf_canon by assumption.
  destruct (Nat.eqb_spec i x) as [->|]; reflexivity.
Qed.
End Links.

Lemma NBUF_wrn x v s : NBUF_of (wrn x v s) = NBUF_of s.
Proof. apply NBUF_put_buf. Qed.
Lemma NBUF_wrp x v s : NBUF_of (wrp x v s) = NBUF_of s.
Proof. apply NBUF_put_buf. Qed.

(** The rest of the state: everything but the buffers. *)
Definition rest (s : fs) : spinlock * log_t * list (Z * list Z) := (bc_lock (bcache s), log s, writes s).

Lemma rest_put_buf x y s : rest (put_buf x y s) = rest s /\ dsk (put_buf x y s) = dsk s.
Proof. unfold rest. case_put_buf; split; reflexivity. Qed.

(** The six pointer assignments of [brelse]. *)
Definition relink (b : nat) (s : fs) : fs :=
  let N := NBUF_of s in
  let s1 := wrp (nxt s b) (prv s b) s in
  let s2 := wrn (prv s1 b) (nxt s1 b) s1 in
  let s3 := wrn b (nxt s2 N) s2 in
  let s4 := wrp b N s3 in
  let s5 := wrp (nxt s4 N) b s4 in
  wrn N b s5.

Lemma hd_rev_last (l : list nat) (d : nat) : hd d (rev l) = List.last l d.
Proof.
  induction l as [|x l IH] using rev_ind; [reflexivity|].
  rewrite rev_app_distr. cbn [rev app hd].
  clear IH. induction l as [|y l IH]; [reflexivity|].
  cbn [app]. destruct (l ++ [x]) eqn:E; [destruct l; discriminate|].
  change (List.last (y :: n :: l0) d) with (List.last (n :: l0) d). exact IH.
Qed.

Lemma last_rev_hd (l : list nat) (d : nat) : List.last (rev l) d = hd d l.
Proof. rewrite <- (rev_involutive l) at 2. symmetry. apply hd_rev_last. Qed.

Lemma dll_bound s l x : dll s l -> In x l -> (x < NBUF_of s)%nat.
Proof. intros (H & _ & _). eapply chain_bound. exact H. Qed.

Lemma relink_spec b s l1 l2 :
  dll s (l1 ++ b :: l2) ->
  let s' := relink b s in
  dll s' (b :: l1 ++ l2) /\
  NBUF_of s' = NBUF_of s /\
  (forall i, (i <= NBUF_of s)%nat -> info (get_buf i s') = info (get_buf i s)) /\
  rest s' = rest s /\ dsk s' = dsk s.
Proof.
  intros Hd. pose proof Hd as (Hn & Hp & Hnd).
  set (N := NBUF_of s) in *.
  assert (HbN : (b < N)%nat) by (eapply dll_bound; [exact Hd|apply in_elt]).
  assert (Hall : forall x, In x (l1 ++ b :: l2) -> (x < N)%nat) by (intros; eapply dll_bound; eassumption).
  assert (HNnotin : forall l', (forall x, In x l' -> (x < N)%nat) -> ~ In N l').
  { intros l' H Hin. apply H in Hin. lia. }
  rewrite rev_app_distr in Hp. cbn [rev] in Hp. rewrite <- app_assoc in Hp. cbn [app] in Hp.
  assert (Hbn : nxt s b = hd N l2) by (eapply chain_succ; exact Hn).
  assert (Hbp : prv s b = List.last l1 N).
  { rewrite <- hd_rev_last. eapply chain_succ. exact Hp. }
  assert (HbnN : (nxt s b <= N)%nat).
  { rewrite Hbn. destruct l2; cbn; [lia|]. apply Nat.lt_le_incl, Hall. apply in_or_app. right. right. left. reflexivity. }
  assert (HbpN : (prv s b <= N)%nat).
  { rewrite Hbp. destruct (last_cons_in l1 N) as [<-|Hin]; [lia|].
    apply Nat.lt_le_incl, Hall. apply in_or_app. left. assumption. }
  assert (Hnd1 : List.NoDup (N :: l1 ++ b :: l2)).
  { constructor; [apply HNnotin; assumption|assumption]. }
  assert (Hnd2 : List.NoDup (N :: rev l2 ++ b :: rev l1)).
  { constructor.
    - apply HNnotin. intros x Hx. apply Hall.
      apply in_app_or in Hx. apply in_or_app.
      destruct Hx as [Hx|[<-|Hx]]; [right; right; apply in_rev; assumption|right; left; reflexivity|left; apply in_rev; assumption].
    - replace (rev l2 ++ b :: rev l1) with (rev (l1 ++ b :: l2))
        by (rewrite rev_app_distr; cbn [rev]; rewrite <- app_assoc; reflexivity).
      apply NoDup_rev. assumption. }
  assert (Hb_bn : b <> nxt s b).
  { rewrite Hbn. apply NoDup_remove_2 in Hnd. destruct l2 as [|y l2']; cbn; [lia|].
    intros ->. apply Hnd. apply in_or_app. right. left. reflexivity. }
  (* after the first two assignments *)
  unfold relink. fold N. cbv zeta.
  set (s1 := wrp (nxt s b) (prv s b) s).
  assert (N1 : NBUF_of s1 = N) by apply NBUF_wrp.
  assert (Hprv1 : prv s1 b = prv s b).
  { unfold s1. rewrite prv_wrp by (fold N; lia). apply upd_other. assumption. }
  assert (Hnxt1 : nxt s1 b = nxt s b) by (unfold s1; apply nxt_wrp; fold N; lia).
  rewrite Hprv1, Hnxt1.
  set (s2 := wrn (prv s b) (nxt s b) s1).
  assert (N2 : NBUF_of s2 = N) by (unfold s2; rewrite NBUF_wrn; assumption).
  assert (Hf2 : forall i, (i <= N)%nat -> nxt s2 i = upd (nxt s) (List.last l1 N) (nxt s b) i).
  { intros i Hi. unfold s2. rewrite nxt_wrn by (rewrite N1; lia).
    unfold upd. rewrite Hbp. unfold s1. rewrite nxt_wrp by (fold N; lia). reflexivity. }
  assert (Hg2 : forall i, (i <= N)%nat -> prv s2 i = upd (prv s) (List.last (rev l2) N) (prv s b) i).
  { intros i Hi. unfold s2. rewrite prv_wrn by (rewrite N1; lia).
    unfold s1. rewrite prv_wrp by (fold N; lia). rewrite last_rev_hd, Hbn. reflexivity. }
  assert (Hc2 : chain (nxt s2) N N N (l1 ++ l2)).
  { apply (chain_ext (upd (nxt s) (List.last l1 N) (nxt s b))).
    - intros y Hy. symmetry. apply Hf2.
      destruct Hy as [<-|Hy]; [lia|]. apply Nat.lt_le_incl, Hall.
      apply in_app_or in Hy. apply in_or_app. destruct Hy; [left|right; right]; assumption.
    - apply chain_unlink; assumption. }
  assert (Hd2 : chain (prv s2) N N N (rev l2 ++ rev l1)).
  { apply (chain_ext (upd (prv s) (List.last (rev l2) N) (prv s b))).
    - intros y Hy. symmetry. apply Hg2.
      destruct Hy as [<-|Hy]; [lia|]. apply Nat.lt_le_incl, Hall.
      apply in_app_or in Hy. apply in_or_app.
      destruct Hy as [Hy|Hy]; apply in_rev in Hy; [right; right|left]; assumption.
    - apply chain_unlink; assumption. }
  set (l' := l1 ++ l2) in *.
  assert (Hl' : forall y, In y l' -> (y < N)%nat).
  { intros y Hy. apply Hall. apply in_app_or in Hy. apply in_or_app.
    destruct Hy; [left|right; right]; assumption. }
  assert (Hbl' : ~ In b l') by (apply NoDup_remove_2 in Hnd; exact Hnd).
  assert (Hndl' : List.NoDup l') by (apply NoDup_remove_1 in Hnd; exact Hnd).
  set (hn := nxt s2 N).
  assert (Hhn : hn = hd N l').
  { unfold hn. destruct l'; cbn [chain hd] in *; tauto. }
  assert (HhnN : (hn <= N)%nat).
  { rewrite Hhn. destruct l' as [|y ?]; cbn; [lia|]. apply Nat.lt_le_incl, Hl'. left. reflexivity. }
  set (s3 := wrn b hn s2).
  assert (N3 : NBUF_of s3 = N) by (unfold s3; rewrite NBUF_wrn; assumption).
  set (s4 := wrp b N s3).
  assert (N4 : NBUF_of s4 = N) by (unfold s4; rewrite NBUF_wrp; assumption).
  assert (Hhn4 : nxt s4 N = hn).
  { unfold s4. rewrite nxt_wrp by lia. unfold s3. rewrite nxt_wrn by lia.
    apply upd_other. lia. }
  rewrite Hhn4.
  set (s5 := wrp hn b s4).
  assert (N5 : NBUF_of s5 = N) by (unfold s5; rewrite NBUF_wrp; assumption).
  set (s6 := wrn N b s5).
  assert (N6 : NBUF_of s6 = N) by (unfold s6; rewrite NBUF_wrn; assumption).
  assert (Hf6 : forall i, (i <= N)%nat -> nxt s6 i = upd (upd (nxt s2) b (nxt s2 N)) N b i).
  { intros i Hi. unfold s6. rewrite nxt_wrn by lia. unfold upd.
    destruct (Nat.eqb i N); [reflexivity|].
    unfold s5. rewrite nxt_wrp by lia. unfold s4. rewrite nxt_wrp by lia.
    unfold s3. rewrite nxt_wrn by lia. reflexivity. }
  assert (Hg6 : forall i, (i <= N)%nat -> prv s6 i = upd (upd (prv s2) b N) (List.last (rev l') N) b i).
  { intros i Hi. unfold s6. rewrite prv_wrn by lia.
    unfold s5. rewrite prv_wrp by lia. rewrite last_rev_hd, <- Hhn. unfold upd.
    destruct (Nat.eqb i hn); [reflexivity|].
    unfold s4. rewrite prv_wrp by lia. unfold upd.
    destruct (Nat.eqb i b); [reflexivity|].
    unfold s3. rewrite prv_wrn by lia. reflexivity. }
  split; [|split; [exact N6|split; [|split]]].
  - unfold dll. rewrite N6. split; [|split].
    + apply (chain_ext (upd (upd (nxt s2) b (nxt s2 N)) N b)).
      * intros y Hy. symmetry. apply Hf6.
        destruct Hy as [<-|[<-|Hy]]; [lia|lia|]. apply Nat.lt_le_incl, Hl'. assumption.
      * apply chain_push_front; try assumption.
        -- intros [Hin|Hin]; [lia|contradiction].
        -- apply HNnotin. assumption.
    + cbn [rev].
      apply (chain_ext (upd (upd (prv s2) b N) (List.last (rev l') N) b)).
      * intros y Hy. symmetry. apply Hg6.
        destruct Hy as [<-|Hy]; [lia|].
        apply in_app_or in Hy. destruct Hy as [Hy|[<-|[]]]; [|lia].
        apply Nat.lt_le_incl, Hl'. apply in_rev. assumption.
      * unfold l'. rewrite rev_app_distr.
        apply chain_push_back; try assumption.
        -- rewrite <- rev_app_distr. intros [Hin|Hin]; [lia|].
           apply in_rev in Hin. contradiction.
        -- rewrite <- rev_app_distr. constructor.
           ++ intros Hin. apply in_rev in Hin. apply HNnotin in Hin; [assumption|]. assumption.
           ++ apply NoDup_rev. assumption.
    + constructor; assumption.
  - intros i Hi. unfold s6. rewrite info_wrn by lia.
    unfold s5. rewrite info_wrp by lia. unfold s4. rewrite info_wrp by lia.
    unfold s3. rewrite info_wrn by lia. unfold s2. rewrite info_wrn by lia.
    unfold s1. rewrite info_wrp by (fold N; lia). reflexivity.
  - unfold s6, s5, s4, s3, s2, s1, wrn, wrp.
    repeat rewrite (proj1 (rest_put_buf _ _ _)). reflexivity.
  - unfold s6, s5, s4, s3, s2, s1, wrn, wrp.
    repeat rewrite (proj2 (rest_put_buf _ _ _)). reflexivity.
Qed.

(** Does the buffer cache block [bno] of device [dv]? *)
Definition caches (dv bno : Z) (x : buf) : bool := (dev x =? dv) && (blockno x =? bno).

Lemma dll_length s l : dll s l -> (length l <= NBUF_of s)%nat.
Proof.
  intros Hd. pose proof Hd as (_ & _ & Hnd).
  assert (Hi : incl l (seq 0 (NBUF_of s))).
  { intros x Hx. apply in_seq. pose proof (dll_bound s l x Hd Hx). lia. }
  pose proof (NoDup_incl_length Hnd Hi) as H.
  rewrite List.length_seq in H. exact H.
Qed.

Section BgetScans.
Variable ba : nat -> Z.
Variables dv bno : Z.
Variable w : world fs.

Local Abbreviation N := (NBUF_of (st w)).

(** The first loop of [bget] walks the whole list when the block is
    not cached, and leaves the state alone. *)
Lemma bget_cached_miss l :
  forall p fuel,
    chain (nxt (st w)) N N p l -> (length l <= fuel)%nat ->
    (forall x, In x l -> caches dv bno (get_buf x (st w)) = false) ->
    bget_cached ba fuel dv bno (nxt (st w) p) w = Ok None w.
Proof.
  induction l as [|x l IH]; intros p fuel Hc Hlen Hmiss.
  - cbn [chain] in Hc. rewrite Hc.
    destruct fuel; cbn [bget_cached]; unfold bind, is_head, gets, ret;
      rewrite Nat.leb_refl; reflexivity.
  - cbn [chain] in Hc. destruct Hc as (Hx & Hlt & Hc). rewrite Hx.
    destruct fuel as [|fuel]; [cbn in Hlen; lia|].
    cbn [bget_cached]. unfold bind at 1, is_head, gets.
    destruct (Nat.leb_spec N x) as [Hge|_]; [lia|].
    unfold bind at 1 2, rd at 1 2, gets.
    pose proof (Hmiss x (or_introl eq_refl)) as Hm. unfold caches in Hm. rewrite Hm.
    unfold bind at 1, rd at 1, gets.
    apply IH; [assumption|cbn in Hlen; lia|].
    intros y Hy. apply Hmiss. right. assumption.
Qed.

(** The second loop walks from the LRU end past the buffers in use. *)
Lemma bget_recycle_none l :
  forall p fuel,
    chain (prv (st w)) N N p l -> (length l <= fuel)%nat ->
    (forall x, In x l -> refcnt (get_buf x (st w)) <> 0) ->
    bget_recycle ba fuel dv bno (prv (st w) p) w = Ok None w.
Proof.
  induction l as [|x l IH]; intros p fuel Hc Hlen Hbusy.
  - cbn [chain] in Hc. rewrite Hc.
    destruct fuel; cbn [bget_recycle]; unfold bind, is_head, gets, ret;
      rewrite Nat.leb_refl; reflexivity.
  - cbn [chain] in Hc. destruct Hc as (Hx & Hlt & Hc). rewrite Hx.
    destruct fuel as [|fuel]; [cbn in Hlen; lia|].
    cbn [bget_recycle]. unfold bind at 1, is_head, gets.
    destruct (Nat.leb_spec N x) as [Hge|_]; [lia|].
    unfold bind at 1, rd at 1, gets.
    pose proof (Hbusy x (or_introl eq_refl)) as Hb.
    destruct (Z.eqb_spec (refcnt (get_buf x (st w))) 0) as [E|_]; [contradiction|].
    unfold bind at 1, rd at 1, gets.
    apply IH; [assumption|cbn in Hlen; lia|].
    intros y Hy. apply Hbusy. right. assumption.
Qed.

Lemma bget_recycle_hit l b r :
  forall p fuel,
    chain (prv (st w)) N N p (l ++ b :: r) -> (length l <= fuel)%nat ->
    (forall x, In x l -> refcnt (get_buf x (st w)) <> 0) ->
    refcnt (get_buf b (st w)) = 0 ->
    bget_recycle ba fuel dv bno (prv (st w) p) w =
      (wr b (set_dev dv) ;; wr b (set_blockno bno) ;; wr b (set_valid 0) ;;
       wr b (set_refcnt 1) ;; release bcache_lock ;; acquiresleep (buf_lock ba b) ;;
       ret (Some b))%K w.
Proof.
  induction l as [|x l IH]; intros p fuel Hc Hlen Hbusy Hfree.
  - cbn [app chain] in Hc. destruct Hc as (Hx & Hlt & Hc). rewrite Hx.
    destruct fuel; cbn [bget_recycle]; unfold bind at 1, is_head, gets;
      (destruct (Nat.leb_spec N b) as [Hge|_]; [lia|]);
      unfold bind at 1, rd at 1, gets; rewrite Hfree; reflexivity.
  - cbn [app chain] in Hc. destruct Hc as (Hx & Hlt & Hc). rewrite Hx.
    destruct fuel as [|fuel]; [cbn in Hlen; lia|].
    cbn [bget_recycle]. unfold bind at 1, is_head, gets.
    destruct (Nat.leb_spec N x) as [Hge|_]; [lia|].
    unfold bind at 1, rd at 1, gets.
    pose proof (Hbusy x (or_introl eq_refl)) as Hb.
    destruct (Z.eqb_spec (refcnt (get_buf x (st w))) 0) as [E|_]; [contradiction|].
    unfold bind at 1, rd at 1, gets.
    apply IH; [assumption|cbn in Hlen; lia| |assumption].
    intros y Hy. apply Hbusy. right. assumption.
Qed.
End BgetScans.

(** States with the same links have the same list. *)
Lemma dll_same_links s s' l :
  NBUF_of s' = NBUF_of s ->
  (forall i, (i <= NBUF_of s)%nat -> nxt s' i = nxt s i /\ prv s' i = prv s i) ->
  dll s l -> dll s' l.
Proof.
  intros HN Hl (Hn & Hp & Hnd). unfold dll. rewrite HN.
  split; [|split; [|assumption]].
  - apply (chain_ext (nxt s)); [|assumption].
    intros x [<-|Hx]; [symmetry; apply Hl; lia|].
    symmetry. apply Hl. apply Nat.lt_le_incl. eapply chain_bound; [exact Hn|exact Hx].
  - apply (chain_ext (prv s)); [|assumption].
    intros x [<-|Hx]; [symmetry; apply Hl; lia|].
    symmetry. apply Hl. apply Nat.lt_le_incl. eapply chain_bound; [exact Hp|exact Hx].
Qed.

(** The state in which the bcache spinlock is held by hart [c]. *)
Definition bc_locked (c : cpu_t) (s : fs) : fs :=
  update bcache_lock (mkSpin 1 (Some (cpu_id c))) s.

Lemma get_buf_bc_lock l i s : get_buf i (update bcache_lock l s) = get_buf i s.
Proof. reflexivity. Qed.

Lemma NBUF_bc_lock l s : NBUF_of (update bcache_lock l s) = NBUF_of s.
Proof. reflexivity. Qed.

(** Buffer [b] after [bget] has recycled it for block [bno] of device
    [dv] on behalf of process [pid]. *)
Definition recycled (dv bno pid : Z) (x : buf) : buf :=
  mkBuf 0 (disk x) dv bno (mkSleep 1 (mkSpin 0 None) pid) 1 (prev x) (next x) (data x).

Definition recycle (dv bno pid : Z) (b : nat) (s : fs) : fs :=
  put_buf b (recycled dv bno pid (get_buf b s)) (update bcache_lock (mkSpin 0 None) s).

Lemma put_buf_bc_lock l b x s :
  update bcache_lock l (put_buf b x s) = put_buf b x (update bcache_lock l s).
Proof. case_put_buf; reflexivity. Qed.

Lemma bc_lock_twice l l' s : update bcache_lock l (update bcache_lock l' s) = update bcache_lock l s.
Proof. reflexivity. Qed.

Lemma bget_claim ba dv bno b c0 pid pt s e :
  noff_ok c0 ->
  locked (sl_lk (lock (get_buf b s))) = 0 -> sl_locked (lock (get_buf b s)) = 0 ->
  (wr b (set_dev dv) ;; wr b (set_blockno bno) ;; wr b (set_valid 0) ;;
   wr b (set_refcnt 1) ;; release bcache_lock ;; acquiresleep (buf_lock ba b) ;;
   ret (Some b)) (mkWorld (pushed c0) pid pt (bc_locked c0 s) e) =
  Ok (Some b) (mkWorld (settle c0) pid pt (recycle dv bno pid b s) e).
Proof.
  intros Hn Hf H0.
  unfold bind at 1 2 3 4, wr, modify. cbn [st set_st cpu mypid ptable env].
  rewrite !get_put_buf, !put_put_buf. cbn [set_dev set_blockno set_valid set_refcnt
    valid disk dev blockno lock refcnt prev next data].
  unfold bind at 1. rewrite release_pushed; try assumption; try apply bcache_lock_lawful.
  2:{ unfold bc_locked. case_put_buf; reflexivity. }
  unfold bc_locked. rewrite get_buf_bc_lock, put_buf_bc_lock, bc_lock_twice.
  unfold bind at 1.
  rewrite (acquiresleep_free _ (buf_lock_lawful ba b)).
  - unfold ret. cbn [st set_st cpu mypid ptable env]. rewrite settle_settle.
    f_equal. f_equal. unfold recycle, recycled.
    cbn [buf_lock update view]. rewrite get_put_buf, put_put_buf. reflexivity.
  - cbn [st view buf_lock]. rewrite get_put_buf. exact Hf.
  - cbn [st view buf_lock]. rewrite get_put_buf. exact H0.
  - exact Hn.
Qed.

Section BgetSpecs.
Variable ba : nat -> Z.
Variables dv bno : Z.
Variable w : world fs.
Variable l : list nat.
Hypothesis Hnoff : noff_ok (cpu w).
Hypothesis Hfree : locked (bc_lock (bcache (st w))) = 0.
Hypothesis Hdll : dll (st w) l.
Hypothesis Hmiss : forall x, In x l -> caches dv bno (get_buf x (st w)) = false.

Lemma bget_to_recycle :
  bget ba dv bno w =
    (r <- bget_recycle ba (NBUF_of (st w)) dv bno (prv (st w) (NBUF_of (st w))) ;;
     match r with
     | Some b => ret b
     | None => panic "bget: no buffers"
     end) (mkWorld (pushed (cpu w)) (mypid w) (ptable w) (bc_locked (cpu w) (st w)) (env w)).
Proof.
  unfold bget. unfold bind at 1.
  rewrite acquire_free by (try apply bcache_lock_lawful; assumption).
  fold (bc_locked (cpu w) (st w)).
  set (W := mkWorld _ _ _ _ _).
  unfold bind at 1, head at 1, gets at 1.
  unfold bind at 1, gets at 1.
  unfold bind at 1, rd at 1, gets at 1.
  destruct Hdll as (Hn & Hp & Hnd).
  pose proof (bget_cached_miss ba dv bno W l (NBUF_of (st w)) (NBUF_of (st w))) as E.
  unfold bind at 1.
  change (next (get_buf (NBUF_of (st W)) (st W))) with (nxt (st W) (NBUF_of (st w))).
  change (NBUF_of (st W)) with (NBUF_of (st w)).
  rewrite E.
  - unfold bind at 1, rd at 1, gets at 1. reflexivity.
  - exact Hn.
  - apply dll_length. exact Hdll.
  - exact Hmiss.
Qed.

(** A miss with a free buffer: the free buffer nearest the LRU end is
    handed out, locked, for the new block. *)
Lemma bget_miss l1 b l2 :
  l = l1 ++ b :: l2 ->
  refcnt (get_buf b (st w)) = 0 ->
  (forall x, In x l2 -> refcnt (get_buf x (st w)) <> 0) ->
  locked (sl_lk (lock (get_buf b (st w)))) = 0 ->
  sl_locked (lock (get_buf b (st w))) = 0 ->
  bget ba dv bno w =
    Ok b (mkWorld (settle (cpu w)) (mypid w) (ptable w)
            (recycle dv bno (mypid w) b (st w)) (env w)).
Proof.
  intros El Hb Hbusy Hlf Hl0. rewrite bget_to_recycle.
  set (W := mkWorld _ _ _ _ _).
  destruct Hdll as (Hn & Hp & Hnd).
  unfold bind at 1.
  rewrite El, rev_app_distr in Hp. cbn [rev] in Hp. rewrite <- app_assoc in Hp. cbn [app] in Hp.
  change (prv (st w) (NBUF_of (st w))) with (prv (st W) (NBUF_of (st w))).
  rewrite (bget_recycle_hit ba dv bno W (rev l2) b (rev l1) (NBUF_of (st w)) (NBUF_of (st w))).
  - unfold W. rewrite bget_claim by assumption. reflexivity.
  - exact Hp.
  - rewrite length_rev. pose proof (dll_length _ _ Hdll) as Hlen.
    rewrite El, length_app in Hlen. cbn in Hlen. lia.
  - intros x Hx. apply Hbusy, in_rev. exact Hx.
  - exact Hb.
Qed.

(** A miss with every buffer in use is fatal. *)
Lemma bget_no_buffers :
  (forall x, In x l -> refcnt (get_buf x (st w)) <> 0) ->
  bget ba dv bno w =
    Panic "bget: no buffers"
      (mkWorld (pushed (cpu w)) (mypid w) (ptable w) (bc_locked (cpu w) (st w)) (env w)).
Proof.
  intros Hbusy. rewrite bget_to_recycle.
  set (W := mkWorld _ _ _ _ _).
  destruct Hdll as (Hn & Hp & Hnd).
  unfold bind at 1.
  change (prv (st w) (NBUF_of (st w))) with (prv (st W) (NBUF_of (st w))).
  rewrite (bget_recycle_none ba dv bno W (rev l) (NBUF_of (st w)) (NBUF_of (st w))).
  - reflexivity.
  - exact Hp.
  - rewrite length_rev. apply dll_length. exact Hdll.
  - intros x Hx. apply Hbusy, in_rev. exact Hx.
Qed.
End BgetSpecs.

Lemma relink_rest b s : rest (relink b s) = rest s.
Proof.
  unfold relink, wrn, wrp. cbv zeta.
  repeat rewrite (proj1 (rest_put_buf _ _ _)). reflexivity.
Qed.

Lemma relink_bc_lock b s : bc_lock (bcache (relink b s)) = bc_lock (bcache s).
Proof. exact (f_equal (fun r => fst (fst r)) (relink_rest b s)). Qed.

(** The pointer assignments of [brelse], run. *)
Ltac step_rd := unfold bind at 1, rd at 1, gets at 1; cbn [st].
Ltac step_wr := unfold bind at 1, wr at 1, modify at 1; cbn [st set_st cpu mypid ptable env].

Lemma relink_run b (w : world fs) :
  (bn <- rd b next ;; bp <- rd b prev ;; wr bn (set_prev bp) ;;
   bp <- rd b prev ;; bn <- rd b next ;; wr bp (set_next bn) ;;
   h <- head ;;
   hn <- rd h next ;; wr b (set_next hn) ;;
   wr b (set_prev h) ;;
   hn <- rd h next ;; wr hn (set_prev b) ;;
   wr h (set_next b)) w = Ok tt (set_st (relink b (st w)) w).
Proof.
  destruct w as [c pid pt s e]. cbn [st set_st cpu mypid ptable env].
  unfold relink. cbv zeta.
  step_rd. step_rd. step_wr.
  change (put_buf ?x (set_prev ?v (get_buf ?x ?s0)) ?s0) with (wrp x v s0).
  change (next (get_buf ?x ?s0)) with (nxt s0 x).
  change (prev (get_buf ?x ?s0)) with (prv s0 x).
  set (s1 := wrp _ _ s).
  step_rd. step_rd. step_wr.
  change (put_buf ?x (set_next ?v (get_buf ?x ?s0)) ?s0) with (wrn x v s0).
  change (next (get_buf ?x ?s0)) with (nxt s0 x).
  change (prev (get_buf ?x ?s0)) with (prv s0 x).
  set (s2 := wrn _ _ s1).
  unfold bind at 1, head at 1, gets at 1. cbn [st].
  assert (N2 : NBUF_of s2 = NBUF_of s).
  { unfold s2. rewrite NBUF_wrn. unfold s1. apply NBUF_wrp. }
  rewrite N2.
  step_rd. step_wr.
  change (put_buf ?x (set_next ?v (get_buf ?x ?s0)) ?s0) with (wrn x v s0).
  change (next (get_buf ?x ?s0)) with (nxt s0 x).
  set (s3 := wrn _ _ s2).
  step_wr.
  change (put_buf ?x (set_prev ?v (get_buf ?x ?s0)) ?s0) with (wrp x v s0).
  set (s4 := wrp _ _ s3).
  step_rd. step_wr.
  change (put_buf ?x (set_prev ?v (get_buf ?x ?s0)) ?s0) with (wrp x v s0).
  change (next (get_buf ?x ?s0)) with (nxt s0 x).
  set (s5 := wrp _ _ s4).
  unfold wr, modify. cbn [st set_st cpu mypid ptable env].
  change (put_buf ?x (set_next ?v (get_buf ?x ?s0)) ?s0) with (wrn x v s0).
  reflexivity.
Qed.

(** Buffer [b] after its last reference has been dropped. *)
Definition dropped (x : buf) : buf :=
  mkBuf (valid x) (disk x) (dev x) (blockno x) (mkSleep 0 (mkSpin 0 None) 0) 0
    (prev x) (next x) (data x).

Lemma brelse_last ba b (w : world fs) :
  noff_ok (cpu w) -> locked (bc_lock (bcache (st w))) = 0 ->
  locked (sl_lk (lock (get_buf b (st w)))) = 0 ->
  holds_sleep w (lock (get_buf b (st w))) = true ->
  refcnt (get_buf b (st w)) = 1 ->
  brelse ba b w =
    Ok tt (mkWorld (settle (cpu w)) (mypid w) (map (wake (addr (buf_lock ba b))) (ptable w))
             (update bcache_lock (mkSpin 0 None)
                (relink b (put_buf b (dropped (get_buf b (st w))) (bc_locked (cpu w) (st w)))))
             (env w)).
Proof.
  intros Hn Hf Hlf Hh H1. unfold brelse.
  unfold bind at 1. rewrite (holdingsleep_eq _ (buf_lock_lawful ba b)) by assumption.
  unfold holds_sleep in Hh. cbn [view buf_lock]. rewrite Hh. cbn [of_bool truthy negb Z.eqb].
  unfold bind at 1. rewrite (releasesleep_eq _ (buf_lock_lawful ba b)).
  2:{ cbn [st view buf_lock update]. rewrite get_put_buf. reflexivity. }
  2:{ exact Hn. }
  cbn [st cpu mypid ptable env]. rewrite settle_settle.
  rewrite (proj2 (buf_lock_lawful ba b)).
  unfold bind at 1. rewrite acquire_free.
  2:{ apply bcache_lock_lawful. }
  2:{ cbn [st view bcache_lock buf_lock update]. case_put_buf; assumption. }
  cbn [st cpu mypid ptable env].
  unfold bind at 1, rd at 1, gets at 1. cbn [st].
  unfold bind at 1, wr at 1, modify at 1. cbn [st set_st].
  unfold bind at 1, rd at 1, gets at 1. cbn [st].
  rewrite get_put_buf. cbn [set_refcnt refcnt cpu mypid ptable env].
  rewrite !get_buf_bc_lock. cbn [update buf_lock]. rewrite !get_put_buf.
  cbn [set_lock refcnt valid disk dev blockno prev next data lock].
  rewrite H1. change (u32 (1 - 1)) with 0. cbn [Z.eqb].
  rewrite put_buf_bc_lock, put_put_buf.
  unfold bind at 1. rewrite relink_run. cbn [st set_st cpu mypid ptable env].
  change (cpu_id (settle (cpu w))) with (cpu_id (cpu w)).
  fold (dropped (get_buf b (st w))).
  rewrite release_pushed; try apply bcache_lock_lawful.
  - rewrite settle_settle. reflexivity.
  - apply settle_noff_ok. exact Hn.
  - cbn [view bcache_lock].
    rewrite relink_bc_lock. case_put_buf; reflexivity.
Qed.

Lemma relink_get_info b s l1 l2 i :
  dll s (l1 ++ b :: l2) -> (i <= NBUF_of s)%nat ->
  info (get_buf i (relink b s)) = info (get_buf i s).
Proof. intros Hd Hi. apply (relink_spec b s l1 l2 Hd). exact Hi. Qed.

(** Changing what buffer [b] holds, but not its links, keeps the list. *)
Lemma dll_put_buf b x s l :
  (b <= NBUF_of s)%nat ->
  next x = next (get_buf b s) -> prev x = prev (get_buf b s) ->
  dll s l -> dll (put_buf b x s) l.
Proof.
  intros Hb Hn Hp. apply dll_same_links; [apply NBUF_put_buf|].
  intros i Hi. unfold nxt, prv. rewrite (get_put_buf_canon s b Hb) by assumption.
  destruct (Nat.eqb_spec i b) as [->|_]; [split; assumption|split; reflexivity].
Qed.

Lemma dll_bc_lock k s l : dll s l -> dll (update bcache_lock k s) l.
Proof. apply dll_same_links; [reflexivity|]. intros i _. split; reflexivity. Qed.

(** The cache holds, buffer by buffer, these (device, block) pairs. *)
Definition cached_blocks (s : fs) : list (Z * Z) :=
  map (fun x => (dev x, blockno x)) (bc_buf (bcache s)).

(** Three buffers; blocks 10, 11 and 12 of device 1 are read and
    released in that order. *)
Definition three_reads : K fs unit :=
  binit (fun _ => 0) ;;
  b <- bread (fun _ => 0) 1 10 ;; brelse (fun _ => 0) b ;;
  b <- bread (fun _ => 0) 1 11 ;; brelse (fun _ => 0) b ;;
  b <- bread (fun _ => 0) 1 12 ;; brelse (fun _ => 0) b.

Definition lru_world : world fs :=
  Eval vm_compute in
    final_world (three_reads (mkWorld boot_cpu 1 [] (blank_fs 3 8 2 31 30) [])).

Lemma three_reads_run :
  three_reads (mkWorld boot_cpu 1 [] (blank_fs 3 8 2 31 30) []) = Ok tt lru_world.
Proof. vm_compute. reflexivity. Qed.

(** What the cache holds before and after a fourth read, of block 13. *)
Definition lru_scenario : option (list (Z * Z) * list (Z * Z)) :=
  match bread (fun _ => 0) 1 13 lru_world with
  | Ok _ w' => Some (cached_blocks (st lru_world), cached_blocks (st w'))
  | _ => None
  end.

(** C7: a [bget] that finds the block in no buffer of the list takes
    the buffer with [refcnt == 0] that is nearest the LRU end of the
    list: it returns that buffer, sleep-locked by the caller, with the
    new device and block number, [valid] cleared and [refcnt] 1, and
    leaves the list order and every other buffer alone. If every buffer
    has a reference the call panics with "bget: no buffers". [brelse] of
    the last reference moves the buffer to the MRU end, so the LRU end
    is the least recently released buffer. With three buffers, after
    reading and releasing blocks 10, 11 and 12, reading block 13
    replaces block 10 and keeps 11 and 12. *)
Theorem bget_recycles_lru ba (w : world fs) (l : list nat) :
  noff_ok (cpu w) -> locked (bc_lock (bcache (st w))) = 0 ->
  dll (st w) l ->
  (forall dv bno l1 b l2,
     (forall x, In x l -> caches dv bno (get_buf x (st w)) = false) ->
     l = l1 ++ b :: l2 ->
     refcnt (get_buf b (st w)) = 0 ->
     (forall x, In x l2 -> refcnt (get_buf x (st w)) <> 0) ->
     locked (sl_lk (lock (get_buf b (st w)))) = 0 ->
     sl_locked (lock (get_buf b (st w))) = 0 ->
     exists w',
       bget ba dv bno w = Ok b w' /\
       dev (get_buf b (st w')) = dv /\ blockno (get_buf b (st w')) = bno /\
       valid (get_buf b (st w')) = 0 /\ refcnt (get_buf b (st w')) = 1 /\
       holds_sleep w' (lock (get_buf b (st w'))) = true /\
       dll (st w') l /\
       (forall i, In i l -> i <> b -> get_buf i (st w') = get_buf i (st w))) /\
  (forall dv bno,
     (forall x, In x l -> caches dv bno (get_buf x (st w)) = false) ->
     (forall x, In x l -> refcnt (get_buf x (st w)) <> 0) ->
     exists w', bget ba dv bno w = Panic "bget: no buffers" w') /\
  (forall l1 b l2,
     l = l1 ++ b :: l2 ->
     locked (sl_lk (lock (get_buf b (st w)))) = 0 ->
     holds_sleep w (lock (get_buf b (st w))) = true ->
     refcnt (get_buf b (st w)) = 1 ->
     exists w',
       brelse ba b w = Ok tt w' /\
       refcnt (get_buf b (st w')) = 0 /\
       dll (st w') (b :: l1 ++ l2) /\
       (forall i, In i l -> i <> b -> info (get_buf i (st w')) = info (get_buf i (st w)))) /\
  lru_scenario = Some ([(1, 10); (1, 11); (1, 12)], [(1, 13); (1, 11); (1, 12)]).
Proof.
  intros Hn Hf Hd. split; [|split; [|split]].
  - intros dv bno l1 b l2 Hmiss El Hb Hbusy Hlf Hl0.
    assert (HbN : (b < NBUF_of (st w))%nat).
    { apply (dll_bound _ l); [assumption|]. rewrite El. apply in_elt. }
    eexists. split; [eapply (bget_miss ba dv bno w l); eassumption|].
    cbn [st mypid]. unfold recycle. rewrite get_put_buf. cbn [recycled dev blockno valid refcnt lock].
    unfold holds_sleep. cbn [sl_locked sl_pid truthy Z.eqb mypid negb andb]. rewrite Z.eqb_refl.
    repeat (split; [reflexivity|]). split.
    + apply dll_put_buf; [rewrite NBUF_bc_lock; lia|reflexivity|reflexivity|].
      apply dll_bc_lock. assumption.
    + intros i Hi Hne. rewrite get_put_buf_ne; [reflexivity|congruence|].
      left. rewrite NBUF_bc_lock. assumption.
  - intros dv bno Hmiss Hbusy. eexists.
    eapply (bget_no_buffers ba dv bno w l); eassumption.
  - intros l1 b l2 El Hlf Hh H1. subst l.
    assert (HbN : (b < NBUF_of (st w))%nat).
    { apply (dll_bound _ (l1 ++ b :: l2)); [assumption|]. apply in_elt. }
    eexists. split; [apply brelse_last; assumption|].
    cbn [st].
    set (s1 := put_buf b (dropped (get_buf b (st w))) (bc_locked (cpu w) (st w))).
    assert (N1 : NBUF_of s1 = NBUF_of (st w)) by (unfold s1; rewrite NBUF_put_buf; reflexivity).
    assert (Hd1 : dll s1 (l1 ++ b :: l2)).
    { unfold s1. apply dll_put_buf;
        [unfold bc_locked; rewrite NBUF_bc_lock; lia|reflexivity|reflexivity|].
      apply dll_bc_lock. assumption. }
    destruct (relink_spec b s1 l1 l2 Hd1) as (Hd2 & N2 & Hinfo & _ & _).
    rewrite get_buf_bc_lock. split; [|split].
    + pose proof (Hinfo b ltac:(lia)) as E. unfold info in E.
      assert (E' : refcnt (get_buf b (relink b s1)) = refcnt (get_buf b s1)) by congruence.
      rewrite E'. unfold s1. rewrite get_put_buf. reflexivity.
    + apply dll_bc_lock. assumption.
    + intros i Hi Hne. rewrite get_buf_bc_lock.
      assert (HiN : (i < NBUF_of (st w))%nat) by (eapply dll_bound; eassumption).
      rewrite Hinfo by lia. unfold s1.
      rewrite get_put_buf_ne; [reflexivity|congruence|].
      left. unfold bc_locked. rewrite NBUF_bc_lock. assumption.
  - vm_compute. reflexivity.
Qed.

Lemma bget_recycles_lru_witness :
  blockno (get_buf 0 (st lru_world)) = 10 /\
  exists w', bget (fun _ => 0) 1 13 lru_world = Ok 0%nat w' /\
             blockno (get_buf 0 (st w')) = 13 /\
             blockno (get_buf 1 (st w')) = 11 /\
             blockno (get_buf 2 (st w')) = 12.
Proof.
  split; [vm_compute; reflexivity|].
  assert (Hn : noff_ok (cpu lru_world)) by (unfold noff_ok; vm_compute; split; congruence).
  assert (Hd : dll (st lru_world) [2; 1; 0]%nat).
  { unfold dll. change (NBUF_of (st lru_world)) with 3%nat.
    split; [|split].
    - vm_compute. repeat split; lia.
    - vm_compute. repeat split; lia.
    - repeat constructor; cbn; lia. }
  destruct (proj1 (bget_recycles_lru (fun _ => 0) lru_world [2; 1; 0]%nat Hn eq_refl Hd)
              1 13 [2; 1]%nat 0%nat [])
    as (w' & Hr & Hdev & Hbno & _ & _ & _ & _ & Hoth).
  - intros x [<-|[<-|[<-|[]]]]; vm_compute; reflexivity.
  - reflexivity.
  - vm_compute. reflexivity.
  - intros x [].
  - vm_compute. reflexivity.
  - vm_compute. reflexivity.
  - exists w'. split; [exact Hr|]. split; [exact Hbno|].
    rewrite (Hoth 1%nat) by (cbn; lia). rewrite (Hoth 2%nat) by (cbn; lia).
    split; vm_compute; reflexivity.
Defined.

(** ** log.c: the end of an operation *)

Arguments end_op : simpl never.
Arguments commit : simpl never.

Section EndOp.
Variable buf_addr : nat -> Z.
Variable log_addr BSIZE : Z.

(** The log while the last operation's commit runs, and after it. *)
Definition committing_log (l : log_t) : log_t :=
  mkLog (mkSpin 0 None) (lg_start l) (lg_size l) 0 1 (lg_dev l) (lh l).

Definition committed_log (l : log_t) : log_t :=
  mkLog (mkSpin 0 None) (lg_start l) (lg_size l) (outstanding l) 0 (lg_dev l) (lh l).

(** The last outstanding operation ends: [end_op] marks the log as
    committing, drops the lock and calls [commit]. *)
Lemma end_op_last (w : world fs) :
  noff_ok (cpu w) ->
  locked (lg_lock (log (st w))) = 0 ->
  committing (log (st w)) = 0 ->
  outstanding (log (st w)) = 1 ->
  end_op buf_addr log_addr BSIZE w =
    (commit buf_addr BSIZE ;;
     acquire log_lock ;;
     wr_log (set_committing 0) ;;
     wakeup log_addr ;;
     release log_lock)
      (mkWorld (settle (cpu w)) (mypid w) (ptable w)
         (set_log (committing_log (log (st w))) (st w)) (env w)).
Proof.
  intros Hn Hf Hc Ho. unfold end_op.
  unfold bind at 1. rewrite acquire_free by (try apply log_lock_lawful; assumption).
  unfold bind at 1, the_log at 1, gets at 1.
  unfold bind at 1, wr_log at 1, modify at 1.
  unfold bind at 1, the_log at 1, gets at 1.
  cbn [st set_st cpu mypid ptable env update view log_lock set_log log set_outstanding
       committing outstanding lg_lock lg_start lg_size lg_dev lh].
  rewrite Hc, Ho. change (s32 (1 - 1)) with 0. cbn [truthy Z.eqb negb].
  unfold bind at 1. unfold bind at 1, wr_log at 1, modify at 1, ret at 1.
  cbn [st set_st cpu mypid ptable env set_log log set_committing
       committing outstanding lg_lock lg_start lg_size lg_dev lh].
  unfold bind at 1. rewrite release_pushed; try assumption; try apply log_lock_lawful;
    [|reflexivity].
  cbn [truthy Z.eqb negb update log_lock set_log log
       committing outstanding lg_lock lg_start lg_size lg_dev lh].
  reflexivity.
Qed.

(** With nothing logged, [commit] does nothing. *)
Lemma commit_empty (w : world fs) :
  lh_n (lh (log (st w))) <= 0 -> commit buf_addr BSIZE w = Ok tt w.
Proof.
  intros H. unfold commit, bind, the_log, gets.
  destruct (Z.gtb_spec (lh_n (lh (log (st w)))) 0); [lia|reflexivity].
Qed.

Lemma end_op_idle (w : world fs) :
  noff_ok (cpu w) ->
  locked (lg_lock (log (st w))) = 0 ->
  committing (log (st w)) = 0 ->
  outstanding (log (st w)) = 1 ->
  lh_n (lh (log (st w))) <= 0 ->
  end_op buf_addr log_addr BSIZE w =
    Ok tt (mkWorld (settle (cpu w)) (mypid w) (map (wake log_addr) (ptable w))
             (set_log (committed_log (committing_log (log (st w)))) (st w)) (env w)).
Proof.
  intros Hn Hf Hc Ho Hl. rewrite end_op_last by assumption.
  unfold bind at 1. rewrite commit_empty by exact Hl.
  unfold bind at 1. rewrite acquire_free by (try apply log_lock_lawful; reflexivity).
  unfold bind at 1, wr_log at 1, modify at 1.
  unfold bind at 1, wakeup at 1, modify at 1.
  cbn [st set_st set_ptable cpu mypid ptable env update view log_lock set_log log set_committing
       committing outstanding lg_lock lg_start lg_size lg_dev lh committing_log].
  rewrite release_pushed; try apply log_lock_lawful; [|apply settle_noff_ok; exact Hn|reflexivity].
  rewrite settle_settle. reflexivity.
Qed.
End EndOp.

(** ** exec.c: segment permissions *)

(** The mapping as the specification words it: flag bit 1 gives
    execute, bit 2 gives write, bit 4 gives read permission. *)
Definition perm_of_rwx (PTE_X PTE_W PTE_R : Z) (flags : Z) : Z :=
  Z.lor (Z.lor (if Z.testbit flags 0 then PTE_X else 0)
               (if Z.testbit flags 1 then PTE_W else 0))
        (if Z.testbit flags 2 then PTE_R else 0).

Lemma land_pow2_testbit flags k :
  0 <= k -> truthy (Z.land flags (2 ^ k)) = Z.testbit flags k.
Proof.
  intros Hk. unfold truthy.
  destruct (Z.testbit flags k) eqn:E.
  - destruct (Z.land flags (2 ^ k) =? 0) eqn:E0; [|reflexivity].
    apply Z.eqb_eq in E0.
    assert (Z.testbit (Z.land flags (2 ^ k)) k = true) as H.
    { rewrite Z.land_spec, E, Z.pow2_bits_true by lia. reflexivity. }
    rewrite E0, Z.bits_0 in H. discriminate.
  - replace (Z.land flags (2 ^ k)) with 0; [reflexivity|].
    symmetry. apply Z.bits_inj'. intros n Hn.
    rewrite Z.land_spec, Z.bits_0, Z.pow2_bits_eqb by lia.
    destruct (Z.eqb_spec k n) as [->|Hne]; [rewrite E; reflexivity|].
    apply andb_false_r.
Qed.

Lemma flags2perm_eq PTE_X PTE_W flags :
  flags2perm PTE_X PTE_W flags = perm_of_rwx PTE_X PTE_W 0 flags.
Proof.
  unfold flags2perm, perm_of_rwx.
  change (Z.land flags 1) with (Z.land flags (2 ^ 0)).
  change (Z.land flags 2) with (Z.land flags (2 ^ 1)).
  rewrite !land_pow2_testbit by lia.
  destruct (Z.testbit flags 0), (Z.testbit flags 1), (Z.testbit flags 2);
    rewrite ?Z.lor_0_r, ?Z.lor_0_l; reflexivity.
Qed.

Lemma flags2perm_read PTE_X PTE_W flags :
  flags2perm PTE_X PTE_W (Z.lor flags 4) = flags2perm PTE_X PTE_W flags.
Proof.
  rewrite !flags2perm_eq. unfold perm_of_rwx.
  rewrite !Z.lor_spec.
  change (Z.testbit 4 0) with false. change (Z.testbit 4 1) with false.
  rewrite !orb_false_r.
  destruct (Z.testbit flags 2 || Z.testbit 4 2), (Z.testbit flags 2); reflexivity.
Qed.

(** ** exec.c: the name of the new image *)

Lemma last_component_from s : forall m,
  ~ In 47 m ->
  exists q, m ++ s = q ++ last_component s (m ++ s) /\
            ~ In 47 (last_component s (m ++ s)) /\
            (q = [] \/ last q = Some 47).
Proof.
  induction s as [|c s IH]; intros m Hm.
  - exists []. cbn [last_component]. rewrite app_nil_r.
    split; [reflexivity|]. split; [exact Hm|left; reflexivity].
  - cbn [last_component]. destruct (Z.eqb_spec c 47) as [->|Hc].
    + destruct (IH [] (fun H => H)) as (q & E & Hno & Hq). cbn [app] in E, Hno.
      exists (m ++ 47 :: q). split.
      * rewrite <- app_assoc. cbn [app]. rewrite <- E. reflexivity.
      * split; [exact Hno|]. right.
        destruct Hq as [->|Hq].
        -- apply last_snoc.
        -- rewrite last_app. change (47 :: q) with ([47] ++ q). rewrite last_app, Hq.
           reflexivity.
    + replace (m ++ c :: s) with ((m ++ [c]) ++ s) by (rewrite <- app_assoc; reflexivity).
      apply IH. intros Hin. apply in_app_or in Hin. destruct Hin as [Hin|[Hin|[]]];
        [exact (Hm Hin)|congruence].
Qed.

(** ** exec.c: all or nothing *)

Section ExecSpecs.
Variable U : Type.
Variable buf_addr : nat -> Z.
Variable log_addr : Z.
Variable LOGSIZE MAXOPBLOCKS BSIZE : Z.
Variable MAXARG : Z.
Variable PTE_X PTE_W : Z.
Variable namei : list Z -> K U Z.
Variable ilock : Z -> K U unit.
Variable iunlockput : Z -> K U unit.
Variable readi_elfhdr : Z -> K U (Z * elfhdr).
Variable readi_proghdr : Z -> Z -> K U (Z * proghdr).
Variable readi_pa : Z -> Z -> Z -> Z -> K U Z.
Variable proc_pagetable : proc_priv -> K U Z.
Variable proc_freepagetable : Z -> Z -> K U unit.
Variable uvmalloc : Z -> Z -> Z -> Z -> K U Z.
Variable uvmclear : Z -> Z -> K U unit.
Variable walkaddr : Z -> Z -> K U Z.
Variable copyout_bytes : Z -> Z -> list Z -> Z -> K U Z.
Variable copyout_words : Z -> Z -> list Z -> Z -> K U Z.

Local Abbreviation exec_ :=
  (exec U buf_addr log_addr LOGSIZE MAXOPBLOCKS BSIZE MAXARG PTE_X PTE_W
     namei ilock iunlockput readi_elfhdr readi_proghdr readi_pa
     proc_pagetable proc_freepagetable uvmalloc uvmclear walkaddr
     copyout_bytes copyout_words).
Local Abbreviation exec_load_ := (exec_load U PTE_X PTE_W readi_proghdr readi_pa uvmalloc walkaddr).
Local Abbreviation exec_args_ := (exec_args U MAXARG copyout_bytes).
Local Abbreviation exec_bad_ := (exec_bad U buf_addr log_addr BSIZE iunlockput proc_freepagetable).
Local Abbreviation loadseg_ := (loadseg U readi_pa walkaddr).
Local Abbreviation loadseg_loop_ := (loadseg_loop U readi_pa walkaddr).

(** The caller's private fields at the end of a run, whatever its
    outcome. *)
Definition proc_after {A} (r : result (exec_state U) A) : proc_priv :=
  x_proc U (st (final_world r)).

(** A computation that leaves the caller's private fields alone. *)
Definition keeps {A} (m : K (exec_state U) A) : Prop :=
  forall w, proc_after (m w) = x_proc U (st w).

Lemma keeps_ret {A} (a : A) : keeps (ret a).
Proof. intros w. reflexivity. Qed.

Lemma keeps_panic {A} msg : keeps (panic msg : K _ A).
Proof. intros w. reflexivity. Qed.

Lemma keeps_blocked {A} : keeps (blocked : K _ A).
Proof. intros w. reflexivity. Qed.

Lemma keeps_bind {A B} (m : K (exec_state U) A) (k : A -> K (exec_state U) B) :
  keeps m -> (forall a, keeps (k a)) -> keeps (bind m k).
Proof.
  intros Hm Hk w. unfold bind. specialize (Hm w). unfold proc_after in *.
  destruct (m w) as [a w1|msg w1|w1]; cbn in Hm; [|assumption|assumption].
  rewrite <- Hm. apply Hk.
Qed.

Lemma keeps_out {A} (m : K U A) : keeps (zoom (ext_part U) m).
Proof. intros w. unfold proc_after, zoom. destruct (m _); reflexivity. Qed.

Lemma keeps_fs {A} (m : K fs A) : keeps (zoom (fs_part U) m).
Proof. intros w. unfold proc_after, zoom. destruct (m _); reflexivity. Qed.

Lemma keeps_myproc : keeps (myproc U).
Proof. intros w. reflexivity. Qed.

Lemma keeps_if {A} (c : bool) (m1 m2 : K (exec_state U) A) :
  keeps m1 -> keeps m2 -> keeps (if c then m1 else m2).
Proof. destruct c; auto. Qed.

Lemma keeps_loadseg_loop fuel pt va ip offset sz i : keeps (loadseg_loop_ fuel pt va ip offset sz i).
Proof.
  revert i. induction fuel as [|fuel IH]; intros i; cbn [loadseg_loop].
  - apply keeps_if; [|apply keeps_ret].
    apply keeps_bind; [apply keeps_out|]. intros pa.
    apply keeps_if; [apply keeps_panic|].
    apply keeps_bind; [apply keeps_out|]. intros r.
    apply keeps_if; [apply keeps_ret|apply keeps_blocked].
  - apply keeps_if; [|apply keeps_ret].
    apply keeps_bind; [apply keeps_out|]. intros pa.
    apply keeps_if; [apply keeps_panic|].
    apply keeps_bind; [apply keeps_out|]. intros r.
    apply keeps_if; [apply keeps_ret|apply IH].
Qed.

Lemma keeps_exec_load fuel elf ip pt i off sz : keeps (exec_load_ fuel elf ip pt i off sz).
Proof.
  revert i off sz. induction fuel as [|fuel IH]; intros i off sz; cbn [exec_load].
  - apply keeps_if; [apply keeps_blocked|apply keeps_ret].
  - apply keeps_if; [|apply keeps_ret].
    apply keeps_bind; [apply keeps_out|]. intros r.
    apply keeps_if; [apply keeps_ret|].
    apply keeps_if; [apply IH|].
    apply keeps_if; [apply keeps_ret|].
    apply keeps_if; [apply keeps_ret|].
    apply keeps_if; [apply keeps_ret|].
    apply keeps_bind; [apply keeps_out|]. intros sz1.
    apply keeps_if; [apply keeps_ret|].
    apply keeps_bind; [apply keeps_loadseg_loop|]. intros r'.
    apply keeps_if; [apply keeps_ret|apply IH].
Qed.

Lemma keeps_exec_args pt stackbase rest argc sp ustack :
  keeps (exec_args_ pt stackbase rest argc sp ustack).
Proof.
  revert argc sp ustack. induction rest as [|arg rest IH]; intros argc sp ustack; cbn [exec_args].
  - apply keeps_ret.
  - apply keeps_if; [apply keeps_ret|].
    apply keeps_if; [apply keeps_ret|].
    apply keeps_bind; [apply keeps_out|]. intros r.
    apply keeps_if; [apply keeps_ret|apply IH].
Qed.

Lemma keeps_exec_bad pt sz ip : keeps (exec_bad_ pt sz ip).
Proof.
  unfold exec_bad.
  apply keeps_bind; [apply keeps_if; [apply keeps_out|apply keeps_ret]|]. intros _.
  apply keeps_bind; [|intros _; apply keeps_ret].
  apply keeps_if; [|apply keeps_ret].
  apply keeps_bind; [apply keeps_out|]. intros _. apply keeps_fs.
Qed.

(** The label [bad] returns -1, if it returns. *)
Lemma exec_bad_returns pt sz ip w r w' : exec_bad_ pt sz ip w = Ok r w' -> r = -1.
Proof.
  unfold exec_bad, bind, ret. intros H.
  repeat match type of H with
         | context [match ?x with _ => _ end] => destruct x; try discriminate H
         end.
  all: congruence.
Qed.

(** The loop over the arguments, when it does not end by [goto bad],
    has counted them all, and there were at most MAXARG of them. *)
Lemma exec_args_done pt stackbase rest :
  forall argc sp ustack w argc' sp' ustack' w',
    exec_args_ pt stackbase rest argc sp ustack w = Ok (false, (argc', sp', ustack')) w' ->
    argc' = argc + Z.of_nat (length rest) /\ (rest <> [] -> argc' <= MAXARG).
Proof.
  induction rest as [|arg rest IH]; intros argc sp ustack w argc' sp' ustack' w' H;
    cbn [exec_args] in H.
  - unfold ret in H. injection H as -> _ _ _. cbn. split; [lia|congruence].
  - destruct (Z.geb_spec argc MAXARG) as [Hge|Hlt]; [discriminate H|].
    match type of H with context [if ?c then _ else _] => destruct c; [discriminate H|] end.
    unfold bind at 1 in H.
    match type of H with context [match ?x with _ => _ end] =>
      destruct x as [r w1| |]; [|discriminate H|discriminate H] end.
    destruct (r <? 0); [discriminate H|].
    apply IH in H. destruct H as [-> Hle]. split; [cbn [length]; lia|].
    intros _. destruct rest as [|a rest']; [cbn; lia|].
    apply Hle. discriminate.
Qed.

(** The caller's private fields once exec has committed to the new
    image: the assignments to [p->trapframe->a1], [p->name],
    [p->pagetable], [p->sz], [p->trapframe->epc] and [p->trapframe->sp]. *)
Definition exec_image (p0 : proc_priv) (path : list Z) (pt sz sp entry : Z) : proc_priv :=
  set_tf TF_SP sp
    (set_tf TF_EPC entry
       (set_sz sz
          (set_pagetable pt
             (set_name (safestrcpy (last_component path path) 16)
                (set_tf TF_A1 sp p0))))).

Lemma exec_image_fields p0 path pt sz sp entry :
  p_pagetable (exec_image p0 path pt sz sp entry) = pt /\
  p_sz (exec_image p0 path pt sz sp entry) = sz /\
  p_trapframe (exec_image p0 path pt sz sp entry) =
    <[TF_SP := sp]> (<[TF_EPC := entry]> (<[TF_A1 := sp]> (p_trapframe p0))).
Proof. repeat split. Qed.

(** What exec promises about a run that started with private fields
    [p0]. *)
Definition exec_post (p0 : proc_priv) (path : list Z) (argv : list (list Z))
  (res : result (exec_state U) Z) : Prop :=
  match res with
  | Ok r w' =>
      (r = -1 /\ x_proc U (st w') = p0) \/
      (r = Z.of_nat (length argv) /\
       exists elf pt sz sp w1,
         e_magic elf = ELF_MAGIC /\ pt <> 0 /\ sz <> 0 /\
         x_proc U (st w1) = exec_image p0 path pt sz sp (e_entry elf) /\
         zoom (ext_part U) (proc_freepagetable (p_pagetable p0) (p_sz p0)) w1 = Ok tt w' /\
         x_proc U (st w') = exec_image p0 path pt sz sp (e_entry elf))
  | Panic _ w' | Blocked w' =>
      x_proc U (st w') = p0 \/
      exists elf pt sz sp, x_proc U (st w') = exec_image p0 path pt sz sp (e_entry elf)
  end.

Section Post.
Variable p0 : proc_priv.
Variable path : list Z.
Variable argv : list (list Z).

Local Abbreviation post := (exec_post p0 path argv).

Lemma post_keeps (m : K (exec_state U) Z) w :
  keeps m -> x_proc U (st w) = p0 ->
  (forall r w', m w = Ok r w' -> r = -1) ->
  post (m w).
Proof.
  intros Hk Hp Hr. specialize (Hk w). unfold proc_after in Hk. rewrite Hp in Hk.
  destruct (m w) as [r w'|msg w'|w'] eqn:E; cbn in *.
  - left. split; [eapply Hr; reflexivity|assumption].
  - left. assumption.
  - left. assumption.
Qed.

Lemma post_bad pt sz ip w : x_proc U (st w) = p0 -> post (exec_bad_ pt sz ip w).
Proof.
  intros Hp. apply post_keeps; [apply keeps_exec_bad|assumption|].
  intros r w'. apply exec_bad_returns.
Qed.

Lemma post_step {A} (m : K (exec_state U) A) (k : A -> K (exec_state U) Z) w :
  keeps m -> x_proc U (st w) = p0 ->
  (forall a w', m w = Ok a w' -> x_proc U (st w') = p0 -> post (k a w')) ->
  post (bind m k w).
Proof.
  intros Hk Hp Hn. specialize (Hk w). unfold proc_after in Hk. rewrite Hp in Hk.
  unfold bind. destruct (m w) as [a w'|msg w'|w'] eqn:E; cbn in Hk.
  - apply Hn; [reflexivity|assumption].
  - left. assumption.
  - left. assumption.
Qed.
End Post.

Lemma exec_post_holds path argv (w : world (exec_state U)) :
  MAXARG < 2 ^ 31 ->
  exec_post (x_proc U (st w)) path argv (exec_ path argv w).
Proof.
  intros HM. set (p0 := x_proc U (st w)).
  assert (Hp : x_proc U (st w) = p0) by reflexivity. clearbody p0.
  unfold exec.
  unfold bind at 1, myproc at 1, gets at 1. cbv beta. rewrite Hp.
  apply post_step; [apply keeps_fs|assumption|]. intros [] w1 _ Hp1. clear Hp w.
  apply post_step; [apply keeps_out|assumption|]. intros ip w2 _ Hp2. clear Hp1 w1.
  destruct (ip =? 0).
  { apply post_keeps; [|assumption|].
    - apply keeps_bind; [apply keeps_fs|intros _; apply keeps_ret].
    - intros r w'. unfold bind, ret. destruct (zoom _ _ w2); congruence. }
  apply post_step; [apply keeps_out|assumption|]. intros [] w3 _ Hp3. clear Hp2 w2.
  apply post_step; [apply keeps_out|assumption|]. intros [n elf] w4 _ Hp4. clear Hp3 w3.
  cbn [fst snd].
  destruct (n =? sizeof_elfhdr); cbn [negb]; [|apply post_bad; assumption].
  destruct (Z.eqb_spec (e_magic elf) ELF_MAGIC) as [Hmagic|_]; cbn [negb];
    [|apply post_bad; assumption].
  apply post_step; [apply keeps_out|assumption|]. intros pt w5 _ Hp5. clear Hp4 w4.
  destruct (Z.eqb_spec pt 0) as [_|Hpt]; [apply post_bad; assumption|].
  apply post_step; [apply keeps_exec_load|assumption|]. intros [bad sz] w6 _ Hp6. clear Hp5 w5.
  cbn [fst snd].
  destruct bad; [apply post_bad; assumption|].
  apply post_step; [apply keeps_out|assumption|]. intros [] w7 _ Hp7. clear Hp6 w6.
  apply post_step; [apply keeps_fs|assumption|]. intros [] w8 _ Hp8. clear Hp7 w7.
  unfold bind at 1, myproc at 1, gets at 1. cbv beta. rewrite Hp8.
  apply post_step; [apply keeps_out|assumption|]. intros sz1 w9 _ Hp9. clear Hp8 w8.
  destruct (Z.eqb_spec sz1 0) as [_|Hsz]; [apply post_bad; assumption|].
  apply post_step; [apply keeps_out|assumption|]. intros [] w10 _ Hp10. clear Hp9 w9.
  apply post_step; [apply keeps_exec_args|assumption|].
  intros [bad [[argc sp] ustack]] w11 Hargs Hp11.
  cbn [fst snd].
  destruct bad; [apply post_bad; assumption|].
  apply exec_args_done in Hargs. destruct Hargs as [Hargc Hle]. clear Hp10 w10.
  destruct (Z.geb_spec argc MAXARG) as [Hge|Hlt]; [left; exact Hp11|].
  match goal with |- context [if ?c then _ else _] => destruct c end;
    [apply post_bad; assumption|].
  apply post_step; [apply keeps_out|assumption|]. intros r w12 _ Hp12. clear Hp11 w11.
  destruct (r <? 0); [apply post_bad; assumption|].
  set (sp' := u64 (_ - _ mod 16)).
  unfold bind at 1 2, wr_proc at 1 2, modify at 1 2. cbn [st set_st].
  unfold bind at 1, myproc at 1, gets at 1. cbn [st x_proc].
  unfold bind at 1 2 3 4, wr_proc, modify. cbn [st set_st x_proc x_fs x_ext].
  rewrite Hp12.
  fold (exec_image p0 path pt sz1 sp' (e_entry elf)).
  unfold bind, ret.
  match goal with |- context [zoom ?r ?m ?wc] => set (w13 := wc) end.
  assert (Hp13 : x_proc U (st w13) = exec_image p0 path pt sz1 sp' (e_entry elf)) by reflexivity.
  pose proof (keeps_out (proc_freepagetable (p_pagetable p0) (p_sz p0)) w13) as Hk.
  unfold proc_after in Hk. rewrite Hp13 in Hk.
  change (p_pagetable (set_name _ _)) with (p_pagetable p0).
  destruct (zoom _ _ w13) as [[] w14|msg w14|w14] eqn:E; cbn in Hk |- *.
  - right. split.
    + assert (0 <= argc < 2 ^ 31) by lia.
      subst argc. apply s32_id. unfold is_s32. lia.
    + exists elf, pt, sz1, sp', w13. repeat split; assumption.
  - right. exists elf, pt, sz1, sp'. assumption.
  - right. exists elf, pt, sz1, sp'. assumption.
Qed.

(** *** exec returns

    exec returns when the helpers it calls return and leave the hart's
    interrupt state as they found it, the file it reads is an ELF file
    whose fields are in range, and the log is idle. *)

Definition steady {A} (m : K U A) (good : A -> Prop) : Prop :=
  forall wu, exists a wu', m wu = Ok a wu' /\ cpu wu' = cpu wu /\ good a.

Definition any {A} (a : A) : Prop := True.

Definition cooperative : Prop :=
  (forall p, steady (namei p) any) /\
  (forall ip, steady (ilock ip) any) /\
  (forall ip, steady (iunlockput ip) any) /\
  (forall ip, steady (readi_elfhdr ip) (fun r => e_phnum (snd r) < 2 ^ 31)) /\
  (forall ip off, steady (readi_proghdr ip off)
                    (fun r => u32 (ph_filesz (snd r)) <= 2 ^ 32 - PGSIZE)) /\
  (forall ip pa off n, steady (readi_pa ip pa off n) any) /\
  (forall p, steady (proc_pagetable p) any) /\
  (forall pt sz, steady (proc_freepagetable pt sz) any) /\
  (forall pt a b perm, steady (uvmalloc pt a b perm) any) /\
  (forall pt va, steady (uvmclear pt va) any) /\
  (forall pt va, steady (walkaddr pt va) (fun pa => pa <> 0)) /\
  (forall pt va src n, steady (copyout_bytes pt va src n) any) /\
  (forall pt va src n, steady (copyout_words pt va src n) any).

(** The log is idle but for [k] operations of this process. *)
Definition idle (k : Z) (w : world (exec_state U)) : Prop :=
  noff_ok (cpu w) /\
  locked (lg_lock (log (x_fs U (st w)))) = 0 /\
  committing (log (x_fs U (st w))) = 0 /\
  outstanding (log (x_fs U (st w))) = k /\
  lh_n (lh (log (x_fs U (st w)))) = 0.

Definition runs {A} (P : world (exec_state U) -> Prop) (m : K (exec_state U) A)
  (Q : A -> world (exec_state U) -> Prop) : Prop :=
  forall w, P w -> exists a w', m w = Ok a w' /\ Q a w'.

Lemma runs_bind {A B} P (m : K (exec_state U) A) Q (k : A -> K (exec_state U) B) R :
  runs P m Q -> (forall a, runs (Q a) (k a) R) -> runs P (bind m k) R.
Proof.
  intros Hm Hk w HP. destruct (Hm w HP) as (a & w1 & E & HQ).
  destruct (Hk a w1 HQ) as (b & w2 & E2 & HR).
  exists b, w2. unfold bind. rewrite E. split; assumption.
Qed.

Lemma runs_ret {A} (P : world (exec_state U) -> Prop) (a : A) : runs P (ret a) (fun r w => r = a /\ P w).
Proof. intros w HP. exists a, w. repeat split. assumption. Qed.

Lemma runs_weaken {A} P (m : K (exec_state U) A) (Q Q' : A -> world (exec_state U) -> Prop) :
  runs P m Q -> (forall a w, Q a w -> Q' a w) -> runs P m Q'.
Proof.
  intros Hm HQ w HP. destruct (Hm w HP) as (a & w1 & E & H).
  exists a, w1. split; [assumption|apply HQ; assumption].
Qed.

Lemma runs_out {A} (m : K U A) good k :
  steady m good -> runs (idle k) (zoom (ext_part U) m) (fun a w => good a /\ idle k w).
Proof.
  intros Hs w Hi. unfold zoom.
  match goal with |- context [m ?wu] => destruct (Hs wu) as (a & wu' & E & Hc & Hg); rewrite E end.
  eexists _, _. split; [reflexivity|]. split; [assumption|].
  unfold idle in *. cbn [cpu st update view ext_part x_fs]. cbn in Hc. rewrite Hc. exact Hi.
Qed.

Lemma runs_myproc P : runs P (myproc U) (fun _ w => P w).
Proof. intros w HP. exists (x_proc U (st w)), w. split; [reflexivity|assumption]. Qed.

Lemma runs_wr_proc f k : runs (idle k) (wr_proc U f) (fun _ w => idle k w).
Proof. intros w HP. exists tt, (set_st (mkExec U (x_fs U (st w)) (f (x_proc U (st w))) (x_ext U (st w))) w).
  split; [reflexivity|exact HP]. Qed.

Section Returns.
Hypothesis Hcoop : cooperative.
Hypothesis Hmax : is_s32 MAXOPBLOCKS.
Hypothesis Hroom : MAXOPBLOCKS <= LOGSIZE.

Lemma runs_begin_op :
  runs (idle 0) (zoom (fs_part U) (begin_op log_addr LOGSIZE MAXOPBLOCKS)) (fun _ w => idle 1 w).
Proof.
  intros w (Hn & Hf & Hc & Ho & Hl). unfold zoom.
  rewrite begin_op_admit.
  - eexists _, _. split; [reflexivity|].
    unfold idle. cbn. repeat split; try assumption; try apply Hn; lia.
  - exact Hn.
  - exact Hf.
  - unfold reserve_ok. cbn [st view fs_part]. rewrite Ho, Hl.
    replace ((0 + 1) * MAXOPBLOCKS) with MAXOPBLOCKS by lia.
    repeat split; try apply Hmax; unfold is_s32; cbn; lia.
  - unfold must_wait. cbn [st view fs_part]. rewrite Hc, Ho, Hl. cbn [truthy Z.eqb negb orb].
    destruct (Z.gtb_spec (0 + (0 + 1) * MAXOPBLOCKS) LOGSIZE); [lia|reflexivity].
Qed.

Lemma runs_end_op :
  runs (idle 1) (zoom (fs_part U) (end_op buf_addr log_addr BSIZE)) (fun _ w => idle 0 w).
Proof.
  intros w (Hn & Hf & Hc & Ho & Hl). unfold zoom.
  rewrite end_op_idle; try assumption; [|cbn [st view fs_part]; lia].
  eexists _, _. split; [reflexivity|].
  unfold idle. cbn. repeat split; try assumption; apply Hn.
Qed.

Lemma runs_assume {A} (F : Prop) P (m : K (exec_state U) A) Q :
  (F -> runs P m Q) -> runs (fun w => F /\ P w) m Q.
Proof. intros H w [HF HP]. apply H; assumption. Qed.

Lemma runs_if {A} (c : bool) P (m1 m2 : K (exec_state U) A) Q :
  runs P m1 Q -> runs P m2 Q -> runs P (if c then m1 else m2) Q.
Proof. destruct c; auto. Qed.

Lemma runs_ext {A} (m : K U A) good k :
  steady m good -> runs (idle k) (zoom (ext_part U) m) (fun _ w => idle k w).
Proof.
  intros Hs. eapply runs_weaken; [apply (runs_out m good k Hs)|].
  intros a w [_ H]. exact H.
Qed.

Lemma runs_done {A} P (a : A) : runs P (ret a) (fun _ w => P w).
Proof. intros w HP. exists a, w. split; [reflexivity|assumption]. Qed.

Lemma runs_any {A} P (m : K (exec_state U) A) Q : runs P m Q -> runs P m (fun _ _ => True).
Proof. intros H. eapply runs_weaken; [exact H|]. trivial. Qed.

Lemma runs_loadseg_loop k pt va ip offset sz :
  0 <= sz <= 2 ^ 32 - PGSIZE ->
  forall fuel i,
    0 <= i -> sz - i < Z.of_nat fuel * PGSIZE ->
    runs (idle k) (loadseg_loop_ fuel pt va ip offset sz i) (fun _ w => idle k w).
Proof.
  intros Hsz. destruct Hcoop as (_ & _ & _ & _ & _ & Hreadi & _ & _ & _ & _ & Hwalk & _).
  unfold PGSIZE in *.
  induction fuel as [|fuel IH]; intros i Hi Hf; cbn [loadseg_loop]; unfold PGSIZE in Hf.
  - destruct (Z.ltb_spec i sz); [lia|]. apply runs_done.
  - destruct (Z.ltb_spec i sz); [|apply runs_done].
    eapply runs_bind; [apply runs_out, Hwalk|]. intros pa. apply runs_assume. intros Hpa.
    destruct (Z.eqb_spec pa 0); [contradiction|].
    eapply runs_bind; [eapply runs_ext, Hreadi|]. intros r.
    apply runs_if; [apply runs_done|].
    rewrite u32_id by (unfold is_u32, PGSIZE; lia).
    apply IH; unfold PGSIZE; lia.
Qed.

Lemma runs_loadseg k pt va ip offset sz :
  u32 sz <= 2 ^ 32 - PGSIZE ->
  runs (idle k) (loadseg_ pt va ip offset sz) (fun _ w => idle k w).
Proof.
  intros Hsz. unfold loadseg.
  assert (0 <= u32 sz) by (pose proof (u32_range sz); unfold is_u32 in *; lia).
  apply runs_loadseg_loop; [lia|lia|].
  unfold PGSIZE in *.
  rewrite Nat2Z.inj_add, Z2Nat.id by (apply Z.div_pos; lia).
  pose proof (Z.mul_succ_div_gt (u32 sz) 4096 ltac:(lia)). lia.
Qed.

Lemma runs_exec_load k elf ip pt :
  e_phnum elf < 2 ^ 31 ->
  forall fuel i off sz,
    0 <= i -> e_phnum elf - i <= Z.of_nat fuel ->
    runs (idle k) (exec_load_ fuel elf ip pt i off sz) (fun _ w => idle k w).
Proof.
  intros Hph.
  destruct Hcoop as (_ & _ & _ & _ & Hproghdr & _ & _ & _ & Huvmalloc & _).
  induction fuel as [|fuel IH]; intros i off sz Hi Hf; cbn [exec_load].
  - destruct (Z.ltb_spec i (e_phnum elf)); [lia|]. apply runs_done.
  - destruct (Z.ltb_spec i (e_phnum elf)); [|apply runs_done].
    assert (Hnext : forall sz', runs (idle k)
              (exec_load_ fuel elf ip pt (s32 (i + 1)) (s32 (off + sizeof_proghdr)) sz')
              (fun _ w => idle k w)).
    { intros sz'. rewrite (s32_id (i + 1)) by (unfold is_s32; lia). apply IH; lia. }
    eapply runs_bind; [apply runs_out, Hproghdr|]. intros r. apply runs_assume. intros Hr.
    apply runs_if; [apply runs_done|].
    apply runs_if; [apply Hnext|].
    apply runs_if; [apply runs_done|].
    apply runs_if; [apply runs_done|].
    apply runs_if; [apply runs_done|].
    eapply runs_bind; [eapply runs_ext, Huvmalloc|]. intros sz1.
    apply runs_if; [apply runs_done|].
    eapply runs_bind; [apply runs_loadseg; exact Hr|]. intros r'.
    apply runs_if; [apply runs_done|apply Hnext].
Qed.

Lemma runs_exec_args k pt stackbase rest :
  forall argc sp ustack,
    runs (idle k) (exec_args_ pt stackbase rest argc sp ustack) (fun _ w => idle k w).
Proof.
  destruct Hcoop as (_ & _ & _ & _ & _ & _ & _ & _ & _ & _ & _ & Hbytes & _).
  induction rest as [|arg rest IH]; intros argc sp ustack; cbn [exec_args].
  - apply runs_done.
  - apply runs_if; [apply runs_done|].
    apply runs_if; [apply runs_done|].
    eapply runs_bind; [eapply runs_ext, Hbytes|]. intros r.
    apply runs_if; [apply runs_done|apply IH].
Qed.

Lemma runs_exec_args_counted k pt stackbase rest argc sp ustack :
  runs (idle k) (exec_args_ pt stackbase rest argc sp ustack)
    (fun r w => (fst r = false ->
                 fst (fst (snd r)) = argc + Z.of_nat (length rest) /\
                 (rest <> [] -> fst (fst (snd r)) <= MAXARG)) /\ idle k w).
Proof.
  intros w Hi.
  destruct (runs_exec_args k pt stackbase rest argc sp ustack w Hi) as (r & w' & E & Hi').
  exists r, w'. split; [exact E|]. split; [|exact Hi'].
  destruct r as [b [[a s] u]]. cbn [fst snd]. intros ->.
  exact (exec_args_done pt stackbase rest argc sp ustack w a s u w' E).
Qed.

Lemma runs_exec_bad_open pt sz ip :
  ip <> 0 -> runs (idle 1) (exec_bad_ pt sz ip) (fun _ _ => True).
Proof.
  intros Hip.
  destruct Hcoop as (_ & _ & Hiunlockput & _ & _ & _ & _ & Hfree & _).
  unfold exec_bad.
  eapply runs_bind; [apply runs_if; [eapply runs_ext, Hfree|apply runs_done]|]. intros ?.
  unfold truthy. destruct (Z.eqb_spec ip 0); [contradiction|]. cbn [negb].
  eapply runs_bind.
  - eapply runs_bind; [eapply runs_ext, Hiunlockput|]. intros ?. apply runs_end_op.
  - intros ?. eapply runs_any. apply runs_done.
Qed.

Lemma runs_exec_bad_closed k pt sz :
  runs (idle k) (exec_bad_ pt sz 0) (fun _ _ => True).
Proof.
  destruct Hcoop as (_ & _ & _ & _ & _ & _ & _ & Hfree & _).
  unfold exec_bad.
  eapply runs_bind; [apply runs_if; [eapply runs_ext, Hfree|apply runs_done]|]. intros ?.
  cbn [truthy Z.eqb negb].
  eapply runs_bind; [apply runs_done|]. intros ?. eapply runs_any. apply runs_done.
Qed.

Lemma exec_returns path argv :
  0 <= MAXARG -> Z.of_nat (length argv) <> MAXARG ->
  runs (idle 0) (exec_ path argv) (fun _ _ => True).
Proof.
  intros HM0 Hlen.
  pose proof Hcoop as (Hnamei & Hilock & Hiunlockput & Helf & _ & _ & Hpagetable & Hfree &
                       Huvmalloc & Huvmclear & _ & _ & Hwords).
  unfold exec.
  eapply runs_bind; [apply runs_myproc|]. intros p.
  eapply runs_bind; [apply runs_begin_op|]. intros ?.
  eapply runs_bind; [eapply runs_ext, Hnamei|]. intros ip.
  destruct (Z.eqb_spec ip 0) as [|Hip].
  { eapply runs_bind; [apply runs_end_op|]. intros ?. eapply runs_any. apply runs_done. }
  eapply runs_bind; [eapply runs_ext, Hilock|]. intros ?.
  eapply runs_bind; [apply runs_out, Helf|]. intros [n elf]. apply runs_assume. cbn [fst snd].
  intros Hph.
  apply runs_if; [apply runs_exec_bad_open; assumption|].
  apply runs_if; [apply runs_exec_bad_open; assumption|].
  eapply runs_bind; [eapply runs_ext, Hpagetable|]. intros pt.
  apply runs_if; [apply runs_exec_bad_open; assumption|].
  eapply runs_bind.
  { apply runs_exec_load; [exact Hph|lia|].
    destruct (Z_le_gt_dec 0 (e_phnum elf)); [rewrite Z2Nat.id by assumption|]; lia. }
  intros [bad sz]. cbn [fst snd].
  apply runs_if; [apply runs_exec_bad_open; assumption|].
  eapply runs_bind; [eapply runs_ext, Hiunlockput|]. intros ?.
  eapply runs_bind; [apply runs_end_op|]. intros ?.
  eapply runs_bind; [apply runs_myproc|]. intros p'.
  eapply runs_bind; [eapply runs_ext, Huvmalloc|]. intros sz1.
  apply runs_if; [apply runs_exec_bad_closed|].
  eapply runs_bind; [eapply runs_ext, Huvmclear|]. intros ?.
  eapply runs_bind; [apply runs_exec_args_counted|]. intros [bad' [[argc sp] ustack]].
  cbn [fst snd]. apply runs_assume. intros Hcount.
  destruct bad'; [apply runs_exec_bad_closed|].
  destruct (Hcount eq_refl) as [Hargc Hle].
  destruct (Z.geb_spec argc MAXARG) as [Hge|_].
  { exfalso. destruct argv as [|arg0 argv']; [cbn in *; lia|].
    assert (argc <= MAXARG) by (apply Hle; discriminate). lia. }
  apply runs_if; [apply runs_exec_bad_closed|].
  eapply runs_bind; [eapply runs_ext, Hwords|]. intros r.
  apply runs_if; [apply runs_exec_bad_closed|].
  eapply runs_bind; [apply runs_wr_proc|]. intros ?.
  eapply runs_bind; [apply runs_wr_proc|]. intros ?.
  eapply runs_bind; [apply runs_myproc|]. intros p''.
  eapply runs_bind; [apply runs_wr_proc|]. intros ?.
  eapply runs_bind; [apply runs_wr_proc|]. intros ?.
  eapply runs_bind; [apply runs_wr_proc|]. intros ?.
  eapply runs_bind; [apply runs_wr_proc|]. intros ?.
  eapply runs_bind; [eapply runs_ext, Hfree|]. intros ?.
  eapply runs_any. apply runs_done.
Qed.
End Returns.

(** *** exec decides

    With helpers that answer as functions of their arguments, what exec
    does is decided by the file and the arguments: it installs the new
    image when every check passes, and returns -1 with the caller
    untouched as soon as one fails. *)

(** The helper returns [a], in every state, and leaves the hart's
    interrupt state as it found it. *)
Definition answers {A} (m : K U A) (a : A) : Prop := steady m (fun x => x = a).

Section Decided.
Variable path : list Z.
Variable argv : list (list Z).
(** The caller's private fields when exec is called. *)
Variable p0 : proc_priv.
(** What the helpers answer: the inode of [path]; the number of bytes
    read for the ELF header, and the header; the same for the program
    header at each offset; the bytes read into a page; the new page
    table; the size [uvmalloc] returns; the physical address of a page;
    the result of the two kinds of [copyout]. *)
Variable ip : Z.
Variable n_elf : Z.
Variable elf : elfhdr.
Variable ph : Z -> Z * proghdr.
Variable readpa : Z -> Z -> Z -> Z.
Variable pt : Z.
Variable alloc : Z -> Z -> Z -> Z.
Variable walk : Z -> Z.
Variable cb : Z -> list Z -> Z -> Z.
Variable cw : Z -> list Z -> Z -> Z.

Definition answered : Prop :=
  answers (namei path) ip /\
  steady (ilock ip) any /\
  steady (iunlockput ip) any /\
  answers (readi_elfhdr ip) (n_elf, elf) /\
  (forall off, answers (readi_proghdr ip off) (ph off)) /\
  (forall pa off n, answers (readi_pa ip pa off n) (readpa pa off n)) /\
  answers (proc_pagetable p0) pt /\
  (forall t sz, steady (proc_freepagetable t sz) any) /\
  (forall a b perm, answers (uvmalloc pt a b perm) (alloc a b perm)) /\
  (forall va, steady (uvmclear pt va) any) /\
  (forall va, answers (walkaddr pt va) (walk va)) /\
  (forall va src n, answers (copyout_bytes pt va src n) (cb va src n)) /\
  (forall va src n, answers (copyout_words pt va src n) (cw va src n)).

(** The file is one the loops of exec end on: [phnum] is a [ushort];
    no segment's size in the file is within a page of 4 GiB (the [uint]
    counter of [loadseg] would wrap around); and the pages [uvmalloc]
    has returned for can be found (or [loadseg] panics). *)
Definition sane : Prop :=
  0 <= e_phnum elf < 2 ^ 16 /\
  (forall off, u32 (ph_filesz (snd (ph off))) <= 2 ^ 32 - PGSIZE) /\
  (forall va, walk va <> 0).

(** The offset of the [k]-th program header: [off = elf.phoff], then
    [off += sizeof(ph)], on an [int]; and the header read there. *)
Fixpoint seg_off (k : nat) : Z :=
  match k with
  | O => s32 (e_phoff elf)
  | Datatypes.S k' => s32 (seg_off k' + sizeof_proghdr)
  end.
Definition seg_read (k : nat) : Z * proghdr := ph (u32 (seg_off k)).
Definition seg (k : nat) : proghdr := snd (seg_read k).

(** The size of the new image after room has been made for segment
    [p], and after the first [k] program headers. *)
Definition grown (sz : Z) (p : proghdr) : Z :=
  alloc sz (u64 (ph_vaddr p + ph_memsz p)) (flags2perm PTE_X PTE_W (s32 (ph_flags p))).

Fixpoint size_after (k : nat) : Z :=
  match k with
  | O => 0
  | Datatypes.S k' =>
      if ph_type (seg k') =? ELF_PROG_LOAD then grown (size_after k') (seg k')
      else size_after k'
  end.

(** The metadata of a LOAD segment is valid. *)
Definition seg_valid (p : proghdr) : Prop :=
  ph_filesz p <= ph_memsz p /\
  ph_vaddr p <= u64 (ph_vaddr p + ph_memsz p) /\
  ph_vaddr p mod PGSIZE = 0.

(** The page of segment [p] at offset [i] is read in full. *)
Definition page_read (p : proghdr) (i : Z) : Prop :=
  let n := if u32 (u32 (ph_filesz p) - i) <? PGSIZE then u32 (u32 (ph_filesz p) - i) else PGSIZE in
  readpa (walk (u64 (ph_vaddr p + i))) (u32 (u32 (ph_off p) + i)) n = n.

Definition seg_loaded (p : proghdr) : Prop :=
  forall j, 0 <= j -> j * PGSIZE < u32 (ph_filesz p) -> page_read p (j * PGSIZE).

(** The [k]-th program header passes: it is read in full, and if it
    is of type LOAD it is valid, room for it is allocated, and its bytes
    are read from the file. *)
Definition seg_ok (k : nat) : Prop :=
  fst (seg_read k) = sizeof_proghdr /\
  (ph_type (seg k) = ELF_PROG_LOAD ->
   seg_valid (seg k) /\ grown (size_after k) (seg k) <> 0 /\ seg_loaded (seg k)).

Definition nsegs : nat := Z.to_nat (e_phnum elf).

(** The size of the new image with its two stack pages, and the
    bottom of the user stack. *)
Definition stack_lo : Z := PGROUNDUP (size_after nsegs).
Definition new_sz : Z := alloc stack_lo (u64 (stack_lo + 2 * PGSIZE)) PTE_W.
Definition stackbase : Z := u64 (new_sz - PGSIZE).

(** The stack pointer after a string has been pushed, and after the
    first [k] arguments have. *)
Definition push (sp : Z) (arg : list Z) : Z :=
  let sp := u64 (sp - (Z.of_nat (length arg) + 1)) in
  u64 (sp - sp mod 16).
Definition sp_after (k : nat) : Z := fold_left push (take k argv) new_sz.

(** The [k]-th argument fits above the stack guard and is copied out. *)
Definition arg_ok (k : nat) : Prop :=
  stackbase <= sp_after (Datatypes.S k) /\
  0 <= cb (sp_after (Datatypes.S k)) (nth k argv [] ++ [0])
         (Z.of_nat (length (nth k argv [])) + 1).

Definition nargs : Z := Z.of_nat (length argv).

(** The address of the array of argument pointers, which is the
    initial stack pointer, and the array. *)
Definition new_sp : Z :=
  let sp := u64 (sp_after (length argv) - u64 ((nargs + 1) * 8)) in
  u64 (sp - sp mod 16).
Definition ustack_words : list Z := map sp_after (seq 1 (length argv)) ++ [0].

(** Every check of exec passes: the inode exists; the ELF header is
    read in full and has the magic number; a page table is allocated;
    every program header passes; the two stack pages are allocated;
    there are fewer than MAXARG arguments; each of them fits and is
    copied out; and so is the array of pointers to them. *)
Definition good_run : Prop :=
  ip <> 0 /\
  n_elf = sizeof_elfhdr /\
  e_magic elf = ELF_MAGIC /\
  pt <> 0 /\
  (forall k, (k < nsegs)%nat -> seg_ok k) /\
  new_sz <> 0 /\
  nargs < MAXARG /\
  (forall k, (k < length argv)%nat -> arg_ok k) /\
  stackbase <= new_sp /\
  0 <= cw new_sp ustack_words (u64 ((nargs + 1) * 8)).

(** The new image is installed in [w1], and the old page table is
    freed from there, which gives [w']. *)
Definition installed (w1 w' : world (exec_state U)) : Prop :=
  x_proc U (st w1) = exec_image p0 path pt new_sz new_sp (e_entry elf) /\
  zoom (ext_part U) (proc_freepagetable (p_pagetable p0) (p_sz p0)) w1 = Ok tt w' /\
  x_proc U (st w') = exec_image p0 path pt new_sz new_sp (e_entry elf).

Definition decided (r : Z) (w' : world (exec_state U)) : Prop :=
  (~ good_run /\ r = -1 /\ x_proc U (st w') = p0) \/
  (good_run /\ r = nargs /\ exists w1, installed w1 w').

(** The log is idle but for [k] operations of the caller, whose
    private fields are untouched. *)
Definition at_ease (k : Z) (w : world (exec_state U)) : Prop :=
  idle k w /\ x_proc U (st w) = p0.

Lemma ease_kept {A} k k' (m : K (exec_state U) A) (Q : A -> Prop) :
  runs (idle k) m (fun a w => Q a /\ idle k' w) -> keeps m ->
  runs (at_ease k) m (fun a w => Q a /\ at_ease k' w).
Proof.
  intros Hr Hk w [Hi Hp]. destruct (Hr w Hi) as (a & w' & E & HQ & Hi').
  exists a, w'. split; [exact E|]. split; [exact HQ|]. split; [exact Hi'|].
  specialize (Hk w). unfold proc_after in Hk. rewrite E in Hk. cbn in Hk. congruence.
Qed.

Lemma ease_out {A} (m : K U A) good k :
  steady m good -> runs (at_ease k) (zoom (ext_part U) m) (fun a w => good a /\ at_ease k w).
Proof. intros Hs. apply ease_kept; [apply runs_out, Hs|apply keeps_out]. Qed.

Lemma ease_ext {A} (m : K U A) good k :
  steady m good -> runs (at_ease k) (zoom (ext_part U) m) (fun _ w => at_ease k w).
Proof.
  intros Hs. eapply runs_weaken; [apply (ease_out m good k Hs)|].
  intros a w [_ H]. exact H.
Qed.

Lemma ease_myproc k : runs (at_ease k) (myproc U) (fun p w => p = p0 /\ at_ease k w).
Proof.
  intros w [Hi Hp]. exists (x_proc U (st w)), w.
  split; [reflexivity|]. split; [exact Hp|]. split; assumption.
Qed.

Section Walk.
Hypothesis Hans : answered.
Hypothesis Hsane : sane.
Hypothesis Hmax : is_s32 MAXOPBLOCKS.
Hypothesis Hroom : MAXOPBLOCKS <= LOGSIZE.
Hypothesis HM : 0 <= MAXARG < 2 ^ 31.
Hypothesis Hlen : nargs <> MAXARG.

Lemma ease_begin_op :
  runs (at_ease 0) (zoom (fs_part U) (begin_op log_addr LOGSIZE MAXOPBLOCKS))
    (fun _ w => at_ease 1 w).
Proof.
  eapply runs_weaken.
  - apply (ease_kept 0 1 _ (fun _ => True)); [|apply keeps_fs].
    eapply runs_weaken; [apply (runs_begin_op Hmax Hroom)|]. intros a w H. split; [exact I|exact H].
  - intros a w [_ H]. exact H.
Qed.

Lemma ease_end_op :
  runs (at_ease 1) (zoom (fs_part U) (end_op buf_addr log_addr BSIZE))
    (fun _ w => at_ease 0 w).
Proof.
  eapply runs_weaken.
  - apply (ease_kept 1 0 _ (fun _ => True)); [|apply keeps_fs].
    eapply runs_weaken; [apply runs_end_op|]. intros a w H. split; [exact I|exact H].
  - intros a w [_ H]. exact H.
Qed.

Lemma ease_fail k : ~ good_run -> runs (at_ease k) (ret (-1)) decided.
Proof.
  intros Hng w [Hi Hp]. exists (-1), w. split; [reflexivity|].
  left. repeat split; assumption.
Qed.

Lemma ease_bad_open pt' sz' :
  ip <> 0 -> ~ good_run -> runs (at_ease 1) (exec_bad_ pt' sz' ip) decided.
Proof.
  intros Hip Hng.
  destruct Hans as (_ & _ & Hiunlockput & _ & _ & _ & _ & Hfree & _).
  unfold exec_bad.
  eapply runs_bind; [apply runs_if; [eapply ease_ext, Hfree|apply runs_done]|]. intros ?.
  unfold truthy. destruct (Z.eqb_spec ip 0); [contradiction|]. cbn [negb].
  eapply runs_bind.
  - eapply runs_bind; [eapply ease_ext, Hiunlockput|]. intros ?. apply ease_end_op.
  - intros ?. apply ease_fail. exact Hng.
Qed.

Lemma ease_bad_closed pt' sz' :
  ~ good_run -> runs (at_ease 0) (exec_bad_ pt' sz' 0) decided.
Proof.
  intros Hng.
  destruct Hans as (_ & _ & _ & _ & _ & _ & _ & Hfree & _).
  unfold exec_bad.
  eapply runs_bind; [apply runs_if; [eapply ease_ext, Hfree|apply runs_done]|]. intros ?.
  cbn [truthy Z.eqb negb].
  eapply runs_bind; [apply runs_done|]. intros ?. apply ease_fail. exact Hng.
Qed.

Lemma ease_ret {A} k (a : A) (Q : A -> Prop) :
  Q a -> runs (at_ease k) (ret a) (fun r w => Q r /\ at_ease k w).
Proof. intros HQ w Hw. exists a, w. split; [reflexivity|]. split; assumption. Qed.

(** The loop of [loadseg]: it returns 0 when every page is read in
    full and -1 at the first that is not. *)
Lemma decided_loadseg_loop p :
  u32 (ph_filesz p) <= 2 ^ 32 - PGSIZE ->
  forall fuel j,
    0 <= j -> u32 (ph_filesz p) - j * PGSIZE < Z.of_nat fuel * PGSIZE ->
    (forall j', 0 <= j' < j -> page_read p (j' * PGSIZE)) ->
    runs (at_ease 1)
      (loadseg_loop_ fuel pt (ph_vaddr p) ip (u32 (ph_off p)) (u32 (ph_filesz p)) (j * PGSIZE))
      (fun r w => ((r = 0 /\ seg_loaded p) \/ (r = -1 /\ ~ seg_loaded p)) /\ at_ease 1 w).
Proof.
  intros Hsz.
  destruct Hans as (_ & _ & _ & _ & _ & Hreadi & _ & _ & _ & _ & Hwalk & _).
  destruct Hsane as (_ & _ & Hmapped).
  assert (Hend : forall j, 0 <= j -> u32 (ph_filesz p) <= j * PGSIZE ->
                 (forall j', 0 <= j' < j -> page_read p (j' * PGSIZE)) ->
                 runs (at_ease 1) (ret 0)
                   (fun r w => ((r = 0 /\ seg_loaded p) \/ (r = -1 /\ ~ seg_loaded p)) /\
                               at_ease 1 w)).
  { intros j Hj Hge Hdone. apply ease_ret. left. split; [reflexivity|].
    intros j' Hj' Hlt. apply Hdone. unfold PGSIZE in *. lia. }
  induction fuel as [|fuel IH]; intros j Hj Hf Hdone; cbn [loadseg_loop].
  - destruct (Z.ltb_spec (j * PGSIZE) (u32 (ph_filesz p))) as [Hlt|Hge];
      [unfold PGSIZE in *; lia|].
    apply (Hend j); assumption.
  - destruct (Z.ltb_spec (j * PGSIZE) (u32 (ph_filesz p))) as [Hlt|Hge];
      [|apply (Hend j); assumption].
    eapply runs_bind; [apply ease_out, Hwalk|]. intros pa. apply runs_assume. intros ->.
    destruct (Z.eqb_spec (walk (u64 (ph_vaddr p + j * PGSIZE))) 0) as [E|_];
      [exfalso; exact (Hmapped _ E)|].
    eapply runs_bind; [apply ease_out, Hreadi|]. intros r. apply runs_assume. intros ->.
    match goal with |- context [negb (?a =? ?b)] => destruct (Z.eqb_spec a b) as [E|E] end;
      cbn [negb].
    + replace (u32 (j * PGSIZE + PGSIZE)) with ((j + 1) * PGSIZE)
        by (rewrite u32_id; unfold is_u32, PGSIZE in *; lia).
      apply IH; [lia|unfold PGSIZE in *; lia|].
      intros j' Hj'. destruct (Z.eq_dec j' j) as [->|Hne]; [exact E|apply Hdone; lia].
    + apply ease_ret. right. split; [reflexivity|]. intros Hl. apply E.
      apply (Hl j); assumption.
Qed.

Lemma decided_loadseg p :
  u32 (ph_filesz p) <= 2 ^ 32 - PGSIZE ->
  runs (at_ease 1) (loadseg_ pt (ph_vaddr p) ip (ph_off p) (ph_filesz p))
    (fun r w => ((r = 0 /\ seg_loaded p) \/ (r = -1 /\ ~ seg_loaded p)) /\ at_ease 1 w).
Proof.
  intros Hsz. unfold loadseg.
  assert (H0 : 0 <= u32 (ph_filesz p))
    by (pose proof (u32_range (ph_filesz p)); unfold is_u32 in *; lia).
  refine (decided_loadseg_loop p Hsz (Z.to_nat (u32 (ph_filesz p) / PGSIZE) + 1) 0 _ _ _);
    [lia| |intros j' Hj'; lia].
  unfold PGSIZE in *.
  rewrite Nat2Z.inj_add, Z2Nat.id by (apply Z.div_pos; lia).
  pose proof (Z.mul_succ_div_gt (u32 (ph_filesz p)) 4096 ltac:(lia)). lia.
Qed.

Lemma nsegs_eq : Z.of_nat nsegs = e_phnum elf.
Proof. unfold nsegs. destruct Hsane as (H & _). apply Z2Nat.id. lia. Qed.

(** The loop over the program headers: it ends without [goto bad]
    exactly when every header passes, with the size they add up to. *)
Lemma decided_exec_load :
  forall fuel k,
    (k <= nsegs)%nat -> (nsegs - k <= fuel)%nat ->
    (forall j, (j < k)%nat -> seg_ok j) ->
    runs (at_ease 1) (exec_load_ fuel elf ip pt (Z.of_nat k) (seg_off k) (size_after k))
      (fun r w => ((fst r = false /\ snd r = size_after nsegs /\
                    forall j, (j < nsegs)%nat -> seg_ok j) \/
                   (fst r = true /\ ~ forall j, (j < nsegs)%nat -> seg_ok j)) /\
                  at_ease 1 w).
Proof.
  pose proof nsegs_eq as HN.
  destruct Hans as (_ & _ & _ & _ & Hph & _ & _ & _ & Huvm & _).
  pose proof Hsane as ((Hp0 & Hp1) & Hfsz & _).
  assert (Hend : forall k, k = nsegs -> (forall j, (j < k)%nat -> seg_ok j) ->
            runs (at_ease 1) (ret (false, size_after k))
              (fun r w => ((fst r = false /\ snd r = size_after nsegs /\
                            forall j, (j < nsegs)%nat -> seg_ok j) \/
                           (fst r = true /\ ~ forall j, (j < nsegs)%nat -> seg_ok j)) /\
                          at_ease 1 w)).
  { intros k -> Hdone. apply ease_ret. left.
    split; [reflexivity|]. split; [reflexivity|exact Hdone]. }
  assert (Hbad : forall k sz, (k < nsegs)%nat -> ~ seg_ok k ->
            runs (at_ease 1) (ret (true, sz))
              (fun r w => ((fst r = false /\ snd r = size_after nsegs /\
                            forall j, (j < nsegs)%nat -> seg_ok j) \/
                           (fst r = true /\ ~ forall j, (j < nsegs)%nat -> seg_ok j)) /\
                          at_ease 1 w)).
  { intros k sz Hk Hno. apply ease_ret. right. split; [reflexivity|].
    intros Hall. exact (Hno (Hall k Hk)). }
  induction fuel as [|fuel IH]; intros k Hk Hf Hdone; cbn [exec_load].
  - destruct (Z.ltb_spec (Z.of_nat k) (e_phnum elf)) as [Hlt|Hge]; [lia|].
    apply Hend; [lia|assumption].
  - destruct (Z.ltb_spec (Z.of_nat k) (e_phnum elf)) as [Hlt|Hge];
      [|apply Hend; [lia|assumption]].
    assert (Hkn : (k < nsegs)%nat) by lia.
    assert (Hnext : seg_ok k ->
              runs (at_ease 1)
                (exec_load_ fuel elf ip pt (s32 (Z.of_nat k + 1))
                   (s32 (seg_off k + sizeof_proghdr)) (size_after (Datatypes.S k)))
                (fun r w => ((fst r = false /\ snd r = size_after nsegs /\
                              forall j, (j < nsegs)%nat -> seg_ok j) \/
                             (fst r = true /\ ~ forall j, (j < nsegs)%nat -> seg_ok j)) /\
                            at_ease 1 w)).
    { intros Hok. rewrite (s32_id (Z.of_nat k + 1)) by (unfold is_s32; lia).
      replace (Z.of_nat k + 1) with (Z.of_nat (Datatypes.S k)) by lia.
      change (s32 (seg_off k + sizeof_proghdr)) with (seg_off (Datatypes.S k)).
      apply IH; [lia|lia|].
      intros j Hj. destruct (Nat.eq_dec j k) as [->|Hne]; [exact Hok|apply Hdone; lia]. }
    eapply runs_bind; [apply ease_out, Hph|]. intros r. apply runs_assume. intros ->.
    change (ph (u32 (seg_off k))) with (seg_read k).
    destruct (Z.eqb_spec (fst (seg_read k)) sizeof_proghdr) as [En|En]; cbn [negb].
    2:{ apply (Hbad k); [assumption|]. intros [H1 _]. contradiction. }
    change (snd (seg_read k)) with (seg k).
    destruct (Z.eqb_spec (ph_type (seg k)) ELF_PROG_LOAD) as [Et|Et]; cbn [negb].
    2:{ pose proof (Hnext (conj En (fun H => False_ind _ (Et H)))) as H.
        cbn [size_after] in H. apply Z.eqb_neq in Et. rewrite Et in H. exact H. }
    destruct (Z.ltb_spec (ph_memsz (seg k)) (ph_filesz (seg k))) as [E1|E1].
    { apply (Hbad k); [assumption|]. intros [_ H]. destruct (H Et) as ((V & _) & _). lia. }
    destruct (Z.ltb_spec (u64 (ph_vaddr (seg k) + ph_memsz (seg k))) (ph_vaddr (seg k)))
      as [E2|E2].
    { apply (Hbad k); [assumption|]. intros [_ H]. destruct (H Et) as ((_ & V & _) & _). lia. }
    destruct (Z.eqb_spec (ph_vaddr (seg k) mod PGSIZE) 0) as [E3|E3]; cbn [negb].
    2:{ apply (Hbad k); [assumption|]. intros [_ H].
        destruct (H Et) as ((_ & _ & V) & _). contradiction. }
    eapply runs_bind; [apply ease_out, Huvm|]. intros sz1. apply runs_assume. intros ->.
    fold (grown (size_after k) (seg k)).
    destruct (Z.eqb_spec (grown (size_after k) (seg k)) 0) as [E4|E4].
    { apply (Hbad k); [assumption|]. intros [_ H]. destruct (H Et) as (_ & V & _).
      contradiction. }
    eapply runs_bind; [apply decided_loadseg, Hfsz|]. intros r. apply runs_assume.
    intros [[-> Hl]|[-> Hl]].
    + cbn [Z.ltb Z.compare].
      assert (Hok : seg_ok k).
      { split; [exact En|]. intros _. split; [|split; assumption].
        split; [lia|]. split; [lia|assumption]. }
      pose proof (Hnext Hok) as H. cbn [size_after] in H.
      rewrite Et, Z.eqb_refl in H. exact H.
    + cbn [Z.ltb Z.compare Z.opp].
      apply (Hbad k); [assumption|]. intros [_ H]. destruct (H Et) as (_ & _ & V).
      contradiction.
Qed.

Lemma sp_after_S k arg :
  argv !! k = Some arg -> sp_after (Datatypes.S k) = push (sp_after k) arg.
Proof.
  intros H. unfold sp_after. rewrite (take_S_r _ _ _ H), fold_left_app. reflexivity.
Qed.

(** The loop over the arguments: it ends without [goto bad] exactly
    when there are at most MAXARG of them and each fits and is copied
    out, with their addresses in [ustack]. *)
Lemma decided_exec_args :
  forall args k ustack,
    drop k argv = args -> (k <= length argv)%nat ->
    Z.of_nat k <= MAXARG ->
    length ustack = Z.to_nat MAXARG ->
    (forall j, (j < k)%nat -> nth j ustack 0 = sp_after (Datatypes.S j)) ->
    (forall j, (j < k)%nat -> arg_ok j) ->
    runs (at_ease 0)
      (exec_args_ pt stackbase args (Z.of_nat k) (sp_after k) ustack)
      (fun r w =>
         ((fst r = false /\ fst (fst (snd r)) = nargs /\
           snd (fst (snd r)) = sp_after (length argv) /\
           length (snd (snd r)) = Z.to_nat MAXARG /\
           (forall j, (j < length argv)%nat ->
              nth j (snd (snd r)) 0 = sp_after (Datatypes.S j)) /\
           nargs <= MAXARG /\
           forall j, (j < length argv)%nat -> arg_ok j) \/
          (fst r = true /\
           (MAXARG < nargs \/ ~ forall j, (j < length argv)%nat -> arg_ok j))) /\
         at_ease 0 w).
Proof.
  destruct Hans as (_ & _ & _ & _ & _ & _ & _ & _ & _ & _ & _ & Hbytes & _).
  induction args as [|arg args IH]; intros k ustack Hdrop Hk HkM Hul Hnth Hdone;
    cbn [exec_args].
  - assert (k = length argv).
    { apply (f_equal (@length _)) in Hdrop. rewrite length_drop in Hdrop. cbn in Hdrop. lia. }
    subst k. apply ease_ret. left. cbn [fst snd]. unfold nargs.
    split; [reflexivity|]. split; [reflexivity|]. split; [reflexivity|].
    split; [exact Hul|]. split; [exact Hnth|]. split; [exact HkM|exact Hdone].
  - assert (Hlk : argv !! k = Some arg).
    { rewrite <- (Nat.add_0_r k), <- lookup_drop, Hdrop. reflexivity. }
    assert (Hklt : (k < length argv)%nat) by (apply lookup_lt_is_Some; eauto).
    assert (Hrest : drop (Datatypes.S k) argv = args).
    { replace (Datatypes.S k) with (k + 1)%nat by lia.
      rewrite <- drop_drop, Hdrop. reflexivity. }
    assert (Harg : nth k argv [] = arg) by (apply nth_lookup_Some with (d := []) in Hlk; exact Hlk).
    destruct (Z.geb_spec (Z.of_nat k) MAXARG) as [Hge|Hlt].
    { apply ease_ret. right. cbn [fst]. split; [reflexivity|]. left. unfold nargs. lia. }
    fold (push (sp_after k) arg). rewrite <- (sp_after_S k arg Hlk).
    destruct (Z.ltb_spec (sp_after (Datatypes.S k)) stackbase) as [E1|E1].
    { apply ease_ret. right. cbn [fst]. split; [reflexivity|]. right.
      intros Hall. destruct (Hall k Hklt) as [V _]. lia. }
    eapply runs_bind; [apply ease_out, Hbytes|]. intros r. apply runs_assume. intros ->.
    destruct (Z.ltb_spec (cb (sp_after (Datatypes.S k)) (arg ++ [0])
                            (Z.of_nat (length arg) + 1)) 0) as [E2|E2].
    { apply ease_ret. right. cbn [fst]. split; [reflexivity|]. right.
      intros Hall. destruct (Hall k Hklt) as [_ V]. rewrite Harg in V. lia. }
    replace (Z.of_nat k + 1) with (Z.of_nat (Datatypes.S k)) by lia.
    rewrite Nat2Z.id.
    apply IH; try assumption; try lia.
    + rewrite length_insert. exact Hul.
    + intros j Hj. destruct (Nat.eq_dec j k) as [->|Hne].
      * apply nth_insert_same. lia.
      * rewrite nth_insert_other by lia. apply Hnth. lia.
    + intros j Hj. destruct (Nat.eq_dec j k) as [->|Hne].
      * split; [lia|rewrite Harg; lia].
      * apply Hdone. lia.
Qed.

(** The commit to the new image, and what follows it. *)
Lemma ease_commit :
  good_run ->
  runs (at_ease 0)
    (wr_proc U (set_tf TF_A1 new_sp) ;;
     wr_proc U (set_name (safestrcpy (last_component path path) 16)) ;;
     p <- myproc U ;;
     wr_proc U (set_pagetable pt) ;;
     wr_proc U (set_sz new_sz) ;;
     wr_proc U (set_tf TF_EPC (e_entry elf)) ;;
     wr_proc U (set_tf TF_SP new_sp) ;;
     zoom (ext_part U) (proc_freepagetable (p_pagetable p) (p_sz p0)) ;;
     ret (s32 nargs))
    decided.
Proof.
  intros Hg [c pid ptb [f p u] e] [Hi Hp]. cbn [st x_proc] in Hp. subst p.
  destruct Hans as (_ & _ & _ & _ & _ & _ & _ & Hfree & _).
  unfold bind, wr_proc, modify, myproc, gets.
  cbn [st set_st x_proc x_fs x_ext cpu mypid ptable env].
  fold (exec_image p0 path pt new_sz new_sp (e_entry elf)).
  change (p_pagetable (set_name _ _)) with (p_pagetable p0).
  match goal with |- context [zoom ?r ?m ?wc] => set (w13 := wc) end.
  assert (Hidle : idle 0 w13) by exact Hi.
  destruct (runs_ext (proc_freepagetable (p_pagetable p0) (p_sz p0)) any 0 (Hfree _ _) w13 Hidle)
    as ([] & w14 & E & Hi14).
  pose proof (keeps_out (proc_freepagetable (p_pagetable p0) (p_sz p0)) w13) as Hk.
  unfold proc_after in Hk. rewrite E in Hk. cbn [final_world] in Hk.
  exists nargs, w14. rewrite E. split.
  - unfold ret. f_equal. apply s32_id. unfold is_s32, nargs.
    destruct Hg as (_ & _ & _ & _ & _ & _ & G7 & _). unfold nargs in G7. lia.
  - right. split; [exact Hg|]. split; [reflexivity|].
    exists w13. split; [reflexivity|]. split; [exact E|exact Hk].
Qed.

Lemma ustack_copied ustack :
  length ustack = Z.to_nat MAXARG -> nargs < MAXARG ->
  (forall j, (j < length argv)%nat -> nth j ustack 0 = sp_after (Datatypes.S j)) ->
  take (Z.to_nat (nargs + 1)) (<[Z.to_nat nargs := 0]> ustack) = ustack_words.
Proof.
  intros Hul Hlt Hnth. unfold nargs in *.
  replace (Z.to_nat (Z.of_nat (length argv) + 1)) with (Datatypes.S (length argv)) by lia.
  rewrite Nat2Z.id.
  rewrite (take_S_r _ _ 0) by (apply list_lookup_insert_eq; lia).
  rewrite take_insert_ge by lia.
  unfold ustack_words. f_equal.
  apply nth_ext with (d := 0) (d' := 0).
  - rewrite length_take, length_map, length_seq. lia.
  - intros j Hj. rewrite length_take in Hj.
    rewrite nth_firstn. destruct (Nat.ltb_spec j (length argv)) as [_|]; [|lia].
    rewrite Hnth by lia.
    rewrite (nth_indep _ 0 (sp_after 0)) by (rewrite length_map, length_seq; lia).
    rewrite map_nth, seq_nth by lia. reflexivity.
Qed.

(** exec returns, and what it returns and leaves is decided by
    [good_run]. *)
Lemma exec_decided : runs (at_ease 0) (exec_ path argv) decided.
Proof.
  pose proof Hans as (Hnamei & Hilock & Hiunlockput & Helf & _ & _ & Hpagetable & Hfree &
                      Huvmalloc & Huvmclear & _ & _ & Hwords).
  unfold exec.
  eapply runs_bind; [apply ease_myproc|]. intros p. apply runs_assume. intros ->.
  eapply runs_bind; [apply ease_begin_op|]. intros ?.
  eapply runs_bind; [apply ease_out, Hnamei|]. intros ip'. apply runs_assume. intros ->.
  destruct (Z.eqb_spec ip 0) as [Hip|Hip].
  { eapply runs_bind; [apply ease_end_op|]. intros ?. apply ease_fail.
    intros (G & _). contradiction. }
  eapply runs_bind; [eapply ease_ext, Hilock|]. intros ?.
  eapply runs_bind; [apply ease_out, Helf|]. intros r. apply runs_assume. intros ->.
  cbn [fst snd].
  destruct (Z.eqb_spec n_elf sizeof_elfhdr) as [En|En]; cbn [negb].
  2:{ apply ease_bad_open; [assumption|]. intros (_ & G & _). contradiction. }
  destruct (Z.eqb_spec (e_magic elf) ELF_MAGIC) as [Em|Em]; cbn [negb].
  2:{ apply ease_bad_open; [assumption|]. intros (_ & _ & G & _). contradiction. }
  eapply runs_bind; [apply ease_out, Hpagetable|]. intros pt'. apply runs_assume. intros ->.
  destruct (Z.eqb_spec pt 0) as [Ept|Ept].
  { apply ease_bad_open; [assumption|]. intros (_ & _ & _ & G & _). contradiction. }
  eapply runs_bind.
  { apply (decided_exec_load (Z.to_nat (e_phnum elf)) 0%nat); [lia|unfold nsegs; lia|].
    intros j Hj. lia. }
  intros [bad sz]. cbn [fst snd]. apply runs_assume.
  intros [(-> & -> & Hsegs)|(-> & Hsegs)].
  2:{ apply ease_bad_open; [assumption|]. intros (_ & _ & _ & _ & G & _). exact (Hsegs G). }
  eapply runs_bind; [eapply ease_ext, Hiunlockput|]. intros ?.
  eapply runs_bind; [apply ease_end_op|]. intros ?.
  eapply runs_bind; [apply ease_myproc|]. intros p. apply runs_assume. intros ->.
  fold stack_lo.
  eapply runs_bind; [apply ease_out, Huvmalloc|]. intros sz1. apply runs_assume. intros ->.
  fold new_sz.
  destruct (Z.eqb_spec new_sz 0) as [Esz|Esz].
  { apply ease_bad_closed. intros (_ & _ & _ & _ & _ & G & _). contradiction. }
  eapply runs_bind; [eapply ease_ext, Huvmclear|]. intros ?.
  fold stackbase.
  eapply runs_bind.
  { apply (decided_exec_args argv 0%nat (repeat 0 (Z.to_nat MAXARG))).
    - reflexivity.
    - lia.
    - cbn. lia.
    - apply repeat_length.
    - intros j Hj. lia.
    - intros j Hj. lia. }
  intros [bad [[argc sp] ustack]]. cbn [fst snd]. apply runs_assume.
  intros [(-> & -> & -> & Hul & Hnth & Hle & Hargs)|(-> & Hbad)].
  2:{ apply ease_bad_closed. intros (_ & _ & _ & _ & _ & _ & G7 & G8 & _).
      destruct Hbad as [Hbad|Hbad]; [lia|exact (Hbad G8)]. }
  destruct (Z.geb_spec nargs MAXARG) as [Hge|Hlt]; [lia|].
  fold new_sp.
  destruct (Z.ltb_spec new_sp stackbase) as [E9|E9].
  { apply ease_bad_closed. intros (_ & _ & _ & _ & _ & _ & _ & _ & G & _). lia. }
  rewrite (ustack_copied ustack Hul Hlt Hnth).
  eapply runs_bind; [apply ease_out, Hwords|]. intros r. apply runs_assume. intros ->.
  destruct (Z.ltb_spec (cw new_sp ustack_words (u64 ((nargs + 1) * 8))) 0) as [E10|E10].
  { apply ease_bad_closed. intros (_ & _ & _ & _ & _ & _ & _ & _ & _ & G). lia. }
  apply ease_commit.
  repeat (split; [assumption|]). assumption.
Qed.
End Walk.


(** X20 (exec.c, exec): when exec succeeds, the name it has saved
    for the process is what follows the last slash of the path (the
    whole path when it has no slash), cut to its first 15 bytes and
    followed by a zero byte; that part of the path contains no slash.
    When exec fails the name is the one the process had. *)
Theorem exec_name_is_last_component (w : world (exec_state U)) :
  answered -> sane -> is_s32 MAXOPBLOCKS -> MAXOPBLOCKS <= LOGSIZE ->
  0 <= MAXARG < 2 ^ 31 -> nargs <> MAXARG ->
  idle 0 w -> x_proc U (st w) = p0 ->
  exists r w',
    exec_ path argv w = Ok r w' /\
    (good_run ->
     p_name (x_proc U (st w')) = take 15 (last_component path path) ++ [0]) /\
    (~ good_run -> p_name (x_proc U (st w')) = p_name p0) /\
    (exists dir, path = dir ++ last_component path path /\
                 (dir = [] \/ last dir = Some 47)) /\
    ~ In 47 (last_component path path).
Proof.
  intros Ha Hsane Hs Hr HM Hlen Hi Hp.
  destruct (last_component_from path [] (fun H => H)) as (q & E & Hno & Hq).
  cbn [app] in E, Hno.
  destruct (exec_decided Ha Hsane Hs Hr HM Hlen w (conj Hi Hp))
    as (r & w' & Er & [(Hb & -> & Hq')|(Hg & -> & w1 & _ & _ & Hin)]).
  - exists (-1), w'. split; [exact Er|]. split; [intros G; contradiction|].
    split; [intros _; rewrite Hq'; reflexivity|].
    split; [exists q; split; assumption|exact Hno].
  - exists nargs, w'. split; [exact Er|]. split; [|split; [intros G; contradiction|]].
    + intros _. rewrite Hin. reflexivity.
    + split; [exists q; split; assumption|exact Hno].
Qed.
End Decided.
(** *** The permissions exec asks for

    What exec passes to [uvmalloc] is seen in a record the helpers keep
    of their calls: [readi] of a program header notes the header it
    has read, [uvmalloc] notes its arguments, and the other helpers note
    nothing. *)
Inductive call :=
| Read (r : Z * proghdr)
| Alloc (pt oldsz newsz perm : Z).

(** The header is read in full, is of type LOAD and has valid
    metadata: exec makes room for it. *)
Definition loadable (r : Z * proghdr) : Prop :=
  fst r = sizeof_proghdr /\ ph_type (snd r) = ELF_PROG_LOAD /\ seg_valid (snd r).

(** The calls of the loop over the program headers. Every header that
    is read and is loadable is followed by the call of [uvmalloc] for
    it, up to [vaddr + memsz] and with the permissions [flags2perm]
    gives for its flags; no other header is followed by a call. *)
Inductive load_calls (pt : Z) : list call -> Prop :=
| lc_done : load_calls pt []
| lc_skip r tr : ~ loadable r -> load_calls pt tr -> load_calls pt (Read r :: tr)
| lc_load r sz tr :
    loadable r -> load_calls pt tr ->
    load_calls pt
      (Read r ::
       Alloc pt sz (u64 (ph_vaddr (snd r) + ph_memsz (snd r)))
         (flags2perm PTE_X PTE_W (s32 (ph_flags (snd r)))) :: tr).

(** The call for the two stack pages, if exec gets that far. *)
Definition stack_calls (pt : Z) (tr : list call) : Prop :=
  tr = [] \/ exists a b, tr = [Alloc pt a b PTE_W].

Section Recorded.
Variable calls : U -> list call.

Definition calls_of (w : world (exec_state U)) : list call := calls (x_ext U (st w)).

Definition silent {A} (m : K U A) : Prop :=
  forall wu, calls (st (final_world (m wu))) = calls (st wu).

Definition recording : Prop :=
  (forall ip off wu,
     match readi_proghdr ip off wu with
     | Ok r wu' => calls (st wu') = calls (st wu) ++ [Read r]
     | Panic _ wu' | Blocked wu' => calls (st wu') = calls (st wu)
     end) /\
  (forall pt a b perm wu,
     calls (st (final_world (uvmalloc pt a b perm wu))) =
       calls (st wu) ++ [Alloc pt a b perm]) /\
  (forall p, silent (namei p)) /\
  (forall ip, silent (ilock ip)) /\
  (forall ip, silent (iunlockput ip)) /\
  (forall ip, silent (readi_elfhdr ip)) /\
  (forall ip pa off n, silent (readi_pa ip pa off n)) /\
  (forall p, silent (proc_pagetable p)) /\
  (forall pt sz, silent (proc_freepagetable pt sz)) /\
  (forall pt va, silent (uvmclear pt va)) /\
  (forall pt va, silent (walkaddr pt va)) /\
  (forall pt va src n, silent (copyout_bytes pt va src n)) /\
  (forall pt va src n, silent (copyout_words pt va src n)).

(** A computation that adds nothing to the record, and one whose
    additions satisfy [P]. *)
Definition mute {A} (m : K (exec_state U) A) : Prop :=
  forall w, calls_of (final_world (m w)) = calls_of w.

Definition emits {A} (m : K (exec_state U) A) (P : list call -> Prop) : Prop :=
  forall w, exists tr, calls_of (final_world (m w)) = calls_of w ++ tr /\ P tr.

Lemma mute_ret {A} (a : A) : mute (ret a).
Proof. intros w. reflexivity. Qed.

Lemma mute_stop {A} msg : mute (fun w => Panic msg w : result (exec_state U) A).
Proof. intros w. reflexivity. Qed.

Lemma mute_blocked {A} : mute (blocked : K _ A).
Proof. intros w. reflexivity. Qed.

Lemma mute_bind {A B} (m : K (exec_state U) A) (k : A -> K (exec_state U) B) :
  mute m -> (forall a, mute (k a)) -> mute (bind m k).
Proof.
  intros Hm Hk w. unfold bind. specialize (Hm w).
  destruct (m w) as [a w1|msg w1|w1]; cbn in Hm; [|assumption|assumption].
  rewrite <- Hm. apply Hk.
Qed.

Lemma mute_if {A} (c : bool) (m1 m2 : K (exec_state U) A) :
  mute m1 -> mute m2 -> mute (if c then m1 else m2).
Proof. destruct c; auto. Qed.

Lemma mute_out {A} (m : K U A) : silent m -> mute (zoom (ext_part U) m).
Proof.
  intros Hs w. unfold calls_of, zoom.
  match goal with |- context [m ?wu] => specialize (Hs wu); destruct (m wu) end; exact Hs.
Qed.

Lemma mute_fs {A} (m : K fs A) : mute (zoom (fs_part U) m).
Proof. intros w. unfold calls_of, zoom. destruct (m _); reflexivity. Qed.

Lemma mute_myproc : mute (myproc U).
Proof. intros w. reflexivity. Qed.

Lemma mute_wr_proc f : mute (wr_proc U f).
Proof. intros w. reflexivity. Qed.

Lemma emits_mute {A} (m : K (exec_state U) A) (P : list call -> Prop) :
  mute m -> P [] -> emits m P.
Proof. intros Hq HP w. exists []. rewrite app_nil_r. split; [apply Hq|exact HP]. Qed.

Lemma emits_after {A B} (m : K (exec_state U) A) (k : A -> K (exec_state U) B)
    (P : list call -> Prop) :
  mute m -> P [] -> (forall a, emits (k a) P) -> emits (bind m k) P.
Proof.
  intros Hq HP Hk w. unfold bind. specialize (Hq w).
  destruct (m w) as [a w1|msg w1|w1]; cbn in Hq.
  - destruct (Hk a w1) as (tr & E & Ht). exists tr. rewrite E, Hq. split; [reflexivity|exact Ht].
  - exists []. rewrite app_nil_r. split; assumption.
  - exists []. rewrite app_nil_r. split; assumption.
Qed.

Lemma emits_seq {A B} (m : K (exec_state U) A) (k : A -> K (exec_state U) B)
    (P Q R : list call -> Prop) :
  emits m P -> (forall a, emits (k a) Q) ->
  (forall t1, P t1 -> R t1) -> (forall t1 t2, P t1 -> Q t2 -> R (t1 ++ t2)) ->
  emits (bind m k) R.
Proof.
  intros Hm Hk H1 H2 w. unfold bind. destruct (Hm w) as (t1 & E1 & HP).
  destruct (m w) as [a w1|msg w1|w1]; cbn in E1.
  - destruct (Hk a w1) as (t2 & E2 & HQ). exists (t1 ++ t2).
    rewrite E2, E1, app_assoc. split; [reflexivity|apply H2; assumption].
  - exists t1. split; [exact E1|apply H1; exact HP].
  - exists t1. split; [exact E1|apply H1; exact HP].
Qed.

Lemma emits_if {A} (c : bool) (m1 m2 : K (exec_state U) A) P :
  emits m1 P -> emits m2 P -> emits (if c then m1 else m2) P.
Proof. destruct c; auto. Qed.

Section Calls.
Hypothesis Hrec : recording.

Lemma mute_loadseg_loop fuel pt va ip offset sz i :
  mute (loadseg_loop_ fuel pt va ip offset sz i).
Proof.
  destruct Hrec as (_ & _ & _ & _ & _ & _ & Hreadi & _ & _ & _ & Hwalk & _).
  revert i. induction fuel as [|fuel IH]; intros i; cbn [loadseg_loop].
  - apply mute_if; [|apply mute_ret].
    apply mute_bind; [apply mute_out, Hwalk|]. intros pa.
    apply mute_if; [apply mute_stop|].
    apply mute_bind; [apply mute_out, Hreadi|]. intros r.
    apply mute_if; [apply mute_ret|apply mute_blocked].
  - apply mute_if; [|apply mute_ret].
    apply mute_bind; [apply mute_out, Hwalk|]. intros pa.
    apply mute_if; [apply mute_stop|].
    apply mute_bind; [apply mute_out, Hreadi|]. intros r.
    apply mute_if; [apply mute_ret|apply IH].
Qed.

Lemma mute_exec_args pt stackbase rest argc sp ustack :
  mute (exec_args_ pt stackbase rest argc sp ustack).
Proof.
  destruct Hrec as (_ & _ & _ & _ & _ & _ & _ & _ & _ & _ & _ & Hbytes & _).
  revert argc sp ustack. induction rest as [|arg rest IH]; intros argc sp ustack;
    cbn [exec_args].
  - apply mute_ret.
  - apply mute_if; [apply mute_ret|].
    apply mute_if; [apply mute_ret|].
    apply mute_bind; [apply mute_out, Hbytes|]. intros r.
    apply mute_if; [apply mute_ret|apply IH].
Qed.

Lemma mute_exec_bad pt sz ip : mute (exec_bad_ pt sz ip).
Proof.
  destruct Hrec as (_ & _ & _ & _ & Hiunlockput & _ & _ & _ & Hfree & _).
  unfold exec_bad.
  apply mute_bind; [apply mute_if; [apply mute_out, Hfree|apply mute_ret]|]. intros _.
  apply mute_bind; [|intros _; apply mute_ret].
  apply mute_if; [|apply mute_ret].
  apply mute_bind; [apply mute_out, Hiunlockput|]. intros _. apply mute_fs.
Qed.

(** What [readi] of a program header and [uvmalloc] add, seen from
    exec. *)
Lemma out_read ip off (w : world (exec_state U)) :
  match zoom (ext_part U) (readi_proghdr ip off) w with
  | Ok r w' => calls_of w' = calls_of w ++ [Read r]
  | Panic _ w' | Blocked w' => calls_of w' = calls_of w
  end.
Proof.
  destruct Hrec as (Hph & _). unfold calls_of, zoom.
  match goal with |- context [readi_proghdr ip off ?wu] =>
    specialize (Hph ip off wu); destruct (readi_proghdr ip off wu) end; exact Hph.
Qed.

Lemma out_alloc pt a b perm (w : world (exec_state U)) :
  calls_of (final_world (zoom (ext_part U) (uvmalloc pt a b perm) w)) =
    calls_of w ++ [Alloc pt a b perm].
Proof.
  destruct Hrec as (_ & Huvm & _). unfold calls_of, zoom.
  match goal with |- context [uvmalloc pt a b perm ?wu] =>
    specialize (Huvm pt a b perm wu); destruct (uvmalloc pt a b perm wu) end; exact Huvm.
Qed.

(** The loop over the program headers, from any header on. *)
Lemma exec_load_calls elf ip pt :
  forall fuel i off sz, emits (exec_load_ fuel elf ip pt i off sz) (load_calls pt).
Proof.
  induction fuel as [|fuel IH]; intros i off sz; cbn [exec_load].
  - apply emits_if; apply emits_mute;
      [apply mute_blocked|constructor|apply mute_ret|constructor].
  - apply emits_if; [|apply emits_mute; [apply mute_ret|constructor]].
    intros w. unfold bind at 1.
    pose proof (out_read ip (u32 off) w) as Hr.
    destruct (zoom (ext_part U) (readi_proghdr ip (u32 off)) w) as [r w1|msg w1|w1];
      [|exists []; rewrite app_nil_r; split; [exact Hr|constructor]..].
    assert (Hone : forall sz', ~ loadable r ->
              exists tr, calls_of (final_world (ret (true, sz') w1 : result _ (bool * Z))) =
                           calls_of w ++ tr /\ load_calls pt tr).
    { intros sz' Hno. exists [Read r]. split; [exact Hr|].
      apply lc_skip; [exact Hno|constructor]. }
    destruct (Z.eqb_spec (fst r) sizeof_proghdr) as [En|En]; cbn [negb].
    2:{ apply Hone. intros (H & _). contradiction. }
    destruct (Z.eqb_spec (ph_type (snd r)) ELF_PROG_LOAD) as [Et|Et]; cbn [negb].
    2:{ destruct (IH (s32 (i + 1)) (s32 (off + sizeof_proghdr)) sz w1) as (tr & E & Ht).
        exists (Read r :: tr). rewrite E, Hr, <- app_assoc. split; [reflexivity|].
        apply lc_skip; [|exact Ht]. intros (_ & H & _). contradiction. }
    destruct (Z.ltb_spec (ph_memsz (snd r)) (ph_filesz (snd r))) as [E1|E1].
    { apply Hone. intros (_ & _ & V & _). lia. }
    destruct (Z.ltb_spec (u64 (ph_vaddr (snd r) + ph_memsz (snd r))) (ph_vaddr (snd r)))
      as [E2|E2].
    { apply Hone. intros (_ & _ & _ & V & _). lia. }
    destruct (Z.eqb_spec (ph_vaddr (snd r) mod PGSIZE) 0) as [E3|E3]; cbn [negb].
    2:{ apply Hone. intros (_ & _ & _ & _ & V). contradiction. }
    assert (Hl : loadable r).
    { split; [exact En|]. split; [exact Et|]. split; [lia|]. split; [lia|exact E3]. }
    unfold bind at 1.
    pose proof (out_alloc pt sz (u64 (ph_vaddr (snd r) + ph_memsz (snd r)))
                  (flags2perm PTE_X PTE_W (s32 (ph_flags (snd r)))) w1) as Ha.
    assert (Htwo : forall w2 : world (exec_state U),
              calls_of w2 = calls_of w1 ++
                [Alloc pt sz (u64 (ph_vaddr (snd r) + ph_memsz (snd r)))
                   (flags2perm PTE_X PTE_W (s32 (ph_flags (snd r))))] ->
              exists tr, calls_of w2 = calls_of w ++ tr /\ load_calls pt tr).
    { intros w2 E. eexists. rewrite E, Hr, <- app_assoc. split; [reflexivity|].
      apply lc_load; [exact Hl|constructor]. }
    destruct (zoom (ext_part U) (uvmalloc pt sz _ _) w1) as [sz1 w2|msg w2|w2];
      cbn [final_world] in Ha; [|apply (Htwo w2); exact Ha..].
    destruct (sz1 =? 0); [apply (Htwo w2); exact Ha|].
    unfold bind at 1.
    pose proof (mute_loadseg_loop
                  (Z.to_nat (u32 (ph_filesz (snd r)) / PGSIZE) + 1) pt (ph_vaddr (snd r)) ip
                  (u32 (ph_off (snd r))) (u32 (ph_filesz (snd r))) 0 w2) as Hq.
    unfold loadseg.
    destruct (loadseg_loop_ _ pt (ph_vaddr (snd r)) ip _ _ 0 w2) as [r' w3|msg w3|w3];
      cbn [final_world] in Hq;
      [|apply (Htwo w3); rewrite Hq; exact Ha..].
    destruct (r' <? 0); [apply (Htwo w3); rewrite Hq; exact Ha|].
    destruct (IH (s32 (i + 1)) (s32 (off + sizeof_proghdr)) sz1 w3) as (tr & E & Ht).
    exists (Read r :: Alloc pt sz (u64 (ph_vaddr (snd r) + ph_memsz (snd r)))
                        (flags2perm PTE_X PTE_W (s32 (ph_flags (snd r)))) :: tr).
    rewrite E, Hq, Ha, Hr, <- !app_assoc. split; [reflexivity|].
    apply lc_load; assumption.
Qed.

(** All of exec: the calls for the program headers, then the call
    for the stack. *)
Lemma exec_calls path argv :
  emits (exec_ path argv)
    (fun tr => exists pt l s, tr = l ++ s /\ load_calls pt l /\ stack_calls pt s).
Proof.
  destruct Hrec as (_ & _ & Hnamei & Hilock & Hiunlockput & Helf & _ & Hpagetable & Hfree &
                    Huvmclear & _ & _ & Hwords).
  assert (Hnil : exists pt l s, @nil call = l ++ s /\ load_calls pt l /\ stack_calls pt s).
  { exists 0, [], []. split; [reflexivity|]. split; [constructor|left; reflexivity]. }
  assert (Hbad : forall pt sz ip,
            emits (exec_bad_ pt sz ip)
              (fun tr => exists pt l s, tr = l ++ s /\ load_calls pt l /\ stack_calls pt s)).
  { intros. apply emits_mute; [apply mute_exec_bad|exact Hnil]. }
  unfold exec.
  apply emits_after; [apply mute_myproc|exact Hnil|]. intros p.
  apply emits_after; [apply mute_fs|exact Hnil|]. intros _.
  apply emits_after; [apply mute_out, Hnamei|exact Hnil|]. intros ip.
  apply emits_if.
  { apply emits_mute; [|exact Hnil].
    apply mute_bind; [apply mute_fs|intros _; apply mute_ret]. }
  apply emits_after; [apply mute_out, Hilock|exact Hnil|]. intros _.
  apply emits_after; [apply mute_out, Helf|exact Hnil|]. intros r.
  apply emits_if; [apply Hbad|].
  apply emits_if; [apply Hbad|].
  apply emits_after; [apply mute_out, Hpagetable|exact Hnil|]. intros pt.
  apply emits_if; [apply Hbad|].
  eapply (emits_seq _ _ (load_calls pt) (stack_calls pt)).
  - apply exec_load_calls.
  - intros [bad sz]. cbn [fst snd].
    assert (Hs0 : stack_calls pt []) by (left; reflexivity).
    apply emits_if; [apply emits_mute; [apply mute_exec_bad|exact Hs0]|].
    apply emits_after; [apply mute_out, Hiunlockput|exact Hs0|]. intros _.
    apply emits_after; [apply mute_fs|exact Hs0|]. intros _.
    apply emits_after; [apply mute_myproc|exact Hs0|]. intros p'.
    set (lo := PGROUNDUP sz).
    eapply (emits_seq _ _ (fun tr => tr = [Alloc pt lo (u64 (lo + 2 * PGSIZE)) PTE_W])
              (fun tr => tr = [])).
    + intros w. eexists. split; [apply out_alloc|reflexivity].
    + intros sz1. apply emits_mute; [|reflexivity].
      apply mute_if; [apply mute_exec_bad|].
      apply mute_bind; [apply mute_out, Huvmclear|]. intros _.
      apply mute_bind; [apply mute_exec_args|]. intros [bad' [[argc sp] ustack]].
      cbn [fst snd].
      apply mute_if; [apply mute_exec_bad|].
      apply mute_if; [apply mute_stop|].
      apply mute_if; [apply mute_exec_bad|].
      apply mute_bind; [apply mute_out, Hwords|]. intros r'.
      apply mute_if; [apply mute_exec_bad|].
      apply mute_bind; [apply mute_wr_proc|]. intros _.
      apply mute_bind; [apply mute_wr_proc|]. intros _.
      apply mute_bind; [apply mute_myproc|]. intros p''.
      apply mute_bind; [apply mute_wr_proc|]. intros _.
      apply mute_bind; [apply mute_wr_proc|]. intros _.
      apply mute_bind; [apply mute_wr_proc|]. intros _.
      apply mute_bind; [apply mute_wr_proc|]. intros _.
      apply mute_bind; [apply mute_out, Hfree|]. intros _.
      apply mute_ret.
    + intros t1 ->. right. eexists _, _. reflexivity.
    + intros t1 t2 -> ->. right. eexists _, _. reflexivity.
  - intros t1 H1. exists pt, t1, []. rewrite app_nil_r.
    split; [reflexivity|]. split; [exact H1|left; reflexivity].
  - intros t1 t2 H1 H2. exists pt, t1, t2. split; [reflexivity|]. split; assumption.
Qed.
End Calls.
End Recorded.

(** C4 (as amended): the permission bits exec passes to [uvmalloc]
    for a LOAD segment are [flags2perm] of the segment's flags, in
    which flag bit 1 yields execute and bit 2 yields write permission,
    and the read flag (4) yields no bit at all. This is so for every
    program header exec reads, in the loop over the headers started
    anywhere and in exec as a whole: each header that is read in full,
    is of type LOAD and is valid is followed by one call of [uvmalloc]
    for it, with these permissions; no other header is followed by a
    call; and the only other call of [uvmalloc] is the one for the
    stack, with write permission. *)
Theorem flags2perm_ignores_read :
  (forall flags, flags2perm PTE_X PTE_W flags = perm_of_rwx PTE_X PTE_W 0 flags) /\
  (forall flags, flags2perm PTE_X PTE_W (Z.lor flags 4) = flags2perm PTE_X PTE_W flags) /\
  (forall calls : U -> list call,
     recording calls ->
     (forall fuel elf ip pt i off sz (w : world (exec_state U)),
        exists tr,
          calls_of calls (final_world (exec_load_ fuel elf ip pt i off sz w)) =
            calls_of calls w ++ tr /\
          load_calls pt tr) /\
     (forall path argv (w : world (exec_state U)),
        exists pt l s,
          calls_of calls (final_world (exec_ path argv w)) = calls_of calls w ++ l ++ s /\
          load_calls pt l /\ stack_calls pt s)).
Proof.
  split; [intros; apply flags2perm_eq|]. split; [intros; apply flags2perm_read|].
  intros calls Hrec. split.
  - intros fuel elf ip pt i off sz w.
    apply (exec_load_calls calls Hrec elf ip pt fuel i off sz w).
  - intros path argv w.
    destruct (exec_calls calls Hrec path argv w) as (tr & E & pt & l & s & -> & Hl & Hs).
    exists pt, l, s. split; [exact E|]. split; assumption.
Qed.
End ExecSpecs.

(** A small system to run exec on: the outside state records the
    calls of [proc_freepagetable]; a path names the inode whose number
    is its length, so that an empty path names none; every file has
    one LOAD segment and the magic number [magic]; page tables are
    numbered from 77. *)
Definition demo_free (pt sz : Z) : K (list (Z * Z)) unit :=
  modify (fun wu => set_st (st wu ++ [(pt, sz)]) wu).

Definition demo_file (magic : Z) : elfhdr := mkElf magic 4096 64 1.

Definition demo_ph (off : Z) : Z * proghdr :=
  (sizeof_proghdr, mkPh ELF_PROG_LOAD 5 0 4096 0 100 200 0).

Definition demo_exec_on (magic : Z) :
    list Z -> list (list Z) -> K (exec_state (list (Z * Z))) Z :=
  exec (list (Z * Z)) (fun _ => 0) 0 30 10 64 32 8 4
    (fun p => ret (Z.of_nat (length p)))
    (fun _ => ret tt)
    (fun _ => ret tt)
    (fun _ => ret (sizeof_elfhdr, demo_file magic))
    (fun _ off => ret (demo_ph off))
    (fun _ _ _ n => ret n)
    (fun _ => ret 77)
    demo_free
    (fun _ _ b _ => ret b)
    (fun _ _ => ret tt)
    (fun _ _ => ret 1)
    (fun _ _ _ _ => ret 0)
    (fun _ _ _ _ => ret 0).

Definition demo_exec : list Z -> list (list Z) -> K (exec_state (list (Z * Z))) Z :=
  demo_exec_on ELF_MAGIC.

Definition demo_proc : proc_priv := mkPriv 8192 5 (repeat 0 36) [115; 104; 0].

Definition demo_world : world (exec_state (list (Z * Z))) :=
  mkWorld boot_cpu 1 [] (mkExec _ (blank_fs 3 64 2 31 30) demo_proc []) [].

Definition demo_argv : list (list Z) := [[108; 115]; [45; 108]].

Lemma demo_answered magic path :
  answered (list (Z * Z))
    (fun p => ret (Z.of_nat (length p)))
    (fun _ => ret tt)
    (fun _ => ret tt)
    (fun _ => ret (sizeof_elfhdr, demo_file magic))
    (fun _ off => ret (demo_ph off))
    (fun _ _ _ n => ret n)
    (fun _ => ret 77)
    demo_free
    (fun _ _ b _ => ret b)
    (fun _ _ => ret tt)
    (fun _ _ => ret 1)
    (fun _ _ _ _ => ret 0)
    (fun _ _ _ _ => ret 0)
    path demo_proc (Z.of_nat (length path)) sizeof_elfhdr (demo_file magic) demo_ph
    (fun _ _ n => n) 77 (fun _ b _ => b) (fun _ => 1) (fun _ _ _ => 0) (fun _ _ _ => 0).
Proof.
  unfold answered, answers, steady, any.
  repeat (split; [intros; eexists _, _; split; [reflexivity|split; reflexivity]|]).
  intros; eexists _, _; split; [reflexivity|split; reflexivity].
Qed.

Lemma demo_sane magic : sane (demo_file magic) demo_ph (fun _ => 1).
Proof.
  unfold sane. split; [cbn; lia|]. split; [intros off; vm_compute; discriminate|].
  intros _. discriminate.
Qed.

Lemma demo_idle : idle (list (Z * Z)) 0 demo_world.
Proof. unfold idle, noff_ok. cbn. repeat split; lia. Qed.

Lemma demo_good ip :
  ip <> 0 ->
  good_run 32 8 4 demo_argv ip sizeof_elfhdr (demo_file ELF_MAGIC) demo_ph
    (fun _ _ n => n) 77 (fun _ b _ => b) (fun _ => 1) (fun _ _ _ => 0) (fun _ _ _ => 0).
Proof.
  intros Hip. unfold good_run.
  split; [exact Hip|]. split; [reflexivity|]. split; [reflexivity|].
  split; [discriminate|]. split.
  { intros k Hk. change (nsegs (demo_file ELF_MAGIC)) with 1%nat in Hk.
    assert (k = 0%nat) by lia. subst k. unfold seg_ok.
    split; [reflexivity|]. intros _.
    split; [|split].
    - unfold seg_valid. split; [|split]; vm_compute; try discriminate; reflexivity.
    - vm_compute. discriminate.
    - intros j Hj1 Hj2. unfold page_read. reflexivity. }
  split; [vm_compute; discriminate|].
  split; [vm_compute; reflexivity|]. split.
  { intros k Hk. unfold arg_ok.
    destruct k as [|[|k]]; [| |cbn in Hk; lia]; split; vm_compute; discriminate. }
  split; vm_compute; discriminate.
Qed.


(** On that system: exec of a file with two arguments returns 2 and
    installs page table 77; the old page table 5 of size 8192 is the
    one freed. exec of the empty path, and of a file without the magic
    number, return -1 and change nothing. *)
Example exec_scenario :
  (exists w', demo_exec [47; 108; 115] demo_argv demo_world = Ok 2 w' /\
              p_pagetable (x_proc _ (st w')) = 77 /\
              nth_error (p_trapframe (x_proc _ (st w'))) TF_EPC = Some 4096 /\
              x_ext _ (st w') = [(5, 8192)]) /\
  (exists w', demo_exec [] [] demo_world = Ok (-1) w' /\
              x_proc _ (st w') = x_proc _ (st demo_world) /\ x_ext _ (st w') = []) /\
  (exists w', demo_exec_on 0 [47; 108; 115] demo_argv demo_world = Ok (-1) w' /\
              x_proc _ (st w') = x_proc _ (st demo_world) /\ x_ext _ (st w') = []).
Proof.
  split; [|split]; eexists; (split; [vm_compute; reflexivity|]); repeat split.
Qed.

Lemma exec_name_is_last_component_witness :
  exists r w',
    demo_exec [47; 98; 105; 110; 47; 108; 115] demo_argv demo_world = Ok r w' /\
    p_name (x_proc _ (st w')) = [108; 115; 0].
Proof.
  destruct (exec_name_is_last_component (list (Z * Z)) (fun _ => 0) 0 30 10 64 32 8 4
         (fun p => ret (Z.of_nat (length p)))
         (fun _ => ret tt)
         (fun _ => ret tt)
         (fun _ => ret (sizeof_elfhdr, demo_file ELF_MAGIC))
         (fun _ off => ret (demo_ph off))
         (fun _ _ _ n => ret n)
         (fun _ => ret 77)
         demo_free
         (fun _ _ b _ => ret b)
         (fun _ _ => ret tt)
         (fun _ _ => ret 1)
         (fun _ _ _ _ => ret 0)
         (fun _ _ _ _ => ret 0)
         [47; 98; 105; 110; 47; 108; 115] demo_argv demo_proc 7 sizeof_elfhdr
         (demo_file ELF_MAGIC) demo_ph
         (fun _ _ n => n) 77 (fun _ b _ => b) (fun _ => 1) (fun _ _ _ => 0)
         (fun _ _ _ => 0) demo_world
         (demo_answered ELF_MAGIC [47; 98; 105; 110; 47; 108; 115]) (demo_sane ELF_MAGIC)
         ltac:(unfold is_s32; lia) ltac:(lia) ltac:(lia) ltac:(vm_compute; discriminate)
         demo_idle eq_refl)
    as (r & w' & E & Hname & _).
  exists r, w'. split; [exact E|].
  rewrite Hname; [reflexivity|]. apply demo_good. discriminate.
Defined.

(** A system that keeps the record of its calls: the outside state
    is the record. The file has three program headers: a LOAD segment
    with flags R and X, a header of another type, and a LOAD segment
    with flags R and W. *)
Definition rec_ph (off : Z) : Z * proghdr :=
  if off =? 64 then (sizeof_proghdr, mkPh ELF_PROG_LOAD 5 0 0 0 100 200 0)
  else if off =? 120 then (sizeof_proghdr, mkPh 2 6 0 0 0 0 0 0)
  else (sizeof_proghdr, mkPh ELF_PROG_LOAD 6 4096 4096 0 10 20 0).

Definition rec_readi_proghdr (ip off : Z) : K (list call) (Z * proghdr) :=
  fun wu => Ok (rec_ph off) (set_st (st wu ++ [Read (rec_ph off)]) wu).

Definition rec_uvmalloc (pt oldsz newsz perm : Z) : K (list call) Z :=
  fun wu => Ok newsz (set_st (st wu ++ [Alloc pt oldsz newsz perm]) wu).

Definition rec_exec : list Z -> list (list Z) -> K (exec_state (list call)) Z :=
  exec (list call) (fun _ => 0) 0 30 10 64 32 8 4
    (fun p => ret (Z.of_nat (length p)))
    (fun _ => ret tt)
    (fun _ => ret tt)
    (fun _ => ret (sizeof_elfhdr, mkElf ELF_MAGIC 0 64 3))
    rec_readi_proghdr
    (fun _ _ _ n => ret n)
    (fun _ => ret 77)
    (fun _ _ => ret tt)
    rec_uvmalloc
    (fun _ _ => ret tt)
    (fun _ _ => ret 1)
    (fun _ _ _ _ => ret 0)
    (fun _ _ _ _ => ret 0).

Definition rec_world : world (exec_state (list call)) :=
  mkWorld boot_cpu 1 [] (mkExec _ (blank_fs 3 64 2 31 30) demo_proc []) [].

Lemma flags2perm_ignores_read_witness :
  exists pt l s,
    x_ext _ (st (final_world (rec_exec [47; 108; 115] [] rec_world))) = l ++ s /\
    load_calls 8 4 pt l /\ stack_calls 4 pt s /\
    l ++ s =
      [Read (sizeof_proghdr, mkPh ELF_PROG_LOAD 5 0 0 0 100 200 0);
       Alloc 77 0 200 8;
       Read (sizeof_proghdr, mkPh 2 6 0 0 0 0 0 0);
       Read (sizeof_proghdr, mkPh ELF_PROG_LOAD 6 4096 4096 0 10 20 0);
       Alloc 77 200 4116 4;
       Alloc 77 8192 16384 4].
Proof.
  destruct (proj2 (proj2 (proj2
      (flags2perm_ignores_read (list call) (fun _ => 0) 0 30 10 64 32 8 4
         (fun p => ret (Z.of_nat (length p)))
         (fun _ => ret tt)
         (fun _ => ret tt)
         (fun _ => ret (sizeof_elfhdr, mkElf ELF_MAGIC 0 64 3))
         rec_readi_proghdr
         (fun _ _ _ n => ret n)
         (fun _ => ret 77)
         (fun _ _ => ret tt)
         rec_uvmalloc
         (fun _ _ => ret tt)
         (fun _ _ => ret 1)
         (fun _ _ _ _ => ret 0)
         (fun _ _ _ _ => ret 0))) (fun l => l)
      ltac:(unfold recording, silent; repeat split))
      [47; 108; 115] [] rec_world) as (pt & l & s & E & Hl & Hs).
  pose proof (E : x_ext _ (st (final_world (rec_exec [47; 108; 115] [] rec_world))) = l ++ s)
    as E'.
  exists pt, l, s. split; [exact E'|]. split; [exact Hl|]. split; [exact Hs|].
  rewrite <- E'. vm_compute. reflexivity.
Defined.

(** With the RISC-V permission bits (X = 8, W = 4, R = 2), a segment
    whose flags are R alone gets no permission bit from [flags2perm],
    where the mapping of the specification gives it the read bit. *)
Lemma flags2perm_read_counterexample :
  flags2perm 8 4 4 = 0 /\ perm_of_rwx 8 4 2 4 = 2.
Proof. split; reflexivity. Qed.
(** ** bio.c: the operations on a quiet cache *)

(** Buffer [b] after [bget] has found it in the cache on behalf of
    process [pid]. *)
Definition grabbed (pid : Z) (x : buf) : buf :=
  mkBuf (valid x) (disk x) (dev x) (blockno x) (mkSleep 1 (mkSpin 0 None) pid)
    (u32 (refcnt x + 1)) (prev x) (next x) (data x).

Definition grab (pid : Z) (b : nat) (s : fs) : fs :=
  put_buf b (grabbed pid (get_buf b s)) (update bcache_lock (mkSpin 0 None) s).

Section BgetHit.
Variable ba : nat -> Z.
Variables dv bno : Z.

Lemma bget_cached_hit (w : world fs) l1 b l2 :
  forall p fuel,
    chain (nxt (st w)) (NBUF_of (st w)) (NBUF_of (st w)) p (l1 ++ b :: l2) ->
    (length l1 <= fuel)%nat ->
    (forall x, In x l1 -> caches dv bno (get_buf x (st w)) = false) ->
    caches dv bno (get_buf b (st w)) = true ->
    bget_cached ba fuel dv bno (nxt (st w) p) w =
      (c <- rd b refcnt ;;
       wr b (set_refcnt (u32 (c + 1))) ;;
       release bcache_lock ;;
       acquiresleep (buf_lock ba b) ;;
       ret (Some b)) w.
Proof.
  induction l1 as [|x l1 IH]; intros p fuel Hc Hlen Hmiss Hhit.
  - cbn [app chain] in Hc. destruct Hc as (Hx & Hlt & Hc). rewrite Hx.
    unfold caches in Hhit.
    destruct fuel; cbn [bget_cached]; unfold bind at 1, is_head, gets;
      (destruct (Nat.leb_spec (NBUF_of (st w)) b) as [Hge|_]; [lia|]);
      unfold bind at 1 2, rd at 1 2, gets; rewrite Hhit; reflexivity.
  - cbn [app chain] in Hc. destruct Hc as (Hx & Hlt & Hc). rewrite Hx.
    destruct fuel as [|fuel]; [cbn in Hlen; lia|].
    cbn [bget_cached]. unfold bind at 1, is_head, gets.
    destruct (Nat.leb_spec (NBUF_of (st w)) x) as [Hge|_]; [lia|].
    unfold bind at 1 2, rd at 1 2, gets.
    pose proof (Hmiss x (or_introl eq_refl)) as Hm. unfold caches in Hm. rewrite Hm.
    unfold bind at 1, rd at 1, gets.
    apply IH; [assumption|cbn in Hlen; lia| |assumption].
    intros y Hy. apply Hmiss. right. assumption.
Qed.

Lemma bget_hit_claim b c0 pid pt s e :
  noff_ok c0 ->
  locked (sl_lk (lock (get_buf b s))) = 0 -> sl_locked (lock (get_buf b s)) = 0 ->
  (c <- rd b refcnt ;;
   wr b (set_refcnt (u32 (c + 1))) ;;
   release bcache_lock ;;
   acquiresleep (buf_lock ba b) ;;
   ret (Some b)) (mkWorld (pushed c0) pid pt (bc_locked c0 s) e) =
  Ok (Some b) (mkWorld (settle c0) pid pt (grab pid b s) e).
Proof.
  intros Hn Hf H0.
  unfold bind at 1, rd at 1, gets at 1.
  unfold bind at 1, wr at 1, modify at 1. cbn [st set_st cpu mypid ptable env].
  unfold bind at 1. rewrite release_pushed; try assumption; try apply bcache_lock_lawful.
  2:{ unfold bc_locked. case_put_buf; reflexivity. }
  unfold bc_locked. rewrite get_buf_bc_lock, put_buf_bc_lock, bc_lock_twice.
  unfold bind at 1.
  rewrite (acquiresleep_free _ (buf_lock_lawful ba b)).
  - unfold ret. cbn [st set_st cpu mypid ptable env]. rewrite settle_settle.
    f_equal. f_equal. unfold grab, grabbed.
    cbn [buf_lock update view]. rewrite get_put_buf, put_put_buf. reflexivity.
  - cbn [st view buf_lock]. rewrite get_put_buf. exact Hf.
  - cbn [st view buf_lock]. rewrite get_put_buf. exact H0.
  - exact Hn.
Qed.

(** A hit: the buffer is found, its reference count goes up and it
    is handed out locked. *)
Lemma bget_hit (w : world fs) l1 b l2 :
  noff_ok (cpu w) -> locked (bc_lock (bcache (st w))) = 0 ->
  dll (st w) (l1 ++ b :: l2) ->
  (forall x, In x l1 -> caches dv bno (get_buf x (st w)) = false) ->
  caches dv bno (get_buf b (st w)) = true ->
  locked (sl_lk (lock (get_buf b (st w)))) = 0 ->
  sl_locked (lock (get_buf b (st w))) = 0 ->
  bget ba dv bno w =
    Ok b (mkWorld (settle (cpu w)) (mypid w) (ptable w) (grab (mypid w) b (st w)) (env w)).
Proof.
  intros Hn Hfree Hd Hmiss Hhit Hlf Hl0. unfold bget.
  unfold bind at 1.
  rewrite acquire_free by (try apply bcache_lock_lawful; assumption).
  fold (bc_locked (cpu w) (st w)).
  set (W := mkWorld _ _ _ _ _).
  unfold bind at 1, head at 1, gets at 1.
  unfold bind at 1, gets at 1.
  unfold bind at 1, rd at 1, gets at 1.
  pose proof Hd as (Hc & _ & _).
  unfold bind at 1.
  change (next (get_buf (NBUF_of (st W)) (st W))) with (nxt (st W) (NBUF_of (st W))).
  rewrite (bget_cached_hit W l1 b l2 (NBUF_of (st W)) (NBUF_of (st W))).
  - unfold W. rewrite bget_hit_claim by assumption. reflexivity.
  - exact Hc.
  - pose proof (dll_length _ _ Hd) as Hlen. rewrite length_app in Hlen. cbn in Hlen.
    change (NBUF_of (st W)) with (NBUF_of (st w)). lia.
  - exact Hmiss.
  - exact Hhit.
Qed.
End BgetHit.

(** *** Runs that return

    [Does m pid s a s']: started by process [pid] on state [s], on a
    hart whose nesting depth is in range and with any process table and
    schedule, [m] returns [a] and leaves state [s']; the schedule is
    not consumed, and the hart is as it was or settled. *)
Definition Does {A} (m : K fs A) (pid : Z) (s : fs) (a : A) (s' : fs) : Prop :=
  forall c pt e, noff_ok c ->
    exists c' pt',
      m (mkWorld c pid pt s e) = Ok a (mkWorld c' pid pt' s' e) /\
      (c' = c \/ c' = settle c).

Lemma Does_bind {A B} (m : K fs A) (k : A -> K fs B) pid s a s1 b s2 :
  Does m pid s a s1 -> Does (k a) pid s1 b s2 -> Does (bind m k) pid s b s2.
Proof.
  intros Hm Hk c pt e Hn.
  destruct (Hm c pt e Hn) as (c1 & pt1 & E1 & Hc1).
  assert (Hn1 : noff_ok c1) by (destruct Hc1 as [->| ->]; assumption).
  destruct (Hk c1 pt1 e Hn1) as (c2 & pt2 & E2 & Hc2).
  exists c2, pt2. unfold bind. rewrite E1. split; [exact E2|].
  destruct Hc1 as [->| ->], Hc2 as [->| ->]; auto.
  right. apply settle_settle.
Qed.

Lemma Does_ret {A} (a : A) pid s : Does (ret a) pid s a s.
Proof. intros c pt e _. exists c, pt. split; [reflexivity|left; reflexivity]. Qed.

Lemma Does_rd {A} b (f : buf -> A) pid s : Does (rd b f) pid s (f (get_buf b s)) s.
Proof. intros c pt e _. exists c, pt. split; [reflexivity|left; reflexivity]. Qed.

Lemma Does_wr b f pid s : Does (wr b f) pid s tt (put_buf b (f (get_buf b s)) s).
Proof. intros c pt e _. exists c, pt. split; [reflexivity|left; reflexivity]. Qed.

Lemma Does_the_log pid s : Does the_log pid s (log s) s.
Proof. intros c pt e _. exists c, pt. split; [reflexivity|left; reflexivity]. Qed.

Lemma Does_wr_log f pid s : Does (wr_log f) pid s tt (set_log (f (log s)) s).
Proof. intros c pt e _. exists c, pt. split; [reflexivity|left; reflexivity]. Qed.

(** *** The cache between operations *)

(** Nobody holds the buffer's sleep lock. *)
Definition quiet (x : buf) : Prop :=
  sl_locked (lock x) = 0 /\ locked (sl_lk (lock x)) = 0 /\ 0 <= refcnt x < 2 ^ 32 - 2.

(** Process [pid] holds it. *)
Definition mine (pid : Z) (x : buf) : Prop :=
  lock x = mkSleep 1 (mkSpin 0 None) pid /\ 1 <= refcnt x < 2 ^ 32 - 1.

(** No block is cached twice. *)
Definition unique_idents (s : fs) : Prop :=
  forall x y, (x < NBUF_of s)%nat -> (y < NBUF_of s)%nat ->
    dev (get_buf x s) = dev (get_buf y s) ->
    blockno (get_buf x s) = blockno (get_buf y s) -> x = y.

(** The cache is consistent, its spinlock is free, and the buffers
    [held] are locked by process [pid] and no others are locked. *)
Definition cache_ok (pid : Z) (held : list nat) (s : fs) : Prop :=
  locked (bc_lock (bcache s)) = 0 /\
  (exists l, dll s l /\ forall x, (x < NBUF_of s)%nat -> In x l) /\
  (forall x, (x < NBUF_of s)%nat ->
     (In x held -> mine pid (get_buf x s)) /\ (~ In x held -> quiet (get_buf x s))) /\
  unique_idents s.

(** What a buffer caches: identity, validity, reference count and
    contents. *)
Definition content (x : buf) : Z * Z * Z * Z * list Z :=
  (dev x, blockno x, valid x, refcnt x, data x).

(** Two states whose buffers other than [b] cache the same. *)
Definition same_but (b : nat) (s s' : fs) : Prop :=
  NBUF_of s' = NBUF_of s /\
  (forall x, (x < NBUF_of s)%nat -> x <> b -> content (get_buf x s') = content (get_buf x s)) /\
  log s' = log s.

Lemma caches_iff dv bno x : caches dv bno x = true <-> dev x = dv /\ blockno x = bno.
Proof. unfold caches. rewrite andb_true_iff, !Z.eqb_eq. reflexivity. Qed.

Lemma caches_false dv bno x : caches dv bno x = false <-> ~ (dev x = dv /\ blockno x = bno).
Proof. rewrite <- caches_iff. destruct (caches dv bno x); split; congruence. Qed.

(** The last element of a list that satisfies a decidable property. *)
Lemma split_last_such {A} (P : A -> bool) (l : list A) :
  (exists x, In x l /\ P x = true) ->
  exists l1 b l2, l = l1 ++ b :: l2 /\ P b = true /\ forall y, In y l2 -> P y = false.
Proof.
  induction l as [|a l IH]; intros (x & Hin & HP); [contradiction|].
  destruct (existsb P l) eqn:E.
  - apply existsb_exists in E. destruct (IH E) as (l1 & b & l2 & -> & Hb & Hl2).
    exists (a :: l1), b, l2. repeat split; assumption.
  - exists [], a, l. split; [reflexivity|]. split.
    + destruct Hin as [->|Hin]; [assumption|].
      assert (existsb P l = true) by (apply existsb_exists; eauto). congruence.
    + intros y Hy. destruct (P y) eqn:Ey; [|reflexivity].
      assert (existsb P l = true) by (apply existsb_exists; eauto). congruence.
Qed.

(** *** bread *)

(** The buffer is filled from the disk unless it is valid. *)
Definition load_buf (b : nat) (s : fs) : fs :=
  let x := get_buf b s in
  if valid x =? 0 then put_buf b (set_valid 1 (set_data (dsk s (blockno x)) x)) s else s.

Lemma bread_eq ba dv bno (w : world fs) b w1 :
  bget ba dv bno w = Ok b w1 ->
  bread ba dv bno w = Ok b (set_st (load_buf b (st w1)) w1).
Proof.
  intros E. unfold bread. unfold bind at 1. rewrite E.
  unfold bind at 1, rd at 1, gets at 1. unfold load_buf, truthy.
  destruct (valid (get_buf b (st w1)) =? 0); cbn [negb].
  - unfold bind, virtio_disk_rw, wr, modify, ret. cbn [st set_st].
    rewrite get_put_buf, put_put_buf. destruct w1; reflexivity.
  - unfold bind, ret. destruct w1; reflexivity.
Qed.

Lemma content_load_other b x s :
  (x < NBUF_of s)%nat -> x <> b -> get_buf x (load_buf b s) = get_buf x s.
Proof.
  intros Hx Hne. unfold load_buf. destruct (_ =? 0); [|reflexivity].
  apply get_put_buf_ne; [congruence|]. right. assumption.
Qed.

Lemma NBUF_load b s : NBUF_of (load_buf b s) = NBUF_of s.
Proof. unfold load_buf. destruct (_ =? 0); [apply NBUF_put_buf|reflexivity]. Qed.

Lemma get_load b s :
  get_buf b (load_buf b s) =
    let x := get_buf b s in
    if valid x =? 0 then set_valid 1 (set_data (dsk s (blockno x)) x) else x.
Proof. unfold load_buf. cbv zeta. destruct (_ =? 0); [apply get_put_buf|reflexivity]. Qed.

Lemma rest_load b s : rest (load_buf b s) = rest s /\ dsk (load_buf b s) = dsk s.
Proof. unfold load_buf. destruct (_ =? 0); [apply rest_put_buf|split; reflexivity]. Qed.

Lemma dll_load b s l : (b < NBUF_of s)%nat -> dll s l -> dll (load_buf b s) l.
Proof.
  intros Hb Hd. unfold load_buf. destruct (_ =? 0); [|assumption].
  apply dll_put_buf; [lia|reflexivity|reflexivity|assumption].
Qed.

Lemma rest_fields s s' :
  rest s' = rest s ->
  bc_lock (bcache s') = bc_lock (bcache s) /\ log s' = log s /\ writes s' = writes s.
Proof. unfold rest. intros H. injection H as H1 H2 H3. auto. Qed.

(** One buffer changes, the spinlock of the cache ends up free. *)
Definition touch (b : nat) (x : buf) (s : fs) : fs :=
  put_buf b x (update bcache_lock (mkSpin 0 None) s).

Lemma NBUF_touch b x s : NBUF_of (touch b x s) = NBUF_of s.
Proof. unfold touch. rewrite NBUF_put_buf. reflexivity. Qed.

Lemma get_touch b x s : get_buf b (touch b x s) = x.
Proof. apply get_put_buf. Qed.

Lemma get_touch_other b x s i :
  (i < NBUF_of s)%nat -> i <> b -> get_buf i (touch b x s) = get_buf i s.
Proof.
  intros Hi Hne. unfold touch. rewrite get_put_buf_ne; [reflexivity|congruence|].
  right. rewrite NBUF_bc_lock. assumption.
Qed.

Lemma rest_touch b x s :
  bc_lock (bcache (touch b x s)) = mkSpin 0 None /\ log (touch b x s) = log s /\
  writes (touch b x s) = writes s /\ dsk (touch b x s) = dsk s.
Proof. unfold touch. case_put_buf; repeat split; reflexivity. Qed.

Lemma dll_touch b x s l :
  (b < NBUF_of s)%nat -> next x = next (get_buf b s) -> prev x = prev (get_buf b s) ->
  dll s l -> dll (touch b x s) l.
Proof.
  intros Hb Hn Hp Hd. unfold touch.
  apply dll_put_buf; [rewrite NBUF_bc_lock; lia|assumption|assumption|].
  apply dll_bc_lock. assumption.
Qed.

Lemma grab_touch pid b s : grab pid b s = touch b (grabbed pid (get_buf b s)) s.
Proof. reflexivity. Qed.

Lemma recycle_touch dv bno pid b s :
  recycle dv bno pid b s = touch b (recycled dv bno pid (get_buf b s)) s.
Proof. reflexivity. Qed.

(** The invariant of the cache after a step that changes buffer [b]. *)
Lemma cache_ok_step pid held held' b s s' :
  cache_ok pid held s ->
  NBUF_of s' = NBUF_of s ->
  locked (bc_lock (bcache s')) = 0 ->
  (exists l, dll s' l /\ forall x, (x < NBUF_of s)%nat -> In x l) ->
  (forall x, (x < NBUF_of s)%nat -> x <> b -> info (get_buf x s') = info (get_buf x s)) ->
  (b < NBUF_of s)%nat ->
  (In b held' -> mine pid (get_buf b s')) ->
  (~ In b held' -> quiet (get_buf b s')) ->
  (forall x, x <> b -> In x held' <-> In x held) ->
  (forall x, (x < NBUF_of s)%nat -> x <> b ->
     ~ (dev (get_buf x s) = dev (get_buf b s') /\ blockno (get_buf x s) = blockno (get_buf b s'))) ->
  cache_ok pid held' s'.
Proof.
  intros (Hlk & Hl & Hst & Hu) HN Hlk' Hl' Hoth Hb Hmine Hquiet Hheld Hid.
  assert (Hf : forall x, (x < NBUF_of s)%nat -> x <> b ->
            dev (get_buf x s') = dev (get_buf x s) /\
            blockno (get_buf x s') = blockno (get_buf x s) /\
            lock (get_buf x s') = lock (get_buf x s) /\
            refcnt (get_buf x s') = refcnt (get_buf x s)).
  { intros x Hx Hne. pose proof (Hoth x Hx Hne) as E. unfold info in E.
    injection E as E1 E2 E3 E4 E5 E6 E7. auto. }
  unfold cache_ok. rewrite HN. split; [assumption|]. split; [assumption|]. split.
  - intros x Hx. destruct (Nat.eq_dec x b) as [->|Hne]; [split; assumption|].
    destruct (Hf x Hx Hne) as (_ & _ & El & Er).
    destruct (Hst x Hx) as [Hm Hq]. rewrite (Hheld x Hne). split.
    + intros Hin. destruct (Hm Hin) as [H1 H2]. unfold mine. rewrite El, Er. split; assumption.
    + intros Hin. destruct (Hq Hin) as (H1 & H2 & H3). unfold quiet. rewrite El, Er.
      repeat split; assumption || apply H3.
  - intros x y Hx Hy Ed Eb. rewrite HN in Hx, Hy.
    destruct (Nat.eq_dec x b) as [->|Hxb], (Nat.eq_dec y b) as [->|Hyb]; try reflexivity.
    + destruct (Hf y Hy Hyb) as (E1 & E2 & _). rewrite E1 in Ed. rewrite E2 in Eb.
      exfalso. apply (Hid y Hy Hyb). split; congruence.
    + destruct (Hf x Hx Hxb) as (E1 & E2 & _). rewrite E1 in Ed. rewrite E2 in Eb.
      exfalso. apply (Hid x Hx Hxb). split; congruence.
    + destruct (Hf x Hx Hxb) as (E1 & E2 & _). destruct (Hf y Hy Hyb) as (E3 & E4 & _).
      apply Hu; congruence.
Qed.

(** A buffer that keeps its identity clashes with no other. *)
Lemma same_ident_ok s b (x' : buf) :
  unique_idents s -> (b < NBUF_of s)%nat ->
  dev x' = dev (get_buf b s) -> blockno x' = blockno (get_buf b s) ->
  forall x, (x < NBUF_of s)%nat -> x <> b ->
    ~ (dev (get_buf x s) = dev x' /\ blockno (get_buf x s) = blockno x').
Proof.
  intros Hu Hb Ed Eb x Hx Hne [H1 H2]. apply Hne. apply Hu; congruence.
Qed.

Lemma Does_of_eq {A} (m : K fs A) pid s a s' :
  (forall c pt e, noff_ok c ->
     m (mkWorld c pid pt s e) = Ok a (mkWorld (settle c) pid pt s' e)) ->
  Does m pid s a s'.
Proof.
  intros H c pt e Hn. exists (settle c), pt. split; [apply H; assumption|right; reflexivity].
Qed.

Section BreadSpec.
Variable ba : nat -> Z.
Variables dv bno : Z.
Variable pid : Z.
Variable held : list nat.
Variable s : fs.
Hypothesis Hok : cache_ok pid held s.

Local Abbreviation N := (NBUF_of s).

(** [bread] of a block that is cached and not held by the caller. *)
Lemma bread_hit b :
  (b < N)%nat -> caches dv bno (get_buf b s) = true -> ~ In b held ->
  exists s',
    Does (bread ba dv bno) pid s b s' /\
    cache_ok pid (b :: held) s' /\
    NBUF_of s' = N /\
    (forall x, (x < N)%nat -> x <> b -> get_buf x s' = get_buf x s) /\
    log s' = log s /\ dsk s' = dsk s /\ writes s' = writes s /\
    dev (get_buf b s') = dv /\ blockno (get_buf b s') = bno /\
    valid (get_buf b s') <> 0 /\
    refcnt (get_buf b s') = refcnt (get_buf b s) + 1 /\
    data (get_buf b s') =
      (if valid (get_buf b s) =? 0 then dsk s bno else data (get_buf b s)).
Proof.
  intros Hb Hhit Hnh.
  pose proof Hok as (Hlk & (l & Hd & Hcov) & Hst & Hu).
  destruct (Hst b Hb) as [_ Hq]. specialize (Hq Hnh). destruct Hq as (Hq1 & Hq2 & Hq3).
  destruct (in_split b l (Hcov b Hb)) as (l1 & l2 & El). subst l.
  assert (Hfirst : forall x, In x l1 -> caches dv bno (get_buf x s) = false).
  { intros x Hx. apply caches_false. intros [E1 E2].
    apply caches_iff in Hhit. destruct Hhit as [E3 E4].
    assert (x = b).
    { apply Hu; try congruence.
      apply (dll_bound s (l1 ++ b :: l2)); [assumption|]. apply in_or_app. left. assumption. }
    subst x. destruct Hd as (_ & _ & Hnd). apply NoDup_remove_2 in Hnd.
    apply Hnd. apply in_or_app. left. assumption. }
  set (s1 := grab pid b s).
  exists (load_buf b s1).
  assert (HN1 : NBUF_of s1 = N) by apply NBUF_touch.
  assert (Hg : get_buf b s1 = grabbed pid (get_buf b s)) by apply get_touch.
  assert (Hr : u32 (refcnt (get_buf b s) + 1) = refcnt (get_buf b s) + 1).
  { apply u32_id. unfold is_u32. lia. }
  destruct (rest_touch b (grabbed pid (get_buf b s)) s) as (Hbl1 & Hlog1 & Hwr1 & Hdsk1).
  change (touch b (grabbed pid (get_buf b s)) s) with s1 in Hbl1, Hlog1, Hwr1, Hdsk1.
  assert (Hgl : get_buf b (load_buf b s1) =
                if valid (get_buf b s) =? 0
                then set_valid 1 (set_data (dsk s bno) (grabbed pid (get_buf b s)))
                else grabbed pid (get_buf b s)).
  { rewrite get_load. cbv zeta. rewrite Hg, Hdsk1. cbn [grabbed valid blockno].
    apply caches_iff in Hhit. destruct Hhit as [_ ->]. reflexivity. }
  assert (Hoth : forall x, (x < N)%nat -> x <> b -> get_buf x (load_buf b s1) = get_buf x s).
  { intros x Hx Hne. rewrite content_load_other by (rewrite ?HN1; assumption).
    apply get_touch_other; assumption. }
  destruct (rest_load b s1) as [Hrest Hdsk].
  apply rest_fields in Hrest. destruct Hrest as (Hbl & Hlog & Hwr).
  apply caches_iff in Hhit. destruct Hhit as [Hdv Hbn].
  split; [|split; [|split; [|split; [|split; [|split; [|split]]]]]].
  - apply Does_of_eq. intros c pt e Hn.
    erewrite bread_eq.
    2:{ apply (bget_hit ba dv bno (mkWorld c pid pt s e) l1 b l2); try assumption.
        apply caches_iff. split; assumption. }
    reflexivity.
  - apply (cache_ok_step pid held (b :: held) b s); try assumption.
    + rewrite NBUF_load. exact HN1.
    + rewrite Hbl, Hbl1. reflexivity.
    + exists (l1 ++ b :: l2). split; [|assumption].
      apply dll_load; [rewrite HN1; assumption|].
      unfold s1. rewrite grab_touch. apply dll_touch; try assumption; reflexivity.
    + intros x Hx Hne. rewrite Hoth by assumption. reflexivity.
    + intros _. rewrite Hgl. unfold mine.
      destruct (valid (get_buf b s) =? 0); cbn [set_valid set_data grabbed lock refcnt];
        rewrite Hr; (split; [reflexivity|lia]).
    + intros Hn. exfalso. apply Hn. left. reflexivity.
    + intros x Hne. cbn [In]. split; [intros [E|E]; [congruence|assumption]|auto].
    + apply same_ident_ok; try assumption; rewrite Hgl;
        destruct (valid (get_buf b s) =? 0); reflexivity.
  - rewrite NBUF_load. exact HN1.
  - exact Hoth.
  - congruence.
  - congruence.
  - congruence.
  - rewrite Hgl.
    destruct (Z.eqb_spec (valid (get_buf b s)) 0) as [E|E];
      cbn [set_valid set_data grabbed dev blockno valid refcnt data];
      rewrite ?Hr; repeat split; try assumption; try reflexivity; lia.
Qed.

(** [bread] of a block that is not cached, when some buffer is free. *)
Lemma bread_miss :
  (forall x, (x < N)%nat -> caches dv bno (get_buf x s) = false) ->
  (exists x, (x < N)%nat /\ refcnt (get_buf x s) = 0) ->
  exists b s',
    Does (bread ba dv bno) pid s b s' /\
    (b < N)%nat /\ ~ In b held /\ refcnt (get_buf b s) = 0 /\
    cache_ok pid (b :: held) s' /\
    NBUF_of s' = N /\
    (forall x, (x < N)%nat -> x <> b -> get_buf x s' = get_buf x s) /\
    log s' = log s /\ dsk s' = dsk s /\ writes s' = writes s /\
    dev (get_buf b s') = dv /\ blockno (get_buf b s') = bno /\
    valid (get_buf b s') = 1 /\
    refcnt (get_buf b s') = 1 /\
    data (get_buf b s') = dsk s bno.
Proof.
  intros Hmiss (x0 & Hx0 & Hfree0).
  pose proof Hok as (Hlk & (l & Hd & Hcov) & Hst & Hu).
  destruct (split_last_such (fun x => refcnt (get_buf x s) =? 0) l) as (l1 & b & l2 & El & Hb0 & Hbusy).
  { exists x0. split; [apply Hcov; assumption|]. apply Z.eqb_eq. assumption. }
  apply Z.eqb_eq in Hb0. subst l.
  assert (Hb : (b < N)%nat) by (apply (dll_bound s (l1 ++ b :: l2)); [assumption|apply in_elt]).
  assert (Hnh : ~ In b held).
  { intros Hin. destruct (Hst b Hb) as [Hm _]. destruct (Hm Hin) as [_ Hr]. lia. }
  destruct (Hst b Hb) as [_ Hq]. specialize (Hq Hnh). destruct Hq as (Hq1 & Hq2 & Hq3).
  set (s1 := recycle dv bno pid b s).
  exists b, (load_buf b s1).
  assert (HN1 : NBUF_of s1 = N) by apply NBUF_touch.
  assert (Hg : get_buf b s1 = recycled dv bno pid (get_buf b s)) by apply get_touch.
  destruct (rest_touch b (recycled dv bno pid (get_buf b s)) s) as (Hbl1 & Hlog1 & Hwr1 & Hdsk1).
  change (touch b (recycled dv bno pid (get_buf b s)) s) with s1 in Hbl1, Hlog1, Hwr1, Hdsk1.
  assert (Hgl : get_buf b (load_buf b s1) =
                set_valid 1 (set_data (dsk s bno) (recycled dv bno pid (get_buf b s)))).
  { rewrite get_load. cbv zeta. rewrite Hg, Hdsk1. reflexivity. }
  assert (Hoth : forall x, (x < N)%nat -> x <> b -> get_buf x (load_buf b s1) = get_buf x s).
  { intros x Hx Hne. rewrite content_load_other by (rewrite ?HN1; assumption).
    apply get_touch_other; assumption. }
  destruct (rest_load b s1) as [Hrest Hdsk].
  apply rest_fields in Hrest. destruct Hrest as (Hbl & Hlog & Hwr).
  split; [|split; [|split; [|split; [|split; [|split; [|split; [|split; [|split; [|split]]]]]]]]].
  - apply Does_of_eq. intros c pt e Hn.
    erewrite bread_eq.
    2:{ apply (bget_miss ba dv bno (mkWorld c pid pt s e) (l1 ++ b :: l2)) with (l1 := l1) (l2 := l2);
          cbn [st cpu]; try assumption; try reflexivity.
        - intros x Hx. apply Hmiss. apply (dll_bound s (l1 ++ b :: l2)); assumption.
        - exact Hb0.
        - intros x Hx. apply Z.eqb_neq. apply Hbusy. assumption.
        - exact Hq2.
        - exact Hq1. }
    reflexivity.
  - exact Hb.
  - exact Hnh.
  - exact Hb0.
  - apply (cache_ok_step pid held (b :: held) b s); try assumption.
    + rewrite NBUF_load. exact HN1.
    + rewrite Hbl, Hbl1. reflexivity.
    + exists (l1 ++ b :: l2). split; [|assumption].
      apply dll_load; [rewrite HN1; assumption|].
      unfold s1. rewrite recycle_touch. apply dll_touch; try assumption; reflexivity.
    + intros x Hx Hne. rewrite Hoth by assumption. reflexivity.
    + intros _. rewrite Hgl. unfold mine. cbn. split; [reflexivity|lia].
    + intros Hn. exfalso. apply Hn. left. reflexivity.
    + intros x Hne. cbn [In]. split; [intros [E|E]; [congruence|assumption]|auto].
    + intros x Hx Hne. rewrite Hgl. cbn. apply caches_false. apply Hmiss. assumption.
  - rewrite NBUF_load. exact HN1.
  - exact Hoth.
  - congruence.
  - congruence.
  - congruence.
  - rewrite Hgl. cbn. repeat split.
Qed.
End BreadSpec.

(** *** brelse *)

(** Buffer [b] after one of several references has been dropped. *)
Definition released (x : buf) : buf :=
  mkBuf (valid x) (disk x) (dev x) (blockno x) (mkSleep 0 (mkSpin 0 None) 0) (refcnt x - 1)
    (prev x) (next x) (data x).

Lemma brelse_more ba b (w : world fs) :
  noff_ok (cpu w) -> locked (bc_lock (bcache (st w))) = 0 ->
  locked (sl_lk (lock (get_buf b (st w)))) = 0 ->
  holds_sleep w (lock (get_buf b (st w))) = true ->
  2 <= refcnt (get_buf b (st w)) < 2 ^ 32 ->
  brelse ba b w =
    Ok tt (mkWorld (settle (cpu w)) (mypid w) (map (wake (addr (buf_lock ba b))) (ptable w))
             (touch b (released (get_buf b (st w))) (st w)) (env w)).
Proof.
  intros Hn Hf Hlf Hh H1. unfold brelse.
  unfold bind at 1. rewrite (holdingsleep_eq _ (buf_lock_lawful ba b)) by assumption.
  unfold holds_sleep in Hh. cbn [view buf_lock]. rewrite Hh. cbn [of_bool truthy negb Z.eqb].
  unfold bind at 1. rewrite (releasesleep_eq _ (buf_lock_lawful ba b)).
  2:{ cbn [st view buf_lock update]. rewrite get_put_buf. reflexivity. }
  2:{ exact Hn. }
  cbn [st cpu mypid ptable env]. rewrite settle_settle.
  rewrite (proj2 (buf_lock_lawful ba b)).
  unfold bind at 1. rewrite acquire_free.
  2:{ apply bcache_lock_lawful. }
  2:{ cbn [st view bcache_lock buf_lock update]. case_put_buf; assumption. }
  cbn [st cpu mypid ptable env].
  unfold bind at 1, rd at 1, gets at 1. cbn [st].
  unfold bind at 1, wr at 1, modify at 1. cbn [st set_st].
  unfold bind at 1, rd at 1, gets at 1. cbn [st].
  rewrite get_put_buf. cbn [set_refcnt refcnt cpu mypid ptable env].
  rewrite !get_buf_bc_lock. cbn [update buf_lock]. rewrite !get_put_buf.
  cbn [set_lock refcnt valid disk dev blockno prev next data lock].
  rewrite (u32_id (refcnt (get_buf b (st w)) - 1)) by (unfold is_u32; lia).
  destruct (Z.eqb_spec (refcnt (get_buf b (st w)) - 1) 0) as [E|_]; [lia|].
  rewrite put_buf_bc_lock, put_put_buf.
  unfold bind at 1, ret at 1.
  change (cpu_id (settle (cpu w))) with (cpu_id (cpu w)).
  rewrite release_pushed; try apply bcache_lock_lawful.
  - rewrite settle_settle. f_equal. f_equal. unfold touch, released.
    rewrite <- put_buf_bc_lock. rewrite bc_lock_twice. rewrite put_buf_bc_lock. reflexivity.
  - apply settle_noff_ok. exact Hn.
  - cbn [view bcache_lock]. case_put_buf; reflexivity.
Qed.

(** The pointer assignments of [brelse] do not look at the spinlock. *)
Lemma wrn_bc_lock k x v s : wrn x v (update bcache_lock k s) = update bcache_lock k (wrn x v s).
Proof. unfold wrn. rewrite get_buf_bc_lock. symmetry. apply put_buf_bc_lock. Qed.

Lemma wrp_bc_lock k x v s : wrp x v (update bcache_lock k s) = update bcache_lock k (wrp x v s).
Proof. unfold wrp. rewrite get_buf_bc_lock. symmetry. apply put_buf_bc_lock. Qed.

Lemma nxt_bc_lock k s i : nxt (update bcache_lock k s) i = nxt s i.
Proof. reflexivity. Qed.

Lemma prv_bc_lock k s i : prv (update bcache_lock k s) i = prv s i.
Proof. reflexivity. Qed.

Lemma relink_bc_lock_comm k b s :
  relink b (update bcache_lock k s) = update bcache_lock k (relink b s).
Proof.
  unfold relink. cbv zeta.
  rewrite NBUF_bc_lock.
  rewrite !nxt_bc_lock, !prv_bc_lock, wrp_bc_lock.
  rewrite !nxt_bc_lock, !prv_bc_lock, wrn_bc_lock.
  rewrite !nxt_bc_lock, wrn_bc_lock.
  rewrite wrp_bc_lock.
  rewrite !nxt_bc_lock, wrp_bc_lock.
  rewrite wrn_bc_lock. reflexivity.
Qed.

Lemma info_fields x y :
  info x = info y ->
  valid x = valid y /\ dev x = dev y /\ blockno x = blockno y /\ lock x = lock y /\
  refcnt x = refcnt y /\ data x = data y.
Proof. unfold info. intros E. injection E as E1 E2 E3 E4 E5 E6 E7. auto 10. Qed.

(** The state after [brelse] of buffer [b]. *)
Definition let_go (b : nat) (s : fs) : fs :=
  let s1 := touch b (released (get_buf b s)) s in
  if refcnt (get_buf b s) =? 1 then relink b s1 else s1.

Lemma let_go_facts b s l :
  dll s l -> (b < NBUF_of s)%nat -> (forall x, (x < NBUF_of s)%nat -> In x l) ->
  NBUF_of (let_go b s) = NBUF_of s /\
  (forall i, (i < NBUF_of s)%nat ->
     info (get_buf i (let_go b s)) =
       info (if Nat.eqb i b then released (get_buf b s) else get_buf i s)) /\
  bc_lock (bcache (let_go b s)) = mkSpin 0 None /\
  log (let_go b s) = log s /\ writes (let_go b s) = writes s /\ dsk (let_go b s) = dsk s /\
  exists l', dll (let_go b s) l' /\ forall x, (x < NBUF_of s)%nat -> In x l'.
Proof.
  intros Hd Hb Hcov. unfold let_go. cbv zeta.
  set (s1 := touch b (released (get_buf b s)) s).
  assert (HN1 : NBUF_of s1 = NBUF_of s) by apply NBUF_touch.
  assert (Hd1 : dll s1 l) by (apply dll_touch; try assumption; reflexivity).
  assert (Hi1 : forall i, (i < NBUF_of s)%nat ->
            get_buf i s1 = if Nat.eqb i b then released (get_buf b s) else get_buf i s).
  { intros i Hi. destruct (Nat.eqb_spec i b) as [->|Hne]; [apply get_touch|].
    apply get_touch_other; assumption. }
  destruct (rest_touch b (released (get_buf b s)) s) as (R1 & R2 & R3 & R4).
  fold s1 in R1, R2, R3, R4.
  destruct (refcnt (get_buf b s) =? 1).
  - destruct (in_split b l (Hcov b Hb)) as (l1 & l2 & ->).
    destruct (relink_spec b s1 l1 l2 Hd1) as (Hd2 & N2 & Hinfo & Hrest & Hdsk).
    apply rest_fields in Hrest. destruct Hrest as (Q1 & Q2 & Q3).
    split; [congruence|]. split.
    { intros i Hi. rewrite Hinfo by lia. rewrite Hi1 by assumption. reflexivity. }
    split; [congruence|]. split; [congruence|]. split; [congruence|]. split; [congruence|].
    exists (b :: l1 ++ l2). split; [assumption|].
    intros x Hx. specialize (Hcov x Hx). apply in_app_or in Hcov.
    destruct Hcov as [H|[H|H]]; [right; apply in_or_app; left; assumption|left; assumption|
                                 right; apply in_or_app; right; assumption].
  - split; [assumption|]. split.
    { intros i Hi. rewrite Hi1 by assumption. reflexivity. }
    split; [assumption|]. split; [assumption|]. split; [assumption|]. split; [assumption|].
    exists l. split; assumption.
Qed.

Lemma brelse_let_go ba b (w : world fs) :
  noff_ok (cpu w) -> locked (bc_lock (bcache (st w))) = 0 ->
  lock (get_buf b (st w)) = mkSleep 1 (mkSpin 0 None) (mypid w) ->
  1 <= refcnt (get_buf b (st w)) < 2 ^ 32 ->
  brelse ba b w =
    Ok tt (mkWorld (settle (cpu w)) (mypid w) (map (wake (addr (buf_lock ba b))) (ptable w))
             (let_go b (st w)) (env w)).
Proof.
  intros Hn Hf Hl Hr. unfold let_go. cbv zeta.
  assert (Hh : holds_sleep w (lock (get_buf b (st w))) = true).
  { unfold holds_sleep. rewrite Hl. cbn. apply Z.eqb_refl. }
  assert (Hlf : locked (sl_lk (lock (get_buf b (st w)))) = 0) by (rewrite Hl; reflexivity).
  destruct (Z.eqb_spec (refcnt (get_buf b (st w))) 1) as [E|E].
  - rewrite brelse_last by assumption. f_equal. f_equal.
    rewrite <- relink_bc_lock_comm. f_equal.
    rewrite put_buf_bc_lock. unfold bc_locked. rewrite bc_lock_twice.
    unfold touch. f_equal. unfold dropped, released. rewrite E. reflexivity.
  - apply brelse_more; try assumption. lia.
Qed.

Lemma Does_of_eq_pt {A} (m : K fs A) (g : list proc_t -> list proc_t) pid s a s' :
  (forall c pt e, noff_ok c ->
     m (mkWorld c pid pt s e) = Ok a (mkWorld (settle c) pid (g pt) s' e)) ->
  Does m pid s a s'.
Proof.
  intros H c pt e Hn. exists (settle c), (g pt). split; [apply H; assumption|right; reflexivity].
Qed.

Lemma brelse_spec ba pid held held' s b :
  cache_ok pid held s -> (b < NBUF_of s)%nat -> In b held ->
  ~ In b held' -> (forall x, x <> b -> In x held' <-> In x held) ->
  exists s',
    Does (brelse ba b) pid s tt s' /\
    cache_ok pid held' s' /\
    NBUF_of s' = NBUF_of s /\
    (forall x, (x < NBUF_of s)%nat -> x <> b -> info (get_buf x s') = info (get_buf x s)) /\
    log s' = log s /\ dsk s' = dsk s /\ writes s' = writes s /\
    dev (get_buf b s') = dev (get_buf b s) /\
    blockno (get_buf b s') = blockno (get_buf b s) /\
    valid (get_buf b s') = valid (get_buf b s) /\
    data (get_buf b s') = data (get_buf b s) /\
    refcnt (get_buf b s') = refcnt (get_buf b s) - 1.
Proof.
  intros Hok Hb Hin Hnin Hheld.
  pose proof Hok as (Hlk & (l & Hd & Hcov) & Hst & Hu).
  destruct (Hst b Hb) as [Hm _]. destruct (Hm Hin) as [Hl Hr].
  exists (let_go b s).
  destruct (let_go_facts b s l Hd Hb Hcov) as (HN & Hinfo & Hbl & Hlog & Hwr & Hdsk & Hl').
  assert (Hbi : info (get_buf b (let_go b s)) = info (released (get_buf b s))).
  { rewrite Hinfo by assumption. rewrite Nat.eqb_refl. reflexivity. }
  apply info_fields in Hbi. cbn [released valid dev blockno lock refcnt data] in Hbi.
  destruct Hbi as (B1 & B2 & B3 & B4 & B5 & B6).
  assert (Hoth : forall x, (x < NBUF_of s)%nat -> x <> b ->
            info (get_buf x (let_go b s)) = info (get_buf x s)).
  { intros x Hx Hne. rewrite Hinfo by assumption.
    destruct (Nat.eqb_spec x b); [contradiction|reflexivity]. }
  split; [|split; [|split; [|split; [|split; [|split; [|split]]]]]]; try assumption.
  - apply (Does_of_eq_pt _ (map (wake (addr (buf_lock ba b))))). intros c pt e Hn.
    rewrite brelse_let_go; cbn [st cpu mypid]; try assumption; [reflexivity|lia].
  - apply (cache_ok_step pid held held' b s); try assumption.
    + rewrite Hbl. reflexivity.
    + intros Hc. contradiction.
    + intros _. unfold quiet. rewrite B4, B5. cbn. repeat split; lia.
    + apply same_ident_ok; assumption.
  - repeat split; assumption.
Qed.

(** ** Further properties of the buffer cache *)

(** The cache after three reads (blocks 10, 11 and 12 of device 1 in
    buffers 0, 1 and 2, all released) is consistent. *)
Lemma lru_cache_ok : cache_ok 1 [] (st lru_world).
Proof.
  unfold cache_ok. change (NBUF_of (st lru_world)) with 3%nat.
  split; [reflexivity|]. split; [|split].
  - exists [2; 1; 0]%nat. split.
    + unfold dll. change (NBUF_of (st lru_world)) with 3%nat.
      split; [|split].
      * vm_compute. repeat split; lia.
      * vm_compute. repeat split; lia.
      * repeat constructor; cbn; lia.
    + intros x Hx. cbn. lia.
  - intros x Hx. split; [intros []|]. intros _.
    destruct x as [|[|[|x]]]; [| | |lia]; vm_compute; repeat split; congruence.
  - intros x y Hx Hy. change (NBUF_of (st lru_world)) with 3%nat in Hx, Hy.
    destruct x as [|[|[|x]]]; [| | |lia];
      (destruct y as [|[|[|y]]]; [| | |lia]); vm_compute; intros H1 H2;
      first [reflexivity | discriminate H2].
Qed.

(** X1: [bread] of a block that is cached in a buffer the caller does
    not hold returns that buffer, sleep-locked by the caller and with
    one more reference. The buffer keeps its contents when it is valid
    and is filled from the disk otherwise; no other buffer, the log,
    the disk and the record of disk writes are touched, and the cache
    stays consistent. *)
Theorem bread_returns_cached ba dv bno pid held s b :
  cache_ok pid held s ->
  (b < NBUF_of s)%nat -> caches dv bno (get_buf b s) = true -> ~ In b held ->
  exists s',
    Does (bread ba dv bno) pid s b s' /\
    cache_ok pid (b :: held) s' /\
    lock (get_buf b s') = mkSleep 1 (mkSpin 0 None) pid /\
    refcnt (get_buf b s') = refcnt (get_buf b s) + 1 /\
    dev (get_buf b s') = dv /\ blockno (get_buf b s') = bno /\
    valid (get_buf b s') <> 0 /\
    data (get_buf b s') =
      (if valid (get_buf b s) =? 0 then dsk s bno else data (get_buf b s)) /\
    (forall x, (x < NBUF_of s)%nat -> x <> b -> get_buf x s' = get_buf x s) /\
    log s' = log s /\ dsk s' = dsk s /\ writes s' = writes s.
Proof.
  intros Hok Hb Hhit Hnh.
  destruct (bread_hit ba dv bno pid held s Hok b Hb Hhit Hnh)
    as (s' & HD & Hok' & HN & Hoth & Hlog & Hdsk & Hwr & Hdev & Hbno & Hv & Hr & Hdata).
  exists s'. repeat (split; [assumption|]).
  split.
  { destruct Hok' as (_ & _ & Hst & _). rewrite HN in Hst.
    destruct (Hst b Hb) as [Hm _]. apply Hm. left. reflexivity. }
  repeat (split; [assumption|]). assumption.
Qed.

Lemma bread_returns_cached_witness :
  exists s',
    Does (bread (fun _ => 0) 1 11) 1 (st lru_world) 1%nat s' /\
    refcnt (get_buf 1 s') = 1 /\ data (get_buf 1 s') = data (get_buf 1 (st lru_world)) /\
    get_buf 0 s' = get_buf 0 (st lru_world).
Proof.
  destruct (bread_returns_cached (fun _ => 0) 1 11 1 [] (st lru_world) 1%nat lru_cache_ok)
    as (s' & HD & _ & _ & Hr & _ & _ & _ & Hdata & Hoth & _).
  - vm_compute. lia.
  - reflexivity.
  - intros [].
  - exists s'. split; [exact HD|]. split; [exact Hr|]. split; [exact Hdata|].
    apply Hoth; [vm_compute; lia|discriminate].
Defined.

(** X2: [bread] of a block that no buffer caches, when some buffer has
    no reference, takes over a buffer without references: the buffer
    returned is sleep-locked by the caller, has reference count 1, is
    valid and holds what the disk has for the block; no other buffer is
    touched and no disk write is made. *)
Theorem bread_fills_free_buffer ba dv bno pid held s :
  cache_ok pid held s ->
  (forall x, (x < NBUF_of s)%nat -> caches dv bno (get_buf x s) = false) ->
  (exists x, (x < NBUF_of s)%nat /\ refcnt (get_buf x s) = 0) ->
  exists b s',
    Does (bread ba dv bno) pid s b s' /\
    (b < NBUF_of s)%nat /\ ~ In b held /\ refcnt (get_buf b s) = 0 /\
    cache_ok pid (b :: held) s' /\
    lock (get_buf b s') = mkSleep 1 (mkSpin 0 None) pid /\
    refcnt (get_buf b s') = 1 /\
    dev (get_buf b s') = dv /\ blockno (get_buf b s') = bno /\
    valid (get_buf b s') = 1 /\
    data (get_buf b s') = dsk s bno /\
    (forall x, (x < NBUF_of s)%nat -> x <> b -> get_buf x s' = get_buf x s) /\
    log s' = log s /\ dsk s' = dsk s /\ writes s' = writes s.
Proof.
  intros Hok Hmiss Hfree.
  destruct (bread_miss ba dv bno pid held s Hok Hmiss Hfree)
    as (b & s' & HD & Hb & Hnh & Hb0 & Hok' & HN & Hoth & Hlog & Hdsk & Hwr &
        Hdev & Hbno & Hv & Hr & Hdata).
  exists b, s'. repeat (split; [assumption|]).
  split.
  { destruct Hok' as (_ & _ & Hst & _). rewrite HN in Hst.
    destruct (Hst b Hb) as [Hm _]. apply Hm. left. reflexivity. }
  repeat (split; [assumption|]). assumption.
Qed.

Lemma bread_fills_free_buffer_witness :
  exists b s',
    Does (bread (fun _ => 0) 1 13) 1 (st lru_world) b s' /\
    blockno (get_buf b s') = 13 /\ refcnt (get_buf b s') = 1 /\
    data (get_buf b s') = dsk (st lru_world) 13.
Proof.
  destruct (bread_fills_free_buffer (fun _ => 0) 1 13 1 [] (st lru_world) lru_cache_ok)
    as (b & s' & HD & _ & _ & _ & _ & _ & Hr & _ & Hbno & _ & Hdata & _).
  - intros x Hx. change (NBUF_of (st lru_world)) with 3%nat in Hx.
    destruct x as [|[|[|x]]]; [| | |lia]; reflexivity.
  - exists 0%nat. split; [vm_compute; lia|reflexivity].
  - exists b, s'. repeat split; assumption.
Defined.

(** X3: [brelse] of a buffer the caller holds returns: the sleep lock
    is free again, the reference count is one lower, and the buffer's
    block number, validity and contents are kept; no other buffer's
    contents, lock or count change, nothing is written to the disk, and
    the cache stays consistent (the LRU list has the same buffers). *)
Theorem brelse_keeps_contents ba pid held held' s b :
  cache_ok pid held s -> (b < NBUF_of s)%nat -> In b held ->
  ~ In b held' -> (forall x, x <> b -> In x held' <-> In x held) ->
  exists s',
    Does (brelse ba b) pid s tt s' /\
    cache_ok pid held' s' /\
    sl_locked (lock (get_buf b s')) = 0 /\
    refcnt (get_buf b s') = refcnt (get_buf b s) - 1 /\
    dev (get_buf b s') = dev (get_buf b s) /\
    blockno (get_buf b s') = blockno (get_buf b s) /\
    valid (get_buf b s') = valid (get_buf b s) /\
    data (get_buf b s') = data (get_buf b s) /\
    (forall x, (x < NBUF_of s)%nat -> x <> b -> info (get_buf x s') = info (get_buf x s)) /\
    log s' = log s /\ dsk s' = dsk s /\ writes s' = writes s.
Proof.
  intros Hok Hb Hin Hnin Hheld.
  destruct (brelse_spec ba pid held held' s b Hok Hb Hin Hnin Hheld)
    as (s' & HD & Hok' & HN & Hoth & Hlog & Hdsk & Hwr & Hdev & Hbno & Hv & Hdata & Hr).
  exists s'. repeat (split; [assumption|]).
  split.
  { destruct Hok' as (_ & _ & Hst & _). rewrite HN in Hst.
    destruct (Hst b Hb) as [_ Hq]. apply (Hq Hnin). }
  repeat (split; [assumption|]). assumption.
Qed.

(** The cache while process 1 holds buffer 1 (block 11). *)
Definition held_cache : fs :=
  Eval vm_compute in st (final_world (bread (fun _ => 0) 1 11 lru_world)).

Lemma held_cache_ok : cache_ok 1 [1%nat] held_cache.
Proof.
  unfold cache_ok. change (NBUF_of held_cache) with 3%nat.
  split; [reflexivity|]. split; [|split].
  - exists [2; 1; 0]%nat. split.
    + unfold dll. change (NBUF_of held_cache) with 3%nat.
      split; [|split].
      * vm_compute. repeat split; lia.
      * vm_compute. repeat split; lia.
      * repeat constructor; cbn; lia.
    + intros x Hx. cbn. lia.
  - intros x Hx.
    destruct x as [|[|[|x]]]; [| | |lia]; (split; [intros Hin|intros Hnin]);
      try (exfalso; cbn in Hin; lia); try (exfalso; apply Hnin; left; reflexivity);
      vm_compute; repeat split; congruence.
  - intros x y Hx Hy. change (NBUF_of held_cache) with 3%nat in Hx, Hy.
    destruct x as [|[|[|x]]]; [| | |lia];
      (destruct y as [|[|[|y]]]; [| | |lia]); vm_compute; intros H1 H2;
      first [reflexivity | discriminate H2].
Qed.

Lemma brelse_keeps_contents_witness :
  exists s',
    Does (brelse (fun _ => 0) 1%nat) 1 held_cache tt s' /\
    cache_ok 1 [] s' /\
    refcnt (get_buf 1 s') = 0 /\ blockno (get_buf 1 s') = 11.
Proof.
  destruct (brelse_keeps_contents (fun _ => 0) 1 [1%nat] [] held_cache 1%nat held_cache_ok)
    as (s' & HD & Hok & _ & Hr & _ & Hbno & _).
  - vm_compute. lia.
  - left. reflexivity.
  - intros [].
  - intros x Hne. cbn. split; [intros []|intros [E|[]]; congruence].
  - exists s'. split; [exact HD|]. split; [exact Hok|]. split; [exact Hr|exact Hbno].
Defined.

(** X4: reading a block and releasing it again leaves the cache
    consistent with the same buffers held, every reference count as it
    was, and the log, the disk and the record of writes untouched; the
    block is then cached and valid, so the next [bread] of it finds it.
    This holds whether the block was cached, or a buffer without
    references had to be taken over for it. *)
Theorem bread_brelse_restores ba dv bno pid held s :
  cache_ok pid held s ->
  (exists b, (b < NBUF_of s)%nat /\ caches dv bno (get_buf b s) = true /\ ~ In b held) \/
  ((forall x, (x < NBUF_of s)%nat -> caches dv bno (get_buf x s) = false) /\
   (exists x, (x < NBUF_of s)%nat /\ refcnt (get_buf x s) = 0)) ->
  exists s',
    Does (b <- bread ba dv bno ;; brelse ba b) pid s tt s' /\
    cache_ok pid held s' /\
    NBUF_of s' = NBUF_of s /\
    (forall x, (x < NBUF_of s)%nat -> refcnt (get_buf x s') = refcnt (get_buf x s)) /\
    (exists b, (b < NBUF_of s)%nat /\ caches dv bno (get_buf b s') = true /\
               valid (get_buf b s') <> 0 /\
               forall x, (x < NBUF_of s)%nat -> x <> b ->
                 info (get_buf x s') = info (get_buf x s)) /\
    log s' = log s /\ dsk s' = dsk s /\ writes s' = writes s.
Proof.
  intros Hok [(b & Hb & Hhit & Hnh)|[Hmiss Hfree]].
  - destruct (bread_hit ba dv bno pid held s Hok b Hb Hhit Hnh)
      as (s1 & HD1 & Hok1 & HN1 & Hoth1 & Hlog1 & Hdsk1 & Hwr1 & Hdev1 & Hbno1 & Hv1 & Hr1 & _).
    destruct (brelse_spec ba pid (b :: held) held s1 b Hok1) as
      (s2 & HD2 & Hok2 & HN2 & Hoth2 & Hlog2 & Hdsk2 & Hwr2 & Hdev2 & Hbno2 & Hv2 & _ & Hr2).
    { rewrite HN1. exact Hb. }
    { left. reflexivity. }
    { exact Hnh. }
    { intros x Hne. cbn [In]. split; [auto|intros [E|E]; [congruence|assumption]]. }
    rewrite HN1 in Hoth2.
    exists s2. split; [eapply Does_bind; eassumption|]. split; [assumption|].
    split; [congruence|]. split; [|split].
    + intros x Hx. destruct (Nat.eq_dec x b) as [->|Hne]; [lia|].
      pose proof (Hoth2 x Hx Hne) as E. apply info_fields in E.
      destruct E as (_ & _ & _ & _ & E & _). rewrite E, Hoth1 by assumption. reflexivity.
    + exists b. split; [assumption|]. split; [apply caches_iff; split; congruence|].
      split; [congruence|]. intros x Hx Hne. rewrite Hoth2, Hoth1 by assumption. reflexivity.
    + repeat split; congruence.
  - destruct (bread_miss ba dv bno pid held s Hok Hmiss Hfree)
      as (b & s1 & HD1 & Hb & Hnh & Hb0 & Hok1 & HN1 & Hoth1 & Hlog1 & Hdsk1 & Hwr1 &
          Hdev1 & Hbno1 & Hv1 & Hr1 & _).
    destruct (brelse_spec ba pid (b :: held) held s1 b Hok1) as
      (s2 & HD2 & Hok2 & HN2 & Hoth2 & Hlog2 & Hdsk2 & Hwr2 & Hdev2 & Hbno2 & Hv2 & _ & Hr2).
    { rewrite HN1. exact Hb. }
    { left. reflexivity. }
    { exact Hnh. }
    { intros x Hne. cbn [In]. split; [auto|intros [E|E]; [congruence|assumption]]. }
    rewrite HN1 in Hoth2.
    exists s2. split; [eapply Does_bind; eassumption|]. split; [assumption|].
    split; [congruence|]. split; [|split].
    + intros x Hx. destruct (Nat.eq_dec x b) as [->|Hne]; [lia|].
      pose proof (Hoth2 x Hx Hne) as E. apply info_fields in E.
      destruct E as (_ & _ & _ & _ & E & _). rewrite E, Hoth1 by assumption. reflexivity.
    + exists b. split; [assumption|]. split; [apply caches_iff; split; congruence|].
      split; [congruence|]. intros x Hx Hne. rewrite Hoth2, Hoth1 by assumption. reflexivity.
    + repeat split; congruence.
Qed.

Lemma bread_brelse_restores_witness :
  exists s',
    Does (b <- bread (fun _ => 0) 1 13 ;; brelse (fun _ => 0) b) 1 (st lru_world) tt s' /\
    cache_ok 1 [] s' /\
    (exists b, (b < 3)%nat /\ caches 1 13 (get_buf b s') = true) /\
    writes s' = [].
Proof.
  destruct (bread_brelse_restores (fun _ => 0) 1 13 1 [] (st lru_world) lru_cache_ok)
    as (s' & HD & Hok & _ & _ & (b & Hb & Hc & _) & _ & _ & Hwr).
  - right. split.
    + intros x Hx. change (NBUF_of (st lru_world)) with 3%nat in Hx.
      destruct x as [|[|[|x]]]; [| | |lia]; reflexivity.
    + exists 0%nat. split; [vm_compute; lia|reflexivity].
  - exists s'. split; [exact HD|]. split; [exact Hok|]. split; [|exact Hwr].
    exists b. split; [exact Hb|exact Hc].
Defined.

(** *** binit *)

(** One round of the loop of [binit], on buffer [b]. *)
Definition binit_step (b : nat) (s : fs) : fs :=
  let N := NBUF_of s in
  let s1 := wrn b (nxt s N) s in
  let s2 := wrp b N s1 in
  let s3 := put_buf b (set_lock (mkSleep 0 (mkSpin 0 None) 0) (get_buf b s2)) s2 in
  let s4 := wrp (nxt s3 N) b s3 in
  wrn N b s4.

Lemma initsleeplock_buf ba b (w : world fs) :
  initsleeplock (buf_lock ba b) w =
    Ok tt (set_st (put_buf b (set_lock (mkSleep 0 (mkSpin 0 None) 0) (get_buf b (st w))) (st w)) w).
Proof.
  unfold initsleeplock, initlock, set_sl_locked, set_sl_pid, bind, load, store.
  cbn [st set_st inner buf_lock update view].
  rewrite !get_put_buf, !put_put_buf.
  cbn [set_lock lock sl_locked sl_lk sl_pid valid disk dev blockno refcnt prev next data].
  destruct w; reflexivity.
Qed.

Lemma binit_loop_step ba k b (w : world fs) :
  binit_loop ba (Datatypes.S k) b w =
    binit_loop ba k (Datatypes.S b) (set_st (binit_step b (st w)) w).
Proof.
  destruct w as [c pid pt s e]. cbn [binit_loop st set_st].
  unfold binit_step. cbv zeta.
  unfold bind at 1, head at 1, gets at 1. cbn [st].
  step_rd. step_wr.
  change (put_buf ?x (set_next ?v (get_buf ?x ?s0)) ?s0) with (wrn x v s0).
  change (next (get_buf ?x ?s0)) with (nxt s0 x).
  set (s1 := wrn _ _ s).
  step_wr.
  change (put_buf ?x (set_prev ?v (get_buf ?x ?s0)) ?s0) with (wrp x v s0).
  set (s2 := wrp _ _ s1).
  unfold bind at 1. rewrite initsleeplock_buf. cbn [st set_st].
  set (s3 := put_buf b _ s2).
  step_rd. step_wr.
  change (put_buf ?x (set_prev ?v (get_buf ?x ?s0)) ?s0) with (wrp x v s0).
  change (next (get_buf ?x ?s0)) with (nxt s0 x).
  set (s4 := wrp _ _ s3).
  step_wr.
  change (put_buf ?x (set_next ?v (get_buf ?x ?s0)) ?s0) with (wrn x v s0).
  reflexivity.
Qed.

Lemma binit_step_spec b s l :
  dll s l -> (b < NBUF_of s)%nat -> ~ In b l ->
  dll (binit_step b s) (b :: l) /\
  NBUF_of (binit_step b s) = NBUF_of s /\
  (forall i, (i <= NBUF_of s)%nat -> i <> b ->
     info (get_buf i (binit_step b s)) = info (get_buf i s)) /\
  lock (get_buf b (binit_step b s)) = mkSleep 0 (mkSpin 0 None) 0 /\
  content (get_buf b (binit_step b s)) = content (get_buf b s) /\
  rest (binit_step b s) = rest s /\ dsk (binit_step b s) = dsk s.
Proof.
  intros Hd HbN Hbl. pose proof Hd as (Hn & Hp & Hnd).
  set (N := NBUF_of s) in *.
  assert (Hl : forall y, In y l -> (y < N)%nat) by (intros; eapply dll_bound; eassumption).
  assert (HNl : ~ In N l) by (intros Hin; apply Hl in Hin; lia).
  set (hn := nxt s N).
  assert (Hhn : hn = hd N l).
  { unfold hn. destruct l; cbn [chain hd] in *; tauto. }
  assert (HhnN : (hn <= N)%nat).
  { rewrite Hhn. destruct l as [|y ?]; cbn; [lia|]. apply Nat.lt_le_incl, Hl. left. reflexivity. }
  unfold binit_step. fold N. cbv zeta. fold hn.
  set (s1 := wrn b hn s).
  assert (N1 : NBUF_of s1 = N) by (unfold s1; apply NBUF_wrn).
  set (s2 := wrp b N s1).
  assert (N2 : NBUF_of s2 = N) by (unfold s2; rewrite NBUF_wrp; assumption).
  set (s3 := put_buf b (set_lock (mkSleep 0 (mkSpin 0 None) 0) (get_buf b s2)) s2).
  assert (N3 : NBUF_of s3 = N) by (unfold s3; rewrite NBUF_put_buf; assumption).
  assert (H3 : forall i, (i <= N)%nat ->
            get_buf i s3 = if Nat.eqb i b
                           then set_lock (mkSleep 0 (mkSpin 0 None) 0) (get_buf b s2)
                           else get_buf i s2).
  { intros i Hi. unfold s3. apply get_put_buf_canon; lia. }
  assert (Hn3 : forall i, (i <= N)%nat -> nxt s3 i = nxt s2 i).
  { intros i Hi. unfold nxt. rewrite H3 by assumption.
    destruct (Nat.eqb_spec i b) as [->|]; reflexivity. }
  assert (Hp3 : forall i, (i <= N)%nat -> prv s3 i = prv s2 i).
  { intros i Hi. unfold prv. rewrite H3 by assumption.
    destruct (Nat.eqb_spec i b) as [->|]; reflexivity. }
  assert (Hhn3 : nxt s3 N = hn).
  { rewrite Hn3 by lia. unfold s2. rewrite nxt_wrp by lia. unfold s1. rewrite nxt_wrn by (fold N; lia).
    apply upd_other. lia. }
  rewrite Hhn3.
  set (s4 := wrp hn b s3).
  assert (N4 : NBUF_of s4 = N) by (unfold s4; rewrite NBUF_wrp; assumption).
  set (s5 := wrn N b s4).
  assert (N5 : NBUF_of s5 = N) by (unfold s5; rewrite NBUF_wrn; assumption).
  assert (Hf : forall i, (i <= N)%nat -> nxt s5 i = upd (upd (nxt s) b (nxt s N)) N b i).
  { intros i Hi. unfold s5. rewrite nxt_wrn by lia. unfold upd.
    destruct (Nat.eqb i N); [reflexivity|].
    unfold s4. rewrite nxt_wrp by lia. rewrite Hn3 by assumption.
    unfold s2. rewrite nxt_wrp by lia.
    unfold s1. rewrite nxt_wrn by (fold N; lia). reflexivity. }
  assert (Hg : forall i, (i <= N)%nat -> prv s5 i = upd (upd (prv s) b N) (List.last (rev l) N) b i).
  { intros i Hi. unfold s5. rewrite prv_wrn by lia.
    unfold s4. rewrite prv_wrp by lia. rewrite last_rev_hd, <- Hhn. unfold upd.
    destruct (Nat.eqb i hn); [reflexivity|].
    rewrite Hp3 by assumption.
    unfold s2. rewrite prv_wrp by lia. unfold upd.
    destruct (Nat.eqb i b); [reflexivity|].
    unfold s1. rewrite prv_wrn by (fold N; lia). reflexivity. }
  assert (Hinfo : forall i, (i <= N)%nat ->
            info (get_buf i s5) =
              info (if Nat.eqb i b then set_lock (mkSleep 0 (mkSpin 0 None) 0) (get_buf b s)
                    else get_buf i s)).
  { intros i Hi. unfold s5. rewrite info_wrn by lia.
    unfold s4. rewrite info_wrp by lia. rewrite H3 by assumption.
    assert (E : forall j, (j <= N)%nat -> info (get_buf j s2) = info (get_buf j s)).
    { intros j Hj. unfold s2. rewrite info_wrp by lia.
      unfold s1. rewrite info_wrn by (fold N; lia). reflexivity. }
    destruct (Nat.eqb i b).
    - pose proof (E b ltac:(lia)) as Eb. unfold info in *. cbn [set_lock valid disk dev blockno lock refcnt data].
      injection Eb as -> -> -> -> _ -> ->. reflexivity.
    - apply E. assumption. }
  split; [|split; [exact N5|split; [|split; [|split; [|split]]]]].
  - unfold dll. rewrite N5. split; [|split].
    + apply (chain_ext (upd (upd (nxt s) b (nxt s N)) N b)).
      * intros y Hy. symmetry. apply Hf.
        destruct Hy as [<-|[<-|Hy]]; [lia|lia|]. apply Nat.lt_le_incl, Hl. assumption.
      * apply chain_push_front; try assumption.
        intros [Hin|Hin]; [lia|contradiction].
    + cbn [rev].
      apply (chain_ext (upd (upd (prv s) b N) (List.last (rev l) N) b)).
      * intros y Hy. symmetry. apply Hg.
        destruct Hy as [<-|Hy]; [lia|].
        apply in_app_or in Hy. destruct Hy as [Hy|[<-|[]]]; [|lia].
        apply Nat.lt_le_incl, Hl. apply in_rev. assumption.
      * apply chain_push_back; try assumption.
        -- intros [Hin|Hin]; [lia|]. apply in_rev in Hin. contradiction.
        -- constructor.
           ++ intros Hin. apply in_rev in Hin. contradiction.
           ++ apply NoDup_rev. assumption.
    + constructor; assumption.
  - intros i Hi Hne. rewrite Hinfo by assumption.
    destruct (Nat.eqb_spec i b); [contradiction|reflexivity].
  - pose proof (Hinfo b ltac:(lia)) as E. rewrite Nat.eqb_refl in E.
    apply info_fields in E. destruct E as (_ & _ & _ & E & _). exact E.
  - pose proof (Hinfo b ltac:(lia)) as E. rewrite Nat.eqb_refl in E.
    apply info_fields in E. cbn [set_lock valid dev blockno refcnt data] in E.
    destruct E as (E1 & E2 & E3 & _ & E5 & E6). unfold content. congruence.
  - unfold s5, s4, s3, s2, s1, wrn, wrp.
    repeat rewrite (proj1 (rest_put_buf _ _ _)). reflexivity.
  - unfold s5, s4, s3, s2, s1, wrn, wrp.
    repeat rewrite (proj2 (rest_put_buf _ _ _)). reflexivity.
Qed.

(** The rounds for buffers [b], [b + 1], ... *)
Fixpoint binit_steps (k : nat) (b : nat) (s : fs) : fs :=
  match k with
  | O => s
  | Datatypes.S k' => binit_steps k' (Datatypes.S b) (binit_step b s)
  end.

Lemma binit_loop_run ba k : forall b (w : world fs),
  binit_loop ba k b w = Ok tt (set_st (binit_steps k b (st w)) w).
Proof.
  induction k as [|k IH]; intros b w.
  - destruct w; reflexivity.
  - rewrite binit_loop_step, IH. destruct w; reflexivity.
Qed.

Lemma binit_steps_spec k : forall b s,
  (b + k = NBUF_of s)%nat ->
  dll s (rev (seq 0 b)) ->
  let s' := binit_steps k b s in
  dll s' (rev (seq 0 (b + k))) /\
  NBUF_of s' = NBUF_of s /\
  (forall i, (i < b)%nat -> info (get_buf i s') = info (get_buf i s)) /\
  (forall i, (b <= i < b + k)%nat ->
     lock (get_buf i s') = mkSleep 0 (mkSpin 0 None) 0 /\
     content (get_buf i s') = content (get_buf i s)) /\
  rest s' = rest s /\ dsk s' = dsk s.
Proof.
  induction k as [|k IH]; intros b s Hk Hd; cbn [binit_steps]; cbv zeta.
  - rewrite Nat.add_0_r. split; [assumption|]. split; [reflexivity|].
    split; [reflexivity|]. split; [intros i Hi; lia|]. split; reflexivity.
  - destruct (binit_step_spec b s (rev (seq 0 b)) Hd) as (Hd1 & N1 & Hoth1 & Hl1 & Hc1 & Hr1 & Hk1).
    { lia. }
    { intros Hin. apply in_rev, in_seq in Hin. lia. }
    set (s1 := binit_step b s) in *.
    assert (Hd1' : dll s1 (rev (seq 0 (Datatypes.S b)))).
    { rewrite seq_S, rev_app_distr. exact Hd1. }
    destruct (IH (Datatypes.S b) s1 ltac:(lia) Hd1') as (Hd2 & N2 & Hoth2 & Hl2 & Hr2 & Hk2).
    replace (b + Datatypes.S k)%nat with (Datatypes.S b + k)%nat by lia.
    split; [exact Hd2|]. split; [congruence|]. split; [|split; [|split; congruence]].
    + intros i Hi. rewrite Hoth2 by lia. apply Hoth1; lia.
    + intros i Hi. destruct (Nat.eq_dec i b) as [->|Hne].
      * pose proof (Hoth2 b ltac:(lia)) as E. apply info_fields in E.
        destruct E as (E1 & E2 & E3 & E4 & E5 & E6).
        split; [congruence|]. rewrite <- Hc1. unfold content. congruence.
      * destruct (Hl2 i ltac:(lia)) as [L C]. split; [exact L|].
        rewrite C. pose proof (Hoth1 i ltac:(lia) Hne) as E. apply info_fields in E.
        destruct E as (E1 & E2 & E3 & E4 & E5 & E6). unfold content. congruence.
Qed.

(** X5: [binit] returns, taking no lock. It leaves the LRU list
    holding every buffer once, buffer [NBUF - 1] first and buffer 0
    last, circular in both directions through the head; the spinlock of
    the cache and every buffer's sleep lock are free; what the buffers
    cache (device, block, validity, reference count, data), the log and
    the disk are not touched. *)
Theorem binit_links_every_buffer ba (w : world fs) :
  exists s',
    binit ba w = Ok tt (set_st s' w) /\
    NBUF_of s' = NBUF_of (st w) /\
    dll s' (rev (seq 0 (NBUF_of (st w)))) /\
    bc_lock (bcache s') = mkSpin 0 None /\
    (forall i, (i < NBUF_of (st w))%nat ->
       lock (get_buf i s') = mkSleep 0 (mkSpin 0 None) 0 /\
       content (get_buf i s') = content (get_buf i (st w))) /\
    log s' = log (st w) /\ dsk s' = dsk (st w) /\ writes s' = writes (st w).
Proof.
  set (N := NBUF_of (st w)).
  set (s0 := wrn N N (wrp N N (update bcache_lock (mkSpin 0 None) (st w)))).
  assert (N0 : NBUF_of s0 = N).
  { unfold s0. rewrite NBUF_wrn, NBUF_wrp. reflexivity. }
  assert (Hd0 : dll s0 (rev (seq 0 0))).
  { unfold dll. rewrite N0. cbn [seq rev chain]. split; [|split; [|constructor]].
    - unfold s0. rewrite nxt_wrn by (rewrite NBUF_wrp, NBUF_bc_lock; fold N; lia).
      apply upd_same.
    - unfold s0. rewrite prv_wrn by (rewrite NBUF_wrp, NBUF_bc_lock; fold N; lia).
      rewrite prv_wrp by (rewrite NBUF_bc_lock; fold N; lia). apply upd_same. }
  destruct (binit_steps_spec N 0%nat s0 ltac:(lia) Hd0) as (Hd & HN & _ & Hl & Hr & Hk).
  cbn [Nat.add] in Hd, Hl.
  assert (H0 : forall i, (i < N)%nat -> content (get_buf i s0) = content (get_buf i (st w))).
  { intros i Hi.
    assert (E : info (get_buf i s0) = info (get_buf i (st w))).
    { unfold s0. rewrite info_wrn by (rewrite ?NBUF_wrp, ?NBUF_bc_lock; fold N; lia).
      rewrite info_wrp by (rewrite ?NBUF_bc_lock; fold N; lia). reflexivity. }
    apply info_fields in E. destruct E as (E1 & E2 & E3 & E4 & E5 & E6).
    unfold content. congruence. }
  assert (Hr0 : rest s0 = (mkSpin 0 None, log (st w), writes (st w)) /\ dsk s0 = dsk (st w)).
  { unfold s0, wrn, wrp. rewrite !(proj1 (rest_put_buf _ _ _)), !(proj2 (rest_put_buf _ _ _)).
    split; reflexivity. }
  destruct Hr0 as [Hr0 Hk0].
  exists (binit_steps N 0 s0). split.
  - unfold binit. unfold bind at 1, initlock at 1, store at 1.
    unfold bind at 1, head at 1, gets at 1. cbn [st set_st].
    rewrite NBUF_bc_lock. fold N.
    step_wr. step_wr.
    unfold bind at 1, gets at 1. cbn [st].
    change (put_buf ?x (set_prev ?v (get_buf ?x ?s1)) ?s1) with (wrp x v s1).
    change (put_buf ?x (set_next ?v (get_buf ?x ?s1)) ?s1) with (wrn x v s1).
    fold s0. rewrite N0. rewrite binit_loop_run. cbn [st set_st]. destruct w; reflexivity.
  - split; [congruence|]. split; [exact Hd|].
    rewrite Hr0 in Hr. unfold rest in Hr. injection Hr as R1 R2 R3.
    split; [exact R1|]. split; [|repeat split; congruence].
    intros i Hi. destruct (Hl i ltac:(lia)) as [L C]. split; [exact L|].
    rewrite C. apply H0. assumption.
Qed.

(** ** Further properties of the log *)

(** X6: the guards of [log_write]. With [n >= LOGSIZE] or
    [n >= size - 1] the call panics with "too big a transaction";
    otherwise, with no operation outstanding, it panics with "log_write
    outside of trans". In both cases the log header is as it was, the
    buffer has not been pinned, and the log's lock is still held by the
    caller's hart. *)
Theorem log_write_guards (LOGSIZE : Z) (b : nat) (w : world fs) :
  noff_ok (cpu w) -> locked (lg_lock (log (st w))) = 0 ->
  let l := log (st w) in
  let stop msg :=
    exists w', log_write LOGSIZE b w = Panic msg w' /\
               lh (log (st w')) = lh l /\
               outstanding (log (st w')) = outstanding l /\
               bcache (st w') = bcache (st w) /\
               lg_lock (log (st w')) = mkSpin 1 (Some (cpu_id (cpu w))) in
  (lh_n (lh l) >= LOGSIZE \/ lh_n (lh l) >= s32 (lg_size l - 1) ->
   stop "too big a transaction"%string) /\
  (lh_n (lh l) < LOGSIZE -> lh_n (lh l) < s32 (lg_size l - 1) -> outstanding l < 1 ->
   stop "log_write outside of trans"%string).
Proof.
  intros Hn Hf l stop. subst stop. cbv beta.
  assert (E : forall A (k : log_t -> K fs A),
    (acquire log_lock ;; l <- the_log ;; k l) w =
    k (log (update log_lock (mkSpin 1 (Some (cpu_id (cpu w)))) (st w)))
      (mkWorld (pushed (cpu w)) (mypid w) (ptable w)
         (update log_lock (mkSpin 1 (Some (cpu_id (cpu w)))) (st w)) (env w))).
  { intros A k. unfold bind at 1.
    rewrite acquire_free by (try apply log_lock_lawful; assumption).
    reflexivity. }
  unfold log_write. rewrite E. clear E.
  cbn [update log_lock log set_log lh lh_n lg_size outstanding]. fold l.
  split.
  - intros Hbig.
    replace ((lh_n (lh l) >=? LOGSIZE) || (lh_n (lh l) >=? s32 (lg_size l - 1))) with true.
    2:{ symmetry. apply orb_true_iff. rewrite !Z.geb_leb, !Z.leb_le. lia. }
    eexists. split; [reflexivity|]. cbn. repeat split.
  - intros H1 H2 H3.
    replace ((lh_n (lh l) >=? LOGSIZE) || (lh_n (lh l) >=? s32 (lg_size l - 1))) with false.
    2:{ symmetry. apply orb_false_iff. rewrite !Z.geb_leb, !Z.leb_gt. lia. }
    replace (outstanding l <? 1) with true by (symmetry; apply Z.ltb_lt; lia).
    eexists. split; [reflexivity|]. cbn. repeat split.
Qed.

Lemma log_write_guards_witness :
  exists w', log_write 30 0 (mkWorld boot_cpu 1 [] (blank_fs 3 64 2 31 30) []) =
               Panic "log_write outside of trans" w' /\
             lh (log (st w')) = mkLh 0 (repeat 0 30).
Proof.
  destruct (proj2 (log_write_guards 30 0 (mkWorld boot_cpu 1 [] (blank_fs 3 64 2 31 30) [])
              ltac:(unfold noff_ok; cbn; lia) eq_refl))
    as (w' & E & Hlh & _).
  - cbn. lia.
  - vm_compute. reflexivity.
  - cbn. lia.
  - exists w'. split; [exact E|exact Hlh].
Defined.

Section EndOpCases.
Variable buf_addr : nat -> Z.
Variable log_addr BSIZE : Z.

Lemma end_op_committing (w : world fs) :
  noff_ok (cpu w) -> locked (lg_lock (log (st w))) = 0 ->
  committing (log (st w)) <> 0 ->
  end_op buf_addr log_addr BSIZE w =
    Panic "log.committing"
      (mkWorld (pushed (cpu w)) (mypid w) (ptable w)
         (set_log (mkLog (mkSpin 1 (Some (cpu_id (cpu w)))) (lg_start (log (st w)))
                     (lg_size (log (st w))) (s32 (outstanding (log (st w)) - 1))
                     (committing (log (st w))) (lg_dev (log (st w))) (lh (log (st w))))
            (st w))
         (env w)).
Proof.
  intros Hn Hf Hc. unfold end_op.
  unfold bind at 1. rewrite acquire_free by (try apply log_lock_lawful; assumption).
  unfold bind at 1, the_log at 1, gets at 1.
  unfold bind at 1, wr_log at 1, modify at 1.
  unfold bind at 1, the_log at 1, gets at 1.
  cbn [st set_st cpu mypid ptable env update view log_lock set_log log set_outstanding
       committing outstanding lg_lock lg_start lg_size lg_dev lh].
  unfold truthy. destruct (Z.eqb_spec (committing (log (st w))) 0) as [E|_]; [contradiction|].
  reflexivity.
Qed.

Lemma end_op_not_last (w : world fs) :
  noff_ok (cpu w) -> locked (lg_lock (log (st w))) = 0 ->
  committing (log (st w)) = 0 ->
  s32 (outstanding (log (st w)) - 1) <> 0 ->
  end_op buf_addr log_addr BSIZE w =
    Ok tt (mkWorld (settle (cpu w)) (mypid w) (map (wake log_addr) (ptable w))
             (set_log (unlocked (set_outstanding (s32 (outstanding (log (st w)) - 1))
                                   (log (st w)))) (st w))
             (env w)).
Proof.
  intros Hn Hf Hc Ho. unfold end_op.
  unfold bind at 1. rewrite acquire_free by (try apply log_lock_lawful; assumption).
  unfold bind at 1, the_log at 1, gets at 1.
  unfold bind at 1, wr_log at 1, modify at 1.
  unfold bind at 1, the_log at 1, gets at 1.
  cbn [st set_st cpu mypid ptable env update view log_lock set_log log set_outstanding
       committing outstanding lg_lock lg_start lg_size lg_dev lh].
  unfold truthy at 1.
  destruct (Z.eqb_spec (committing (log (st w))) 0) as [_|E]; [|contradiction].
  cbn [negb].
  destruct (Z.eqb_spec (s32 (outstanding (log (st w)) - 1)) 0) as [E|_]; [contradiction|].
  unfold bind at 1. unfold bind at 1, wakeup at 1, modify at 1, ret at 1.
  cbn [st set_st set_ptable cpu mypid ptable env].
  unfold bind at 1. rewrite release_pushed; try assumption; try apply log_lock_lawful;
    [|reflexivity].
  cbn [truthy Z.eqb negb]. unfold ret. reflexivity.
Qed.
End EndOpCases.

(** X7: [end_op] commits only as the last outstanding operation. It
    first makes [outstanding] one lower. If the log is committing it
    then panics with "log.committing". Otherwise, if [outstanding] has
    not reached 0 (also when it was 0 before and is now negative) it
    wakes the processes sleeping on the log and returns, with the log
    header, the cache and the disk untouched. If it has reached 0 and
    nothing is logged, it returns with [committing] clear again and no
    disk write made. *)
Theorem end_op_commits_only_last buf_addr log_addr BSIZE (w : world fs) :
  noff_ok (cpu w) -> locked (lg_lock (log (st w))) = 0 ->
  let l := log (st w) in
  (committing l <> 0 ->
   exists w', end_op buf_addr log_addr BSIZE w = Panic "log.committing" w' /\
              outstanding (log (st w')) = s32 (outstanding l - 1)) /\
  (committing l = 0 -> s32 (outstanding l - 1) <> 0 ->
   exists w', end_op buf_addr log_addr BSIZE w = Ok tt w' /\
              log (st w') = unlocked (set_outstanding (s32 (outstanding l - 1)) l) /\
              ptable w' = map (wake log_addr) (ptable w) /\
              bcache (st w') = bcache (st w) /\ dsk (st w') = dsk (st w) /\
              writes (st w') = writes (st w)) /\
  (committing l = 0 -> outstanding l = 1 -> lh_n (lh l) <= 0 ->
   exists w', end_op buf_addr log_addr BSIZE w = Ok tt w' /\
              log (st w') = unlocked (set_outstanding 0 l) /\
              ptable w' = map (wake log_addr) (ptable w) /\
              bcache (st w') = bcache (st w) /\ dsk (st w') = dsk (st w) /\
              writes (st w') = writes (st w)).
Proof.
  intros Hn Hf l. split; [|split].
  - intros Hc. rewrite end_op_committing by assumption.
    eexists. split; reflexivity.
  - intros Hc Ho. rewrite end_op_not_last by assumption.
    eexists. split; [reflexivity|]. cbn. repeat split.
  - intros Hc Ho Hl. rewrite end_op_idle by assumption.
    eexists. split; [reflexivity|]. cbn.
    unfold committed_log, committing_log, unlocked, set_outstanding. cbn. fold l.
    rewrite Hc. repeat split.
Qed.

Lemma end_op_commits_only_last_witness :
  exists w', end_op (fun _ => 0) 0 64 two_ops_world = Ok tt w' /\
             outstanding (log (st w')) = 1 /\ writes (st w') = [].
Proof.
  destruct (proj1 (proj2 (end_op_commits_only_last (fun _ => 0) 0 64 two_ops_world
              ltac:(unfold noff_ok; cbn; lia) eq_refl)) eq_refl)
    as (w' & E & Hl & _ & _ & _ & Hw).
  - vm_compute. discriminate.
  - exists w'. split; [exact E|]. rewrite Hl, Hw. split; reflexivity.
Defined.

(** X8: an operation that does nothing. When [begin_op] need not wait,
    and either other operations are outstanding or nothing is logged,
    [begin_op] followed by [end_op] returns and leaves the log as it
    was, with its lock free; the cache and the disk are untouched and
    nothing is written. *)
Theorem begin_end_op_restores buf_addr log_addr LOGSIZE MAXOPBLOCKS BSIZE (w : world fs) :
  noff_ok (cpu w) -> locked (lg_lock (log (st w))) = 0 ->
  reserve_ok MAXOPBLOCKS (log (st w)) ->
  must_wait LOGSIZE MAXOPBLOCKS (log (st w)) = false ->
  0 <= outstanding (log (st w)) ->
  (outstanding (log (st w)) = 0 -> lh_n (lh (log (st w))) <= 0) ->
  exists w',
    (begin_op log_addr LOGSIZE MAXOPBLOCKS ;; end_op buf_addr log_addr BSIZE) w = Ok tt w' /\
    log (st w') = unlocked (log (st w)) /\
    bcache (st w') = bcache (st w) /\ dsk (st w') = dsk (st w) /\
    writes (st w') = writes (st w).
Proof.
  intros Hn Hf Hr Hw Ho Hl.
  assert (Hc : committing (log (st w)) = 0).
  { unfold must_wait in Hw. apply orb_false_iff in Hw. destruct Hw as [Hw _].
    unfold truthy in Hw. apply negb_false_iff, Z.eqb_eq in Hw. exact Hw. }
  unfold bind. rewrite begin_op_admit by assumption.
  set (w1 := mkWorld _ _ _ _ _).
  assert (Hs : s32 (outstanding (log (st w)) + 1 - 1) = outstanding (log (st w))).
  { destruct Hr as (H1 & _). replace (outstanding (log (st w)) + 1 - 1) with (outstanding (log (st w))) by lia.
    apply s32_id. unfold is_s32 in *. lia. }
  destruct (Z.eq_dec (outstanding (log (st w))) 0) as [E0|E0].
  - rewrite end_op_idle; try assumption; cbn [w1 st cpu log set_log unlocked set_outstanding
      lg_lock committing outstanding lh]; try reflexivity; try assumption.
    + eexists. split; [reflexivity|]. cbn. unfold unlocked. rewrite E0, Hc. repeat split.
    + lia.
    + apply Hl. assumption.
  - rewrite end_op_not_last; try assumption; cbn [w1 st cpu log set_log unlocked set_outstanding
      lg_lock committing outstanding lh]; try reflexivity; try assumption.
    + eexists. split; [reflexivity|]. cbn. unfold unlocked. cbn. rewrite Hs. repeat split.
    + rewrite Hs. assumption.
Qed.

Lemma begin_end_op_restores_witness :
  exists w',
    (begin_op 0 30 10 ;; end_op (fun _ => 0) 0 64)
      (mkWorld boot_cpu 1 [] (blank_fs 3 64 2 31 30) []) = Ok tt w' /\
    log (st w') = log (blank_fs 3 64 2 31 30).
Proof.
  destruct (begin_end_op_restores (fun _ => 0) 0 30 10 64
              (mkWorld boot_cpu 1 [] (blank_fs 3 64 2 31 30) [])) as (w' & E & Hl & _).
  - unfold noff_ok. cbn. lia.
  - reflexivity.
  - unfold reserve_ok, is_s32. cbn. lia.
  - reflexivity.
  - cbn. lia.
  - cbn. lia.
  - exists w'. split; [exact E|]. rewrite Hl. reflexivity.
Defined.

(** ** Further properties of the locks *)

Lemma lock_A_lawful : lawful lock_A.
Proof. split; intros; reflexivity. Qed.

Lemma self_ref_lawful a : lawful (self_ref a).
Proof. split; intros; reflexivity. Qed.

(** X9: taking and giving back a free spinlock. [acquire] returns,
    [holding] then answers 1; [release] returns, [holding] then answers
    0. Afterwards the lock is free with no owner recorded, the nesting
    depth is what it was, and interrupts are enabled exactly if they
    were before. *)
Theorem acquire_release_round_trip {S} (lk : ref S spinlock) (w : world S) :
  lawful lk -> noff_ok (cpu w) -> cpu_inv (cpu w) ->
  locked (view lk (st w)) = 0 ->
  exists w',
    (acquire lk ;; h <- holding lk ;; release lk ;; h' <- holding lk ;; ret (h, h')) w
      = Ok (1, 0) w' /\
    st w' = update lk (mkSpin 0 None) (st w) /\
    noff (cpu w') = noff (cpu w) /\ sie (cpu w') = sie (cpu w) /\
    cpu_id (cpu w') = cpu_id (cpu w).
Proof.
  intros Hl Hn Hi Hf. pose proof Hl as [Hgp Hpp].
  unfold bind at 1. rewrite acquire_free by assumption.
  unfold bind at 1. rewrite holding_eq. cbn [st cpu].
  rewrite Hgp. unfold held_by at 1. cbn [locked lk_cpu pushed cpu_id truthy Z.eqb negb andb].
  rewrite bool_decide_true by reflexivity. cbn [of_bool].
  unfold bind at 1. rewrite release_pushed by (try assumption; apply Hgp).
  unfold bind at 1. rewrite holding_eq. cbn [st cpu].
  rewrite Hgp. unfold held_by. cbn [locked truthy Z.eqb negb andb of_bool].
  unfold ret. eexists. split; [reflexivity|]. cbn [st cpu].
  split; [apply Hpp|]. split; [reflexivity|]. split; [|reflexivity].
  unfold settle. cbn [sie]. destruct (Z.eqb_spec (noff (cpu w)) 0) as [E|E]; [reflexivity|].
  symmetry. apply Hi. destruct Hn. lia.
Qed.

Lemma acquire_release_round_trip_witness :
  exists w',
    (acquire lock_A ;; h <- holding lock_A ;; release lock_A ;; h' <- holding lock_A ;; ret (h, h'))
      two_locks_world = Ok (1, 0) w' /\
    sie (cpu w') = true.
Proof.
  destruct (acquire_release_round_trip lock_A two_locks_world lock_A_lawful)
    as (w' & E & _ & _ & Hs & _).
  - unfold noff_ok. cbn. lia.
  - intros H. cbn in H. lia.
  - reflexivity.
  - exists w'. split; [exact E|]. rewrite Hs. reflexivity.
Defined.

(** X10: a hart that takes a spinlock it already holds panics with
    "acquire": [acquire] does not spin on its own lock. At the panic
    interrupts are off and the lock is still held by the hart. *)
Theorem acquire_again_panics {S} (lk : ref S spinlock) (w : world S) :
  lawful lk -> locked (view lk (st w)) = 0 ->
  exists w',
    (acquire lk ;; acquire lk) w = Panic "acquire" w' /\
    sie (cpu w') = false /\
    view lk (st w') = mkSpin 1 (Some (cpu_id (cpu w))).
Proof.
  intros Hl Hf. pose proof Hl as [Hgp Hpp].
  unfold bind. rewrite acquire_free by assumption.
  rewrite acquire_eq by assumption. cbv zeta. cbn [st cpu].
  rewrite Hgp. unfold held_by. cbn [locked lk_cpu pushed cpu_id truthy Z.eqb negb andb].
  rewrite bool_decide_true by reflexivity.
  eexists. split; [reflexivity|]. cbn. split; [reflexivity|apply Hgp].
Qed.

Lemma acquire_again_panics_witness :
  exists w', (acquire lock_A ;; acquire lock_A) two_locks_world = Panic "acquire" w' /\
             sie (cpu w') = false.
Proof.
  destruct (acquire_again_panics lock_A two_locks_world lock_A_lawful eq_refl)
    as (w' & E & Hs & _).
  exists w'. split; [exact E|exact Hs].
Defined.

(** X11: taking and giving back a free sleep lock. [acquiresleep]
    returns without sleeping and records the caller as holder;
    [holdingsleep] then answers 1 to the caller, and 0 to any other
    process; after [releasesleep], [holdingsleep] answers 0 and the
    lock word and the holder are clear. *)
Theorem sleeplock_round_trip {S} (lk : ref S sleeplock) (w : world S) :
  lawful lk -> noff_ok (cpu w) ->
  sl_locked (view lk (st w)) = 0 -> locked (sl_lk (view lk (st w))) = 0 ->
  (exists w1,
     acquiresleep lk w = Ok tt w1 /\
     view lk (st w1) = mkSleep 1 (mkSpin 0 None) (mypid w) /\
     (forall c pid pt e, noff_ok c -> pid <> mypid w ->
        exists w2, holdingsleep lk (mkWorld c pid pt (st w1) e) = Ok 0 w2)) /\
  (exists w',
     (acquiresleep lk ;; h <- holdingsleep lk ;; releasesleep lk ;;
      h' <- holdingsleep lk ;; ret (h, h')) w = Ok (1, 0) w' /\
     view lk (st w') = mkSleep 0 (mkSpin 0 None) 0).
Proof.
  intros Hl Hn H0 Hf. pose proof Hl as [Hgp Hpp].
  split.
  - rewrite (acquiresleep_free lk Hl) by assumption.
    eexists. split; [reflexivity|]. cbn [st]. split; [apply Hgp|].
    intros c pid pt e Hc Hp.
    rewrite (holdingsleep_eq lk Hl); cbn [st cpu mypid]; rewrite ?Hgp; try assumption;
      [|reflexivity].
    cbn [sl_locked sl_pid truthy Z.eqb negb andb].
    destruct (Z.eqb_spec (mypid w) pid) as [E|_]; [congruence|].
    eexists. reflexivity.
  - unfold bind at 1. rewrite (acquiresleep_free lk Hl) by assumption.
    unfold bind at 1.
    rewrite (holdingsleep_eq lk Hl); cbn [st cpu mypid]; rewrite ?Hgp; try assumption;
      [|reflexivity].
    cbn [sl_locked sl_pid truthy Z.eqb negb andb]. rewrite Z.eqb_refl. cbn [of_bool].
    rewrite Hpp.
    unfold bind at 1.
    rewrite (releasesleep_eq lk Hl); cbn [st cpu mypid]; rewrite ?Hgp; try assumption;
      [|reflexivity].
    rewrite Hpp.
    unfold bind at 1.
    rewrite (holdingsleep_eq lk Hl); cbn [st cpu mypid]; rewrite ?Hgp; try assumption;
      [|reflexivity].
    cbn [sl_locked sl_pid truthy Z.eqb negb andb of_bool].
    unfold ret. eexists. split; [reflexivity|]. cbn [st]. rewrite Hpp. apply Hgp.
Qed.

Lemma sleeplock_round_trip_witness :
  exists w',
    (acquiresleep (self_ref 4096) ;; h <- holdingsleep (self_ref 4096) ;;
     releasesleep (self_ref 4096) ;; h' <- holdingsleep (self_ref 4096) ;; ret (h, h'))
      (mkWorld boot_cpu 1 [] (mkSleep 0 (mkSpin 0 None) 0) []) = Ok (1, 0) w'.
Proof.
  destruct (proj2 (sleeplock_round_trip (self_ref 4096)
                     (mkWorld boot_cpu 1 [] (mkSleep 0 (mkSpin 0 None) 0) [])
                     (self_ref_lawful 4096) ltac:(unfold noff_ok; cbn; lia) eq_refl eq_refl))
    as (w' & E & _).
  exists w'. exact E.
Defined.

(** ** Further properties of the frame allocator *)


(** X12: [kfree] checks its argument and poisons the frame. An address
    that is not a multiple of 4096, lies below [end] or is not below
    [PHYSTOP] makes it panic with "kfree" before anything is touched.
    Any other address becomes the head of the free list: its first
    machine word holds the old head, the rest of the frame holds the
    byte 1, and no byte outside the frame changes. *)
Theorem kfree_checks_and_poisons (end_ PHYSTOP p : Z) (w : world kalloc_state) :
  noff_ok (cpu w) -> locked (km_lock (kmem (st w))) = 0 ->
  (~ frame_ok end_ PHYSTOP p -> kfree end_ PHYSTOP p w = Panic "kfree" w) /\
  (frame_ok end_ PHYSTOP p -> is_u64 (freelist (kmem (st w))) ->
   exists w',
     kfree end_ PHYSTOP p w = Ok tt w' /\
     freelist (kmem (st w')) = p /\
     load_le 8 (ram (st w')) p = freelist (kmem (st w)) /\
     (forall a, p + 8 <= a < p + PGSIZE -> ram (st w') a = 1) /\
     (forall a, a < p \/ p + PGSIZE <= a -> ram (st w') a = ram (st w) a) /\
     locked (km_lock (kmem (st w'))) = 0).
Proof.
  intros Hn Hf. split.
  - intros Hbad. unfold kfree, frame_ok in *.
    destruct (Z.eqb_spec (p mod PGSIZE) 0) as [E0|E0]; cbn [negb orb]; [|reflexivity].
    destruct (Z.ltb_spec p end_) as [E1|E1]; cbn [orb]; [reflexivity|].
    destruct (Z.geb_spec p PHYSTOP) as [E2|E2]; [reflexivity|].
    exfalso. apply Hbad. lia.
  - intros Hp Hu. rewrite kfree_eq by assumption.
    eexists. split; [reflexivity|]. cbn [st kmem freelist ram km_lock locked].
    split; [reflexivity|]. split; [|split; [|split; [|reflexivity]]].
    + rewrite load_store_le. change (256 ^ Z.of_nat 8) with (2 ^ 64).
      apply Z.mod_small. exact Hu.
    + intros a Ha. rewrite store_le_other by (cbn; lia).
      unfold memset. unfold PGSIZE in *.
      destruct (Z.leb_spec p a); [|lia]. destruct (Z.ltb_spec a (p + 4096)); [|lia].
      reflexivity.
    + intros a Ha. unfold PGSIZE in *. rewrite store_le_other by (cbn; lia).
      apply memset_other. lia.
Qed.

Lemma kfree_checks_and_poisons_witness :
  kfree 0x80020000 0x80022000 0x80020008 boot_kmem = Panic "kfree" boot_kmem /\
  exists w', kfree 0x80020000 0x80022000 0x80021000 boot_kmem = Ok tt w' /\
             freelist (kmem (st w')) = 0x80021000.
Proof.
  pose proof (kfree_checks_and_poisons 0x80020000 0x80022000 0x80020008 boot_kmem
                ltac:(unfold noff_ok; cbn; lia) eq_refl) as [H1 _].
  pose proof (kfree_checks_and_poisons 0x80020000 0x80022000 0x80021000 boot_kmem
                ltac:(unfold noff_ok; cbn; lia) eq_refl) as [_ H2].
  split.
  - apply H1. unfold frame_ok. intros [H _]. vm_compute in H. discriminate H.
  - destruct H2 as (w' & E & Hfl & _).
    + unfold frame_ok. split; [reflexivity|lia].
    + unfold is_u64. cbn. lia.
    + exists w'. split; [exact E|exact Hfl].
Defined.

(** X13: [kalloc] with a non-empty free list returns its head, makes
    the word stored in the head frame the new head, and fills the whole
    frame with the byte 5, leaving every byte outside the frame as it
    was. *)
Theorem kalloc_poisons_frame (w : world kalloc_state) :
  noff_ok (cpu w) -> locked (km_lock (kmem (st w))) = 0 ->
  freelist (kmem (st w)) <> 0 ->
  let r := freelist (kmem (st w)) in
  exists w',
    kalloc w = Ok r w' /\
    freelist (kmem (st w')) = load_le 8 (ram (st w)) r /\
    (forall a, r <= a < r + PGSIZE -> ram (st w') a = 5) /\
    (forall a, a < r \/ r + PGSIZE <= a -> ram (st w') a = ram (st w) a) /\
    locked (km_lock (kmem (st w'))) = 0.
Proof.
  intros Hn Hf Hr r. rewrite kalloc_eq by assumption. cbv zeta. fold r.
  rewrite (truthy_true r Hr).
  eexists. split; [reflexivity|]. cbn [st kmem freelist ram km_lock locked].
  split; [reflexivity|]. split; [|split; [|reflexivity]].
  - intros a Ha. unfold memset.
    destruct (Z.leb_spec r a); [|lia]. destruct (Z.ltb_spec a (r + PGSIZE)); [|lia].
    reflexivity.
  - intros a Ha. apply memset_other. lia.
Qed.

Definition one_frame_kmem : world kalloc_state :=
  mkWorld boot_cpu 1 [] (mkKalloc (mkKmem (mkSpin 0 None) 0x80021000) (fun _ => 0)) [].

Lemma kalloc_poisons_frame_witness :
  exists w', kalloc one_frame_kmem = Ok 0x80021000 w' /\
             ram (st w') 0x80021fff = 5 /\ ram (st w') 0x80022000 = 0 /\
             freelist (kmem (st w')) = 0.
Proof.
  destruct (kalloc_poisons_frame one_frame_kmem ltac:(unfold noff_ok; cbn; lia) eq_refl)
    as (w' & E & Hfl & Hin & Hout & _).
  - cbn. lia.
  - exists w'. split; [exact E|]. split; [|split].
    + apply Hin. cbn. unfold PGSIZE. lia.
    + rewrite Hout by (cbn; unfold PGSIZE; lia). reflexivity.
    + rewrite Hfl. reflexivity.
Defined.

(** X14: [kfree] does not notice a frame that is freed twice. After
    [kfree(p); kfree(p)] the frame is its own successor on the free
    list, so the next two calls of [kalloc] both return [p]; the free
    list is then headed by the poison word 0x0505050505050505 that the
    first [kalloc] wrote into the frame. *)
Theorem kfree_twice_hands_out_twice (end_ PHYSTOP p : Z) (w : world kalloc_state) :
  0 < end_ -> PHYSTOP <= 2 ^ 64 ->
  noff_ok (cpu w) -> locked (km_lock (kmem (st w))) = 0 ->
  frame_ok end_ PHYSTOP p ->
  exists w',
    (kfree end_ PHYSTOP p ;; kfree end_ PHYSTOP p ;;
     a <- kalloc ;; b <- kalloc ;; ret (a, b)) w = Ok (p, p) w' /\
    freelist (kmem (st w')) = 0x0505050505050505.
Proof.
  intros Hpos Hu Hn Hf Hp.
  assert (Hp0 : p <> 0) by (destruct Hp as (_ & Hlo & _); lia).
  assert (Hpu : 0 <= p < 2 ^ 64) by (destruct Hp as (_ & Hlo & Hhi); lia).
  unfold bind at 1. rewrite kfree_eq by assumption.
  unfold bind at 1. rewrite kfree_eq by (try assumption; reflexivity).
  cbn [st kmem freelist ram cpu mypid ptable env].
  unfold bind at 1. rewrite kalloc_eq by (try apply settle_noff_ok; try assumption; reflexivity).
  cbv zeta. cbn [st kmem freelist ram cpu mypid ptable env].
  rewrite (truthy_true _ Hp0).
  rewrite load_store_le. change (256 ^ Z.of_nat 8) with (2 ^ 64).
  rewrite (Z.mod_small p) by exact Hpu.
  unfold bind at 1. rewrite kalloc_eq by (try apply settle_noff_ok; try assumption; reflexivity).
  cbv zeta. cbn [st kmem freelist ram cpu mypid ptable env].
  rewrite (truthy_true _ Hp0).
  unfold ret. eexists. split; [reflexivity|]. cbn [st kmem freelist].
  rewrite (load_le_ext 8 _ (fun _ => 5) p).
  - cbn. lia.
  - intros x Hx. unfold memset, PGSIZE.
    destruct (Z.leb_spec p x); [|lia]. destruct (Z.ltb_spec x (p + 4096)); [|lia].
    reflexivity.
Qed.

Lemma kfree_twice_hands_out_twice_witness :
  exists w',
    (kfree 0x80020000 0x80022000 0x80021000 ;; kfree 0x80020000 0x80022000 0x80021000 ;;
     a <- kalloc ;; b <- kalloc ;; ret (a, b)) boot_kmem = Ok (0x80021000, 0x80021000) w'.
Proof.
  destruct (kfree_twice_hands_out_twice 0x80020000 0x80022000 0x80021000 boot_kmem)
    as (w' & E & _).
  - lia.
  - lia.
  - unfold noff_ok. cbn. lia.
  - reflexivity.
  - unfold frame_ok. split; [reflexivity|lia].
  - exists w'. exact E.
Defined.

(** ** Further properties of pipes: the ring is a queue *)

(** The number of bytes written and not yet read. *)
Definition ring_len (p : pipe_t) : Z := u32 (nwrite p - nread p).

(** The counters are [uint]s, the buffer has PIPESIZE bytes and holds
    no more than that. *)
Definition ring_ok (p : pipe_t) : Prop :=
  length (pi_data p) = 512%nat /\ is_u32 (nread p) /\ is_u32 (nwrite p) /\
  ring_len p <= PIPESIZE.

(** The bytes written and not yet read, oldest first. *)
Definition pending (p : pipe_t) : list Z :=
  map (fun j => nth (Z.to_nat ((nread p + Z.of_nat j) mod PIPESIZE)) (pi_data p) 0)
      (seq 0 (Z.to_nat (ring_len p))).

(** [pi->data[pi->nwrite++ % PIPESIZE] = ch] and [pi->nread++]. *)
Definition push_byte (ch : Z) (p : pipe_t) : pipe_t :=
  set_nwrite (u32 (nwrite p + 1))
    (set_pi_data (<[Z.to_nat (nwrite p mod PIPESIZE) := ch]> (pi_data p)) p).

Definition pop_byte (p : pipe_t) : pipe_t := set_nread (u32 (nread p + 1)) p.

Lemma push_byte_spec ch p :
  ring_ok p -> ring_len p < PIPESIZE ->
  ring_ok (push_byte ch p) /\
  ring_len (push_byte ch p) = ring_len p + 1 /\
  pending (push_byte ch p) = pending p ++ [ch] /\
  nread (push_byte ch p) = nread p.
Proof.
  intros (Hlen & Hr & Hw & Hle) Hroom.
  unfold ring_len, is_u32, u32, PIPESIZE in *.
  assert (Hl1 : (u32 (nwrite p + 1) - nread p) mod 2 ^ 32 = (nwrite p - nread p) mod 2 ^ 32 + 1).
  { unfold u32. Z.div_mod_to_equations. lia. }
  split; [|split; [|split]].
  - unfold ring_ok, ring_len, is_u32, push_byte, PIPESIZE.
    cbn [set_nwrite set_pi_data pi_data nread nwrite].
    rewrite length_insert. split; [assumption|]. split; [assumption|]. split.
    + apply u32_range.
    + unfold u32 at 1. rewrite Hl1. lia.
  - unfold push_byte. cbn [set_nwrite set_pi_data nread nwrite]. exact Hl1.
  - unfold pending, ring_len, push_byte, PIPESIZE.
    cbn [set_nwrite set_pi_data pi_data nread nwrite].
    unfold u32 at 1. rewrite Hl1.
    set (len := (nwrite p - nread p) mod 2 ^ 32) in *.
    rewrite Z2Nat.inj_add by (try lia; subst len; apply Z.mod_pos_bound; lia).
    change (Z.to_nat 1) with 1%nat. rewrite seq_app, map_app. cbn [seq map Nat.add].
    assert (Hlen0 : 0 <= len) by (subst len; apply Z.mod_pos_bound; lia).
    f_equal.
    + apply map_ext_in. intros j Hj. apply in_seq in Hj.
      apply nth_insert_other. intros E. apply Z2Nat.inj in E;
        try (apply Z.mod_pos_bound; lia).
      subst len. unfold u32 in Hj. Z.div_mod_to_equations. lia.
    + f_equal. rewrite Z2Nat.id by lia.
      replace ((nread p + len) mod 512) with (nwrite p mod 512)
        by (subst len; Z.div_mod_to_equations; lia).
      apply nth_insert_same. rewrite Hlen.
      pose proof (Z.mod_pos_bound (nwrite p) 512 ltac:(lia)). lia.
  - reflexivity.
Qed.

Lemma pop_byte_spec p :
  ring_ok p -> 0 < ring_len p ->
  ring_ok (pop_byte p) /\
  ring_len (pop_byte p) = ring_len p - 1 /\
  pending p = nth (Z.to_nat (nread p mod PIPESIZE)) (pi_data p) 0 :: pending (pop_byte p) /\
  nwrite (pop_byte p) = nwrite p /\ pi_data (pop_byte p) = pi_data p.
Proof.
  intros (Hlen & Hr & Hw & Hle) Hpos.
  unfold ring_len, is_u32, u32, PIPESIZE in *.
  assert (Hl1 : (nwrite p - u32 (nread p + 1)) mod 2 ^ 32 = (nwrite p - nread p) mod 2 ^ 32 - 1).
  { unfold u32. Z.div_mod_to_equations. lia. }
  split; [|split; [|split; [|split; reflexivity]]].
  - unfold ring_ok, ring_len, is_u32, pop_byte, PIPESIZE.
    cbn [set_nread pi_data nread nwrite].
    split; [assumption|]. split; [apply u32_range|]. split; [assumption|].
    unfold u32 at 1. rewrite Hl1. lia.
  - unfold pop_byte. cbn [set_nread nread nwrite]. exact Hl1.
  - unfold pending, ring_len, pop_byte, PIPESIZE.
    cbn [set_nread pi_data nread nwrite].
    change (u32 (nwrite p - u32 (nread p + 1)))
      with ((nwrite p - u32 (nread p + 1)) mod 2 ^ 32).
    change (u32 (nwrite p - nread p)) with ((nwrite p - nread p) mod 2 ^ 32).
    rewrite Hl1.
    set (len := (nwrite p - nread p) mod 2 ^ 32) in *.
    replace (Z.to_nat len) with (Datatypes.S (Z.to_nat (len - 1))) by lia.
    cbn [seq map]. f_equal.
    + rewrite Z.add_0_r. reflexivity.
    + rewrite <- seq_shift, map_map. apply map_ext. intros j. f_equal. f_equal.
      unfold u32. rewrite Nat2Z.inj_succ. Z.div_mod_to_equations. lia.
Qed.

Definition push_bytes (bs : list Z) (p : pipe_t) : pipe_t :=
  fold_left (fun q ch => push_byte ch q) bs p.

Definition pop_bytes (k : nat) (p : pipe_t) : pipe_t := Nat.iter k pop_byte p.

(** User memory after [copyout] of the bytes [bs], one at a time, to
    the addresses from [addr + i] on. *)
Fixpoint store_bytes (addr i : Z) (bs : list Z) (um : Z -> option Z) : Z -> option Z :=
  match bs with
  | [] => um
  | b :: bs' =>
      store_bytes addr (i + 1) bs'
        (fun a => if a =? u64 (addr + i) then Some b else um a)
  end.

Lemma push_bytes_spec bs : forall p,
  ring_ok p -> ring_len p + Z.of_nat (length bs) <= PIPESIZE ->
  ring_ok (push_bytes bs p) /\
  ring_len (push_bytes bs p) = ring_len p + Z.of_nat (length bs) /\
  pending (push_bytes bs p) = pending p ++ bs /\
  nread (push_bytes bs p) = nread p /\
  pi_lock (push_bytes bs p) = pi_lock p /\
  readopen (push_bytes bs p) = readopen p /\
  writeopen (push_bytes bs p) = writeopen p.
Proof.
  induction bs as [|b bs IH]; intros p Hok Hroom.
  - cbn. rewrite app_nil_r, Z.add_0_r. split; [exact Hok|]. repeat split; reflexivity.
  - cbn [length] in Hroom. rewrite Nat2Z.inj_succ in Hroom.
    destruct (push_byte_spec b p Hok) as (Hok1 & Hl1 & Hp1 & Hr1);
      [unfold PIPESIZE in *; lia|].
    destruct (IH (push_byte b p) Hok1) as (Ha & Hb & Hc & Hd & He & Hf & Hg);
      [rewrite Hl1; lia|].
    change (push_bytes (b :: bs) p) with (push_bytes bs (push_byte b p)).
    split; [exact Ha|]. split; [rewrite Hb, Hl1; cbn [length]; lia|].
    split; [rewrite Hc, Hp1, <- app_assoc; reflexivity|].
    split; [rewrite Hd; exact Hr1|].
    split; [rewrite He; reflexivity|].
    split; [rewrite Hf; reflexivity|rewrite Hg; reflexivity].
Qed.

Lemma pop_bytes_spec k : forall p,
  ring_ok p -> Z.of_nat k <= ring_len p ->
  ring_ok (pop_bytes k p) /\
  ring_len (pop_bytes k p) = ring_len p - Z.of_nat k /\
  pending (pop_bytes k p) = drop k (pending p) /\
  nwrite (pop_bytes k p) = nwrite p /\
  pi_lock (pop_bytes k p) = pi_lock p.
Proof.
  induction k as [|k IH]; intros p Hok Hk.
  - cbn. rewrite Z.sub_0_r. split; [exact Hok|]. repeat split; reflexivity.
  - rewrite Nat2Z.inj_succ in Hk.
    destruct (pop_byte_spec p Hok) as (Hok1 & Hl1 & Hp1 & Hw1 & _); [lia|].
    destruct (IH (pop_byte p) Hok1) as (Ha & Hb & Hc & Hd & He); [rewrite Hl1; lia|].
    unfold pop_bytes in *. rewrite Nat.iter_succ_r.
    split; [exact Ha|]. split; [rewrite Hb, Hl1; lia|].
    split; [rewrite Hc, Hp1; reflexivity|].
    split; [rewrite Hd; exact Hw1|rewrite He; reflexivity].
Qed.

Lemma store_bytes_spec bs : forall addr i um a,
  0 <= addr + i -> addr + i + Z.of_nat (length bs) <= 2 ^ 64 ->
  store_bytes addr i bs um a =
    if (addr + i <=? a) && (a <? addr + i + Z.of_nat (length bs))
    then Some (nth (Z.to_nat (a - (addr + i))) bs 0) else um a.
Proof.
  induction bs as [|b bs IH]; intros addr i um a H0 H1.
  - cbn [store_bytes length]. destruct (addr + i <=? a) eqn:E1; [|reflexivity].
    destruct (a <? addr + i + Z.of_nat 0) eqn:E2; [|reflexivity].
    apply Z.leb_le in E1. apply Z.ltb_lt in E2. lia.
  - cbn [store_bytes]. cbn [length] in *. rewrite Nat2Z.inj_succ in *.
    rewrite IH by lia.
    replace (addr + (i + 1)) with (addr + i + 1) by lia.
    assert (Hu : u64 (addr + i) = addr + i) by (apply u64_id; unfold is_u64; lia).
    rewrite Hu.
    destruct (Z.leb_spec (addr + i + 1) a); destruct (Z.leb_spec (addr + i) a);
      destruct (Z.ltb_spec a (addr + i + 1 + Z.of_nat (length bs)));
      destruct (Z.ltb_spec a (addr + i + Z.succ (Z.of_nat (length bs))));
      destruct (Z.eqb_spec a (addr + i)); cbn [andb];
      try lia; try reflexivity;
      try (replace (Z.to_nat (a - (addr + i)))
             with (Datatypes.S (Z.to_nat (a - (addr + i + 1)))) by lia; reflexivity);
      try (replace (Z.to_nat (a - (addr + i))) with 0%nat by lia; reflexivity).
Qed.

Section PipeQueue.
Variable pipe_addr : Z.

(** The loop of [pipewrite] with room for all the bytes left to write. *)
Lemma pipewrite_loop_room addr n c0 pid pt e bs : forall fuel i s,
  noff_ok c0 ->
  pi_lock (pipe s) = mkSpin 1 (Some (cpu_id c0)) ->
  readopen (pipe s) <> 0 -> pkilled s = 0 ->
  ring_ok (pipe s) ->
  ring_len (pipe s) + Z.of_nat (length bs) <= PIPESIZE ->
  0 <= i -> n = i + Z.of_nat (length bs) -> n < 2 ^ 31 ->
  (forall j, (j < length bs)%nat ->
     umem s (u64 (addr + (i + Z.of_nat j))) = Some (nth j bs 0)) ->
  (length bs <= fuel)%nat ->
  pipewrite_loop pipe_addr fuel addr n i (mkWorld (pushed c0) pid pt s e) =
    Ok n (mkWorld (settle c0) pid (map (wake (chan_nread pipe_addr)) pt)
            (pipe_unlocked pipe_addr (set_pipe (push_bytes bs (pipe s)) s)) e).
Proof.
  induction bs as [|b bs IH]; intros fuel i s Hn Hl Hro Hk Hok Hroom Hi Hni Hn31 Hum Hf.
  - cbn [length] in Hni. assert (i = n) by lia. subst i.
    assert (E : (n <? n) = false) by (apply Z.ltb_ge; lia).
    destruct fuel; cbn [pipewrite_loop]; rewrite E;
      unfold bind at 1, wakeup at 1, modify at 1; cbn [set_ptable cpu mypid ptable st env];
      unfold bind at 1;
      (rewrite release_pushed; [|apply pipe_lock_lawful|assumption|exact Hl]);
      cbn [push_bytes fold_left]; destruct s as [p k u]; reflexivity.
  - cbn [length] in *. rewrite Nat2Z.inj_succ in *.
    destruct fuel as [|fuel]; [lia|].
    assert (E : (i <? n) = true) by (apply Z.ltb_lt; lia).
    cbn [pipewrite_loop]. rewrite E.
    unfold bind at 1, the_pipe at 1, gets at 1.
    unfold bind at 1, killed at 1, gets at 1. cbn [st].
    assert (Hc : ((readopen (pipe s) =? 0) || truthy (pkilled s)) = false).
    { rewrite Hk. apply Z.eqb_neq in Hro. rewrite Hro. reflexivity. }
    rewrite Hc.
    assert (Hfull : (nwrite (pipe s) =? u32 (nread (pipe s) + PIPESIZE)) = false).
    { apply Z.eqb_neq. destruct Hok as (_ & Hr & Hw & _).
      unfold ring_len, u32, is_u32, PIPESIZE in *. Z.div_mod_to_equations. lia. }
    rewrite Hfull.
    unfold bind at 1, copyin1 at 1, gets at 1. cbn [st].
    pose proof (Hum 0%nat (ltac:(lia))) as Hu0. cbn [nth Z.of_nat] in Hu0.
    rewrite Z.add_0_r in Hu0. rewrite Hu0.
    unfold bind at 1, wr_pipe at 1, modify at 1. cbn [st set_st cpu mypid ptable env].
    change (set_nwrite (u32 (nwrite (pipe s) + 1))
              (set_pi_data (<[Z.to_nat (nwrite (pipe s) mod PIPESIZE) := b]> (pi_data (pipe s)))
                 (pipe s))) with (push_byte b (pipe s)).
    destruct (push_byte_spec b (pipe s) Hok) as (Hok1 & Hl1 & Hp1 & Hr1);
      [unfold PIPESIZE in *; lia|].
    rewrite (s32_id (i + 1)) by (unfold is_s32; lia).
    assert (Hroom1 : ring_len (push_byte b (pipe s)) + Z.of_nat (length bs) <= PIPESIZE)
      by (rewrite Hl1; lia).
    assert (Hum1 : forall j, (j < length bs)%nat ->
              umem s (u64 (addr + (i + 1 + Z.of_nat j))) = Some (nth j bs 0)).
    { intros j Hj.
      replace (i + 1 + Z.of_nat j) with (i + Z.of_nat (Datatypes.S j)) by lia.
      rewrite Hum by lia. reflexivity. }
    rewrite (IH fuel (i + 1) (set_pipe (push_byte b (pipe s)) s) Hn Hl Hro Hk Hok1 Hroom1
               ltac:(lia) ltac:(lia) Hn31 Hum1 ltac:(lia)).
    reflexivity.
Qed.

(** The copy loop of [piperead] when it takes [k] bytes: all that was
    asked for, or all there are. *)
Lemma piperead_copy_takes addr n c pid pt e k : forall fuel i s,
  ring_ok (pipe s) ->
  Z.of_nat k <= ring_len (pipe s) -> 0 <= i -> i + Z.of_nat k <= n -> n < 2 ^ 31 ->
  i + Z.of_nat k = n \/ Z.of_nat k = ring_len (pipe s) ->
  (forall j, (j < k)%nat -> umem s (u64 (addr + (i + Z.of_nat j))) <> None) ->
  (k <= fuel)%nat ->
  piperead_copy fuel addr n i (mkWorld c pid pt s e) =
    Ok (i + Z.of_nat k)
       (mkWorld c pid pt
          (mkPipeSt (pop_bytes k (pipe s)) (pkilled s)
             (store_bytes addr i (take k (pending (pipe s))) (umem s))) e).
Proof.
  induction k as [|k IH]; intros fuel i s Hok Hk Hi Hin Hn31 Hstop Hum Hf.
  - cbn [Z.of_nat] in *. rewrite Z.add_0_r in *.
    cbn [pop_bytes Nat.iter take store_bytes].
    assert (Hfin : Ok i (mkWorld c pid pt s e) =
                   Ok i (mkWorld c pid pt (mkPipeSt (pipe s) (pkilled s) (umem s)) e))
      by (destruct s; reflexivity).
    destruct (i <? n) eqn:E.
    + apply Z.ltb_lt in E. destruct Hstop as [Hs|Hs]; [lia|].
      assert (He : (nread (pipe s) =? nwrite (pipe s)) = true).
      { apply Z.eqb_eq. destruct Hok as (_ & Hr & Hw & _).
        unfold ring_len, u32, is_u32 in *. Z.div_mod_to_equations. lia. }
      apply Z.ltb_lt in E.
      destruct fuel; cbn [piperead_copy]; rewrite E;
        unfold bind at 1, the_pipe at 1, gets at 1; cbn [st]; rewrite He; exact Hfin.
    + destruct fuel; cbn [piperead_copy]; rewrite E; exact Hfin.
  - rewrite Nat2Z.inj_succ in *.
    destruct fuel as [|fuel]; [lia|].
    assert (E : (i <? n) = true) by (apply Z.ltb_lt; lia).
    cbn [piperead_copy]. rewrite E.
    unfold bind at 1, the_pipe at 1, gets at 1. cbn [st].
    assert (He : (nread (pipe s) =? nwrite (pipe s)) = false).
    { apply Z.eqb_neq. intros Heq. unfold ring_len in Hk. rewrite Heq, Z.sub_diag in Hk.
      change (u32 0) with 0 in Hk. lia. }
    rewrite He.
    unfold bind at 1, wr_pipe at 1, modify at 1. cbn [st set_st cpu mypid ptable env].
    change (set_nread (u32 (nread (pipe s) + 1)) (pipe s)) with (pop_byte (pipe s)).
    unfold bind at 1, copyout1 at 1. cbn [st set_pipe umem pipe pkilled].
    pose proof (Hum 0%nat (ltac:(lia))) as Hu0. cbn [Z.of_nat] in Hu0.
    rewrite Z.add_0_r in Hu0.
    destruct (umem s (u64 (addr + i))) as [old|] eqn:Eu; [|congruence].
    cbn [set_st].
    change (0 =? -1) with false. cbn iota.
    rewrite (s32_id (i + 1)) by (unfold is_s32; lia).
    destruct (pop_byte_spec (pipe s) Hok) as (Hok1 & Hl1 & Hp1 & Hw1 & Hd1); [lia|].
    set (ch := nth (Z.to_nat (nread (pipe s) mod PIPESIZE)) (pi_data (pipe s)) 0) in *.
    cbn [cpu mypid ptable env].
    assert (Hum1 : forall j, (j < k)%nat ->
              (if u64 (addr + (i + 1 + Z.of_nat j)) =? u64 (addr + i)
               then Some ch else umem s (u64 (addr + (i + 1 + Z.of_nat j)))) <> None).
    { intros j Hj.
      replace (i + 1 + Z.of_nat j) with (i + Z.of_nat (Datatypes.S j)) by lia.
      destruct (u64 (addr + (i + Z.of_nat (Datatypes.S j))) =? u64 (addr + i));
        [discriminate|]. apply Hum. lia. }
    assert (Hstop1 : i + 1 + Z.of_nat k = n \/ Z.of_nat k = ring_len (pop_byte (pipe s)))
      by (rewrite Hl1; lia).
    rewrite (IH fuel (i + 1)
               (mkPipeSt (pop_byte (pipe s)) (pkilled s)
                  (fun a => if a =? u64 (addr + i) then Some ch else umem s a))
               Hok1 ltac:(cbn [pipe]; rewrite Hl1; lia) ltac:(lia) ltac:(lia) Hn31
               Hstop1 Hum1 ltac:(lia)).
    cbn [pipe pkilled umem].
    f_equal; [lia|]. f_equal. unfold pop_bytes. rewrite Nat.iter_succ_r.
    rewrite Hp1. reflexivity.
Qed.
End PipeQueue.

Lemma pending_length p : length (pending p) = Z.to_nat (ring_len p).
Proof. unfold pending. rewrite length_map, length_seq. reflexivity. Qed.

Section PipeRuns.
Variable pipe_addr : Z.

Definition pipe_held (w : world pipe_state) : pipe_state :=
  update (pipe_lock pipe_addr) (mkSpin 1 (Some (cpu_id (cpu w)))) (st w).

Lemma pipewrite_room_run addr bs (w : world pipe_state) :
  noff_ok (cpu w) ->
  locked (pi_lock (pipe (st w))) = 0 ->
  readopen (pipe (st w)) <> 0 -> pkilled (st w) = 0 ->
  ring_ok (pipe (st w)) ->
  ring_len (pipe (st w)) + Z.of_nat (length bs) <= PIPESIZE ->
  (forall j, (j < length bs)%nat ->
     umem (st w) (u64 (addr + Z.of_nat j)) = Some (nth j bs 0)) ->
  pipewrite pipe_addr addr (Z.of_nat (length bs)) w =
    Ok (Z.of_nat (length bs))
       (mkWorld (settle (cpu w)) (mypid w) (map (wake (chan_nread pipe_addr)) (ptable w))
          (pipe_unlocked pipe_addr (set_pipe (push_bytes bs (pipe (pipe_held w))) (pipe_held w)))
          (env w)).
Proof.
  intros Hn Hf Hro Hk Hok Hroom Hum. unfold pipewrite.
  unfold bind at 1. rewrite acquire_free by (try apply pipe_lock_lawful; assumption).
  unfold bind at 1, gets at 1. cbn [env].
  fold (pipe_held w).
  assert (Hlen : 0 <= ring_len (pipe (st w))).
  { unfold ring_len. apply u32_range. }
  apply pipewrite_loop_room; try assumption; try reflexivity;
    try (unfold PIPESIZE in *; lia).
Qed.

Lemma piperead_wait_ready fuel (w : world pipe_state) :
  0 < ring_len (pipe (st w)) \/ writeopen (pipe (st w)) = 0 ->
  piperead_wait pipe_addr fuel
    (mkWorld (pushed (cpu w)) (mypid w) (ptable w) (pipe_held w) (env w)) =
  Ok false (mkWorld (pushed (cpu w)) (mypid w) (ptable w) (pipe_held w) (env w)).
Proof.
  intros Hne.
  assert (Hc : ((nread (pipe (st w)) =? nwrite (pipe (st w))) &&
                truthy (writeopen (pipe (st w)))) = false).
  { destruct Hne as [Hpos| ->]; [|apply andb_false_r].
    replace (nread (pipe (st w)) =? nwrite (pipe (st w))) with false; [reflexivity|].
    symmetry. apply Z.eqb_neq. intros Heq. unfold ring_len in Hpos.
    rewrite Heq, Z.sub_diag in Hpos. change (u32 0) with 0 in Hpos. lia. }
  destruct fuel; cbn [piperead_wait];
    unfold bind at 1, the_pipe at 1, gets at 1;
    cbn [st pipe_held update pipe_lock set_pipe pipe nread nwrite writeopen];
    rewrite Hc; reflexivity.
Qed.

(** A read whose first destination byte is not mapped. *)
Lemma piperead_fault_run addr n (w : world pipe_state) :
  noff_ok (cpu w) ->
  locked (pi_lock (pipe (st w))) = 0 ->
  0 < ring_len (pipe (st w)) -> 0 < n ->
  umem (st w) (u64 addr) = None ->
  piperead pipe_addr addr n w =
    Ok 0 (mkWorld (settle (cpu w)) (mypid w) (map (wake (chan_nwrite pipe_addr)) (ptable w))
            (pipe_unlocked pipe_addr (set_pipe (pop_byte (pipe (pipe_held w))) (pipe_held w)))
            (env w)).
Proof.
  intros Hn Hf Hpos Hn0 Hum. unfold piperead.
  unfold bind at 1. rewrite acquire_free by (try apply pipe_lock_lawful; assumption).
  unfold bind at 1, gets at 1. cbn [env].
  fold (pipe_held w).
  unfold bind at 1. rewrite piperead_wait_ready by (left; assumption). cbn iota.
  unfold bind at 1.
  assert (He : (nread (pipe (st w)) =? nwrite (pipe (st w))) = false).
  { apply Z.eqb_neq. intros Heq. unfold ring_len in Hpos.
    rewrite Heq, Z.sub_diag in Hpos. change (u32 0) with 0 in Hpos. lia. }
  assert (E : (0 <? n) = true) by (apply Z.ltb_lt; lia).
  assert (Hcopy : forall fuel,
    piperead_copy fuel addr n 0
      (mkWorld (pushed (cpu w)) (mypid w) (ptable w) (pipe_held w) (env w)) =
    Ok 0 (mkWorld (pushed (cpu w)) (mypid w) (ptable w)
            (set_pipe (pop_byte (pipe (pipe_held w))) (pipe_held w)) (env w))).
  { intros fuel.
    destruct fuel; cbn [piperead_copy]; rewrite E;
      unfold bind at 1, the_pipe at 1, gets at 1;
      cbn [st pipe_held update pipe_lock set_pipe pipe nread nwrite];
      rewrite He;
      unfold bind at 1, wr_pipe at 1, modify at 1;
      cbn [st set_st cpu mypid ptable env];
      unfold bind at 1, copyout1 at 1;
      cbn [st set_pipe umem pipe pkilled]; rewrite Z.add_0_r, Hum; reflexivity. }
  rewrite Hcopy.
  unfold bind at 1, wakeup at 1, modify at 1. cbn [set_ptable cpu mypid ptable st env].
  unfold bind at 1.
  rewrite release_pushed; [reflexivity|apply pipe_lock_lawful|assumption|reflexivity].
Qed.

Lemma piperead_run addr n (w : world pipe_state) :
  noff_ok (cpu w) ->
  locked (pi_lock (pipe (st w))) = 0 ->
  ring_ok (pipe (st w)) ->
  0 < ring_len (pipe (st w)) \/ writeopen (pipe (st w)) = 0 ->
  0 <= n < 2 ^ 31 -> 0 <= addr -> addr + n <= 2 ^ 64 ->
  (forall a, addr <= a < addr + Z.min n (ring_len (pipe (st w))) -> umem (st w) a <> None) ->
  let k := Z.to_nat (Z.min n (ring_len (pipe (st w)))) in
  piperead pipe_addr addr n w =
    Ok (Z.min n (ring_len (pipe (st w))))
       (mkWorld (settle (cpu w)) (mypid w) (map (wake (chan_nwrite pipe_addr)) (ptable w))
          (pipe_unlocked pipe_addr
             (mkPipeSt (pop_bytes k (pipe (pipe_held w))) (pkilled (st w))
                (store_bytes addr 0 (take k (pending (pipe (st w)))) (umem (st w)))))
          (env w)).
Proof.
  intros Hn Hf Hok Hne Hn31 Ha0 Ha1 Hum k. unfold piperead.
  unfold bind at 1. rewrite acquire_free by (try apply pipe_lock_lawful; assumption).
  unfold bind at 1, gets at 1. cbn [env].
  fold (pipe_held w).
  assert (Hlen : 0 <= ring_len (pipe (st w))).
  { unfold ring_len. apply u32_range. }
  unfold bind at 1. rewrite piperead_wait_ready by assumption. cbn iota.
  unfold bind at 1.
  assert (Hk : Z.of_nat k = Z.min n (ring_len (pipe (st w)))) by (subst k; lia).
  rewrite (piperead_copy_takes addr n (pushed (cpu w)) (mypid w) (ptable w) (env w) k
             (Z.to_nat n) 0 (pipe_held w)).
  - destruct (pop_bytes_spec k (pipe (pipe_held w))) as (_ & _ & _ & _ & Hlk).
    + exact Hok.
    + change (ring_len (pipe (pipe_held w))) with (ring_len (pipe (st w))). lia.
    + unfold bind at 1, wakeup at 1, modify at 1. cbn [set_ptable cpu mypid ptable st env].
      unfold bind at 1.
      rewrite release_pushed; [|apply pipe_lock_lawful|assumption|].
      * unfold ret. rewrite Z.add_0_l, Hk. reflexivity.
      * cbn [view pipe_lock pipe]. rewrite Hlk. reflexivity.
  - exact Hok.
  - change (ring_len (pipe (pipe_held w))) with (ring_len (pipe (st w))). lia.
  - lia.
  - lia.
  - lia.
  - change (ring_len (pipe (pipe_held w))) with (ring_len (pipe (st w))). lia.
  - intros j Hj. cbn [pipe_held update pipe_lock set_pipe umem].
    rewrite u64_id by (unfold is_u64; lia). apply Hum. lia.
  - lia.
Qed.
End PipeRuns.

(** X15 (pipe.c, pipewrite): when the pipe has a reader, the caller
    is not killed and there is room for all the bytes, [pipewrite]
    returns their number without sleeping, and the bytes are queued
    behind what was already in the pipe, in order; the read position and
    the caller's memory are untouched and the lock is free again. *)
Theorem pipewrite_appends pipe_addr addr bs (w : world pipe_state) :
  noff_ok (cpu w) ->
  locked (pi_lock (pipe (st w))) = 0 ->
  readopen (pipe (st w)) <> 0 -> pkilled (st w) = 0 ->
  ring_ok (pipe (st w)) ->
  ring_len (pipe (st w)) + Z.of_nat (length bs) <= PIPESIZE ->
  (forall j, (j < length bs)%nat ->
     umem (st w) (u64 (addr + Z.of_nat j)) = Some (nth j bs 0)) ->
  exists w',
    pipewrite pipe_addr addr (Z.of_nat (length bs)) w = Ok (Z.of_nat (length bs)) w' /\
    pending (pipe (st w')) = pending (pipe (st w)) ++ bs /\
    ring_ok (pipe (st w')) /\
    nread (pipe (st w')) = nread (pipe (st w)) /\
    pi_lock (pipe (st w')) = mkSpin 0 None /\
    umem (st w') = umem (st w) /\
    cpu w' = settle (cpu w).
Proof.
  intros Hn Hf Hro Hk Hok Hroom Hum.
  eexists. split; [apply pipewrite_room_run; assumption|].
  destruct (push_bytes_spec bs (pipe (pipe_held pipe_addr w)) Hok Hroom)
    as (Ha & Hb & Hc & Hd & _).
  cbn [st cpu].
  split; [exact Hc|]. split; [exact Ha|]. split; [exact Hd|].
  repeat split; reflexivity.
Qed.

Lemma pending_empty p : ring_len p = 0 -> pending p = [].
Proof. intros H. unfold pending. rewrite H. reflexivity. Qed.

Lemma store_take_spec addr k l um :
  0 <= addr -> addr + Z.of_nat k <= 2 ^ 64 -> (k <= length l)%nat ->
  (forall j, (j < k)%nat ->
     store_bytes addr 0 (take k l) um (addr + Z.of_nat j) = Some (nth j l 0)) /\
  (forall a, a < addr \/ addr + Z.of_nat k <= a ->
     store_bytes addr 0 (take k l) um a = um a).
Proof.
  intros H0 H1 Hk.
  assert (Hlen : length (take k l) = k) by (rewrite length_take; lia).
  split.
  - intros j Hj. rewrite store_bytes_spec by (rewrite ?Hlen; lia).
    rewrite Hlen, Z.add_0_r.
    destruct (Z.leb_spec addr (addr + Z.of_nat j)); [|lia].
    destruct (Z.ltb_spec (addr + Z.of_nat j) (addr + Z.of_nat k)); [|lia].
    cbn [andb]. f_equal.
    replace (Z.to_nat (addr + Z.of_nat j - addr)) with j by lia.
    rewrite !nth_lookup, lookup_take_lt by assumption. reflexivity.
  - intros a Ha. rewrite store_bytes_spec by (rewrite ?Hlen; lia).
    rewrite Hlen, Z.add_0_r.
    destruct (Z.leb_spec addr a); destruct (Z.ltb_spec a (addr + Z.of_nat k));
      cbn [andb]; try reflexivity. lia.
Qed.

(** X16 (pipe.c, piperead): when the pipe holds data, or its write
    end is closed, [piperead] returns without sleeping the smaller of
    [n] and the number of bytes in the pipe; that many bytes, the oldest
    first, are copied to the destination, the rest of the caller's memory
    is unchanged, and the bytes left in the pipe keep their order. *)
Theorem piperead_takes_front pipe_addr addr n (w : world pipe_state) :
  noff_ok (cpu w) ->
  locked (pi_lock (pipe (st w))) = 0 ->
  ring_ok (pipe (st w)) ->
  0 < ring_len (pipe (st w)) \/ writeopen (pipe (st w)) = 0 ->
  0 <= n < 2 ^ 31 -> 0 <= addr -> addr + n <= 2 ^ 64 ->
  (forall a, addr <= a < addr + Z.min n (ring_len (pipe (st w))) -> umem (st w) a <> None) ->
  exists w',
    piperead pipe_addr addr n w = Ok (Z.min n (ring_len (pipe (st w)))) w' /\
    pending (pipe (st w')) =
      drop (Z.to_nat (Z.min n (ring_len (pipe (st w))))) (pending (pipe (st w))) /\
    (forall j, Z.of_nat j < Z.min n (ring_len (pipe (st w))) ->
       umem (st w') (addr + Z.of_nat j) = Some (nth j (pending (pipe (st w))) 0)) /\
    (forall a, a < addr \/ addr + Z.min n (ring_len (pipe (st w))) <= a ->
       umem (st w') a = umem (st w) a) /\
    ring_ok (pipe (st w')) /\
    nwrite (pipe (st w')) = nwrite (pipe (st w)) /\
    pi_lock (pipe (st w')) = mkSpin 0 None /\
    cpu w' = settle (cpu w).
Proof.
  intros Hn Hf Hok Hne Hn31 Ha0 Ha1 Hum.
  assert (Hlen : 0 <= ring_len (pipe (st w))) by (unfold ring_len; apply u32_range).
  set (k := Z.to_nat (Z.min n (ring_len (pipe (st w))))).
  eexists. split; [apply piperead_run; assumption|].
  fold k. cbn [st cpu].
  destruct (pop_bytes_spec k (pipe (pipe_held pipe_addr w)) Hok)
    as (Ha & Hb & Hc & Hd & He).
  { change (ring_len (pipe (pipe_held pipe_addr w))) with (ring_len (pipe (st w))). lia. }
  destruct (store_take_spec addr k (pending (pipe (st w))) (umem (st w)) Ha0)
    as (Hs1 & Hs2); [lia|rewrite pending_length; lia|].
  split; [exact Hc|].
  split; [intros j Hj; apply Hs1; lia|].
  split; [intros a Hout; apply Hs2; lia|].
  split; [exact Ha|]. split; [exact Hd|]. split; reflexivity.
Qed.

(** X17 (pipe.c, piperead): [nread] is advanced before [copyout] is
    tried, so a read whose first destination byte is not mapped
    returns 0 and the oldest byte of the pipe is gone: it reaches no
    reader. *)
Theorem piperead_fault_drops_byte pipe_addr addr n (w : world pipe_state) :
  noff_ok (cpu w) ->
  locked (pi_lock (pipe (st w))) = 0 ->
  ring_ok (pipe (st w)) ->
  0 < ring_len (pipe (st w)) -> 0 < n ->
  umem (st w) (u64 addr) = None ->
  exists w',
    piperead pipe_addr addr n w = Ok 0 w' /\
    pending (pipe (st w)) =
      nth (Z.to_nat (nread (pipe (st w)) mod PIPESIZE)) (pi_data (pipe (st w))) 0
        :: pending (pipe (st w')) /\
    umem (st w') = umem (st w).
Proof.
  intros Hn Hf Hok Hpos Hn0 Hum.
  eexists. split; [apply piperead_fault_run; assumption|].
  destruct (pop_byte_spec (pipe (st w)) Hok Hpos) as (_ & _ & Hp & _).
  cbn [st]. split; [exact Hp|reflexivity].
Qed.

(** X18 (pipe.c, pipewrite and piperead): bytes written to a pipe
    with room for them come out of a following read that asks for at
    least all the pipe holds: the read returns what was in the pipe
    before followed by the bytes written, in order, and leaves the pipe
    empty. *)
Theorem pipe_write_then_read pipe_addr src dst bs n (w : world pipe_state) :
  noff_ok (cpu w) ->
  locked (pi_lock (pipe (st w))) = 0 ->
  readopen (pipe (st w)) <> 0 -> pkilled (st w) = 0 ->
  ring_ok (pipe (st w)) ->
  bs <> [] ->
  ring_len (pipe (st w)) + Z.of_nat (length bs) <= PIPESIZE ->
  ring_len (pipe (st w)) + Z.of_nat (length bs) <= n < 2 ^ 31 ->
  (forall j, (j < length bs)%nat ->
     umem (st w) (u64 (src + Z.of_nat j)) = Some (nth j bs 0)) ->
  0 <= dst -> dst + n <= 2 ^ 64 ->
  (forall a, dst <= a < dst + n -> umem (st w) a <> None) ->
  exists w1 w2,
    pipewrite pipe_addr src (Z.of_nat (length bs)) w = Ok (Z.of_nat (length bs)) w1 /\
    piperead pipe_addr dst n w1 =
      Ok (ring_len (pipe (st w)) + Z.of_nat (length bs)) w2 /\
    (forall j, (j < length (pending (pipe (st w)) ++ bs))%nat ->
       umem (st w2) (dst + Z.of_nat j) = Some (nth j (pending (pipe (st w)) ++ bs) 0)) /\
    pending (pipe (st w2)) = [].
Proof.
  intros Hn Hf Hro Hk Hok Hbs Hroom Hn31 Hsrc Hd0 Hd1 Hdst.
  assert (Hlen : 0 <= ring_len (pipe (st w))) by (unfold ring_len; apply u32_range).
  assert (Hpos : (0 < length bs)%nat) by (destruct bs; [congruence|cbn; lia]).
  destruct (push_bytes_spec bs (pipe (pipe_held pipe_addr w)) Hok Hroom)
    as (Ha & Hb & Hc & Hd & _).
  change (ring_len (pipe (pipe_held pipe_addr w))) with (ring_len (pipe (st w))) in Hb.
  change (pending (pipe (pipe_held pipe_addr w))) with (pending (pipe (st w))) in Hc.
  set (w1 := mkWorld (settle (cpu w)) (mypid w) (map (wake (chan_nread pipe_addr)) (ptable w))
               (pipe_unlocked pipe_addr
                  (set_pipe (push_bytes bs (pipe (pipe_held pipe_addr w)))
                     (pipe_held pipe_addr w))) (env w)).
  assert (Hl1 : ring_len (pipe (st w1)) = ring_len (pipe (st w)) + Z.of_nat (length bs))
    by exact Hb.
  assert (Hp1 : pending (pipe (st w1)) = pending (pipe (st w)) ++ bs) by exact Hc.
  assert (Hmin : Z.min n (ring_len (pipe (st w1))) =
                 ring_len (pipe (st w)) + Z.of_nat (length bs)) by lia.
  pose proof (piperead_run pipe_addr dst n w1) as Hrun.
  cbv zeta in Hrun. rewrite Hmin in Hrun.
  exists w1. eexists.
  split; [apply pipewrite_room_run; assumption|].
  split.
  - apply Hrun; [apply settle_noff_ok, Hn|reflexivity|exact Ha|left; lia|lia
                |exact Hd0|exact Hd1|intros a Hin; apply Hdst; lia].
  - cbn [st].
    set (k := Z.to_nat (ring_len (pipe (st w)) + Z.of_nat (length bs))).
    assert (Hkl : length (pending (pipe (st w)) ++ bs) = k).
    { rewrite length_app, pending_length. lia. }
    destruct (store_take_spec dst k (pending (pipe (st w1))) (umem (st w1)) Hd0)
      as (Hs1 & _); [lia|rewrite Hp1, Hkl; lia|].
    split.
    + intros j Hj. rewrite Hkl in Hj. rewrite <- Hp1. apply Hs1, Hj.
    + destruct (pop_bytes_spec k (pipe (pipe_held pipe_addr w1)) Ha) as (_ & Hlk & _).
      { change (ring_len (pipe (pipe_held pipe_addr w1))) with (ring_len (pipe (st w1))). lia. }
      apply pending_empty.
      change (ring_len (pipe (pipe_held pipe_addr w1))) with (ring_len (pipe (st w1))) in Hlk.
      etransitivity; [exact Hlk|]. lia.
Qed.

(** A pipe that holds the bytes 1 and 2, with a caller whose first 16
    bytes of memory are mapped. *)
Definition small_pipe : world pipe_state :=
  mkWorld boot_cpu 1 []
    (mkPipeSt (mkPipe (mkSpin 0 None) (<[4%nat := 2]> (<[3%nat := 1]> (repeat 0 512))) 3 5 1 1) 0
       (fun a => if (0 <=? a) && (a <? 16) then Some (a + 65) else None)) [].

Lemma small_pipe_ok : ring_ok (pipe (st small_pipe)).
Proof.
  unfold ring_ok, is_u32. cbn [small_pipe st pipe pi_data nread nwrite].
  split; [reflexivity|]. split; [lia|]. split; [lia|]. vm_compute. discriminate.
Qed.

Lemma pipewrite_appends_witness :
  exists w', pipewrite 4096 0 3 small_pipe = Ok 3 w' /\
             pending (pipe (st w')) = [1; 2; 65; 66; 67].
Proof.
  destruct (pipewrite_appends 4096 0 [65; 66; 67] small_pipe) as (w' & H1 & H2 & _).
  - unfold noff_ok. cbn. lia.
  - reflexivity.
  - cbn. lia.
  - reflexivity.
  - exact small_pipe_ok.
  - vm_compute. discriminate.
  - intros j Hj. destruct j as [|[|[|j]]]; [reflexivity..|cbn in Hj; lia].
  - exists w'. split; [exact H1|exact H2].
Defined.

Lemma piperead_takes_front_witness :
  exists w', piperead 4096 8 1 small_pipe = Ok 1 w' /\
             pending (pipe (st w')) = [2] /\ umem (st w') 8 = Some 1.
Proof.
  destruct (piperead_takes_front 4096 8 1 small_pipe) as (w' & H1 & H2 & H3 & _).
  - unfold noff_ok. cbn. lia.
  - reflexivity.
  - exact small_pipe_ok.
  - left. vm_compute. reflexivity.
  - lia.
  - lia.
  - lia.
  - intros a Ha. change (Z.min 1 (ring_len (pipe (st small_pipe)))) with 1 in Ha.
    assert (a = 8) by lia. subst a. discriminate.
  - exists w'. split; [exact H1|]. split; [exact H2|]. apply (H3 0%nat). vm_compute. reflexivity.
Defined.

Lemma piperead_fault_drops_byte_witness :
  exists w', piperead 4096 100 1 small_pipe = Ok 0 w' /\
             [1; 2] = 1 :: pending (pipe (st w')).
Proof.
  destruct (piperead_fault_drops_byte 4096 100 1 small_pipe) as (w' & H1 & H2 & _).
  - unfold noff_ok. cbn. lia.
  - reflexivity.
  - exact small_pipe_ok.
  - vm_compute. reflexivity.
  - lia.
  - reflexivity.
  - exists w'. split; [exact H1|exact H2].
Defined.

Lemma pipe_write_then_read_witness :
  exists w1 w2, pipewrite 4096 0 3 small_pipe = Ok 3 w1 /\
                piperead 4096 8 8 w1 = Ok 5 w2 /\
                umem (st w2) 12 = Some 67 /\
                pending (pipe (st w2)) = [].
Proof.
  destruct (pipe_write_then_read 4096 0 8 [65; 66; 67] 8 small_pipe)
    as (w1 & w2 & H1 & H2 & H3 & H4).
  - unfold noff_ok. cbn. lia.
  - reflexivity.
  - cbn. lia.
  - reflexivity.
  - exact small_pipe_ok.
  - discriminate.
  - vm_compute. discriminate.
  - split; [vm_compute; discriminate|lia].
  - intros j Hj. destruct j as [|[|[|j]]]; [reflexivity..|cbn in Hj; lia].
  - lia.
  - lia.
  - intros a Ha. cbn [small_pipe st umem].
    destruct (Z.leb_spec 0 a); [|lia]. destruct (Z.ltb_spec a 16); [|lia]. discriminate.
  - exists w1, w2. split; [exact H1|]. split; [exact H2|]. split; [|exact H4].
    apply (H3 4%nat). vm_compute. lia.
Defined.

(** ** Closing a pipe *)

(** A callee that returns without sleeping, seen from the caller. *)
Lemma zoom_Ok {S T A} (r : ref S T) (m : K T A) (w : world S) a c pid pt t :
  m (mkWorld (cpu w) (mypid w) (ptable w) (view r (st w))
       (map (fun e t => view r (e (update r t (st w)))) (env w))) =
    Ok a (mkWorld c pid pt t (map (fun e t => view r (e (update r t (st w)))) (env w))) ->
  zoom r m w = Ok a (mkWorld c pid pt (update r t (st w)) (env w)).
Proof.
  intros H. unfold zoom. rewrite H. cbn [cpu mypid ptable st env].
  rewrite length_map, Nat.sub_diag. reflexivity.
Qed.

Lemma zoom_Panic {S T A} (r : ref S T) (m : K T A) (w : world S) msg c pid pt t :
  m (mkWorld (cpu w) (mypid w) (ptable w) (view r (st w))
       (map (fun e t => view r (e (update r t (st w)))) (env w))) =
    Panic msg (mkWorld c pid pt t (map (fun e t => view r (e (update r t (st w)))) (env w))) ->
  zoom r m w = Panic msg (mkWorld c pid pt (update r t (st w)) (env w)).
Proof.
  intros H. unfold zoom. rewrite H. cbn [cpu mypid ptable st env].
  rewrite length_map, Nat.sub_diag. reflexivity.
Qed.

(** A step on a live pipe that returns without sleeping. *)
Lemma on_pipe_Ok {A} (m : K pipe_state A) c pid pt ps km e a c' pid' pt' t :
  m (mkWorld c pid pt ps
       (map (fun f t => view (live_pipe ps)
                          (f (update (live_pipe ps) t (mkPipeSys (Some ps) km)))) e)) =
    Ok a (mkWorld c' pid' pt' t
            (map (fun f t => view (live_pipe ps)
                               (f (update (live_pipe ps) t (mkPipeSys (Some ps) km)))) e)) ->
  on_pipe m (mkWorld c pid pt (mkPipeSys (Some ps) km) e) =
    Ok a (mkWorld c' pid' pt' (mkPipeSys (Some t) km) e).
Proof.
  intros H. unfold on_pipe. cbn [st ps_pipe].
  erewrite zoom_Ok; [|exact H]. reflexivity.
Qed.

Section PipeCloseSpecs.
Variable pipe_addr end_ PHYSTOP : Z.

(** The pipe after [pipeclose]: the flag of the closed end is clear
    and the lock is free. *)
Definition closed_end (writable : Z) (p : pipe_t) : pipe_t :=
  if truthy writable
  then mkPipe (mkSpin 0 None) (pi_data p) (nread p) (nwrite p) (readopen p) 0
  else mkPipe (mkSpin 0 None) (pi_data p) (nread p) (nwrite p) 0 (writeopen p).

(** The channel the other side sleeps on. *)
Definition other_side (writable : Z) : Z :=
  if truthy writable then chan_nread pipe_addr else chan_nwrite pipe_addr.

(** Up to the release of the pipe's lock. *)
Lemma pipeclose_eq writable c pid pt ps km e :
  noff_ok c -> locked (pi_lock (pipe ps)) = 0 ->
  let p' := closed_end writable (pipe ps) in
  let w1 := mkWorld (settle c) pid (map (wake (other_side writable)) pt)
              (mkPipeSys (Some (set_pipe p' ps)) km) e in
  pipeclose pipe_addr end_ PHYSTOP writable (mkWorld c pid pt (mkPipeSys (Some ps) km) e) =
    if (readopen p' =? 0) && (writeopen p' =? 0)
    then free_pipe pipe_addr end_ PHYSTOP w1
    else Ok tt w1.
Proof.
  intros Hn Hf p' w1. unfold pipeclose.
  unfold bind at 1.
  erewrite on_pipe_Ok; [|apply acquire_free; [apply pipe_lock_lawful|exact Hf]].
  unfold bind at 1.
  assert (Hrel : forall ch s',
    pi_lock (pipe s') = mkSpin 1 (Some (cpu_id c)) ->
    on_pipe (release (pipe_lock pipe_addr))
      (mkWorld (pushed c) pid (map (wake ch) pt) (mkPipeSys (Some s') km) e) =
    Ok tt (mkWorld (settle c) pid (map (wake ch) pt)
             (mkPipeSys (Some (pipe_unlocked pipe_addr s')) km) e)).
  { intros ch s' Hl.
    erewrite on_pipe_Ok;
      [|apply release_pushed; [apply pipe_lock_lawful|exact Hn|exact Hl]].
    reflexivity. }
  subst p' w1. unfold closed_end, other_side.
  destruct (truthy writable).
  - unfold bind at 1.
    erewrite on_pipe_Ok; [|reflexivity].
    erewrite on_pipe_Ok; [|reflexivity].
    unfold bind at 1.
    erewrite on_pipe_Ok; [|reflexivity].
    cbn [cpu mypid ptable st env view update ps_pipe ps_kalloc set_ptable
         set_st set_pipe pipe pkilled umem pipe_lock set_writeopen pi_lock pi_data nread
         nwrite readopen writeopen].
    destruct ((readopen (pipe ps) =? 0) && (0 =? 0)).
    + unfold bind at 1. rewrite Hrel by reflexivity. reflexivity.
    + rewrite Hrel by reflexivity. reflexivity.
  - unfold bind at 1.
    erewrite on_pipe_Ok; [|reflexivity].
    erewrite on_pipe_Ok; [|reflexivity].
    unfold bind at 1.
    erewrite on_pipe_Ok; [|reflexivity].
    cbn [cpu mypid ptable st env view update ps_pipe ps_kalloc set_ptable
         set_st set_pipe pipe pkilled umem pipe_lock set_readopen pi_lock pi_data nread
         nwrite readopen writeopen].
    destruct ((0 =? 0) && (writeopen (pipe ps) =? 0)).
    + unfold bind at 1. rewrite Hrel by reflexivity. reflexivity.
    + rewrite Hrel by reflexivity. reflexivity.
Qed.

(** A pipe whose page has been freed: any use of it is undefined. *)
Lemma pipeclose_after_free writable (w : world pipe_sys) :
  ps_pipe (st w) = None ->
  pipeclose pipe_addr end_ PHYSTOP writable w =
    undefined "use of a pipe after its page was freed" w.
Proof.
  intros H. unfold pipeclose, bind at 1, on_pipe at 1. rewrite H. reflexivity.
Qed.
End PipeCloseSpecs.

(** X19 (pipe.c, pipeclose): closing one end of a live pipe clears
    that end's flag, wakes the processes sleeping on the other side's
    channel and frees the pipe's lock. While the other end is open the
    pipe stays, with the bytes in it; the free list and the memory
    outside the pipe's page are not touched. When the other end is
    closed already, the pipe's page is freed: it becomes the head of
    the free list, it is filled with junk, and the pipe is no more; if
    the address of the pipe is not one [kfree] accepts, the call panics
    with the pipe still there. Closing an end of a pipe whose page has
    been freed is undefined. *)
Theorem pipeclose_frees_with_last_end pipe_addr end_ PHYSTOP writable (w : world pipe_sys) :
  noff_ok (cpu w) ->
  locked (km_lock (kmem (ps_kalloc (st w)))) = 0 ->
  (forall ps,
     ps_pipe (st w) = Some ps ->
     locked (pi_lock (pipe ps)) = 0 ->
     let p := pipe ps in
     let other := if truthy writable then readopen p else writeopen p in
     let woken w' := ptable w' = map (wake (other_side pipe_addr writable)) (ptable w) in
     let apart w' :=
       kmem (ps_kalloc (st w')) = kmem (ps_kalloc (st w)) /\
       forall a, a < pipe_addr \/ pipe_addr + PGSIZE <= a ->
         ram (ps_kalloc (st w')) a = ram (ps_kalloc (st w)) a in
     (other <> 0 ->
      exists w', pipeclose pipe_addr end_ PHYSTOP writable w = Ok tt w' /\
                 ps_pipe (st w') = Some (set_pipe (closed_end writable p) ps) /\
                 woken w' /\
                 apart w') /\
     (other = 0 -> frame_ok end_ PHYSTOP pipe_addr ->
      exists w', pipeclose pipe_addr end_ PHYSTOP writable w = Ok tt w' /\
                 ps_pipe (st w') = None /\
                 woken w' /\
                 freelist (kmem (ps_kalloc (st w'))) = pipe_addr /\
                 (forall a, pipe_addr + 8 <= a < pipe_addr + PGSIZE ->
                    ram (ps_kalloc (st w')) a = 1) /\
                 (forall a, a < pipe_addr \/ pipe_addr + PGSIZE <= a ->
                    ram (ps_kalloc (st w')) a = ram (ps_kalloc (st w)) a)) /\
     (other = 0 -> ~ frame_ok end_ PHYSTOP pipe_addr ->
      exists w', pipeclose pipe_addr end_ PHYSTOP writable w = Panic "kfree" w' /\
                 ps_pipe (st w') = Some (set_pipe (closed_end writable p) ps) /\
                 woken w' /\
                 apart w')) /\
  (ps_pipe (st w) = None ->
   pipeclose pipe_addr end_ PHYSTOP writable w =
     Panic "undefined: use of a pipe after its page was freed" w).
Proof.
  intros Hn Hk. split; [|apply pipeclose_after_free].
  destruct w as [c pid pt [ops km] e].
  intros ps Hps Hf p other woken apart. cbn [cpu st ps_pipe ps_kalloc ptable] in *. subst ops.
  pose proof (pipeclose_eq pipe_addr end_ PHYSTOP writable c pid pt ps km e Hn Hf) as E.
  cbv zeta in E. fold p in E.
  assert (Hboth : ((readopen (closed_end writable p) =? 0) &&
                   (writeopen (closed_end writable p) =? 0)) = (other =? 0)).
  { subst other. unfold closed_end. destruct (truthy writable); cbn [readopen writeopen].
    - apply andb_true_r.
    - reflexivity. }
  rewrite Hboth in E.
  split; [|split].
  - intros Ho. apply Z.eqb_neq in Ho. rewrite Ho in E.
    eexists. split; [exact E|]. repeat split.
  - intros Ho Hp. apply Z.eqb_eq in Ho. rewrite Ho in E.
    unfold free_pipe, bind at 1 in E.
    erewrite zoom_Ok in E;
      [|apply kfree_eq; [exact Hp|apply settle_noff_ok, Hn|exact Hk]].
    eexists. split; [exact E|].
    cbn [st set_st ps_pipe ps_kalloc update kalloc_part kmem freelist ram view cpu mypid
         ptable env].
    split; [reflexivity|]. split; [reflexivity|]. split; [reflexivity|]. split.
    + intros a Ha. rewrite store_le_other by (cbn; lia).
      unfold memset. unfold PGSIZE in *.
      destruct (Z.leb_spec pipe_addr a); [|lia].
      destruct (Z.ltb_spec a (pipe_addr + 4096)); [|lia]. reflexivity.
    + intros a Ha. unfold PGSIZE in *. rewrite store_le_other by (cbn; lia).
      apply memset_other. lia.
  - intros Ho Hp. apply Z.eqb_eq in Ho. rewrite Ho in E.
    assert (Hpan : forall wk : world kalloc_state,
              kfree end_ PHYSTOP pipe_addr wk = Panic "kfree" wk).
    { intros wk. unfold kfree, frame_ok in *.
      destruct (Z.eqb_spec (pipe_addr mod PGSIZE) 0) as [E0|E0]; cbn [negb orb]; [|reflexivity].
      destruct (Z.ltb_spec pipe_addr end_) as [E1|E1]; cbn [orb]; [reflexivity|].
      destruct (Z.geb_spec pipe_addr PHYSTOP) as [E2|E2]; [reflexivity|].
      exfalso. apply Hp. lia. }
    unfold free_pipe, bind at 1 in E.
    erewrite zoom_Panic in E; [|apply Hpan].
    eexists. split; [exact E|]. repeat split.
Qed.

(** A pipe whose read end is closed, in the second page of a two-page
    allocator. *)
Definition closing_pipe : world pipe_sys :=
  mkWorld boot_cpu 1 []
    (mkPipeSys (Some (mkPipeSt (mkPipe (mkSpin 0 None) (repeat 0 512) 0 0 0 1) 0 (fun _ => None)))
       (st boot_kmem)) [].

Lemma pipeclose_frees_with_last_end_witness :
  exists w', pipeclose 0x80021000 0x80020000 0x80022000 1 closing_pipe = Ok tt w' /\
             ps_pipe (st w') = None /\
             freelist (kmem (ps_kalloc (st w'))) = 0x80021000 /\
             ram (ps_kalloc (st w')) 0x80021008 = 1.
Proof.
  pose proof (pipeclose_frees_with_last_end 0x80021000 0x80020000 0x80022000 1 closing_pipe)
    as H.
  destruct H as (H & _).
  - unfold noff_ok. cbn. lia.
  - reflexivity.
  - destruct (H _ eq_refl eq_refl) as (_ & H' & _).
    destruct H' as (w' & H1 & H2 & _ & H3 & H4 & _).
    + reflexivity.
    + split; [reflexivity|lia].
    + exists w'. split; [exact H1|]. split; [exact H2|]. split; [exact H3|].
      apply H4. unfold PGSIZE. lia.
Defined.
(** ** Traps *)

Section TrapSpecs.
Variable U : Type.
Variable ticks_addr tickslock_addr : Z.
Variable UART0_IRQ VIRTIO0_IRQ SSTATUS_SPP SSTATUS_SIE : Z.
Variable plic_claim : K U Z.
Variable plic_complete : Z -> K U unit.
Variable uartintr : K U unit.
Variable virtio_disk_intr : K U unit.
Variable printf : string -> list Z -> K U unit.
Variable yield : K (trap_state U) unit.

Local Abbreviation tickslock_ref_ := (tickslock_ref U tickslock_addr).
Local Abbreviation clockintr_ := (clockintr U ticks_addr tickslock_addr).
Local Abbreviation devintr_ :=
  (devintr U ticks_addr tickslock_addr UART0_IRQ VIRTIO0_IRQ
     plic_claim plic_complete uartintr virtio_disk_intr printf).
Local Abbreviation kerneltrap_ :=
  (kerneltrap U ticks_addr tickslock_addr UART0_IRQ VIRTIO0_IRQ SSTATUS_SPP SSTATUS_SIE
     plic_claim plic_complete uartintr virtio_disk_intr printf yield).
Local Abbreviation sstatus_of_ := (sstatus_of U SSTATUS_SIE).

Lemma tickslock_lawful : lawful tickslock_ref_.
Proof. split; intros; reflexivity. Qed.

(** [scause] names a supervisor external interrupt. *)
Definition is_external (sc : Z) : bool :=
  truthy (Z.land sc 0x8000000000000000) && (Z.land sc 0xff =? 9).

(** [scause] names the software interrupt the timer is forwarded as. *)
Definition is_timer (sc : Z) : bool :=
  negb (is_external sc) && (sc =? 0x8000000000000001).

(** The state after a tick. *)
Definition ticked (s : trap_state U) : trap_state U :=
  mkTrap U (mkSpin 0 None) (u32 (ticks U s + 1)) (regs U s) (t_ext U s).

Lemma clockintr_eq (w : world (trap_state U)) :
  noff_ok (cpu w) -> locked (tickslock U (st w)) = 0 ->
  clockintr_ w =
    Ok tt (mkWorld (settle (cpu w)) (mypid w) (map (wake ticks_addr) (ptable w))
             (ticked (st w)) (env w)).
Proof.
  intros Hn Hf. unfold clockintr.
  unfold bind at 1. rewrite acquire_free by (try apply tickslock_lawful; assumption).
  unfold bind at 1, gets at 1. unfold bind at 1, set_ticks at 1, modify at 1.
  unfold bind at 1, wakeup at 1, modify at 1.
  cbn [st set_st set_ptable cpu mypid ptable env update tickslock_ref
       tickslock ticks regs t_ext].
  rewrite release_pushed; [reflexivity|apply tickslock_lawful|assumption|reflexivity].
Qed.

(** The registers with the pending bit of the software interrupt
    cleared. *)
Definition acked (r : csrs) : csrs :=
  mkCsrs (scause r) (sepc r) (sstatus r) (stval r) (Z.land (sip r) (u64 (Z.lnot 2))) (stvec r).

Lemma timer_not_external : is_external 0x8000000000000001 = false.
Proof. reflexivity. Qed.

Lemma devintr_timer_eq (w : world (trap_state U)) :
  noff_ok (cpu w) ->
  (cpu_id (cpu w) = 0 -> locked (tickslock U (st w)) = 0) ->
  scause (regs U (st w)) = 0x8000000000000001 ->
  devintr_ w =
    Ok 2 (if cpu_id (cpu w) =? 0
          then mkWorld (settle (cpu w)) (mypid w) (map (wake ticks_addr) (ptable w))
                 (mkTrap U (mkSpin 0 None) (u32 (ticks U (st w) + 1)) (acked (regs U (st w)))
                    (t_ext U (st w))) (env w)
          else mkWorld (cpu w) (mypid w) (ptable w)
                 (mkTrap U (tickslock U (st w)) (ticks U (st w)) (acked (regs U (st w)))
                    (t_ext U (st w))) (env w)).
Proof.
  intros Hn Hf Hsc. unfold devintr.
  unfold bind at 1, r_scause at 1, gets at 1. rewrite Hsc.
  change (truthy (Z.land 0x8000000000000001 0x8000000000000000) &&
          (Z.land 0x8000000000000001 0xff =? 9)) with false.
  cbn iota. change (0x8000000000000001 =? 0x8000000000000001) with true. cbn iota.
  unfold bind at 1, cpuid at 1, gets at 1.
  destruct (Z.eqb_spec (cpu_id (cpu w)) 0) as [E|E].
  - unfold bind at 1. rewrite clockintr_eq by auto.
    unfold bind, r_sip, w_sip, set_regs, gets, modify, ret. reflexivity.
  - unfold bind, r_sip, w_sip, set_regs, gets, modify, ret. reflexivity.
Qed.

(** X21 (trap.c, devintr and clockintr): a timer interrupt makes
    [devintr] return 2. On hart 0 the tick is counted under
    [tickslock]: [ticks] goes up by one, wrapping around at 2^32, and
    the processes sleeping on [&ticks] are woken; on any other hart
    [ticks] and the process table are untouched. In both cases the
    pending bit of the software interrupt is cleared in [sip] and no
    other register changes. *)
Theorem devintr_timer_ticks_on_hart0 (w : world (trap_state U)) :
  noff_ok (cpu w) ->
  (cpu_id (cpu w) = 0 -> locked (tickslock U (st w)) = 0) ->
  scause (regs U (st w)) = 0x8000000000000001 ->
  exists w',
    devintr_ w = Ok 2 w' /\
    ticks U (st w') =
      (if cpu_id (cpu w) =? 0 then u32 (ticks U (st w) + 1) else ticks U (st w)) /\
    ptable w' =
      (if cpu_id (cpu w) =? 0 then map (wake ticks_addr) (ptable w) else ptable w) /\
    regs U (st w') = acked (regs U (st w)) /\
    Z.testbit (sip (regs U (st w'))) 1 = false /\
    locked (tickslock U (st w')) = locked (tickslock U (st w)) /\
    t_ext U (st w') = t_ext U (st w).
Proof.
  intros Hn Hf Hsc. rewrite devintr_timer_eq by assumption.
  eexists. split; [reflexivity|].
  assert (Hbit : forall x, Z.testbit (Z.land x (u64 (Z.lnot 2))) 1 = false).
  { intros x. rewrite Z.land_spec. change (Z.testbit (u64 (Z.lnot 2)) 1) with false.
    apply andb_false_r. }
  destruct (Z.eqb_spec (cpu_id (cpu w)) 0) as [E|E];
    cbn [st ptable ticks regs tickslock t_ext acked sip locked].
  - rewrite (Hf E). repeat split; try reflexivity. apply Hbit.
  - repeat split; try reflexivity. apply Hbit.
Qed.


(** What the trap code owns: the clock and the registers. *)
Definition core (s : trap_state U) : spinlock * Z * csrs :=
  (tickslock U s, ticks U s, regs U s).

(** [m] leaves the clock and the registers alone, whatever the devices
    do, and a value it returns satisfies [P]. *)
Definition inert {A} (P : A -> Prop) (m : K (trap_state U) A) : Prop :=
  forall w, core (st (final_world (m w))) = core (st w) /\
            forall v w', m w = Ok v w' -> P v.

Lemma inert_bind {A B} (P : A -> Prop) (Q : B -> Prop) m (k : A -> K (trap_state U) B) :
  inert P m -> (forall a, P a -> inert Q (k a)) -> inert Q (bind m k).
Proof.
  intros Hm Hk w. destruct (Hm w) as [Hc Hv]. unfold bind.
  destruct (m w) as [a w1|msg w1|w1] eqn:E; cbn [final_world] in *.
  - destruct (Hk a (Hv a w1 eq_refl) w1) as [Hc' Hv']. split; [congruence|exact Hv'].
  - split; [exact Hc|discriminate].
  - split; [exact Hc|discriminate].
Qed.

Lemma inert_ret {A} (P : A -> Prop) (a : A) : P a -> inert P (ret a).
Proof. intros H w. split; [reflexivity|]. intros v w' E. injection E as <- _. exact H. Qed.

Lemma inert_dev {A} (m : K U A) : inert (fun _ => True) (zoom (dev_part U) m).
Proof.
  intros w. split; [|auto]. unfold zoom.
  destruct (m _); reflexivity.
Qed.

Lemma inert_weaken {A} (P Q : A -> Prop) m : (forall a, P a -> Q a) -> inert P m -> inert Q m.
Proof. intros H Hm w. destruct (Hm w) as [Hc Hv]. split; [exact Hc|]. eauto. Qed.

Lemma devintr_external_inert (w : world (trap_state U)) :
  is_external (scause (regs U (st w))) = true ->
  core (st (final_world (devintr_ w))) = core (st w) /\
  forall v w', devintr_ w = Ok v w' -> v = 1.
Proof.
  intros Hx.
  remember (devintr_ w) as r eqn:Er. unfold devintr in Er.
  unfold bind at 1, r_scause at 1, gets at 1 in Er.
  unfold is_external in Hx. rewrite Hx in Er. subst r.
  refine (inert_bind (fun _ => True) _ _ _ (inert_dev _) _ w). intros irq _.
  apply (inert_bind (fun _ => True)).
  { destruct (irq =? UART0_IRQ); [apply inert_dev|].
    destruct (irq =? VIRTIO0_IRQ); [apply inert_dev|].
    destruct (truthy irq); [apply inert_dev|apply inert_ret; exact I]. }
  intros _ _. apply (inert_bind (fun _ => True)).
  { destruct (truthy irq); [apply inert_dev|apply inert_ret; exact I]. }
  intros _ _. apply inert_ret. reflexivity.
Qed.

Lemma devintr_unknown_eq (w : world (trap_state U)) :
  is_external (scause (regs U (st w))) = false ->
  scause (regs U (st w)) <> 0x8000000000000001 ->
  devintr_ w = Ok 0 w.
Proof.
  intros Hx Ht. unfold devintr.
  unfold bind at 1, r_scause at 1, gets at 1.
  unfold is_external in Hx. rewrite Hx.
  apply Z.eqb_neq in Ht. rewrite Ht. reflexivity.
Qed.

(** X22 (trap.c, devintr): a supervisor external interrupt (top bit
    of [scause] set, low byte 9) is left to the PLIC and the drivers:
    whatever they do, [devintr] changes neither [ticks], [tickslock]
    nor a register, and can only return 1. A cause that is neither
    this nor the timer's software interrupt makes [devintr] return 0
    with nothing changed. *)
Theorem devintr_classifies (w : world (trap_state U)) :
  (is_external (scause (regs U (st w))) = true ->
   core (st (final_world (devintr_ w))) = core (st w) /\
   forall v w', devintr_ w = Ok v w' -> v = 1) /\
  (is_external (scause (regs U (st w))) = false ->
   scause (regs U (st w)) <> 0x8000000000000001 ->
   devintr_ w = Ok 0 w).
Proof.
  split.
  - apply devintr_external_inert.
  - apply devintr_unknown_eq.
Qed.

Lemma bind_Ok_inv {S A B} (m : K S A) (k : A -> K S B) w b w' :
  bind m k w = Ok b w' -> exists a w1, m w = Ok a w1 /\ k a w1 = Ok b w'.
Proof.
  unfold bind. destruct (m w) as [a w1| |]; try discriminate. eauto.
Qed.

Lemma kerneltrap_not_supervisor (w : world (trap_state U)) :
  Z.land (sstatus_of_ w) SSTATUS_SPP = 0 ->
  kerneltrap_ w = Panic "kerneltrap: not from supervisor mode" w.
Proof.
  intros H. unfold kerneltrap.
  unfold bind at 1, r_sepc at 1, gets at 1.
  unfold bind at 1, r_sstatus at 1, gets at 1.
  unfold bind at 1, r_scause at 1, gets at 1.
  rewrite H. reflexivity.
Qed.

Lemma kerneltrap_interruptible (w : world (trap_state U)) :
  Z.land (sstatus_of_ w) SSTATUS_SPP <> 0 -> sie (cpu w) = true ->
  kerneltrap_ w = Panic "kerneltrap: interrupts enabled" w.
Proof.
  intros H Hi. unfold kerneltrap.
  unfold bind at 1, r_sepc at 1, gets at 1.
  unfold bind at 1, r_sstatus at 1, gets at 1.
  unfold bind at 1, r_scause at 1, gets at 1.
  apply Z.eqb_neq in H. rewrite H.
  unfold bind at 1, intr_get at 1, gets at 1. rewrite Hi. reflexivity.
Qed.

(** After the two checks. *)
Definition kerneltrap_body (epc status sc : Z) : K (trap_state U) unit :=
  which_dev <- devintr_ ;;
  (if which_dev =? 0 then
     zoom (dev_part U) (printf "scause %p\n" [sc]) ;;
     e <- r_sepc U ;; v <- r_stval U ;;
     zoom (dev_part U) (printf "sepc=%p stval=%p\n" [e; v]) ;;
     panic "kerneltrap"
   else ret tt) ;;
  p <- myproc0 U ;;
  (if (which_dev =? 2) &&
      match p with
      | Some pr => match p_state pr with RUNNING => true | _ => false end
      | None => false
      end
   then yield else ret tt) ;;
  w_sepc U epc ;;
  w_sstatus U SSTATUS_SIE status.

Lemma kerneltrap_checked (w : world (trap_state U)) :
  Z.land (sstatus_of_ w) SSTATUS_SPP <> 0 -> sie (cpu w) = false ->
  kerneltrap_ w =
    kerneltrap_body (sepc (regs U (st w))) (sstatus_of_ w) (scause (regs U (st w))) w.
Proof.
  intros H Hi. unfold kerneltrap.
  unfold bind at 1, r_sepc at 1, gets at 1.
  unfold bind at 1, r_sstatus at 1, gets at 1.
  unfold bind at 1, r_scause at 1, gets at 1.
  apply Z.eqb_neq in H. rewrite H.
  unfold bind at 1, intr_get at 1, gets at 1. rewrite Hi. reflexivity.
Qed.

Lemma kerneltrap_entry (w : world (trap_state U)) v w' :
  kerneltrap_ w = Ok v w' ->
  Z.land (sstatus_of_ w) SSTATUS_SPP <> 0 /\ sie (cpu w) = false.
Proof.
  intros H.
  destruct (Z.eq_dec (Z.land (sstatus_of_ w) SSTATUS_SPP) 0) as [E|E].
  { rewrite kerneltrap_not_supervisor in H by assumption. discriminate. }
  destruct (sie (cpu w)) eqn:Ei.
  { rewrite kerneltrap_interruptible in H by assumption. discriminate. }
  split; [assumption|reflexivity].
Qed.

(** The last two statements of [kerneltrap]. *)
Lemma restore_eq epc status (w : world (trap_state U)) :
  (w_sepc U epc ;; w_sstatus U SSTATUS_SIE status) w =
    Ok tt (mkWorld (mkCpu (cpu_id (cpu w)) (noff (cpu w)) (intena (cpu w))
                      (truthy (Z.land status SSTATUS_SIE)))
             (mypid w) (ptable w)
             (mkTrap U (tickslock U (st w)) (ticks U (st w))
                (mkCsrs (scause (regs U (st w))) epc status (stval (regs U (st w)))
                   (sip (regs U (st w))) (stvec (regs U (st w))))
                (t_ext U (st w))) (env w)).
Proof. reflexivity. Qed.

Lemma masked_sie x : Z.land (Z.land x (Z.lnot SSTATUS_SIE)) SSTATUS_SIE = 0.
Proof.
  rewrite <- Z.land_assoc, (Z.land_comm (Z.lnot SSTATUS_SIE)), Z.land_lnot_diag.
  apply Z.land_0_r.
Qed.

(** X24 (trap.c, kerneltrap): whatever the devices and [yield] do,
    a call of [kerneltrap] that returns was entered from supervisor
    mode with interrupts off, and leaves [sepc] and [sstatus] with the
    values they had on entry, so interrupts are off again. *)
Theorem kerneltrap_restores (w : world (trap_state U)) v w' :
  kerneltrap_ w = Ok v w' ->
  Z.land (sstatus_of_ w) SSTATUS_SPP <> 0 /\ sie (cpu w) = false /\
  sepc (regs U (st w')) = sepc (regs U (st w)) /\
  sstatus_of_ w' = sstatus_of_ w /\
  sie (cpu w') = false.
Proof.
  intros H. destruct (kerneltrap_entry w v w' H) as [Hs Hi].
  split; [exact Hs|]. split; [exact Hi|].
  rewrite kerneltrap_checked in H by assumption.
  unfold kerneltrap_body in H.
  apply bind_Ok_inv in H. destruct H as (which & w1 & _ & H).
  apply bind_Ok_inv in H. destruct H as (? & w2 & _ & H).
  apply bind_Ok_inv in H. destruct H as (p & w3 & _ & H).
  apply bind_Ok_inv in H. destruct H as (? & w4 & _ & H).
  rewrite restore_eq in H. injection H as _ <-.
  assert (Es : sstatus_of_ w = Z.land (sstatus (regs U (st w))) (Z.lnot SSTATUS_SIE)).
  { unfold sstatus_of. rewrite Hi. reflexivity. }
  cbn [st cpu regs sepc sie].
  split; [reflexivity|]. rewrite Es, masked_sie. split; [|reflexivity].
  unfold sstatus_of. cbn [st cpu regs sstatus sie truthy Z.eqb negb].
  rewrite <- Z.land_assoc, Z.land_diag. reflexivity.
Qed.

Lemma inert_gets {A} (f : world (trap_state U) -> A) : inert (fun _ => True) (gets f).
Proof. intros w. split; [reflexivity|auto]. Qed.

Lemma inert_panic {A} (P : A -> Prop) msg : inert P (panic msg).
Proof. intros w. split; [reflexivity|discriminate]. Qed.

Lemma inert_never {A} (m : K (trap_state U) A) w :
  inert (fun _ => False) m ->
  returned (m w) = false /\ core (st (final_world (m w))) = core (st w).
Proof.
  intros H. destruct (H w) as [Hc Hv]. split; [|exact Hc].
  destruct (m w) as [v w'| |]; try reflexivity. destruct (Hv v w' eq_refl).
Qed.

Lemma kerneltrap_unknown (w : world (trap_state U)) :
  Z.land (sstatus_of_ w) SSTATUS_SPP <> 0 -> sie (cpu w) = false ->
  is_external (scause (regs U (st w))) = false ->
  scause (regs U (st w)) <> 0x8000000000000001 ->
  returned (kerneltrap_ w) = false /\
  core (st (final_world (kerneltrap_ w))) = core (st w).
Proof.
  intros Hs Hi Hx Ht.
  remember (kerneltrap_ w) as r eqn:Er.
  rewrite kerneltrap_checked in Er by assumption.
  unfold kerneltrap_body in Er. unfold bind at 1 in Er.
  rewrite devintr_unknown_eq in Er by assumption.
  change (0 =? 0) with true in Er. cbn iota in Er. subst r.
  apply inert_never.
  apply (inert_bind (fun _ => False)); [|intros _ []].
  apply (inert_bind (fun _ => True)); [apply inert_dev|]. intros _ _.
  apply (inert_bind (fun _ => True)); [apply inert_gets|]. intros e _.
  apply (inert_bind (fun _ => True)); [apply inert_gets|]. intros v _.
  apply (inert_bind (fun _ => True)); [apply inert_dev|]. intros _ _.
  apply inert_panic.
Qed.

(** X23 (trap.c, kerneltrap): the checks of [kerneltrap]. Entered
    with the previous-privilege bit of [sstatus] clear it panics with
    "kerneltrap: not from supervisor mode"; otherwise, entered with
    interrupts enabled, it panics with "kerneltrap: interrupts
    enabled"; in both cases nothing has been changed. Otherwise, for a
    cause that [devintr] does not recognise, it never returns, and
    leaves [ticks], [tickslock] and the registers as they were. *)
Theorem kerneltrap_guards (w : world (trap_state U)) :
  (Z.land (sstatus_of_ w) SSTATUS_SPP = 0 ->
   kerneltrap_ w = Panic "kerneltrap: not from supervisor mode" w) /\
  (Z.land (sstatus_of_ w) SSTATUS_SPP <> 0 -> sie (cpu w) = true ->
   kerneltrap_ w = Panic "kerneltrap: interrupts enabled" w) /\
  (Z.land (sstatus_of_ w) SSTATUS_SPP <> 0 -> sie (cpu w) = false ->
   is_external (scause (regs U (st w))) = false ->
   scause (regs U (st w)) <> 0x8000000000000001 ->
   returned (kerneltrap_ w) = false /\
   core (st (final_world (kerneltrap_ w))) = core (st w)).
Proof.
  split; [apply kerneltrap_not_supervisor|].
  split; [apply kerneltrap_interruptible|apply kerneltrap_unknown].
Qed.

Lemma find_wake ch pid pt :
  List.find (fun p => p_pid p =? pid) (map (wake ch) pt) =
  option_map (wake ch) (List.find (fun p => p_pid p =? pid) pt).
Proof.
  induction pt as [|p pt IH]; [reflexivity|]. cbn [map List.find].
  assert (E : p_pid (wake ch p) = p_pid p).
  { unfold wake. destruct (p_state p); try reflexivity.
    destruct (p_chan p =? ch); reflexivity. }
  rewrite E. destruct (p_pid p =? pid); [reflexivity|exact IH].
Qed.

(** The hart runs no process in state RUNNING. *)
Definition no_running (w : world (trap_state U)) : Prop :=
  match List.find (fun p => p_pid p =? mypid w) (ptable w) with
  | Some pr => p_state pr <> RUNNING
  | None => True
  end.

(** X25 (trap.c, kerneltrap): a timer interrupt taken in the
    kernel while the hart runs no process in state RUNNING is handled
    without calling [yield]: [kerneltrap] returns, the tick is counted
    if this is hart 0, the pending bit of the software interrupt is
    cleared and the devices are not touched. *)
Theorem kerneltrap_timer_without_process (w : world (trap_state U)) :
  Z.land (sstatus_of_ w) SSTATUS_SPP <> 0 -> sie (cpu w) = false ->
  noff_ok (cpu w) ->
  (cpu_id (cpu w) = 0 -> locked (tickslock U (st w)) = 0) ->
  scause (regs U (st w)) = 0x8000000000000001 ->
  no_running w ->
  exists w',
    kerneltrap_ w = Ok tt w' /\
    ticks U (st w') = (if cpu_id (cpu w) =? 0 then u32 (ticks U (st w) + 1) else ticks U (st w)) /\
    sip (regs U (st w')) = Z.land (sip (regs U (st w))) (u64 (Z.lnot 2)) /\
    t_ext U (st w') = t_ext U (st w).
Proof.
  intros Hs Hi Hn Hf Hsc Hnr. rewrite kerneltrap_checked by assumption.
  unfold kerneltrap_body.
  unfold bind at 1. rewrite devintr_timer_eq by assumption.
  change (2 =? 0) with false. cbn iota.
  unfold bind at 1, ret at 1.
  unfold bind at 1, myproc0 at 1, gets at 1.
  assert (Hidle : forall pt',
    pt' = ptable w \/ pt' = map (wake ticks_addr) (ptable w) ->
    match List.find (fun p => p_pid p =? mypid w) pt' with
    | Some pr => match p_state pr with RUNNING => true | _ => false end
    | None => false
    end = false).
  { intros pt' [->| ->]; unfold no_running in Hnr.
    - destruct (List.find _ (ptable w)) as [pr|]; [|reflexivity].
      destruct (p_state pr); try reflexivity. congruence.
    - rewrite find_wake. destruct (List.find _ (ptable w)) as [pr|]; [|reflexivity].
      cbn [option_map]. unfold wake.
      destruct (p_state pr) eqn:Ep; try reflexivity; try congruence.
      + rewrite Ep. reflexivity.
      + rewrite Ep. reflexivity.
      + destruct (p_chan pr =? ticks_addr); [reflexivity|]. rewrite Ep. reflexivity.
      + rewrite Ep. reflexivity.
      + rewrite Ep. reflexivity. }
  destruct (cpu_id (cpu w) =? 0); cbn [st cpu mypid ptable env];
    (rewrite Hidle by auto); change ((2 =? 2) && false) with false; cbn iota;
    unfold bind at 1, ret at 1; rewrite restore_eq;
    (eexists; split; [reflexivity|]); cbn [st ticks regs sip t_ext acked];
    repeat split; reflexivity.
Qed.
End TrapSpecs.

(** A hart that took a timer interrupt in the kernel, with no devices
    and a scheduler that does nothing. *)
Definition demo_trap (id : Z) : world (trap_state unit) :=
  mkWorld (mkCpu id 0 0 false) 1 []
    (mkTrap unit (mkSpin 0 None) 41 (mkCsrs 0x8000000000000001 0x80001234 256 0 2 0) tt) [].

Definition demo_devintr : K (trap_state unit) Z :=
  devintr unit 100 96 10 1 (ret 0) (fun _ => ret tt) (ret tt) (ret tt) (fun _ _ => ret tt).

Definition demo_kerneltrap : K (trap_state unit) unit :=
  kerneltrap unit 100 96 10 1 256 2 (ret 0) (fun _ => ret tt) (ret tt) (ret tt)
    (fun _ _ => ret tt) (ret tt).

Lemma devintr_timer_ticks_on_hart0_witness :
  (exists w', demo_devintr (demo_trap 0) = Ok 2 w' /\ ticks unit (st w') = 42) /\
  (exists w', demo_devintr (demo_trap 1) = Ok 2 w' /\ ticks unit (st w') = 41).
Proof.
  split.
  - destruct (devintr_timer_ticks_on_hart0 unit 100 96 10 1 (ret 0) (fun _ => ret tt)
                (ret tt) (ret tt) (fun _ _ => ret tt) (demo_trap 0))
      as (w' & H1 & H2 & _).
    + unfold noff_ok. cbn. lia.
    + reflexivity.
    + reflexivity.
    + exists w'. split; [exact H1|exact H2].
  - destruct (devintr_timer_ticks_on_hart0 unit 100 96 10 1 (ret 0) (fun _ => ret tt)
                (ret tt) (ret tt) (fun _ _ => ret tt) (demo_trap 1))
      as (w' & H1 & H2 & _).
    + unfold noff_ok. cbn. lia.
    + cbn. lia.
    + reflexivity.
    + exists w'. split; [exact H1|exact H2].
Defined.

Lemma kerneltrap_restores_witness :
  sepc (regs unit (st (final_world (demo_kerneltrap (demo_trap 0))))) = 0x80001234 /\
  sie (cpu (final_world (demo_kerneltrap (demo_trap 0)))) = false.
Proof.
  destruct (kerneltrap_restores unit 100 96 10 1 256 2 (ret 0) (fun _ => ret tt) (ret tt)
              (ret tt) (fun _ _ => ret tt) (ret tt) (demo_trap 0) tt
              (final_world (demo_kerneltrap (demo_trap 0))))
    as (_ & _ & H1 & _ & H2).
  - vm_compute. reflexivity.
  - split; [exact H1|exact H2].
Defined.

Lemma kerneltrap_timer_without_process_witness :
  exists w', demo_kerneltrap (demo_trap 0) = Ok tt w' /\ ticks unit (st w') = 42.
Proof.
  destruct (kerneltrap_timer_without_process unit 100 96 10 1 256 2 (ret 0)
              (fun _ => ret tt) (ret tt) (ret tt) (fun _ _ => ret tt) (ret tt) (demo_trap 0))
    as (w' & H1 & H2 & _).
  - cbn. discriminate.
  - reflexivity.
  - unfold noff_ok. cbn. lia.
  - reflexivity.
  - reflexivity.
  - exact I.
  - exists w'. split; [exact H1|exact H2].
Defined.

(** ** The log header on disk *)

Lemma bytes_of_word v :
  v mod 256 + 2 ^ 8 * ((v / 2 ^ 8) mod 256) + 2 ^ 16 * ((v / 2 ^ 16) mod 256)
    + 2 ^ 24 * ((v / 2 ^ 24) mod 256) = v mod 2 ^ 32.
Proof.
  change (2 ^ 8) with 256. change (2 ^ 16) with 65536. change (2 ^ 24) with 16777216.
  change (2 ^ 32) with 4294967296.
  Z.div_mod_to_equations. lia.
Qed.

Lemma s32_mod v : s32 (v mod 2 ^ 32) = s32 v.
Proof.
  unfold s32. f_equal.
  rewrite <- (Zplus_mod_idemp_l v). reflexivity.
Qed.

Lemma length_put32 d off v : length (put32 d off v) = length d.
Proof. unfold put32. rewrite !length_insert. reflexivity. Qed.

Lemma get32_put32 d off v :
  (off + 3 < length d)%nat -> get32 (put32 d off v) off = s32 v.
Proof.
  intros H. unfold get32, put32.
  rewrite nth_insert_same by (rewrite !length_insert; lia).
  rewrite (nth_insert_other _ off (off + 1)) by lia.
  rewrite nth_insert_same by (rewrite !length_insert; lia).
  rewrite (nth_insert_other _ off (off + 2)), (nth_insert_other _ (off + 1) (off + 2)) by lia.
  rewrite nth_insert_same by (rewrite !length_insert; lia).
  rewrite (nth_insert_other _ off (off + 3)), (nth_insert_other _ (off + 1) (off + 3)),
    (nth_insert_other _ (off + 2) (off + 3)) by lia.
  rewrite nth_insert_same by lia.
  rewrite bytes_of_word. apply s32_mod.
Qed.

Lemma get32_put32_other d off off' v :
  (off + 4 <= off' \/ off' + 4 <= off)%nat -> get32 (put32 d off' v) off = get32 d off.
Proof.
  intros H. unfold get32, put32.
  rewrite !nth_insert_other by lia. reflexivity.
Qed.

(** The header fields written into a block by the loop of
    [write_head]: [k] entries from entry [i] on. *)
Fixpoint put_blocks (k : nat) (i : Z) (l : log_t) (d : list Z) : list Z :=
  match k with
  | O => d
  | Datatypes.S k' => put_blocks k' (i + 1) l (hdr_set_block i (block_at l i) d)
  end.

(** The entries read into the in-memory header by the loop of
    [read_head]. *)
Fixpoint get_blocks (k : nat) (i : Z) (d : list Z) (l : log_t) : log_t :=
  match k with
  | O => l
  | Datatypes.S k' => get_blocks k' (i + 1) d (set_lh_block i (hdr_block d i) l)
  end.

Lemma length_put_blocks k : forall i l d, length (put_blocks k i l d) = length d.
Proof.
  induction k as [|k IH]; intros i l d; cbn [put_blocks]; [reflexivity|].
  rewrite IH. apply length_put32.
Qed.

Lemma hdr_n_put_blocks k : forall i l d, 0 <= i -> hdr_n (put_blocks k i l d) = hdr_n d.
Proof.
  induction k as [|k IH]; intros i l d Hi; cbn [put_blocks]; [reflexivity|].
  rewrite IH by lia. unfold hdr_n, hdr_set_block. apply get32_put32_other. lia.
Qed.

Lemma hdr_block_put_blocks k : forall i l d j,
  0 <= i -> (4 + 4 * Z.to_nat (i + Z.of_nat k) <= length d)%nat ->
  0 <= j ->
  hdr_block (put_blocks k i l d) j =
    if (i <=? j) && (j <? i + Z.of_nat k) then s32 (block_at l j) else hdr_block d j.
Proof.
  induction k as [|k IH]; intros i l d j Hi Hlen Hj; cbn [put_blocks].
  - destruct (Z.leb_spec i j); destruct (Z.ltb_spec j (i + Z.of_nat 0)); cbn [andb];
      try reflexivity. lia.
  - rewrite IH; [|lia|unfold hdr_set_block; rewrite length_put32; lia|lia].
    destruct (Z.leb_spec (i + 1) j); destruct (Z.ltb_spec j (i + 1 + Z.of_nat k));
      destruct (Z.leb_spec i j); destruct (Z.ltb_spec j (i + Z.of_nat (Datatypes.S k)));
      cbn [andb]; try lia; try reflexivity;
      try (unfold hdr_block, hdr_set_block; apply get32_put32_other; lia);
      try (assert (j = i) by lia; subst j;
           unfold hdr_block, hdr_set_block; apply get32_put32; lia).
Qed.

Lemma get_blocks_fields k : forall i d l,
  lg_lock (get_blocks k i d l) = lg_lock l /\ lg_start (get_blocks k i d l) = lg_start l /\
  lg_size (get_blocks k i d l) = lg_size l /\
  outstanding (get_blocks k i d l) = outstanding l /\
  committing (get_blocks k i d l) = committing l /\ lg_dev (get_blocks k i d l) = lg_dev l /\
  lh_n (lh (get_blocks k i d l)) = lh_n (lh l) /\
  length (lh_block (lh (get_blocks k i d l))) = length (lh_block (lh l)).
Proof.
  induction k as [|k IH]; intros i d l; cbn [get_blocks]; [repeat split|].
  destruct (IH (i + 1) d (set_lh_block i (hdr_block d i) l)) as (A & B & C & D & E & F & G & H).
  cbn in *. rewrite length_insert in H. repeat split; assumption.
Qed.

Lemma block_at_get_blocks k : forall i d l j,
  0 <= i -> (Z.to_nat (i + Z.of_nat k) <= length (lh_block (lh l)))%nat -> 0 <= j ->
  block_at (get_blocks k i d l) j =
    if (i <=? j) && (j <? i + Z.of_nat k) then hdr_block d j else block_at l j.
Proof.
  induction k as [|k IH]; intros i d l j Hi Hlen Hj; cbn [get_blocks].
  - destruct (Z.leb_spec i j); destruct (Z.ltb_spec j (i + Z.of_nat 0)); cbn [andb];
      try reflexivity. lia.
  - rewrite IH; [|lia|cbn; rewrite length_insert; lia|lia].
    unfold block_at at 2. cbn [set_lh_block lh lh_block].
    destruct (Z.leb_spec (i + 1) j); destruct (Z.ltb_spec j (i + 1 + Z.of_nat k));
      destruct (Z.leb_spec i j); destruct (Z.ltb_spec j (i + Z.of_nat (Datatypes.S k)));
      cbn [andb]; try lia; try reflexivity;
      try (apply nth_insert_other; lia);
      try (assert (j = i) by lia; subst j; apply nth_insert_same; lia).
Qed.

(** *** Steps on a buffer the caller holds *)

Lemma put_buf_same b s : (b < NBUF_of s)%nat -> put_buf b (get_buf b s) s = s.
Proof.
  unfold put_buf, get_buf, NBUF_of. intros H.
  destruct (b <? _)%nat eqn:E; [|apply Nat.ltb_ge in E; lia].
  destruct s as [[lk bufs hd] lg d wr]. cbn in *. f_equal. f_equal.
  destruct (lookup_lt_is_Some_2 bufs b H) as [x Hx].
  rewrite (nth_lookup_Some _ _ _ _ Hx). apply list_insert_id, Hx.
Qed.

Lemma log_put_buf b x s : log (put_buf b x s) = log s.
Proof. unfold put_buf. destruct (_ <? _)%nat; reflexivity. Qed.

Lemma dsk_put_buf b x s : dsk (put_buf b x s) = dsk s.
Proof. unfold put_buf. destruct (_ <? _)%nat; reflexivity. Qed.

Lemma writes_put_buf b x s : writes (put_buf b x s) = writes s.
Proof. unfold put_buf. destruct (_ <? _)%nat; reflexivity. Qed.

Lemma bc_lock_put_buf b x s : bc_lock (bcache (put_buf b x s)) = bc_lock (bcache s).
Proof. unfold put_buf. destruct (_ <? _)%nat; reflexivity. Qed.

(** Changing the data of a buffer keeps the cache consistent. *)
Lemma cache_ok_set_data pid held s b d :
  cache_ok pid held s -> (b < NBUF_of s)%nat ->
  cache_ok pid held (put_buf b (set_data d (get_buf b s)) s).
Proof.
  intros Hok Hb. pose proof Hok as (Hlk & (l & Hd & Hcov) & Hst & Hu).
  apply (cache_ok_step pid held held b s); try assumption.
  - apply NBUF_put_buf.
  - rewrite bc_lock_put_buf. exact Hlk.
  - exists l. split; [|exact Hcov]. apply dll_put_buf; try assumption; try reflexivity. lia.
  - intros x Hx Hne. rewrite get_put_buf_ne by auto. reflexivity.
  - intros Hin. rewrite get_put_buf. destruct (Hst b Hb) as [Hm _]. exact (Hm Hin).
  - intros Hin. rewrite get_put_buf. destruct (Hst b Hb) as [_ Hq]. exact (Hq Hin).
  - intros x _. reflexivity.
  - rewrite get_put_buf. apply same_ident_ok; try assumption; reflexivity.
Qed.

(** The cache looks only at the buffers. *)
Lemma cache_ok_bcache pid held s s' :
  bcache s' = bcache s -> cache_ok pid held s -> cache_ok pid held s'.
Proof.
  intros H Hok. unfold cache_ok, dll, unique_idents, nxt, prv, get_buf, NBUF_of in *.
  rewrite H. exact Hok.
Qed.

(** The state after the driver has written buffer [b]. *)
Definition wrote (b : nat) (s : fs) : fs :=
  mkFs (bcache s) (log s)
    (fun k => if k =? blockno (get_buf b s) then data (get_buf b s) else dsk s k)
    (writes s ++ [(blockno (get_buf b s), data (get_buf b s))]).

Lemma bwrite_held ba pid held s b :
  cache_ok pid held s -> (b < NBUF_of s)%nat -> In b held ->
  Does (bwrite ba b) pid s tt (wrote b s).
Proof.
  intros Hok Hb Hin. pose proof Hok as (_ & _ & Hst & _).
  destruct (Hst b Hb) as [Hm _]. destruct (Hm Hin) as [Hl _].
  apply Does_of_eq. intros c pt e Hn. unfold bwrite.
  unfold bind at 1. rewrite (holdingsleep_eq _ (buf_lock_lawful ba b)); cbn [st cpu];
    [|cbn [view buf_lock]; rewrite Hl; reflexivity|exact Hn].
  cbn [view buf_lock mypid]. rewrite Hl. cbn [sl_locked sl_pid].
  rewrite Z.eqb_refl. cbn [truthy Z.eqb negb andb of_bool].
  cbn [update buf_lock].
  replace (set_lock (mkSleep 1 (mkSpin 0 None) pid) (get_buf b s)) with (get_buf b s)
    by (destruct (get_buf b s); cbn in *; rewrite Hl; reflexivity).
  rewrite put_buf_same by assumption. reflexivity.
Qed.

Lemma set_data_same x : set_data (data x) x = x.
Proof. destruct x; reflexivity. Qed.

Lemma write_head_loop_run pid b k : forall fuel i s,
  lh_n (lh (log s)) = i + Z.of_nat k -> 0 <= i -> i + Z.of_nat k < 2 ^ 31 ->
  (k <= fuel)%nat -> (b < NBUF_of s)%nat ->
  Does (write_head_loop fuel b i) pid s tt
    (put_buf b (set_data (put_blocks k i (log s) (data (get_buf b s))) (get_buf b s)) s).
Proof.
  induction k as [|k IH]; intros fuel i s Hn Hi Hlt Hf Hb.
  - cbn [put_blocks]. rewrite set_data_same, put_buf_same by assumption.
    assert (E : (i <? lh_n (lh (log s))) = false) by (apply Z.ltb_ge; lia).
    destruct fuel; cbn [write_head_loop];
      (eapply Does_bind; [apply Does_the_log|]); cbv beta; rewrite E; apply Does_ret.
  - destruct fuel as [|fuel]; [lia|].
    rewrite Nat2Z.inj_succ in *.
    assert (E : (i <? lh_n (lh (log s))) = true) by (apply Z.ltb_lt; lia).
    cbn [write_head_loop].
    eapply Does_bind; [apply Does_the_log|]. cbv beta. rewrite E.
    eapply Does_bind; [apply Does_wr|].
    rewrite (s32_id (i + 1)) by (unfold is_s32; lia).
    set (s1 := put_buf b _ s).
    assert (Hl1 : log s1 = log s) by apply log_put_buf.
    pose proof (IH fuel (i + 1) s1) as H.
    rewrite Hl1 in H. unfold s1 in H at 2 3 4.
    rewrite get_put_buf in H. unfold s1 in H. rewrite put_put_buf in H.
    cbn [put_blocks].
    replace (set_data (put_blocks k (i + 1) (log s)
                         (data (set_data (hdr_set_block i (block_at (log s) i)
                                            (data (get_buf b s))) (get_buf b s))))
               (set_data (hdr_set_block i (block_at (log s) i) (data (get_buf b s)))
                  (get_buf b s)))
      with (set_data (put_blocks k (i + 1) (log s)
                        (hdr_set_block i (block_at (log s) i) (data (get_buf b s))))
              (get_buf b s)) in H by (destruct (get_buf b s); reflexivity).
    apply H; try lia. rewrite NBUF_put_buf. exact Hb.
Qed.

Lemma read_head_loop_run pid b k : forall fuel i s,
  lh_n (lh (log s)) = i + Z.of_nat k -> 0 <= i -> i + Z.of_nat k < 2 ^ 31 ->
  (k <= fuel)%nat ->
  Does (read_head_loop fuel b i) pid s tt
    (set_log (get_blocks k i (data (get_buf b s)) (log s)) s).
Proof.
  induction k as [|k IH]; intros fuel i s Hn Hi Hlt Hf.
  - cbn [get_blocks].
    assert (E : (i <? lh_n (lh (log s))) = false) by (apply Z.ltb_ge; lia).
    replace (set_log (log s) s) with s by (destruct s; reflexivity).
    destruct fuel; cbn [read_head_loop];
      (eapply Does_bind; [apply Does_the_log|]); cbv beta; rewrite E; apply Does_ret.
  - destruct fuel as [|fuel]; [lia|].
    rewrite Nat2Z.inj_succ in *.
    assert (E : (i <? lh_n (lh (log s))) = true) by (apply Z.ltb_lt; lia).
    cbn [read_head_loop].
    eapply Does_bind; [apply Does_the_log|]. cbv beta. rewrite E.
    eapply Does_bind; [apply (Does_rd b data)|]. cbv beta.
    eapply Does_bind; [apply Does_wr_log|].
    rewrite (s32_id (i + 1)) by (unfold is_s32; lia).
    pose proof (IH fuel (i + 1)
                  (set_log (set_lh_block i (hdr_block (data (get_buf b s)) i) (log s)) s)) as H.
    cbn [get_blocks]. cbn [set_log log bcache dsk writes] in H.
    apply H; try lia. cbn. lia.
Qed.

(** *** Reading a block, cached or not *)

(** [bread] can deliver the block: it is cached in a buffer the
    caller does not hold, or it is not cached and some buffer has no
    reference. *)
Definition readable (dv bno : Z) (held : list nat) (s : fs) : Prop :=
  (exists b, (b < NBUF_of s)%nat /\ caches dv bno (get_buf b s) = true /\ ~ In b held) \/
  ((forall x, (x < NBUF_of s)%nat -> caches dv bno (get_buf x s) = false) /\
   (exists x, (x < NBUF_of s)%nat /\ refcnt (get_buf x s) = 0)).

(** The current contents of the block are [d]: those of a valid
    cached copy, and without one those on the disk. *)
Definition current (dv bno : Z) (s : fs) (d : list Z) : Prop :=
  (forall b, (b < NBUF_of s)%nat -> caches dv bno (get_buf b s) = true ->
     valid (get_buf b s) <> 0 -> data (get_buf b s) = d) /\
  ((forall b, (b < NBUF_of s)%nat -> caches dv bno (get_buf b s) = true ->
      valid (get_buf b s) = 0) -> dsk s bno = d).

Lemma bread_any ba dv bno pid held s d :
  cache_ok pid held s -> readable dv bno held s -> current dv bno s d ->
  exists b s',
    Does (bread ba dv bno) pid s b s' /\
    (b < NBUF_of s)%nat /\ ~ In b held /\
    cache_ok pid (b :: held) s' /\
    NBUF_of s' = NBUF_of s /\
    (forall x, (x < NBUF_of s)%nat -> x <> b -> get_buf x s' = get_buf x s) /\
    log s' = log s /\ dsk s' = dsk s /\ writes s' = writes s /\
    dev (get_buf b s') = dv /\ blockno (get_buf b s') = bno /\
    valid (get_buf b s') <> 0 /\
    data (get_buf b s') = d.
Proof.
  intros Hok [(b & Hb & Hhit & Hnh)|[Hmiss Hfree]] [Hc1 Hc2].
  - destruct (bread_hit ba dv bno pid held s Hok b Hb Hhit Hnh)
      as (s1 & HD1 & Hok1 & HN1 & Hoth1 & Hlog1 & Hdsk1 & Hwr1 & Hdev1 & Hbno1 & Hv1 & Hr1 & Hd1).
    exists b, s1. repeat (split; [assumption|]).
    rewrite Hd1. destruct (Z.eqb_spec (valid (get_buf b s)) 0) as [E|E].
    + apply Hc2. intros x Hx Hcx.
      pose proof Hok as (_ & _ & _ & Hu).
      apply caches_iff in Hhit. apply caches_iff in Hcx.
      assert (x = b) by (apply Hu; try assumption; destruct Hhit, Hcx; congruence).
      subst x. exact E.
    + apply Hc1; assumption.
  - destruct (bread_miss ba dv bno pid held s Hok Hmiss Hfree)
      as (b & s1 & HD1 & Hb & Hnh & Hb0 & Hok1 & HN1 & Hoth1 & Hlog1 & Hdsk1 & Hwr1 &
          Hdev1 & Hbno1 & Hv1 & Hr1 & Hd1).
    exists b, s1. repeat (split; [assumption|]).
    split; [rewrite Hv1; discriminate|].
    rewrite Hd1. apply Hc2. intros x Hx Hcx. rewrite Hmiss in Hcx by assumption. discriminate.
Qed.

Section LogHead.
Variable ba : nat -> Z.
Variable pid : Z.
Variable held : list nat.
Variable s : fs.
Hypothesis Hok : cache_ok pid held s.

Local Abbreviation l := (log s).
Local Abbreviation dv := (u32 (lg_dev (log s))).
Local Abbreviation bno := (u32 (lg_start (log s))).
Local Abbreviation n := (lh_n (lh (log s))).

(** The header block as [write_head] leaves it, from contents [d]. *)
Definition head_image (d : list Z) : list Z :=
  put_blocks (Z.to_nat n) 0 l (hdr_set_n n d).

Lemma head_image_decodes d :
  0 <= n < 2 ^ 31 -> (4 + 4 * Z.to_nat n <= length d)%nat ->
  hdr_n (head_image d) = n /\
  (forall i, 0 <= i < n -> hdr_block (head_image d) i = s32 (block_at l i)) /\
  length (head_image d) = length d.
Proof.
  intros Hn Hlen. unfold head_image. split; [|split].
  - rewrite hdr_n_put_blocks by lia. unfold hdr_n, hdr_set_n.
    rewrite get32_put32 by lia. apply s32_id. unfold is_s32. lia.
  - intros i Hi. rewrite hdr_block_put_blocks; try lia.
    + destruct (Z.leb_spec 0 i); [|lia].
      destruct (Z.ltb_spec i (0 + Z.of_nat (Z.to_nat n))); [reflexivity|lia].
    + unfold hdr_set_n. rewrite length_put32. rewrite Z.add_0_l, Nat2Z.id. exact Hlen.
  - rewrite length_put_blocks. unfold hdr_set_n. apply length_put32.
Qed.

Lemma write_head_spec d :
  readable dv bno held s -> current dv bno s d ->
  0 <= n < 2 ^ 31 ->
  exists b s',
    Does (write_head ba) pid s tt s' /\
    cache_ok pid held s' /\
    NBUF_of s' = NBUF_of s /\
    log s' = log s /\
    dsk s' = (fun k => if k =? bno then head_image d else dsk s k) /\
    writes s' = writes s ++ [(bno, head_image d)] /\
    (b < NBUF_of s)%nat /\ ~ In b held /\
    caches dv bno (get_buf b s') = true /\
    valid (get_buf b s') <> 0 /\
    data (get_buf b s') = head_image d.
Proof.
  intros Hrd Hcur Hn.
  destruct (bread_any ba dv bno pid held s d Hok Hrd Hcur)
    as (b & s1 & HD1 & Hb & Hnh & Hok1 & HN1 & Hoth1 & Hlog1 & Hdsk1 & Hwr1 &
        Hdev1 & Hbno1 & Hv1 & Hd1).
  assert (Hb1 : (b < NBUF_of s1)%nat) by (rewrite HN1; exact Hb).
  set (x1 := get_buf b s1) in *.
  set (s2 := put_buf b (set_data (hdr_set_n n (data x1)) x1) s1).
  set (s3 := put_buf b (set_data (head_image d) x1) s1).
  assert (Hloop : Does (write_head_loop (Z.to_nat n) b 0) pid s2 tt s3).
  { pose proof (write_head_loop_run pid b (Z.to_nat n) (Z.to_nat n) 0 s2) as H.
    assert (Hl2 : log s2 = log s) by (unfold s2; rewrite log_put_buf; exact Hlog1).
    rewrite Hl2 in H. unfold s2 in H at 2 3 4.
    rewrite get_put_buf in H. unfold s2 in H. rewrite put_put_buf in H.
    replace (set_data (put_blocks (Z.to_nat n) 0 l
                         (data (set_data (hdr_set_n n (data x1)) x1)))
               (set_data (hdr_set_n n (data x1)) x1))
      with (set_data (head_image d) x1) in H
      by (unfold head_image; rewrite <- Hd1; destruct x1; reflexivity).
    apply H; try lia. rewrite NBUF_put_buf. exact Hb1. }
  assert (Hok3 : cache_ok pid (b :: held) s3) by (apply cache_ok_set_data; assumption).
  assert (Hb3 : (b < NBUF_of s3)%nat) by (unfold s3; rewrite NBUF_put_buf; exact Hb1).
  assert (Hx3 : get_buf b s3 = set_data (head_image d) x1) by apply get_put_buf.
  pose proof (bwrite_held ba pid (b :: held) s3 b Hok3 Hb3 (or_introl eq_refl)) as HD4.
  set (s4 := wrote b s3) in *.
  assert (Hok4 : cache_ok pid (b :: held) s4) by (apply (cache_ok_bcache _ _ s3); auto).
  destruct (brelse_spec ba pid (b :: held) held s4 b Hok4) as
    (s5 & HD5 & Hok5 & HN5 & Hoth5 & Hlog5 & Hdsk5 & Hwr5 & Hdev5 & Hbno5 & Hv5 & Hd5 & _).
  { exact Hb3. }
  { left. reflexivity. }
  { exact Hnh. }
  { intros x Hne. cbn [In]. split; [auto|intros [E|E]; [congruence|assumption]]. }
  assert (Hx4 : get_buf b s4 = set_data (head_image d) x1) by exact Hx3.
  exists b, s5. split.
  { unfold write_head.
    eapply Does_bind; [apply Does_the_log|]. cbv beta.
    eapply Does_bind; [exact HD1|]. cbv beta.
    eapply Does_bind; [apply Does_wr|]. fold x1. fold s2.
    eapply Does_bind; [exact Hloop|].
    eapply Does_bind; [exact HD4|]. exact HD5. }
  split; [exact Hok5|].
  split; [rewrite HN5; unfold s4, wrote, NBUF_of; cbn [bcache]; fold (NBUF_of s3);
          unfold s3; rewrite NBUF_put_buf; exact HN1|].
  split; [rewrite Hlog5; unfold s4, wrote; cbn [log]; unfold s3; rewrite log_put_buf;
          exact Hlog1|].
  assert (Hbn3 : blockno (get_buf b s3) = bno).
  { rewrite Hx3. destruct x1; cbn in *. exact Hbno1. }
  assert (Hdt3 : data (get_buf b s3) = head_image d).
  { rewrite Hx3. destruct x1; reflexivity. }
  split; [rewrite Hdsk5; unfold s4, wrote; cbn [dsk]; rewrite Hbn3, Hdt3;
          unfold s3; rewrite dsk_put_buf, Hdsk1; reflexivity|].
  split; [rewrite Hwr5; unfold s4, wrote; cbn [writes]; rewrite Hbn3, Hdt3;
          unfold s3; rewrite writes_put_buf, Hwr1; reflexivity|].
  split; [exact Hb|]. split; [exact Hnh|].
  split; [apply caches_iff; rewrite Hdev5, Hbno5, Hx4; destruct x1; cbn in *; auto|].
  split; [rewrite Hv5, Hx4; destruct x1; cbn in *; exact Hv1|].
  rewrite Hd5, Hx4. destruct x1; reflexivity.
Qed.

(** The in-memory header as [read_head] leaves it, from contents [d]. *)
Definition head_loaded (d : list Z) : log_t :=
  get_blocks (Z.to_nat (hdr_n d)) 0 d (set_lh_n (hdr_n d) l).

Lemma head_loaded_decodes d :
  0 <= hdr_n d -> (Z.to_nat (hdr_n d) <= length (lh_block (lh l)))%nat ->
  lh_n (lh (head_loaded d)) = hdr_n d /\
  (forall i, 0 <= i < hdr_n d -> block_at (head_loaded d) i = hdr_block d i) /\
  (forall i, hdr_n d <= i -> block_at (head_loaded d) i = block_at l i).
Proof.
  intros Hn Hlen. unfold head_loaded.
  destruct (get_blocks_fields (Z.to_nat (hdr_n d)) 0 d (set_lh_n (hdr_n d) l))
    as (_ & _ & _ & _ & _ & _ & G & _).
  split; [rewrite G; reflexivity|]. split.
  - intros i Hi. rewrite block_at_get_blocks; try lia.
    + destruct (Z.leb_spec 0 i); [|lia].
      destruct (Z.ltb_spec i (0 + Z.of_nat (Z.to_nat (hdr_n d)))); [reflexivity|lia].
    + cbn. rewrite Z.add_0_l, Nat2Z.id. exact Hlen.
  - intros i Hi. rewrite block_at_get_blocks; try lia.
    + destruct (Z.leb_spec 0 i); destruct (Z.ltb_spec i (0 + Z.of_nat (Z.to_nat (hdr_n d))));
        cbn [andb]; try reflexivity. lia.
    + cbn. rewrite Z.add_0_l, Nat2Z.id. exact Hlen.
Qed.

Lemma read_head_spec d :
  readable dv bno held s -> current dv bno s d ->
  0 <= hdr_n d ->
  exists s',
    Does (read_head ba) pid s tt s' /\
    cache_ok pid held s' /\
    NBUF_of s' = NBUF_of s /\
    log s' = head_loaded d /\
    dsk s' = dsk s /\ writes s' = writes s.
Proof.
  intros Hrd Hcur Hn.
  destruct (bread_any ba dv bno pid held s d Hok Hrd Hcur)
    as (b & s1 & HD1 & Hb & Hnh & Hok1 & HN1 & Hoth1 & Hlog1 & Hdsk1 & Hwr1 &
        Hdev1 & Hbno1 & Hv1 & Hd1).
  assert (Hb1 : (b < NBUF_of s1)%nat) by (rewrite HN1; exact Hb).
  set (s2 := set_log (set_lh_n (hdr_n d) l) s1).
  set (s3 := set_log (head_loaded d) s1).
  assert (Hn32 : hdr_n d < 2 ^ 31).
  { unfold hdr_n, get32. apply s32_range. }
  assert (Hloop : Does (read_head_loop (Z.to_nat (hdr_n d)) b 0) pid s2 tt s3).
  { pose proof (read_head_loop_run pid b (Z.to_nat (hdr_n d)) (Z.to_nat (hdr_n d)) 0 s2) as H.
    change (get_buf b s2) with (get_buf b s1) in H. rewrite Hd1 in H.
    apply H; try lia. cbn. lia. }
  assert (Hok3 : cache_ok pid (b :: held) s3) by (apply (cache_ok_bcache _ _ s1); auto).
  destruct (brelse_spec ba pid (b :: held) held s3 b Hok3) as
    (s5 & HD5 & Hok5 & HN5 & Hoth5 & Hlog5 & Hdsk5 & Hwr5 & _).
  { exact Hb1. }
  { left. reflexivity. }
  { exact Hnh. }
  { intros x Hne. cbn [In]. split; [auto|intros [E|E]; [congruence|assumption]]. }
  exists s5. split.
  { unfold read_head.
    eapply Does_bind; [apply Does_the_log|]. cbv beta.
    eapply Does_bind; [exact HD1|]. cbv beta.
    eapply Does_bind; [apply (Does_rd b data)|]. cbv beta. rewrite Hd1.
    eapply Does_bind; [apply Does_wr_log|]. rewrite Hlog1. fold s2.
    eapply Does_bind; [apply Does_the_log|]. cbv beta.
    eapply Does_bind; [exact Hloop|]. exact HD5. }
  split; [exact Hok5|].
  split; [rewrite HN5; exact HN1|].
  split; [rewrite Hlog5; reflexivity|].
  split; [rewrite Hdsk5; exact Hdsk1|rewrite Hwr5; exact Hwr1].
Qed.
End LogHead.

(** The block is current in the cache and on the disk after it has
    been written from buffer [b]. *)
Lemma current_after_write pid held s dv bno b d :
  cache_ok pid held s -> (b < NBUF_of s)%nat ->
  caches dv bno (get_buf b s) = true -> data (get_buf b s) = d -> dsk s bno = d ->
  current dv bno s d.
Proof.
  intros (_ & _ & _ & Hu) Hb Hc Hd Hk. split; [|intros _; exact Hk].
  intros x Hx Hcx _.
  apply caches_iff in Hc. apply caches_iff in Hcx.
  assert (x = b) by (apply Hu; try assumption; destruct Hc, Hcx; congruence).
  subst x. exact Hd.
Qed.

(** X26 (log.c, write_head): [write_head] returns and makes exactly
    one disk write, of the header block of the log: the block then
    holds the count [n] of the in-memory header and its first [n] block
    numbers, as [hdr_n] and [hdr_block] read them, on the disk and in
    the cache alike. The in-memory log, every other disk block and the
    consistency of the cache are kept. *)
Theorem write_head_persists ba pid held s d :
  cache_ok pid held s ->
  readable (u32 (lg_dev (log s))) (u32 (lg_start (log s))) held s ->
  current (u32 (lg_dev (log s))) (u32 (lg_start (log s))) s d ->
  0 <= lh_n (lh (log s)) < 2 ^ 31 ->
  (4 + 4 * Z.to_nat (lh_n (lh (log s))) <= length d)%nat ->
  exists s' d',
    Does (write_head ba) pid s tt s' /\
    cache_ok pid held s' /\ log s' = log s /\
    dsk s' (u32 (lg_start (log s))) = d' /\
    (forall k, k <> u32 (lg_start (log s)) -> dsk s' k = dsk s k) /\
    writes s' = writes s ++ [(u32 (lg_start (log s)), d')] /\
    current (u32 (lg_dev (log s))) (u32 (lg_start (log s))) s' d' /\
    hdr_n d' = lh_n (lh (log s)) /\
    (forall i, 0 <= i < lh_n (lh (log s)) -> hdr_block d' i = s32 (block_at (log s) i)) /\
    length d' = length d.
Proof.
  intros Hok Hrd Hcur Hn Hlen.
  destruct (write_head_spec ba pid held s Hok d Hrd Hcur Hn)
    as (b & s' & HD & Hok' & HN & Hlog & Hdsk & Hwr & Hb & Hnh & Hc & Hv & Hdt).
  destruct (head_image_decodes s d Hn Hlen) as (D1 & D2 & D3).
  exists s', (head_image s d).
  split; [exact HD|]. split; [exact Hok'|]. split; [exact Hlog|].
  split; [rewrite Hdsk, Z.eqb_refl; reflexivity|].
  split; [intros k Hk; rewrite Hdsk; apply Z.eqb_neq in Hk; rewrite Hk; reflexivity|].
  split; [exact Hwr|].
  split; [|split; [exact D1|split; [exact D2|exact D3]]].
  apply (current_after_write pid held s' _ _ b); try assumption.
  - rewrite HN. exact Hb.
  - rewrite Hdsk, Z.eqb_refl. reflexivity.
Qed.

(** *** Reading the header when the log is set up

    [read_head] runs when the log is initialised, before the cache has
    been used much: right after [binit] all buffers still carry the
    same identity, so the cache is described without the requirement
    that no block is cached twice. *)
Definition cache_wf (pid : Z) (held : list nat) (s : fs) : Prop :=
  locked (bc_lock (bcache s)) = 0 /\
  (exists l, dll s l /\ forall x, (x < NBUF_of s)%nat -> In x l) /\
  (forall x, (x < NBUF_of s)%nat ->
     (In x held -> mine pid (get_buf x s)) /\ (~ In x held -> quiet (get_buf x s))).

Lemma cache_ok_wf pid held s : cache_ok pid held s -> cache_wf pid held s.
Proof. intros (H1 & H2 & H3 & _). split; [exact H1|]. split; [exact H2|exact H3]. Qed.

Lemma cache_wf_step pid held held' b s s' :
  cache_wf pid held s ->
  NBUF_of s' = NBUF_of s ->
  locked (bc_lock (bcache s')) = 0 ->
  (exists l, dll s' l /\ forall x, (x < NBUF_of s)%nat -> In x l) ->
  (forall x, (x < NBUF_of s)%nat -> x <> b -> info (get_buf x s') = info (get_buf x s)) ->
  (b < NBUF_of s)%nat ->
  (In b held' -> mine pid (get_buf b s')) ->
  (~ In b held' -> quiet (get_buf b s')) ->
  (forall x, x <> b -> In x held' <-> In x held) ->
  cache_wf pid held' s'.
Proof.
  intros (Hlk & Hl & Hst) HN Hlk' Hl' Hoth Hb Hmine Hquiet Hheld.
  unfold cache_wf. rewrite HN. split; [assumption|]. split; [assumption|].
  intros x Hx. destruct (Nat.eq_dec x b) as [->|Hne]; [split; assumption|].
  pose proof (Hoth x Hx Hne) as E. apply info_fields in E.
  destruct E as (_ & _ & _ & El & Er & _).
  destruct (Hst x Hx) as [Hm Hq]. rewrite (Hheld x Hne). split.
  - intros Hin. destruct (Hm Hin) as [H1 H2]. unfold mine. rewrite El, Er. split; assumption.
  - intros Hin. destruct (Hq Hin) as (H1 & H2 & H3). unfold quiet. rewrite El, Er.
    repeat split; assumption || apply H3.
Qed.

Lemma cache_wf_bcache pid held s s' :
  bcache s' = bcache s -> cache_wf pid held s -> cache_wf pid held s'.
Proof.
  intros H Hok. unfold cache_wf, dll, nxt, prv, get_buf, NBUF_of in *.
  rewrite H. exact Hok.
Qed.

(** [bread] of a block that no buffer caches, when some buffer is
    free. *)
Lemma bread_fresh ba dv bno pid held s :
  cache_wf pid held s ->
  (forall x, (x < NBUF_of s)%nat -> caches dv bno (get_buf x s) = false) ->
  (exists x, (x < NBUF_of s)%nat /\ refcnt (get_buf x s) = 0) ->
  exists b s',
    Does (bread ba dv bno) pid s b s' /\
    (b < NBUF_of s)%nat /\ ~ In b held /\
    cache_wf pid (b :: held) s' /\
    NBUF_of s' = NBUF_of s /\
    (forall x, (x < NBUF_of s)%nat -> x <> b -> get_buf x s' = get_buf x s) /\
    log s' = log s /\ dsk s' = dsk s /\ writes s' = writes s /\
    dev (get_buf b s') = dv /\ blockno (get_buf b s') = bno /\
    valid (get_buf b s') = 1 /\
    refcnt (get_buf b s') = 1 /\
    data (get_buf b s') = dsk s bno.
Proof.
  intros Hok Hmiss (x0 & Hx0 & Hfree0).
  pose proof Hok as (Hlk & (l & Hd & Hcov) & Hst).
  destruct (split_last_such (fun x => refcnt (get_buf x s) =? 0) l) as (l1 & b & l2 & El & Hb0 & Hbusy).
  { exists x0. split; [apply Hcov; assumption|]. apply Z.eqb_eq. assumption. }
  apply Z.eqb_eq in Hb0. subst l.
  assert (Hb : (b < NBUF_of s)%nat)
    by (apply (dll_bound s (l1 ++ b :: l2)); [assumption|apply in_elt]).
  assert (Hnh : ~ In b held).
  { intros Hin. destruct (Hst b Hb) as [Hm _]. destruct (Hm Hin) as [_ Hr]. lia. }
  destruct (Hst b Hb) as [_ Hq]. specialize (Hq Hnh). destruct Hq as (Hq1 & Hq2 & Hq3).
  set (s1 := recycle dv bno pid b s).
  exists b, (load_buf b s1).
  assert (HN1 : NBUF_of s1 = NBUF_of s) by apply NBUF_touch.
  assert (Hg : get_buf b s1 = recycled dv bno pid (get_buf b s)) by apply get_touch.
  destruct (rest_touch b (recycled dv bno pid (get_buf b s)) s) as (Hbl1 & Hlog1 & Hwr1 & Hdsk1).
  change (touch b (recycled dv bno pid (get_buf b s)) s) with s1 in Hbl1, Hlog1, Hwr1, Hdsk1.
  assert (Hgl : get_buf b (load_buf b s1) =
                set_valid 1 (set_data (dsk s bno) (recycled dv bno pid (get_buf b s)))).
  { rewrite get_load. cbv zeta. rewrite Hg, Hdsk1. reflexivity. }
  assert (Hoth : forall x, (x < NBUF_of s)%nat -> x <> b ->
            get_buf x (load_buf b s1) = get_buf x s).
  { intros x Hx Hne. rewrite content_load_other by (rewrite ?HN1; assumption).
    apply get_touch_other; assumption. }
  destruct (rest_load b s1) as [Hrest Hdsk].
  apply rest_fields in Hrest. destruct Hrest as (Hbl & Hlog & Hwr).
  split; [|split; [|split; [|split; [|split; [|split; [|split; [|split; [|split]]]]]]]].
  - apply Does_of_eq. intros c pt e Hn.
    erewrite bread_eq.
    2:{ apply (bget_miss ba dv bno (mkWorld c pid pt s e) (l1 ++ b :: l2)) with (l1 := l1) (l2 := l2);
          cbn [st cpu]; try assumption; try reflexivity.
        - intros x Hx. apply Hmiss. apply (dll_bound s (l1 ++ b :: l2)); assumption.
        - exact Hb0.
        - intros x Hx. apply Z.eqb_neq. apply Hbusy. assumption.
        - exact Hq2.
        - exact Hq1. }
    reflexivity.
  - exact Hb.
  - exact Hnh.
  - apply (cache_wf_step pid held (b :: held) b s); try assumption.
    + rewrite NBUF_load. exact HN1.
    + rewrite Hbl, Hbl1. reflexivity.
    + exists (l1 ++ b :: l2). split; [|assumption].
      apply dll_load; [rewrite HN1; assumption|].
      unfold s1. rewrite recycle_touch. apply dll_touch; try assumption; reflexivity.
    + intros x Hx Hne. rewrite Hoth by assumption. reflexivity.
    + intros _. rewrite Hgl. unfold mine. cbn. split; [reflexivity|lia].
    + intros Hn. exfalso. apply Hn. left. reflexivity.
    + intros x Hne. cbn [In]. split; [intros [E|E]; [congruence|assumption]|auto].
  - rewrite NBUF_load. exact HN1.
  - exact Hoth.
  - congruence.
  - congruence.
  - congruence.
  - rewrite Hgl. cbn. repeat split.
Qed.

Lemma brelse_wf ba pid held held' s b :
  cache_wf pid held s -> (b < NBUF_of s)%nat -> In b held ->
  ~ In b held' -> (forall x, x <> b -> In x held' <-> In x held) ->
  exists s',
    Does (brelse ba b) pid s tt s' /\
    cache_wf pid held' s' /\
    NBUF_of s' = NBUF_of s /\
    (forall x, (x < NBUF_of s)%nat -> x <> b -> info (get_buf x s') = info (get_buf x s)) /\
    log s' = log s /\ dsk s' = dsk s /\ writes s' = writes s /\
    dev (get_buf b s') = dev (get_buf b s) /\
    blockno (get_buf b s') = blockno (get_buf b s) /\
    valid (get_buf b s') = valid (get_buf b s) /\
    data (get_buf b s') = data (get_buf b s) /\
    refcnt (get_buf b s') = refcnt (get_buf b s) - 1.
Proof.
  intros Hok Hb Hin Hnin Hheld.
  pose proof Hok as (Hlk & (l & Hd & Hcov) & Hst).
  destruct (Hst b Hb) as [Hm _]. destruct (Hm Hin) as [Hl Hr].
  exists (let_go b s).
  destruct (let_go_facts b s l Hd Hb Hcov) as (HN & Hinfo & Hbl & Hlog & Hwr & Hdsk & Hl').
  assert (Hbi : info (get_buf b (let_go b s)) = info (released (get_buf b s))).
  { rewrite Hinfo by assumption. rewrite Nat.eqb_refl. reflexivity. }
  apply info_fields in Hbi. cbn [released valid dev blockno lock refcnt data] in Hbi.
  destruct Hbi as (B1 & B2 & B3 & B4 & B5 & B6).
  assert (Hoth : forall x, (x < NBUF_of s)%nat -> x <> b ->
            info (get_buf x (let_go b s)) = info (get_buf x s)).
  { intros x Hx Hne. rewrite Hinfo by assumption.
    destruct (Nat.eqb_spec x b); [contradiction|reflexivity]. }
  split; [|split; [|split; [|split; [|split; [|split; [|split]]]]]]; try assumption.
  - apply (Does_of_eq_pt _ (map (wake (addr (buf_lock ba b))))). intros c pt e Hn.
    rewrite brelse_let_go; cbn [st cpu mypid]; try assumption; [reflexivity|lia].
  - apply (cache_wf_step pid held held' b s); try assumption.
    + rewrite Hbl. reflexivity.
    + intros Hc. contradiction.
    + intros _. unfold quiet. rewrite B4, B5. cbn. repeat split; lia.
  - repeat split; assumption.
Qed.

Lemma read_head_fresh ba pid held s :
  cache_wf pid held s ->
  (forall x, (x < NBUF_of s)%nat ->
     caches (u32 (lg_dev (log s))) (u32 (lg_start (log s))) (get_buf x s) = false) ->
  (exists x, (x < NBUF_of s)%nat /\ refcnt (get_buf x s) = 0) ->
  0 <= hdr_n (dsk s (u32 (lg_start (log s)))) ->
  exists b s',
    Does (read_head ba) pid s tt s' /\
    cache_wf pid held s' /\
    NBUF_of s' = NBUF_of s /\
    log s' = head_loaded s (dsk s (u32 (lg_start (log s)))) /\
    dsk s' = dsk s /\ writes s' = writes s /\
    (b < NBUF_of s)%nat /\
    caches (u32 (lg_dev (log s))) (u32 (lg_start (log s))) (get_buf b s') = true /\
    valid (get_buf b s') = 1 /\ refcnt (get_buf b s') = 0 /\
    data (get_buf b s') = dsk s (u32 (lg_start (log s))) /\
    (forall x, (x < NBUF_of s)%nat -> x <> b -> info (get_buf x s') = info (get_buf x s)).
Proof.
  intros Hok Hmiss Hfree Hn.
  set (d := dsk s (u32 (lg_start (log s)))) in *.
  destruct (bread_fresh ba _ _ pid held s Hok Hmiss Hfree)
    as (b & s1 & HD1 & Hb & Hnh & Hok1 & HN1 & Hoth1 & Hlog1 & Hdsk1 & Hwr1 &
        Hdev1 & Hbno1 & Hv1 & Hr1 & Hd1).
  fold d in Hd1.
  assert (Hb1 : (b < NBUF_of s1)%nat) by (rewrite HN1; exact Hb).
  set (s2 := set_log (set_lh_n (hdr_n d) (log s)) s1).
  set (s3 := set_log (head_loaded s d) s1).
  assert (Hn32 : hdr_n d < 2 ^ 31).
  { unfold hdr_n, get32. apply s32_range. }
  assert (Hloop : Does (read_head_loop (Z.to_nat (hdr_n d)) b 0) pid s2 tt s3).
  { pose proof (read_head_loop_run pid b (Z.to_nat (hdr_n d)) (Z.to_nat (hdr_n d)) 0 s2) as H.
    change (get_buf b s2) with (get_buf b s1) in H. rewrite Hd1 in H.
    apply H; try lia. cbn. lia. }
  assert (Hok3 : cache_wf pid (b :: held) s3) by (apply (cache_wf_bcache _ _ s1); auto).
  destruct (brelse_wf ba pid (b :: held) held s3 b Hok3) as
    (s5 & HD5 & Hok5 & HN5 & Hoth5 & Hlog5 & Hdsk5 & Hwr5 & Hdev5 & Hbno5 & Hv5 & Hd5 & Hr5).
  { exact Hb1. }
  { left. reflexivity. }
  { exact Hnh. }
  { intros x Hne. cbn [In]. split; [auto|intros [E|E]; [congruence|assumption]]. }
  change (get_buf b s3) with (get_buf b s1) in *.
  exists b, s5. split.
  { unfold read_head.
    eapply Does_bind; [apply Does_the_log|]. cbv beta.
    eapply Does_bind; [exact HD1|]. cbv beta.
    eapply Does_bind; [apply (Does_rd b data)|]. cbv beta. rewrite Hd1.
    eapply Does_bind; [apply Does_wr_log|]. rewrite Hlog1. fold s2.
    eapply Does_bind; [apply Does_the_log|]. cbv beta.
    eapply Does_bind; [exact Hloop|]. exact HD5. }
  split; [exact Hok5|].
  split; [rewrite HN5; exact HN1|].
  split; [rewrite Hlog5; reflexivity|].
  split; [rewrite Hdsk5; exact Hdsk1|].
  split; [rewrite Hwr5; exact Hwr1|].
  split; [exact Hb|].
  split; [apply caches_iff; rewrite Hdev5, Hbno5; auto|].
  split; [rewrite Hv5; exact Hv1|].
  split; [rewrite Hr5, Hr1; reflexivity|].
  split; [rewrite Hd5; exact Hd1|].
  intros x Hx Hne.
  change (NBUF_of s3) with (NBUF_of s1) in Hoth5.
  rewrite Hoth5 by (rewrite ?HN1; assumption).
  change (get_buf x s3) with (get_buf x s1). rewrite Hoth1 by assumption. reflexivity.
Qed.

(** X27 (log.c, read_head): [read_head], called when the log is set
    up (no buffer caches the header block yet, and some buffer is
    free), returns and loads the in-memory header from the header block
    on the disk: the count is the block's [n], and the first [n] block
    numbers are the block's. The rest of the log and the disk are kept,
    nothing is written, the cache stays well formed, and the header
    block is left cached, valid and released. *)
Theorem read_head_loads ba pid held s :
  cache_wf pid held s ->
  (forall x, (x < NBUF_of s)%nat ->
     caches (u32 (lg_dev (log s))) (u32 (lg_start (log s))) (get_buf x s) = false) ->
  (exists x, (x < NBUF_of s)%nat /\ refcnt (get_buf x s) = 0) ->
  0 <= hdr_n (dsk s (u32 (lg_start (log s)))) ->
  (Z.to_nat (hdr_n (dsk s (u32 (lg_start (log s))))) <= length (lh_block (lh (log s))))%nat ->
  exists s',
    Does (read_head ba) pid s tt s' /\
    cache_wf pid held s' /\
    lh_n (lh (log s')) = hdr_n (dsk s (u32 (lg_start (log s)))) /\
    (forall i, 0 <= i < hdr_n (dsk s (u32 (lg_start (log s)))) ->
       block_at (log s') i = hdr_block (dsk s (u32 (lg_start (log s)))) i) /\
    (forall i, hdr_n (dsk s (u32 (lg_start (log s)))) <= i ->
       block_at (log s') i = block_at (log s) i) /\
    lg_start (log s') = lg_start (log s) /\ lg_size (log s') = lg_size (log s) /\
    lg_dev (log s') = lg_dev (log s) /\ outstanding (log s') = outstanding (log s) /\
    committing (log s') = committing (log s) /\
    dsk s' = dsk s /\ writes s' = writes s /\
    exists b, (b < NBUF_of s)%nat /\
      caches (u32 (lg_dev (log s))) (u32 (lg_start (log s))) (get_buf b s') = true /\
      valid (get_buf b s') = 1 /\ refcnt (get_buf b s') = 0 /\
      data (get_buf b s') = dsk s (u32 (lg_start (log s))).
Proof.
  intros Hok Hmiss Hfree Hn Hlen.
  destruct (read_head_fresh ba pid held s Hok Hmiss Hfree Hn)
    as (b & s' & HD & Hok' & HN & Hlog & Hdsk & Hwr & Hb & Hc & Hv & Hr & Hd & _).
  set (d := dsk s (u32 (lg_start (log s)))) in *.
  destruct (head_loaded_decodes s d Hn Hlen) as (D1 & D2 & D3).
  destruct (get_blocks_fields (Z.to_nat (hdr_n d)) 0 d (set_lh_n (hdr_n d) (log s)))
    as (_ & F1 & F2 & F3 & F4 & F5 & _).
  exists s'. rewrite Hlog.
  split; [exact HD|]. split; [exact Hok'|]. split; [exact D1|]. split; [exact D2|].
  split; [exact D3|]. unfold head_loaded.
  split; [exact F1|]. split; [exact F2|]. split; [exact F5|]. split; [exact F3|].
  split; [exact F4|]. split; [exact Hdsk|]. split; [exact Hwr|].
  exists b. repeat (split; [assumption|]). assumption.
Qed.

(** The log with another in-memory header. *)
Definition set_lh (h : logheader) (l : log_t) : log_t :=
  mkLog (lg_lock l) (lg_start l) (lg_size l) (outstanding l) (committing l) (lg_dev l) h.

(** X28 (log.c, write_head and read_head): the header survives the
    round trip through its block. After [write_head], whatever the
    in-memory header is overwritten with, [read_head] brings back the
    count and the block numbers that were written. *)
Theorem log_head_round_trip ba pid held s d h :
  cache_ok pid held s ->
  readable (u32 (lg_dev (log s))) (u32 (lg_start (log s))) held s ->
  current (u32 (lg_dev (log s))) (u32 (lg_start (log s))) s d ->
  0 <= lh_n (lh (log s)) < 2 ^ 31 ->
  (4 + 4 * Z.to_nat (lh_n (lh (log s))) <= length d)%nat ->
  (forall i, 0 <= i < lh_n (lh (log s)) -> is_s32 (block_at (log s) i)) ->
  (Z.to_nat (lh_n (lh (log s))) <= length (lh_block h))%nat ->
  exists s',
    Does (write_head ba ;; wr_log (set_lh h) ;; read_head ba) pid s tt s' /\
    cache_ok pid held s' /\
    lh_n (lh (log s')) = lh_n (lh (log s)) /\
    (forall i, 0 <= i < lh_n (lh (log s)) -> block_at (log s') i = block_at (log s) i).
Proof.
  intros Hok Hrd Hcur Hn Hlen Hs32 Hslots.
  destruct (write_head_spec ba pid held s Hok d Hrd Hcur Hn)
    as (b & s1 & HD1 & Hok1 & HN1 & Hlog1 & Hdsk1 & Hwr1 & Hb & Hnh & Hc1 & Hv1 & Hdt1).
  destruct (head_image_decodes s d Hn Hlen) as (D1 & D2 & D3).
  set (d1 := head_image s d) in *.
  set (s2 := set_log (set_lh h (log s1)) s1).
  assert (Hok2 : cache_ok pid held s2) by (apply (cache_ok_bcache _ _ s1); auto).
  assert (Hb1 : (b < NBUF_of s1)%nat) by (rewrite HN1; exact Hb).
  assert (Hcur2 : current (u32 (lg_dev (log s2))) (u32 (lg_start (log s2))) s2 d1).
  { cbn [s2 set_log log set_lh lg_dev lg_start]. rewrite Hlog1.
    apply (current_after_write pid held s2 _ _ b); try assumption.
    cbn [s2 set_log dsk]. rewrite Hdsk1, Z.eqb_refl. reflexivity. }
  assert (Hrd2 : readable (u32 (lg_dev (log s2))) (u32 (lg_start (log s2))) held s2).
  { cbn [s2 set_log log set_lh lg_dev lg_start]. rewrite Hlog1.
    left. exists b. split; [exact Hb1|]. split; [exact Hc1|exact Hnh]. }
  assert (Hn2 : 0 <= hdr_n d1) by lia.
  destruct (read_head_spec ba pid held s2 Hok2 d1 Hrd2 Hcur2 Hn2)
    as (s3 & HD3 & Hok3 & HN3 & Hlog3 & Hdsk3 & Hwr3).
  destruct (head_loaded_decodes s2 d1 Hn2) as (E1 & E2 & _).
  { rewrite D1. exact Hslots. }
  exists s3. split.
  { eapply Does_bind; [exact HD1|]. cbv beta.
    eapply Does_bind; [apply Does_wr_log|]. exact HD3. }
  split; [exact Hok3|]. rewrite Hlog3. split; [rewrite E1; exact D1|].
  intros i Hi. rewrite E2 by lia. rewrite D2 by lia.
  apply s32_id. apply Hs32. exact Hi.
Qed.

(** The cache after three reads, with a log whose header names one
    block. *)
Definition head_fs : fs :=
  set_log (mkLog (mkSpin 0 None) 2 31 0 0 1 (mkLh 1 (5 :: repeat 0 29))) (st lru_world).

Lemma head_fs_ok : cache_ok 1 [] head_fs.
Proof. apply (cache_ok_bcache _ _ (st lru_world)); [reflexivity|exact lru_cache_ok]. Qed.

Lemma head_fs_readable : readable 1 2 [] head_fs.
Proof.
  right. split.
  - intros x Hx. change (NBUF_of head_fs) with 3%nat in Hx.
    destruct x as [|[|[|x]]]; [| | |lia]; reflexivity.
  - exists 0%nat. split; [vm_compute; lia|reflexivity].
Qed.

Lemma head_fs_current : current 1 2 head_fs (repeat 0 8).
Proof.
  split; [|intros _; reflexivity].
  intros x Hx. change (NBUF_of head_fs) with 3%nat in Hx.
  destruct x as [|[|[|x]]]; [| | |lia]; discriminate.
Qed.

Lemma write_head_persists_witness :
  exists s' d', Does (write_head (fun _ => 0)) 1 head_fs tt s' /\
                dsk s' 2 = d' /\ hdr_n d' = 1 /\ hdr_block d' 0 = 5.
Proof.
  destruct (write_head_persists (fun _ => 0) 1 [] head_fs (repeat 0 8)
              head_fs_ok head_fs_readable head_fs_current)
    as (s' & d' & HD & _ & _ & Hk & _ & _ & _ & H1 & H2 & _).
  - cbn. lia.
  - cbn. lia.
  - exists s', d'. split; [exact HD|]. split; [exact Hk|]. split; [exact H1|].
    apply (H2 0). cbn. lia.
Defined.

(** The system when the log is set up after a crash: the header
    block (block 2) on the disk names the two blocks 5 and 7 of a
    committed transaction, and the cache is as [binit] leaves it. *)
Definition crashed_fs : fs :=
  mkFs (bcache (blank_fs 3 64 2 31 30)) (log (blank_fs 3 64 2 31 30))
    (fun b => if b =? 2 then [2; 0; 0; 0; 5; 0; 0; 0; 7; 0; 0; 0] ++ repeat 0 52
              else repeat 0 64) [].

Definition booted_fs : fs :=
  Eval vm_compute in st (final_world (binit (fun _ => 0) (mkWorld boot_cpu 1 [] crashed_fs []))).

Lemma booted_fs_wf : cache_wf 1 [] booted_fs.
Proof.
  unfold cache_wf. change (NBUF_of booted_fs) with 3%nat.
  split; [reflexivity|]. split.
  - exists [2; 1; 0]%nat. split.
    + unfold dll. change (NBUF_of booted_fs) with 3%nat.
      split; [|split].
      * vm_compute. repeat split; lia.
      * vm_compute. repeat split; lia.
      * repeat constructor; cbn; lia.
    + intros x Hx. cbn. lia.
  - intros x Hx. split; [intros []|]. intros _.
    destruct x as [|[|[|x]]]; [| | |lia]; vm_compute; repeat split; congruence.
Qed.

Lemma read_head_loads_witness :
  binit (fun _ => 0) (mkWorld boot_cpu 1 [] crashed_fs []) =
    Ok tt (mkWorld boot_cpu 1 [] booted_fs []) /\
  exists s', Does (read_head (fun _ => 0)) 1 booted_fs tt s' /\
             lh_n (lh (log s')) = 2 /\
             block_at (log s') 0 = 5 /\ block_at (log s') 1 = 7.
Proof.
  split; [vm_compute; reflexivity|].
  destruct (read_head_loads (fun _ => 0) 1 [] booted_fs booted_fs_wf)
    as (s' & HD & _ & H1 & H2 & _).
  - intros x Hx. change (NBUF_of booted_fs) with 3%nat in Hx.
    destruct x as [|[|[|x]]]; [| | |lia]; reflexivity.
  - exists 0%nat. split; [vm_compute; lia|reflexivity].
  - vm_compute. discriminate.
  - vm_compute. lia.
  - exists s'. split; [exact HD|]. split; [exact H1|].
    split; [apply (H2 0)|apply (H2 1)]; vm_compute; split; congruence.
Defined.

Lemma log_head_round_trip_witness :
  exists s',
    Does (write_head (fun _ => 0) ;; wr_log (set_lh (mkLh 7 (repeat 9 30))) ;;
          read_head (fun _ => 0)) 1 head_fs tt s' /\
    lh_n (lh (log s')) = 1 /\ block_at (log s') 0 = 5.
Proof.
  destruct (log_head_round_trip (fun _ => 0) 1 [] head_fs (repeat 0 8) (mkLh 7 (repeat 9 30))
              head_fs_ok head_fs_readable head_fs_current)
    as (s' & HD & _ & H1 & H2).
  - cbn. lia.
  - cbn. lia.
  - intros i Hi. cbn in Hi. assert (i = 0) by lia. subst i. vm_compute. split; congruence.
  - cbn. lia.
  - exists s'. split; [exact HD|]. split; [exact H1|]. apply (H2 0). cbn. lia.
Defined.

(** ** The order of the disk writes of a commit *)


(** The log block and the home block of entry [t] of the header, and
    the entries from [t] on. *)
Definition logblk (l : log_t) (t : Z) : Z := u32 (s32 (s32 (lg_start l + t) + 1)).
Definition homeblk (l : log_t) (t : Z) : Z := u32 (block_at l t).
Definition range (t : Z) (k : nat) : list Z := map (fun j => t + Z.of_nat j) (seq 0 k).

Lemma range_succ t k : range t (Datatypes.S k) = t :: range (t + 1) k.
Proof.
  unfold range. cbn [seq map]. rewrite Z.add_0_r. f_equal.
  rewrite <- seq_shift, map_map. apply map_ext. intros j. lia.
Qed.

Lemma range_in t k j : In j (range t k) <-> t <= j < t + Z.of_nat k.
Proof.
  unfold range. rewrite in_map_iff. split.
  - intros (i & <- & Hi). apply in_seq in Hi. lia.
  - intros H. exists (Z.to_nat (j - t)). split; [lia|]. apply in_seq. lia.
Qed.


(** The entries of the in-memory header with their home blocks and
    their log blocks, in order. *)
Definition entries (s : fs) : list Z := range 0 (Z.to_nat (lh_n (lh (log s)))).
Definition home_blocks (s : fs) : list Z := map (homeblk (log s)) (entries s).
Definition log_blocks (s : fs) : list Z := map (logblk (log s)) (entries s).

Section CommitOrder.
Variable ba : nat -> Z.
Variable pid : Z.
(** The device of the log, and the size of a block. *)
Variable dv : Z.
Variable B : nat.

(** Every buffer and every disk block holds [B] bytes. *)
Definition sized (s : fs) : Prop :=
  (forall x, (x < NBUF_of s)%nat -> length (data (get_buf x s)) = B) /\
  (forall k, length (dsk s k) = B).

(** Some buffer has no reference, or only that of the caller. *)
Definition frees (held : list nat) (s : fs) : Prop :=
  exists x, (x < NBUF_of s)%nat /\
    (refcnt (get_buf x s) = 0 \/ (In x held /\ refcnt (get_buf x s) = 1)).

(** The blocks [homes] are cached, each with a reference besides the
    caller's: what [bpin] does for a block that [log_write] logs. *)
Definition pins (homes : list Z) (held : list nat) (s : fs) : Prop :=
  forall h, In h homes ->
    exists x, (x < NBUF_of s)%nat /\ caches dv h (get_buf x s) = true /\
              1 <= refcnt (get_buf x s) /\ (In x held -> 2 <= refcnt (get_buf x s)).

Definition pinned_ok (homes : list Z) (held : list nat) (s : fs) : Prop :=
  cache_ok pid held s /\ frees held s /\ pins homes held s /\ sized s.

Lemma pinned_ok_fewer h homes held s : pinned_ok (h :: homes) held s -> pinned_ok homes held s.
Proof.
  intros (A & C & D & E). split; [exact A|]. split; [exact C|]. split; [|exact E].
  intros k Hk. apply D. right. exact Hk.
Qed.

Lemma cached_dec bno s :
  (exists b, (b < NBUF_of s)%nat /\ caches dv bno (get_buf b s) = true) \/
  (forall x, (x < NBUF_of s)%nat -> caches dv bno (get_buf x s) = false).
Proof.
  destruct (existsb (fun x => caches dv bno (get_buf x s)) (seq 0 (NBUF_of s))) eqn:E.
  - left. apply existsb_exists in E. destruct E as (b & Hb & Hc).
    apply in_seq in Hb. exists b. split; [lia|exact Hc].
  - right. intros x Hx. destruct (caches dv bno (get_buf x s)) eqn:Ec; [|reflexivity].
    assert (existsb (fun x => caches dv bno (get_buf x s)) (seq 0 (NBUF_of s)) = true).
    { apply existsb_exists. exists x. split; [apply in_seq; lia|exact Ec]. }
    congruence.
Qed.

(** [bread] of a block that is not pinned, by a caller that holds
    nothing. *)
Lemma bread_other homes s A :
  pinned_ok homes [] s -> ~ In A homes ->
  exists a s',
    Does (bread ba dv A) pid s a s' /\
    pinned_ok homes [a] s' /\
    (a < NBUF_of s')%nat /\ NBUF_of s' = NBUF_of s /\
    dev (get_buf a s') = dv /\ blockno (get_buf a s') = A /\
    log s' = log s /\ dsk s' = dsk s /\ writes s' = writes s.
Proof.
  intros (Hok & (x0 & Hx0 & Hfree) & Hpins & Hsz1 & Hsz2) HA.
  destruct Hfree as [Hfree|[[] _]].
  destruct (cached_dec A s) as [(b & Hb & Hc)|Hmiss].
  - destruct (bread_hit ba dv A pid [] s Hok b Hb Hc (fun H => H))
      as (s1 & HD1 & Hok1 & HN1 & Hoth1 & Hlog1 & Hdsk1 & Hwr1 & Hdev1 & Hbno1 & Hv1 & Hr1 & Hd1).
    exists b, s1. split; [exact HD1|]. split; [|rewrite HN1; repeat split; assumption].
    split; [exact Hok1|]. split; [|split; [|split]].
    + exists x0. rewrite HN1. split; [exact Hx0|].
      destruct (Nat.eq_dec x0 b) as [->|Hne].
      * right. split; [left; reflexivity|]. rewrite Hr1, Hfree. reflexivity.
      * left. rewrite Hoth1 by assumption. exact Hfree.
    + intros h Hh. destruct (Hpins h Hh) as (x & Hx & Hcx & Hrx & _).
      assert (Hne : x <> b).
      { intros ->. apply caches_iff in Hc. apply caches_iff in Hcx.
        destruct Hc as [_ E1], Hcx as [_ E2]. apply HA. congruence. }
      exists x. rewrite HN1, Hoth1 by assumption.
      split; [exact Hx|]. split; [exact Hcx|]. split; [exact Hrx|].
      intros [E|[]]. congruence.
    + rewrite HN1. intros x Hx. destruct (Nat.eq_dec x b) as [->|Hne].
      * rewrite Hd1. destruct (valid (get_buf b s) =? 0); [apply Hsz2|apply Hsz1, Hb].
      * rewrite Hoth1 by assumption. apply Hsz1, Hx.
    + intros k. rewrite Hdsk1. apply Hsz2.
  - destruct (bread_miss ba dv A pid [] s Hok Hmiss (ex_intro _ x0 (conj Hx0 Hfree)))
      as (b & s1 & HD1 & Hb & Hnh & Hb0 & Hok1 & HN1 & Hoth1 & Hlog1 & Hdsk1 & Hwr1 &
          Hdev1 & Hbno1 & Hv1 & Hr1 & Hd1).
    exists b, s1. split; [exact HD1|]. split; [|rewrite HN1; repeat split; assumption].
    split; [exact Hok1|]. split; [|split; [|split]].
    + exists b. rewrite HN1. split; [exact Hb|]. right. split; [left; reflexivity|exact Hr1].
    + intros h Hh. destruct (Hpins h Hh) as (x & Hx & Hcx & Hrx & _).
      assert (Hne : x <> b) by (intros ->; lia).
      exists x. rewrite HN1, Hoth1 by assumption.
      split; [exact Hx|]. split; [exact Hcx|]. split; [exact Hrx|].
      intros [E|[]]. congruence.
    + rewrite HN1. intros x Hx. destruct (Nat.eq_dec x b) as [->|Hne].
      * rewrite Hd1. apply Hsz2.
      * rewrite Hoth1 by assumption. apply Hsz1, Hx.
    + intros k. rewrite Hdsk1. apply Hsz2.
Qed.

(** [bread] of a pinned block that no held buffer caches. *)
Lemma bread_pinned homes held s H :
  pinned_ok homes held s -> In H homes ->
  (forall y, In y held -> caches dv H (get_buf y s) = false) ->
  exists b s',
    Does (bread ba dv H) pid s b s' /\
    pinned_ok homes (b :: held) s' /\
    (b < NBUF_of s')%nat /\ NBUF_of s' = NBUF_of s /\ ~ In b held /\
    dev (get_buf b s') = dv /\ blockno (get_buf b s') = H /\
    2 <= refcnt (get_buf b s') /\
    (forall y, (y < NBUF_of s)%nat -> y <> b -> get_buf y s' = get_buf y s) /\
    log s' = log s /\ dsk s' = dsk s /\ writes s' = writes s.
Proof.
  intros (Hok & (x0 & Hx0 & Hfree) & Hpins & Hsz1 & Hsz2) HH Hheld.
  destruct (Hpins H HH) as (b & Hb & Hc & Hrb & _).
  assert (Hnh : ~ In b held).
  { intros Hin. rewrite (Hheld b Hin) in Hc. discriminate. }
  destruct (bread_hit ba dv H pid held s Hok b Hb Hc Hnh)
    as (s1 & HD1 & Hok1 & HN1 & Hoth1 & Hlog1 & Hdsk1 & Hwr1 & Hdev1 & Hbno1 & Hv1 & Hr1 & Hd1).
  exists b, s1. split; [exact HD1|].
  split; [|rewrite HN1; repeat split; try assumption; lia].
  split; [exact Hok1|]. split; [|split; [|split]].
  - exists x0. rewrite HN1. split; [exact Hx0|].
    assert (Hne : x0 <> b).
    { intros ->. destruct Hfree as [E|[Hin _]]; [lia|exact (Hnh Hin)]. }
    rewrite Hoth1 by assumption.
    destruct Hfree as [E|[Hin E]]; [left; exact E|right; split; [right; exact Hin|exact E]].
  - intros h Hh. destruct (Hpins h Hh) as (x & Hx & Hcx & Hrx & Hhx).
    exists x. rewrite HN1. split; [exact Hx|].
    destruct (Nat.eq_dec x b) as [->|Hne].
    + split; [apply caches_iff; apply caches_iff in Hcx; apply caches_iff in Hc;
              destruct Hcx, Hc; split; congruence|].
      rewrite Hr1. split; [lia|intros _; lia].
    + rewrite Hoth1 by assumption. split; [exact Hcx|]. split; [exact Hrx|].
      intros [E|Hin]; [congruence|exact (Hhx Hin)].
  - rewrite HN1. intros x Hx. destruct (Nat.eq_dec x b) as [->|Hne].
    + rewrite Hd1. destruct (valid (get_buf b s) =? 0); [apply Hsz2|apply Hsz1, Hb].
    + rewrite Hoth1 by assumption. apply Hsz1, Hx.
  - intros k. rewrite Hdsk1. apply Hsz2.
Qed.

Lemma get_set_data s b d x :
  (b < NBUF_of s)%nat -> (x < NBUF_of s)%nat ->
  get_buf x (put_buf b (set_data d (get_buf b s)) s) =
    if Nat.eqb x b then set_data d (get_buf b s) else get_buf x s.
Proof. intros Hb Hx. apply get_put_buf_canon; lia. Qed.

(** New contents for a buffer. *)
Lemma pinned_ok_set_data homes held s b d :
  pinned_ok homes held s -> (b < NBUF_of s)%nat -> length d = B ->
  pinned_ok homes held (put_buf b (set_data d (get_buf b s)) s).
Proof.
  intros (Hok & (x0 & Hx0 & Hfree) & Hpins & Hsz1 & Hsz2) Hb Hd.
  split; [apply cache_ok_set_data; assumption|].
  split; [|split; [|split]].
  - exists x0. rewrite NBUF_put_buf. split; [exact Hx0|].
    rewrite get_set_data by assumption.
    destruct (Nat.eqb_spec x0 b) as [->|_]; exact Hfree.
  - intros h Hh. destruct (Hpins h Hh) as (x & Hx & Hcx & Hrx & Hhx).
    exists x. rewrite NBUF_put_buf. split; [exact Hx|].
    rewrite get_set_data by assumption.
    destruct (Nat.eqb_spec x b) as [->|_]; repeat split; assumption.
  - rewrite NBUF_put_buf. intros x Hx. rewrite get_set_data by assumption.
    destruct (Nat.eqb_spec x b) as [->|_]; [exact Hd|apply Hsz1, Hx].
  - intros k. rewrite dsk_put_buf. apply Hsz2.
Qed.

(** A buffer written to the disk. *)
Lemma pinned_ok_wrote homes held s b :
  pinned_ok homes held s -> (b < NBUF_of s)%nat -> pinned_ok homes held (wrote b s).
Proof.
  intros (Hok & Hfree & Hpins & Hsz1 & Hsz2) Hb.
  split; [apply (cache_ok_bcache _ _ s); [reflexivity|exact Hok]|].
  split; [exact Hfree|]. split; [exact Hpins|]. split; [exact Hsz1|].
  intros k. unfold wrote. cbn [dsk].
  destruct (k =? blockno (get_buf b s)); [apply Hsz1, Hb|apply Hsz2].
Qed.

Lemma get_with_refcnt_any f b s x :
  (b < NBUF_of s)%nat -> (x < NBUF_of s)%nat ->
  get_buf x (with_refcnt f b s) =
    if Nat.eqb x b then set_refcnt (u32 (f (refcnt (get_buf b s)))) (get_buf b s)
    else get_buf x s.
Proof.
  intros Hb Hx. unfold with_refcnt.
  rewrite get_put_buf_canon by (rewrite ?NBUF_bc_lock; lia). reflexivity.
Qed.

(** [bunpin] of a held buffer that has a reference besides the
    caller's and pins none of [homes]. *)
Lemma bunpin_pinned_ok homes held s b :
  pinned_ok homes held s -> (b < NBUF_of s)%nat -> In b held ->
  2 <= refcnt (get_buf b s) ->
  (forall h, In h homes -> caches dv h (get_buf b s) = false) ->
  Does (bunpin b) pid s tt (with_refcnt (fun c => c - 1) b s) /\
  pinned_ok homes held (with_refcnt (fun c => c - 1) b s).
Proof.
  intros (Hok & (x0 & Hx0 & Hfree) & Hpins & Hsz1 & Hsz2) Hb Hin Hr Hnone.
  pose proof Hok as (Hlk & (l & Hd & Hcov) & Hst & Hu).
  destruct (Hst b Hb) as [Hm _]. destruct (Hm Hin) as [Hl Hrr].
  assert (Hu32 : u32 (refcnt (get_buf b s) - 1) = refcnt (get_buf b s) - 1).
  { apply u32_id. unfold is_u32. lia. }
  set (s' := with_refcnt (fun c => c - 1) b s).
  assert (HN : NBUF_of s' = NBUF_of s).
  { unfold s', with_refcnt. rewrite NBUF_put_buf. reflexivity. }
  assert (Hg : forall x, (x < NBUF_of s)%nat ->
            get_buf x s' = if Nat.eqb x b
                           then set_refcnt (refcnt (get_buf b s) - 1) (get_buf b s)
                           else get_buf x s).
  { intros x Hx. unfold s'. rewrite get_with_refcnt_any by assumption.
    cbv beta. rewrite Hu32. reflexivity. }
  split.
  { apply Does_of_eq. intros c pt e Hn. apply bunpin_eq; assumption. }
  split; [|split; [|split; [|split]]].
  - apply (cache_ok_step pid held held b s); try assumption.
    + unfold s', with_refcnt. rewrite bc_lock_put_buf. reflexivity.
    + exists l. split; [|exact Hcov]. unfold s', with_refcnt.
      apply dll_put_buf; try reflexivity; [rewrite NBUF_bc_lock; lia|].
      apply dll_bc_lock. exact Hd.
    + intros x Hx Hne. rewrite Hg by assumption.
      destruct (Nat.eqb_spec x b); [contradiction|reflexivity].
    + intros _. rewrite Hg, Nat.eqb_refl by assumption. unfold mine.
      cbn [set_refcnt lock refcnt]. split; [exact Hl|lia].
    + intros Hn. contradiction.
    + intros x _. reflexivity.
    + rewrite Hg, Nat.eqb_refl by assumption. apply same_ident_ok; try assumption; reflexivity.
  - exists x0. rewrite HN. split; [exact Hx0|]. rewrite Hg by assumption.
    destruct (Nat.eqb_spec x0 b) as [->|_]; [|exact Hfree].
    destruct Hfree as [E|[_ E]]; lia.
  - intros h Hh. destruct (Hpins h Hh) as (x & Hx & Hcx & Hrx & Hhx).
    exists x. rewrite HN. split; [exact Hx|]. rewrite Hg by assumption.
    destruct (Nat.eqb_spec x b) as [->|_]; [|repeat split; assumption].
    rewrite (Hnone h Hh) in Hcx. discriminate.
  - rewrite HN. intros x Hx. rewrite Hg by assumption.
    destruct (Nat.eqb_spec x b) as [->|_]; [apply Hsz1, Hb|apply Hsz1, Hx].
  - intros k. unfold s', with_refcnt. rewrite dsk_put_buf. apply Hsz2.
Qed.

(** [brelse] of a held buffer. *)
Lemma brelse_pinned_ok homes held held' s b :
  pinned_ok homes held s -> (b < NBUF_of s)%nat -> In b held ->
  ~ In b held' -> (forall x, x <> b -> In x held' <-> In x held) ->
  exists s',
    Does (brelse ba b) pid s tt s' /\
    pinned_ok homes held' s' /\
    NBUF_of s' = NBUF_of s /\
    log s' = log s /\ dsk s' = dsk s /\ writes s' = writes s.
Proof.
  intros (Hok & (x0 & Hx0 & Hfree) & Hpins & Hsz1 & Hsz2) Hb Hin Hnin Hheld.
  pose proof Hok as (_ & _ & Hst & _).
  destruct (Hst b Hb) as [Hm _]. destruct (Hm Hin) as [_ Hrr].
  destruct (brelse_spec ba pid held held' s b Hok Hb Hin Hnin Hheld) as
    (s' & HD & Hok' & HN & Hoth & Hlog & Hdsk & Hwr & Hdev & Hbno & Hv & Hdt & Hr).
  assert (Hf : forall x, (x < NBUF_of s)%nat -> x <> b ->
            dev (get_buf x s') = dev (get_buf x s) /\
            blockno (get_buf x s') = blockno (get_buf x s) /\
            refcnt (get_buf x s') = refcnt (get_buf x s) /\
            data (get_buf x s') = data (get_buf x s)).
  { intros x Hx Hne. pose proof (Hoth x Hx Hne) as E. apply info_fields in E.
    destruct E as (_ & E1 & E2 & _ & E3 & E4). auto. }
  exists s'. split; [exact HD|]. split; [|auto].
  split; [exact Hok'|]. split; [|split; [|split]].
  - exists x0. rewrite HN. split; [exact Hx0|].
    destruct (Nat.eq_dec x0 b) as [->|Hne].
    + left. rewrite Hr. destruct Hfree as [E|[_ E]]; lia.
    + destruct (Hf x0 Hx0 Hne) as (_ & _ & E & _). rewrite E.
      destruct Hfree as [E0|[Hi E1]]; [left; exact E0|right].
      split; [apply Hheld; assumption|exact E1].
  - intros h Hh. destruct (Hpins h Hh) as (x & Hx & Hcx & Hrx & Hhx).
    exists x. rewrite HN. split; [exact Hx|].
    apply caches_iff in Hcx. destruct Hcx as [C1 C2].
    destruct (Nat.eq_dec x b) as [->|Hne].
    + split; [apply caches_iff; split; congruence|].
      rewrite Hr. specialize (Hhx Hin). split; [lia|]. intros Hi. contradiction.
    + destruct (Hf x Hx Hne) as (E1 & E2 & E3 & _).
      split; [apply caches_iff; split; congruence|]. rewrite E3. split; [exact Hrx|].
      intros Hi. apply Hhx. apply Hheld; assumption.
  - rewrite HN. intros x Hx. destruct (Nat.eq_dec x b) as [->|Hne].
    + rewrite Hdt. apply Hsz1, Hb.
    + destruct (Hf x Hx Hne) as (_ & _ & _ & E). rewrite E. apply Hsz1, Hx.
  - intros k. rewrite Hdsk. apply Hsz2.
Qed.

Lemma length_memmove dst src n :
  length dst = B -> length src = B -> length (memmove dst src n) = B.
Proof.
  intros H1 H2. unfold memmove. rewrite length_app, length_take, length_drop. lia.
Qed.

Variable BSIZE : Z.

(** One turn of the loop of [write_log]: block [H], pinned in the
    cache, is copied to the log block [L] and written there. [k] is
    what follows. *)
Lemma write_log_step {A} (k : K fs A) homes s L H :
  pinned_ok homes [] s -> ~ In L homes -> In H homes ->
  exists s' d,
    pinned_ok homes [] s' /\ log s' = log s /\ writes s' = writes s ++ [(L, d)] /\
    forall r s'', Does k pid s' r s'' ->
      Does (to <- bread ba dv L ;;
            from <- bread ba dv H ;;
            src <- rd from data ;;
            wr to (fun x => set_data (memmove (data x) src BSIZE) x) ;;
            bwrite ba to ;;
            brelse ba from ;;
            brelse ba to ;;
            k) pid s r s''.
Proof.
  intros Hst HL HH.
  destruct (bread_other homes s L Hst HL)
    as (a & s1 & HD1 & Hst1 & Ha1 & HN1 & Hdev1 & Hbno1 & Hlog1 & Hdsk1 & Hwr1).
  destruct (bread_pinned homes [a] s1 H Hst1 HH)
    as (b & s2 & HD2 & Hst2 & Hb2 & HN2 & Hnin & Hdev2 & Hbno2 & Hr2 & Hoth2 &
        Hlog2 & Hdsk2 & Hwr2).
  { intros y [<-|[]]. apply caches_false. intros [_ E]. apply HL. congruence. }
  assert (Hab : a <> b) by (intros ->; apply Hnin; left; reflexivity).
  assert (Ha2 : (a < NBUF_of s2)%nat) by (rewrite HN2; exact Ha1).
  assert (Hxa : get_buf a s2 = get_buf a s1) by (apply Hoth2; assumption).
  set (src := data (get_buf b s2)).
  set (s3 := put_buf a (set_data (memmove (data (get_buf a s2)) src BSIZE) (get_buf a s2)) s2).
  assert (Hst3 : pinned_ok homes [b; a] s3).
  { apply pinned_ok_set_data; try assumption.
    destruct Hst2 as (_ & _ & _ & Hsz & _).
    apply length_memmove; [apply Hsz, Ha2|apply Hsz, Hb2]. }
  assert (Ha3 : (a < NBUF_of s3)%nat) by (unfold s3; rewrite NBUF_put_buf; exact Ha2).
  assert (Hb3 : (b < NBUF_of s3)%nat) by (unfold s3; rewrite NBUF_put_buf; exact Hb2).
  assert (Hbn3 : blockno (get_buf a s3) = L).
  { unfold s3. rewrite get_put_buf, Hxa. destruct (get_buf a s1); cbn in *. exact Hbno1. }
  pose proof (bwrite_held ba pid [b; a] s3 a (proj1 Hst3) Ha3 (or_intror (or_introl eq_refl)))
    as HD4.
  pose proof (pinned_ok_wrote homes [b; a] s3 a Hst3 Ha3) as Hst4.
  destruct (brelse_pinned_ok homes [b; a] [a] (wrote a s3) b Hst4 Hb3 (or_introl eq_refl))
    as (s5 & HD5 & Hst5 & HN5 & Hlog5 & Hdsk5 & Hwr5).
  { intros [E|[]]. congruence. }
  { intros x Hne. cbn [In]. split; [auto|intros [E|E]; [congruence|assumption]]. }
  destruct (brelse_pinned_ok homes [a] [] s5 a Hst5) as (s6 & HD6 & Hst6 & HN6 & Hlog6 & Hdsk6 & Hwr6).
  { rewrite HN5. exact Ha3. }
  { left. reflexivity. }
  { intros []. }
  { intros x Hne. cbn [In]. split; [intros []|intros [E|[]]; congruence]. }
  exists s6, (data (get_buf a s3)).
  split; [exact Hst6|].
  split; [rewrite Hlog6, Hlog5; unfold wrote, s3; cbn [log]; rewrite log_put_buf; congruence|].
  split.
  { rewrite Hwr6, Hwr5. unfold wrote. cbn [writes]. rewrite Hbn3.
    unfold s3 at 1. rewrite writes_put_buf. congruence. }
  intros r s'' Hk.
  eapply Does_bind; [exact HD1|]. cbv beta.
  eapply Does_bind; [exact HD2|]. cbv beta.
  eapply Does_bind; [apply (Does_rd b data)|]. cbv beta.
  eapply Does_bind; [apply Does_wr|]. fold src. fold s3.
  eapply Does_bind; [exact HD4|].
  eapply Does_bind; [exact HD5|].
  eapply Does_bind; [exact HD6|]. exact Hk.
Qed.

(** One turn of the loop of [install_trans] in a commit: the log
    block [L] is copied to the buffer of block [H], which is written
    and unpinned. *)
Lemma install_step {A} (k : K fs A) rest s L H :
  pinned_ok (H :: rest) [] s -> ~ In L (H :: rest) -> ~ In H rest ->
  exists s' d,
    pinned_ok rest [] s' /\ log s' = log s /\ writes s' = writes s ++ [(H, d)] /\
    forall r s'', Does k pid s' r s'' ->
      Does (lbuf <- bread ba dv L ;;
            dbuf <- bread ba dv H ;;
            src <- rd lbuf data ;;
            wr dbuf (fun x => set_data (memmove (data x) src BSIZE) x) ;;
            bwrite ba dbuf ;;
            (if 0 =? 0 then bunpin dbuf else ret tt) ;;
            brelse ba lbuf ;;
            brelse ba dbuf ;;
            k) pid s r s''.
Proof.
  intros Hst HL HH.
  destruct (bread_other (H :: rest) s L Hst HL)
    as (a & s1 & HD1 & Hst1 & Ha1 & HN1 & Hdev1 & Hbno1 & Hlog1 & Hdsk1 & Hwr1).
  destruct (bread_pinned (H :: rest) [a] s1 H Hst1 (or_introl eq_refl))
    as (b & s2 & HD2 & Hst2 & Hb2 & HN2 & Hnin & Hdev2 & Hbno2 & Hr2 & Hoth2 &
        Hlog2 & Hdsk2 & Hwr2).
  { intros y [<-|[]]. apply caches_false. intros [_ E]. apply HL. left. congruence. }
  apply pinned_ok_fewer in Hst2.
  assert (Hab : a <> b) by (intros ->; apply Hnin; left; reflexivity).
  assert (Ha2 : (a < NBUF_of s2)%nat) by (rewrite HN2; exact Ha1).
  set (src := data (get_buf a s2)).
  set (s3 := put_buf b (set_data (memmove (data (get_buf b s2)) src BSIZE) (get_buf b s2)) s2).
  assert (Hst3 : pinned_ok rest [b; a] s3).
  { apply pinned_ok_set_data; try assumption.
    destruct Hst2 as (_ & _ & _ & Hsz & _).
    apply length_memmove; [apply Hsz, Hb2|apply Hsz, Ha2]. }
  assert (Ha3 : (a < NBUF_of s3)%nat) by (unfold s3; rewrite NBUF_put_buf; exact Ha2).
  assert (Hb3 : (b < NBUF_of s3)%nat) by (unfold s3; rewrite NBUF_put_buf; exact Hb2).
  assert (Hxb : get_buf b s3 =
                set_data (memmove (data (get_buf b s2)) src BSIZE) (get_buf b s2))
    by apply get_put_buf.
  assert (Hbn3 : blockno (get_buf b s3) = H).
  { rewrite Hxb. destruct (get_buf b s2); cbn in *. exact Hbno2. }
  assert (Hr3 : 2 <= refcnt (get_buf b s3)).
  { rewrite Hxb. destruct (get_buf b s2); cbn in *. exact Hr2. }
  pose proof (bwrite_held ba pid [b; a] s3 b (proj1 Hst3) Hb3 (or_introl eq_refl)) as HD4.
  pose proof (pinned_ok_wrote rest [b; a] s3 b Hst3 Hb3) as Hst4.
  destruct (bunpin_pinned_ok rest [b; a] (wrote b s3) b Hst4 Hb3 (or_introl eq_refl) Hr3)
    as (HD5 & Hst5).
  { intros h Hh. apply caches_false. intros [_ E].
    change (get_buf b (wrote b s3)) with (get_buf b s3) in E. apply HH. congruence. }
  set (s5 := with_refcnt (fun c => c - 1) b (wrote b s3)) in *.
  assert (HN5 : NBUF_of s5 = NBUF_of s3).
  { unfold s5, with_refcnt. rewrite NBUF_put_buf. reflexivity. }
  destruct (brelse_pinned_ok rest [b; a] [b] s5 a Hst5)
    as (s6 & HD6 & Hst6 & HN6 & Hlog6 & Hdsk6 & Hwr6).
  { rewrite HN5. exact Ha3. }
  { right. left. reflexivity. }
  { intros [E|[]]. congruence. }
  { intros x Hne. cbn [In].
    split; [intros [E|[]]; left; exact E|intros [E|[E|[]]]; [left; exact E|congruence]]. }
  destruct (brelse_pinned_ok rest [b] [] s6 b Hst6) as (s7 & HD7 & Hst7 & HN7 & Hlog7 & Hdsk7 & Hwr7).
  { rewrite HN6, HN5. exact Hb3. }
  { left. reflexivity. }
  { intros []. }
  { intros x Hne. cbn [In]. split; [intros []|intros [E|[]]; congruence]. }
  exists s7, (data (get_buf b s3)).
  split; [exact Hst7|].
  assert (Hl5 : log s5 = log s).
  { unfold s5. rewrite log_with_refcnt. unfold wrote, s3. cbn [log]. rewrite log_put_buf.
    congruence. }
  assert (Hw5 : writes s5 = writes s ++ [(H, data (get_buf b s3))]).
  { unfold s5, with_refcnt. rewrite writes_put_buf.
    change (writes (update bcache_lock (mkSpin 0 None) (wrote b s3)))
      with (writes s3 ++ [(blockno (get_buf b s3), data (get_buf b s3))]).
    rewrite Hbn3. unfold s3 at 1. rewrite writes_put_buf. congruence. }
  split; [congruence|]. split; [congruence|].
  intros r s'' Hk.
  eapply Does_bind; [exact HD1|]. cbv beta.
  eapply Does_bind; [exact HD2|]. cbv beta.
  eapply Does_bind; [apply (Does_rd a data)|]. cbv beta.
  eapply Does_bind; [apply Does_wr|]. fold src. fold s3.
  eapply Does_bind; [exact HD4|].
  change (0 =? 0) with true. cbn iota.
  eapply Does_bind; [exact HD5|].
  eapply Does_bind; [exact HD6|].
  eapply Does_bind; [exact HD7|]. exact Hk.
Qed.

Lemma pinned_ok_set_log homes held s l :
  pinned_ok homes held s -> pinned_ok homes held (set_log l s).
Proof.
  intros (Hok & Hfree & Hpins & Hsz). split; [|repeat split; assumption || apply Hsz].
  apply (cache_ok_bcache _ _ s); [reflexivity|exact Hok].
Qed.

Lemma write_log_loop_spec homes k : forall fuel t s,
  pinned_ok homes [] s -> u32 (lg_dev (log s)) = dv ->
  lh_n (lh (log s)) = t + Z.of_nat k -> 0 <= t -> t + Z.of_nat k < 2 ^ 31 ->
  (k <= fuel)%nat ->
  (forall j, t <= j < t + Z.of_nat k ->
     ~ In (logblk (log s) j) homes /\ In (homeblk (log s) j) homes) ->
  exists s' w,
    Does (write_log_loop ba BSIZE fuel t) pid s tt s' /\
    pinned_ok homes [] s' /\ log s' = log s /\
    writes s' = writes s ++ w /\
    map fst w = map (logblk (log s)) (range t k).
Proof.
  induction k as [|k IH]; intros fuel t s Hst Hdv Hn Ht Hlt Hf Hblk.
  - exists s, []. rewrite app_nil_r.
    assert (E : (t <? lh_n (lh (log s))) = false) by (apply Z.ltb_ge; lia).
    split; [|split; [exact Hst|split; [reflexivity|split; reflexivity]]].
    destruct fuel; cbn [write_log_loop];
      (eapply Does_bind; [apply Does_the_log|]); cbv beta; rewrite E; apply Does_ret.
  - destruct fuel as [|fuel]; [lia|].
    rewrite Nat2Z.inj_succ in *.
    assert (E : (t <? lh_n (lh (log s))) = true) by (apply Z.ltb_lt; lia).
    destruct (Hblk t ltac:(lia)) as [HL HH].
    destruct (write_log_step (write_log_loop ba BSIZE fuel (t + 1)) homes s
                (logblk (log s) t) (homeblk (log s) t) Hst HL HH)
      as (s1 & d & Hst1 & Hlog1 & Hwr1 & Hrun).
    destruct (IH fuel (t + 1) s1 Hst1) as (s2 & w & HD2 & Hst2 & Hlog2 & Hwr2 & Hmap);
      rewrite ?Hlog1; try assumption; try lia.
    { intros j Hj. apply Hblk. lia. }
    exists s2, ((logblk (log s) t, d) :: w).
    split.
    { cbn [write_log_loop].
      eapply Does_bind; [apply Does_the_log|]. cbv beta. rewrite E, Hdv.
      rewrite (s32_id (t + 1)) by (unfold is_s32; lia).
      apply Hrun. exact HD2. }
    split; [exact Hst2|]. split; [congruence|].
    split; [rewrite Hwr2, Hwr1, <- app_assoc; reflexivity|].
    rewrite range_succ. cbn [map fst]. rewrite Hmap, Hlog1. reflexivity.
Qed.

Lemma install_loop_spec k : forall fuel t s,
  pinned_ok (map (homeblk (log s)) (range t k)) [] s -> u32 (lg_dev (log s)) = dv ->
  List.NoDup (map (homeblk (log s)) (range t k)) ->
  lh_n (lh (log s)) = t + Z.of_nat k -> 0 <= t -> t + Z.of_nat k < 2 ^ 31 ->
  (k <= fuel)%nat ->
  (forall j, t <= j < t + Z.of_nat k ->
     ~ In (logblk (log s) j) (map (homeblk (log s)) (range t k))) ->
  exists s' w,
    Does (install_trans_loop ba BSIZE fuel 0 t) pid s tt s' /\
    pinned_ok [] [] s' /\ log s' = log s /\
    writes s' = writes s ++ w /\
    map fst w = map (homeblk (log s)) (range t k).
Proof.
  induction k as [|k IH]; intros fuel t s Hst Hdv Hnd Hn Ht Hlt Hf Hblk.
  - exists s, []. rewrite app_nil_r.
    assert (E : (t <? lh_n (lh (log s))) = false) by (apply Z.ltb_ge; lia).
    split; [|split; [exact Hst|split; [reflexivity|split; reflexivity]]].
    destruct fuel; cbn [install_trans_loop];
      (eapply Does_bind; [apply Does_the_log|]); cbv beta; rewrite E; apply Does_ret.
  - destruct fuel as [|fuel]; [lia|].
    rewrite range_succ in *. cbn [map] in *.
    rewrite Nat2Z.inj_succ in *.
    assert (E : (t <? lh_n (lh (log s))) = true) by (apply Z.ltb_lt; lia).
    apply List.NoDup_cons_iff in Hnd. destruct Hnd as [Hnin Hnd].
    destruct (install_step (install_trans_loop ba BSIZE fuel 0 (t + 1))
                (map (homeblk (log s)) (range (t + 1) k)) s
                (logblk (log s) t) (homeblk (log s) t) Hst (Hblk t ltac:(lia)) Hnin)
      as (s1 & d & Hst1 & Hlog1 & Hwr1 & Hrun).
    destruct (IH fuel (t + 1) s1) as (s2 & w & HD2 & Hst2 & Hlog2 & Hwr2 & Hmap);
      rewrite ?Hlog1; try assumption; try lia.
    { intros j Hj Hin. apply (Hblk j); [lia|]. right. exact Hin. }
    exists s2, ((homeblk (log s) t, d) :: w).
    split.
    { cbn [install_trans_loop].
      eapply Does_bind; [apply Does_the_log|]. cbv beta. rewrite E, Hdv.
      rewrite (s32_id (t + 1)) by (unfold is_s32; lia).
      apply Hrun. exact HD2. }
    split; [exact Hst2|]. split; [congruence|].
    split; [rewrite Hwr2, Hwr1, <- app_assoc; reflexivity|].
    cbn [map fst]. rewrite Hmap, Hlog1. reflexivity.
Qed.

(** [write_head] by a caller that holds nothing, the header block not
    being one of the pinned blocks. *)
Lemma write_head_pinned_ok homes s :
  pinned_ok homes [] s -> u32 (lg_dev (log s)) = dv ->
  ~ In (u32 (lg_start (log s))) homes ->
  0 <= lh_n (lh (log s)) < 2 ^ 31 ->
  (4 + 4 * Z.to_nat (lh_n (lh (log s))) <= B)%nat ->
  exists s' h,
    Does (write_head ba) pid s tt s' /\
    pinned_ok homes [] s' /\ log s' = log s /\
    writes s' = writes s ++ [(u32 (lg_start (log s)), h)] /\
    hdr_n h = lh_n (lh (log s)) /\
    (forall i, 0 <= i < lh_n (lh (log s)) -> hdr_block h i = s32 (block_at (log s) i)).
Proof.
  intros Hst Hdv Hh Hn HB.
  destruct (bread_other homes s (u32 (lg_start (log s))) Hst Hh)
    as (a & s1 & HD1 & Hst1 & Ha1 & HN1 & Hdev1 & Hbno1 & Hlog1 & Hdsk1 & Hwr1).
  set (x1 := get_buf a s1) in *.
  set (n := lh_n (lh (log s))) in *.
  assert (Hd0 : length (data x1) = B) by (destruct Hst1 as (_ & _ & _ & Hsz & _); apply Hsz, Ha1).
  destruct (head_image_decodes s (data x1) Hn) as (D1 & D2 & D3); [lia|].
  set (s2 := put_buf a (set_data (hdr_set_n n (data x1)) x1) s1).
  set (s3 := put_buf a (set_data (head_image s (data x1)) x1) s1).
  assert (Hloop : Does (write_head_loop (Z.to_nat n) a 0) pid s2 tt s3).
  { pose proof (write_head_loop_run pid a (Z.to_nat n) (Z.to_nat n) 0 s2) as H.
    assert (Hl2 : log s2 = log s) by (unfold s2; rewrite log_put_buf; exact Hlog1).
    rewrite Hl2 in H. unfold s2 in H at 2 3 4.
    rewrite get_put_buf in H. unfold s2 in H. rewrite put_put_buf in H.
    replace (set_data (put_blocks (Z.to_nat n) 0 (log s)
                         (data (set_data (hdr_set_n n (data x1)) x1)))
               (set_data (hdr_set_n n (data x1)) x1))
      with (set_data (head_image s (data x1)) x1) in H
      by (unfold head_image; destruct x1; reflexivity).
    apply H; try (fold n; lia). rewrite NBUF_put_buf. exact Ha1. }
  assert (Hst3 : pinned_ok homes [a] s3).
  { apply pinned_ok_set_data; try assumption. rewrite D3. exact Hd0. }
  assert (Ha3 : (a < NBUF_of s3)%nat) by (unfold s3; rewrite NBUF_put_buf; exact Ha1).
  assert (Hxa : get_buf a s3 = set_data (head_image s (data x1)) x1) by apply get_put_buf.
  assert (Hbn3 : blockno (get_buf a s3) = u32 (lg_start (log s))).
  { rewrite Hxa. destruct x1; cbn in *. exact Hbno1. }
  assert (Hdt3 : data (get_buf a s3) = head_image s (data x1)).
  { rewrite Hxa. destruct x1; reflexivity. }
  pose proof (bwrite_held ba pid [a] s3 a (proj1 Hst3) Ha3 (or_introl eq_refl)) as HD4.
  pose proof (pinned_ok_wrote homes [a] s3 a Hst3 Ha3) as Hst4.
  destruct (brelse_pinned_ok homes [a] [] (wrote a s3) a Hst4 Ha3 (or_introl eq_refl))
    as (s5 & HD5 & Hst5 & HN5 & Hlog5 & Hdsk5 & Hwr5).
  { intros []. }
  { intros x Hne. cbn [In]. split; [intros []|intros [E|[]]; congruence]. }
  exists s5, (head_image s (data x1)).
  split.
  { unfold write_head.
    eapply Does_bind; [apply Does_the_log|]. cbv beta. rewrite Hdv.
    eapply Does_bind; [exact HD1|]. cbv beta.
    eapply Does_bind; [apply Does_wr|]. fold x1. fold n. fold s2.
    eapply Does_bind; [exact Hloop|].
    eapply Does_bind; [exact HD4|]. exact HD5. }
  split; [exact Hst5|].
  split; [rewrite Hlog5; unfold wrote, s3; cbn [log]; rewrite log_put_buf; exact Hlog1|].
  split; [|split; assumption].
  rewrite Hwr5. unfold wrote. cbn [writes]. rewrite Hbn3, Hdt3.
  unfold s3. rewrite writes_put_buf, Hwr1. reflexivity.
Qed.

(** The run of [commit] with [n > 0] blocks logged. *)
Lemma commit_run (s : fs) :
  pinned_ok (home_blocks s) [] s ->
  List.NoDup (home_blocks s) ->
  u32 (lg_dev (log s)) = dv ->
  0 < lh_n (lh (log s)) < 2 ^ 31 ->
  (4 + 4 * Z.to_nat (lh_n (lh (log s))) <= B)%nat ->
  (forall L, In L (log_blocks s) -> ~ In L (home_blocks s)) ->
  ~ In (u32 (lg_start (log s))) (home_blocks s) ->
  exists s' logw h1 homew h0,
    Does (commit ba BSIZE) pid s tt s' /\
    writes s' =
      writes s ++ logw ++ [(u32 (lg_start (log s)), h1)] ++ homew
        ++ [(u32 (lg_start (log s)), h0)] /\
    map fst logw = log_blocks s /\
    map fst homew = home_blocks s /\
    hdr_n h1 = lh_n (lh (log s)) /\
    (forall i, 0 <= i < lh_n (lh (log s)) -> hdr_block h1 i = s32 (block_at (log s) i)) /\
    hdr_n h0 = 0 /\
    log s' = set_lh_n 0 (log s) /\
    cache_ok pid [] s'.
Proof.
  intros Hst Hnd Hdv Hn HB Hlogs Hhdr.
  set (n := lh_n (lh (log s))) in *.
  assert (Hk : Z.of_nat (Z.to_nat n) = n) by lia.
  (* the log blocks *)
  destruct (write_log_loop_spec (home_blocks s) (Z.to_nat n) (Z.to_nat n) 0 s Hst Hdv)
    as (s1 & logw & HD1 & Hst1 & Hlog1 & Hwr1 & Hmap1); try (fold n; lia).
  { intros j Hj. split.
    - apply Hlogs. unfold log_blocks, entries. apply in_map. apply range_in. fold n. lia.
    - unfold home_blocks, entries. apply in_map. apply range_in. fold n. lia. }
  (* the header *)
  destruct (write_head_pinned_ok (home_blocks s) s1 Hst1) as
    (s2 & h1 & HD2 & Hst2 & Hlog2 & Hwr2 & Hn2 & Hb2); rewrite ?Hlog1; try assumption;
    try (fold n; lia).
  (* the home blocks *)
  assert (Hl2 : log s2 = log s) by congruence.
  destruct (install_loop_spec (Z.to_nat n) (Z.to_nat n) 0 s2) as
    (s3 & homew & HD3 & Hst3 & Hlog3 & Hwr3 & Hmap3); rewrite ?Hl2; try assumption;
    try (fold n; lia).
  { intros j Hj. apply Hlogs. unfold log_blocks, entries. apply in_map. apply range_in.
    fold n. lia. }
  (* the header again *)
  set (s4 := set_log (set_lh_n 0 (log s3)) s3).
  assert (Hst4 : pinned_ok [] [] s4) by (apply pinned_ok_set_log; exact Hst3).
  destruct (write_head_pinned_ok [] s4 Hst4) as
    (s5 & h0 & HD5 & Hst5 & Hlog5 & Hwr5 & Hn5 & _).
  { cbn [s4 set_log log set_lh_n lg_dev]. rewrite Hlog3, Hl2. exact Hdv. }
  { intros []. }
  { cbn. lia. }
  { cbn [s4 set_log log set_lh_n lh lh_n]. cbn. lia. }
  exists s5, logw, h1, homew, h0.
  split.
  { unfold commit.
    eapply Does_bind; [apply Does_the_log|]. cbv beta.
    assert (E : (lh_n (lh (log s)) >? 0) = true) by (apply Z.gtb_lt; fold n; lia).
    rewrite E.
    eapply Does_bind.
    { unfold write_log. eapply Does_bind; [apply Does_the_log|]. cbv beta. exact HD1. }
    eapply Does_bind; [exact HD2|].
    eapply Does_bind.
    { unfold install_trans. eapply Does_bind; [apply Does_the_log|]. cbv beta.
      rewrite Hl2. exact HD3. }
    eapply Does_bind; [apply Does_wr_log|]. exact HD5. }
  split.
  { rewrite Hwr5. cbn [s4 set_log writes log set_lh_n lg_start].
    rewrite Hwr3, Hwr2, Hwr1, Hlog3, Hl2, Hlog1. rewrite <- !app_assoc. reflexivity. }
  split; [exact Hmap1|]. split; [rewrite Hmap3, Hl2; reflexivity|].
  split; [rewrite Hn2, Hlog1; reflexivity|].
  split; [intros i Hi; rewrite Hb2, Hlog1 by (rewrite Hlog1; exact Hi); reflexivity|].
  split; [exact Hn5|].
  split; [rewrite Hlog5; cbn [s4 set_log log]; rewrite Hlog3, Hl2; reflexivity|].
  apply Hst5.
Qed.

(** X29 (log.c, commit, write_log, write_head, install_trans): the
    disk writes of a commit come in this order. With [n > 0] blocks
    logged, each pinned in the cache, [commit] returns after writing
    first the [n] log blocks [start + 1 + i], in order; then the header
    block, naming the [n] blocks; then the [n] home blocks, in the
    order of the header; and last the header block again, with count 0.
    It leaves the in-memory count 0 and the cache consistent. *)
Theorem commit_write_order (s : fs) :
  pinned_ok (home_blocks s) [] s ->
  List.NoDup (home_blocks s) ->
  u32 (lg_dev (log s)) = dv ->
  0 < lh_n (lh (log s)) < 2 ^ 31 ->
  (4 + 4 * Z.to_nat (lh_n (lh (log s))) <= B)%nat ->
  (forall L, In L (log_blocks s) -> ~ In L (home_blocks s)) ->
  ~ In (u32 (lg_start (log s))) (home_blocks s) ->
  exists s' logw h1 homew h0,
    Does (commit ba BSIZE) pid s tt s' /\
    writes s' =
      writes s ++ logw ++ [(u32 (lg_start (log s)), h1)] ++ homew
        ++ [(u32 (lg_start (log s)), h0)] /\
    map fst logw = log_blocks s /\
    map fst homew = home_blocks s /\
    hdr_n h1 = lh_n (lh (log s)) /\
    (forall i, 0 <= i < lh_n (lh (log s)) -> hdr_block h1 i = s32 (block_at (log s) i)) /\
    hdr_n h0 = 0 /\
    log s' = set_lh_n 0 (log s) /\
    cache_ok pid [] s'.
Proof.
  intros Hst Hnd Hdv Hn HB Hlogs Hhdr.
  destruct (commit_run s Hst Hnd Hdv Hn HB Hlogs Hhdr)
    as (s' & logw & h1 & homew & h0 & HD & Hw & H1 & H2 & H3 & H4 & H5 & H6 & H7).
  exists s', logw, h1, homew, h0.
  split; [exact HD|]. split; [exact Hw|]. split; [exact H1|]. split; [exact H2|].
  split; [exact H3|]. split; [exact H4|]. split; [exact H5|]. split; [exact H6|exact H7].
Qed.
(** *** What the writes of a commit hold *)

(** A computation has one outcome. *)
Lemma Does_fun {A} (m : K fs A) s (a a' : A) s1 s2 :
  Does m pid s a s1 -> Does m pid s a' s2 -> a = a' /\ s1 = s2.
Proof.
  intros H1 H2.
  assert (Hn : noff_ok boot_cpu) by (unfold noff_ok; cbn; lia).
  destruct (H1 boot_cpu [] [] Hn) as (c1 & pt1 & E1 & _).
  destruct (H2 boot_cpu [] [] Hn) as (c2 & pt2 & E2 & _).
  rewrite E1 in E2. injection E2 as -> _ _ ->. split; reflexivity.
Qed.

(** Block [k] is on the disk with contents [d], and every valid copy
    of it in the cache holds [d] too. *)
Definition durable (k : Z) (s : fs) (d : list Z) : Prop :=
  dsk s k = d /\
  forall x, (x < NBUF_of s)%nat -> caches dv k (get_buf x s) = true ->
    valid (get_buf x s) <> 0 -> data (get_buf x s) = d.

Lemma durable_current k s d : durable k s d -> current dv k s d.
Proof. intros [Hd Hc]. split; [exact Hc|intros _; exact Hd]. Qed.

(** The buffers of [s'] cache what those of [s] do. *)
Definition same_contents (s s' : fs) : Prop :=
  NBUF_of s' = NBUF_of s /\
  forall x, (x < NBUF_of s)%nat ->
    dev (get_buf x s') = dev (get_buf x s) /\
    blockno (get_buf x s') = blockno (get_buf x s) /\
    valid (get_buf x s') = valid (get_buf x s) /\
    data (get_buf x s') = data (get_buf x s).

Lemma current_same k s s' d :
  same_contents s s' -> dsk s' k = dsk s k -> current dv k s d -> current dv k s' d.
Proof.
  intros [HN Hs] Hk [C1 C2]. split.
  - intros x Hx Hc Hv. rewrite HN in Hx. destruct (Hs x Hx) as (E1 & E2 & E3 & E4).
    rewrite E4. apply C1; [exact Hx| |rewrite <- E3; exact Hv].
    unfold caches in *. rewrite <- E1, <- E2. exact Hc.
  - intros Hall. rewrite Hk. apply C2. intros x Hx Hc.
    destruct (Hs x Hx) as (E1 & E2 & E3 & E4).
    rewrite <- E3. apply Hall; [rewrite HN; exact Hx|].
    unfold caches in *. rewrite E1, E2. exact Hc.
Qed.

Lemma durable_same k s s' d :
  same_contents s s' -> dsk s' k = dsk s k -> durable k s d -> durable k s' d.
Proof.
  intros [HN Hs] Hk [D1 D2]. split; [rewrite Hk; exact D1|].
  intros x Hx Hc Hv. rewrite HN in Hx. destruct (Hs x Hx) as (E1 & E2 & E3 & E4).
  rewrite E4. apply D2; [exact Hx| |rewrite <- E3; exact Hv].
  unfold caches in *. rewrite <- E1, <- E2. exact Hc.
Qed.

(** Only buffer [b] differs. *)
Definition but_buffer (b : nat) (s s' : fs) : Prop :=
  NBUF_of s' = NBUF_of s /\
  forall x, (x < NBUF_of s)%nat -> x <> b -> get_buf x s' = get_buf x s.

Lemma current_others k b s s' d :
  but_buffer b s s' -> dsk s' k = dsk s k ->
  caches dv k (get_buf b s) = false -> caches dv k (get_buf b s') = false ->
  current dv k s d -> current dv k s' d.
Proof.
  intros [HN Ho] Hk Hb Hb' [C1 C2]. split.
  - intros x Hx Hc Hv. rewrite HN in Hx.
    assert (Hne : x <> b) by (intros ->; congruence).
    rewrite (Ho x Hx Hne) in *. apply C1; assumption.
  - intros Hall. rewrite Hk. apply C2. intros x Hx Hc.
    assert (Hne : x <> b) by (intros ->; congruence).
    rewrite <- (Ho x Hx Hne). apply Hall; [rewrite HN; exact Hx|].
    rewrite (Ho x Hx Hne). exact Hc.
Qed.

Lemma durable_others k b s s' d :
  but_buffer b s s' -> dsk s' k = dsk s k ->
  caches dv k (get_buf b s') = false ->
  durable k s d -> durable k s' d.
Proof.
  intros [HN Ho] Hk Hb' [D1 D2]. split; [rewrite Hk; exact D1|].
  intros x Hx Hc Hv. rewrite HN in Hx.
  assert (Hne : x <> b) by (intros ->; congruence).
  rewrite (Ho x Hx Hne) in *. apply D2; assumption.
Qed.

(** The one buffer that caches the block. *)
Lemma sole_buffer k b s x :
  unique_idents s -> (b < NBUF_of s)%nat -> caches dv k (get_buf b s) = true ->
  (x < NBUF_of s)%nat -> caches dv k (get_buf x s) = true -> x = b.
Proof.
  intros Hu Hb Hc Hx Hcx. apply caches_iff in Hc. apply caches_iff in Hcx.
  apply Hu; try assumption; destruct Hc, Hcx; congruence.
Qed.

Lemma current_sole k b s d :
  unique_idents s -> (b < NBUF_of s)%nat -> caches dv k (get_buf b s) = true ->
  valid (get_buf b s) <> 0 -> data (get_buf b s) = d -> current dv k s d.
Proof.
  intros Hu Hb Hc Hv Hd. split.
  - intros x Hx Hcx _. rewrite (sole_buffer k b s x Hu Hb Hc Hx Hcx). exact Hd.
  - intros Hall. exfalso. apply Hv. apply Hall; assumption.
Qed.

Lemma durable_sole k b s d :
  unique_idents s -> (b < NBUF_of s)%nat -> caches dv k (get_buf b s) = true ->
  data (get_buf b s) = d -> dsk s k = d -> durable k s d.
Proof.
  intros Hu Hb Hc Hd Hk. split; [exact Hk|].
  intros x Hx Hcx _. rewrite (sole_buffer k b s x Hu Hb Hc Hx Hcx). exact Hd.
Qed.

(** Every block has current contents. *)
Lemma current_exists k s : unique_idents s -> exists d, current dv k s d.
Proof.
  intros Hu. destruct (cached_dec k s) as [(b & Hb & Hc)|Hmiss].
  - destruct (Z.eq_dec (valid (get_buf b s)) 0) as [E|E].
    + exists (dsk s k). split; [|reflexivity].
      intros x Hx Hcx Hv. rewrite (sole_buffer k b s x Hu Hb Hc Hx Hcx) in Hv. contradiction.
    + exists (data (get_buf b s)). apply (current_sole k b); auto.
  - exists (dsk s k). split; [|reflexivity].
    intros x Hx Hcx. rewrite Hmiss in Hcx by assumption. discriminate.
Qed.

Lemma pinned_readable homes s A : pinned_ok homes [] s -> readable dv A [] s.
Proof.
  intros (_ & (x0 & Hx0 & Hfree) & _).
  destruct (cached_dec A s) as [(b & Hb & Hc)|Hmiss].
  - left. exists b. split; [exact Hb|]. split; [exact Hc|intros []].
  - right. split; [exact Hmiss|]. exists x0. split; [exact Hx0|].
    destruct Hfree as [E|[[] _]]. exact E.
Qed.

(** [bread] of a block that is not pinned: what it delivers, and
    what it leaves alone. *)
Lemma bread_other_full homes s A :
  pinned_ok homes [] s -> ~ In A homes ->
  exists a s',
    Does (bread ba dv A) pid s a s' /\
    pinned_ok homes [a] s' /\
    (a < NBUF_of s')%nat /\ NBUF_of s' = NBUF_of s /\
    caches dv A (get_buf a s') = true /\
    log s' = log s /\ dsk s' = dsk s /\ writes s' = writes s /\
    but_buffer a s s' /\
    (forall h, In h homes -> caches dv h (get_buf a s) = false) /\
    valid (get_buf a s') <> 0 /\
    (forall d, current dv A s d -> data (get_buf a s') = d).
Proof.
  intros Hst HA.
  destruct (bread_other homes s A Hst HA)
    as (a & s1 & HD1 & Hst1 & Ha1 & HN1 & Hdev1 & Hbno1 & Hlog1 & Hdsk1 & Hwr1).
  pose proof Hst as (Hok & _ & Hpins & _).
  pose proof Hok as (_ & _ & _ & Hu).
  assert (Hany : forall d, current dv A s d ->
            but_buffer a s s1 /\ valid (get_buf a s1) <> 0 /\ data (get_buf a s1) = d).
  { intros d Hcur.
    destruct (bread_any ba dv A pid [] s d Hok (pinned_readable homes s A Hst) Hcur)
      as (b & s2 & HD2 & Hb & _ & _ & HN2 & Hoth2 & _ & _ & _ & _ & _ & Hv2 & Hd2).
    destruct (Does_fun _ _ _ _ _ _ HD1 HD2) as [<- <-].
    split; [split; assumption|]. split; assumption. }
  destruct (current_exists A s Hu) as (d0 & Hcur0).
  destruct (Hany d0 Hcur0) as (Hbut & Hv & _).
  assert (Hca : caches dv A (get_buf a s1) = true) by (apply caches_iff; auto).
  exists a, s1.
  split; [exact HD1|]. split; [exact Hst1|]. split; [exact Ha1|]. split; [exact HN1|].
  split; [exact Hca|]. split; [exact Hlog1|]. split; [exact Hdsk1|]. split; [exact Hwr1|].
  split; [exact Hbut|]. split; [|split; [exact Hv|intros d Hcur; apply (Hany d Hcur)]].
  intros h Hh. destruct (caches dv h (get_buf a s)) eqn:E; [exfalso|reflexivity].
  destruct Hst1 as (_ & _ & Hpins1 & _).
  destruct (Hpins1 h Hh) as (x & Hx & Hcx & _).
  rewrite HN1 in Hx, Ha1.
  assert (Hne : x <> a).
  { intros ->. apply caches_iff in Hca. apply caches_iff in Hcx.
    apply HA. destruct Hca, Hcx. congruence. }
  destruct Hbut as [_ Ho]. rewrite (Ho x Hx Hne) in Hcx.
  apply Hne. apply (sole_buffer h a s x Hu Ha1 E Hx Hcx).
Qed.

(** [bread] of a pinned block: it is found in its buffer. *)
Lemma bread_pinned_full homes held s H :
  pinned_ok homes held s -> In H homes ->
  (forall y, In y held -> caches dv H (get_buf y s) = false) ->
  exists b s',
    Does (bread ba dv H) pid s b s' /\
    pinned_ok homes (b :: held) s' /\
    (b < NBUF_of s')%nat /\ NBUF_of s' = NBUF_of s /\ ~ In b held /\
    caches dv H (get_buf b s) = true /\
    caches dv H (get_buf b s') = true /\
    2 <= refcnt (get_buf b s') /\
    but_buffer b s s' /\
    log s' = log s /\ dsk s' = dsk s /\ writes s' = writes s /\
    valid (get_buf b s') <> 0 /\
    (forall d, current dv H s d -> data (get_buf b s') = d).
Proof.
  intros Hst HH Hheld.
  destruct (bread_pinned homes held s H Hst HH Hheld)
    as (b & s1 & HD1 & Hst1 & Hb1 & HN1 & Hnin & Hdev1 & Hbno1 & Hr1 & Hoth1 &
        Hlog1 & Hdsk1 & Hwr1).
  pose proof Hst as (Hok & _ & Hpins & _).
  pose proof Hok as (_ & _ & _ & Hu).
  pose proof Hst1 as (Hok1 & _).
  pose proof Hok1 as (_ & _ & _ & Hu1).
  assert (Hcb1 : caches dv H (get_buf b s1) = true) by (apply caches_iff; auto).
  assert (Hcb : caches dv H (get_buf b s) = true).
  { destruct (Hpins H HH) as (x & Hx & Hcx & _).
    destruct (Nat.eq_dec x b) as [->|Hne]; [exact Hcx|exfalso].
    apply Hne. apply (sole_buffer H b s1 x Hu1 Hb1 Hcb1); [rewrite HN1; exact Hx|].
    rewrite (Hoth1 x Hx Hne). exact Hcx. }
  assert (Hrd : readable dv H held s).
  { left. exists b. rewrite <- HN1. split; [exact Hb1|]. split; [exact Hcb|exact Hnin]. }
  assert (Hany : forall d, current dv H s d ->
            valid (get_buf b s1) <> 0 /\ data (get_buf b s1) = d).
  { intros d Hcur.
    destruct (bread_any ba dv H pid held s d Hok Hrd Hcur)
      as (b2 & s2 & HD2 & _ & _ & _ & _ & _ & _ & _ & _ & _ & _ & Hv2 & Hd2).
    destruct (Does_fun _ _ _ _ _ _ HD1 HD2) as [<- <-]. split; assumption. }
  destruct (current_exists H s Hu) as (d0 & Hcur0).
  destruct (Hany d0 Hcur0) as (Hv & _).
  exists b, s1.
  split; [exact HD1|]. split; [exact Hst1|]. split; [exact Hb1|]. split; [exact HN1|].
  split; [exact Hnin|]. split; [exact Hcb|]. split; [exact Hcb1|]. split; [exact Hr1|].
  split; [split; assumption|]. split; [exact Hlog1|]. split; [exact Hdsk1|].
  split; [exact Hwr1|]. split; [exact Hv|]. intros d Hcur. apply (Hany d Hcur).
Qed.

(** [brelse] keeps what the buffers cache. *)
Lemma brelse_pinned_ok_full homes held held' s b :
  pinned_ok homes held s -> (b < NBUF_of s)%nat -> In b held ->
  ~ In b held' -> (forall x, x <> b -> In x held' <-> In x held) ->
  exists s',
    Does (brelse ba b) pid s tt s' /\
    pinned_ok homes held' s' /\
    log s' = log s /\ dsk s' = dsk s /\ writes s' = writes s /\
    same_contents s s'.
Proof.
  intros Hst Hb Hin Hnin Hheld.
  destruct (brelse_pinned_ok homes held held' s b Hst Hb Hin Hnin Hheld)
    as (s1 & HD1 & Hst1 & HN1 & Hlog1 & Hdsk1 & Hwr1).
  destruct (brelse_spec ba pid held held' s b (proj1 Hst) Hb Hin Hnin Hheld)
    as (s2 & HD2 & _ & _ & Hoth & _ & _ & _ & Hdev & Hbno & Hv & Hdt & _).
  destruct (Does_fun _ _ _ _ _ _ HD1 HD2) as [_ <-].
  exists s1. split; [exact HD1|]. split; [exact Hst1|]. split; [exact Hlog1|].
  split; [exact Hdsk1|]. split; [exact Hwr1|]. split; [exact HN1|].
  intros x Hx. destruct (Nat.eq_dec x b) as [->|Hne]; [auto|].
  pose proof (Hoth x Hx Hne) as E. apply info_fields in E.
  destruct E as (E1 & E2 & E3 & _ & _ & E4). auto.
Qed.

Lemma same_contents_set_refcnt f b s :
  (b < NBUF_of s)%nat -> same_contents s (with_refcnt f b s).
Proof.
  intros Hb. split; [unfold with_refcnt; rewrite NBUF_put_buf; reflexivity|].
  intros x Hx. rewrite get_with_refcnt_any by assumption.
  destruct (Nat.eqb_spec x b) as [->|_]; [|auto].
  destruct (get_buf b s); cbn; auto.
Qed.

Lemma same_contents_wrote b s : same_contents s (wrote b s).
Proof. split; [reflexivity|]. intros x Hx. auto. Qed.

Lemma but_buffer_set_data b d s :
  (b < NBUF_of s)%nat -> but_buffer b s (put_buf b (set_data d (get_buf b s)) s).
Proof.
  intros Hb. split; [apply NBUF_put_buf|].
  intros x Hx Hne. apply get_put_buf_ne; auto.
Qed.

Lemma caches_set_data k d x : caches dv k (set_data d x) = caches dv k x.
Proof. destruct x; reflexivity. Qed.

Lemma memmove_all dst src :
  length src = B -> length dst = B -> (B <= Z.to_nat BSIZE)%nat ->
  memmove dst src BSIZE = src.
Proof.
  intros Hs Hd HB. unfold memmove.
  rewrite take_ge by lia. rewrite drop_ge by lia. apply app_nil_r.
Qed.

Lemma other_block k h x :
  k <> h -> caches dv h x = true -> caches dv k x = false.
Proof.
  intros Hne Hc. apply caches_iff in Hc. apply caches_false. intros [_ E].
  destruct Hc. congruence.
Qed.

(** One turn of the loop of [write_log], with what it writes: the
    current contents [d] of block [H] go to the log block [L]. *)
Lemma write_log_step_data {A} (k : K fs A) homes s L H d :
  pinned_ok homes [] s -> ~ In L homes -> In H homes ->
  (B <= Z.to_nat BSIZE)%nat ->
  current dv H s d ->
  exists s',
    pinned_ok homes [] s' /\ log s' = log s /\ writes s' = writes s ++ [(L, d)] /\
    durable L s' d /\
    (forall h e, In h homes -> current dv h s e -> current dv h s' e) /\
    (forall j e, j <> L -> ~ In j homes -> durable j s e -> durable j s' e) /\
    forall r s'', Does k pid s' r s'' ->
      Does (to <- bread ba dv L ;;
            from <- bread ba dv H ;;
            src <- rd from data ;;
            wr to (fun x => set_data (memmove (data x) src BSIZE) x) ;;
            bwrite ba to ;;
            brelse ba from ;;
            brelse ba to ;;
            k) pid s r s''.
Proof.
  intros Hst HL HH HB Hcur.
  assert (HLH : H <> L) by (intros ->; contradiction).
  destruct (bread_other_full homes s L Hst HL)
    as (a & s1 & HD1 & Hst1 & Ha1 & HN1 & Hca1 & Hlog1 & Hdsk1 & Hwr1 & Hbut1 & Hna & _ & _).
  assert (Hhome1 : forall h e, In h homes -> current dv h s e -> current dv h s1 e).
  { intros h e Hh. apply (current_others h a); [exact Hbut1|rewrite Hdsk1; reflexivity| |].
    - apply Hna, Hh.
    - apply (other_block h L); [intros ->; contradiction|exact Hca1]. }
  destruct (bread_pinned_full homes [a] s1 H Hst1 HH)
    as (b & s2 & HD2 & Hst2 & Hb2 & HN2 & Hnin & Hcb1 & Hcb2 & Hr2 & Hbut2 &
        Hlog2 & Hdsk2 & Hwr2 & Hv2 & Hd2).
  { intros y [<-|[]]. apply (other_block H L); assumption. }
  assert (Hab : a <> b) by (intros ->; apply Hnin; left; reflexivity).
  assert (Ha2 : (a < NBUF_of s2)%nat) by (rewrite HN2; exact Ha1).
  assert (Hxa : get_buf a s2 = get_buf a s1) by (apply Hbut2; assumption).
  assert (Hsrc : data (get_buf b s2) = d) by (apply Hd2, Hhome1; assumption).
  pose proof Hst2 as (Hok2 & _ & _ & Hsz2 & _).
  set (src := data (get_buf b s2)) in *.
  set (s3 := put_buf a (set_data (memmove (data (get_buf a s2)) src BSIZE) (get_buf a s2)) s2).
  assert (Hmv : memmove (data (get_buf a s2)) src BSIZE = d).
  { rewrite memmove_all; [exact Hsrc|apply Hsz2, Hb2|apply Hsz2, Ha2|exact HB]. }
  assert (Hst3 : pinned_ok homes [b; a] s3).
  { apply pinned_ok_set_data; try assumption.
    apply length_memmove; [apply Hsz2, Ha2|apply Hsz2, Hb2]. }
  assert (Ha3 : (a < NBUF_of s3)%nat) by (unfold s3; rewrite NBUF_put_buf; exact Ha2).
  assert (Hb3 : (b < NBUF_of s3)%nat) by (unfold s3; rewrite NBUF_put_buf; exact Hb2).
  assert (Hga3 : get_buf a s3 = set_data d (get_buf a s2)).
  { unfold s3. rewrite get_put_buf, Hmv. reflexivity. }
  assert (Hca3 : caches dv L (get_buf a s3) = true).
  { rewrite Hga3, caches_set_data, Hxa. exact Hca1. }
  assert (Hbn3 : blockno (get_buf a s3) = L) by (apply caches_iff in Hca3; apply Hca3).
  assert (Hdt3 : data (get_buf a s3) = d) by (rewrite Hga3; destruct (get_buf a s2); reflexivity).
  pose proof (bwrite_held ba pid [b; a] s3 a (proj1 Hst3) Ha3 (or_intror (or_introl eq_refl)))
    as HD4.
  pose proof (pinned_ok_wrote homes [b; a] s3 a Hst3 Ha3) as Hst4.
  destruct (brelse_pinned_ok_full homes [b; a] [a] (wrote a s3) b Hst4 Hb3 (or_introl eq_refl))
    as (s5 & HD5 & Hst5 & Hlog5 & Hdsk5 & Hwr5 & Hsame5).
  { intros [E|[]]. congruence. }
  { intros x Hne. cbn [In]. split; [auto|intros [E|E]; [congruence|assumption]]. }
  assert (HN5 : NBUF_of s5 = NBUF_of s3) by apply Hsame5.
  destruct (brelse_pinned_ok_full homes [a] [] s5 a Hst5)
    as (s6 & HD6 & Hst6 & Hlog6 & Hdsk6 & Hwr6 & Hsame6).
  { rewrite HN5. exact Ha3. }
  { left. reflexivity. }
  { intros []. }
  { intros x Hne. cbn [In]. split; [intros []|intros [E|[]]; congruence]. }
  (* the four stretches of the turn *)
  assert (Hbut3 : but_buffer a s2 s3) by (apply but_buffer_set_data; exact Ha2).
  assert (Hca2 : caches dv L (get_buf a s2) = true) by (rewrite Hxa; exact Hca1).
  assert (Hdsk3 : dsk s3 = dsk s2) by apply dsk_put_buf.
  assert (Hdsk4 : forall j, j <> L -> dsk (wrote a s3) j = dsk s3 j).
  { intros j Hj. unfold wrote. cbn [dsk]. rewrite Hbn3.
    destruct (Z.eqb_spec j L); [contradiction|reflexivity]. }
  exists s6.
  split; [exact Hst6|].
  split; [rewrite Hlog6, Hlog5; unfold wrote, s3; cbn [log]; rewrite log_put_buf; congruence|].
  split.
  { rewrite Hwr6, Hwr5. unfold wrote. cbn [writes]. rewrite Hbn3, Hdt3.
    unfold s3. rewrite writes_put_buf. congruence. }
  split.
  { apply (durable_same L s5); [exact Hsame6|rewrite Hdsk6; reflexivity|].
    apply (durable_same L (wrote a s3)); [exact Hsame5|rewrite Hdsk5; reflexivity|].
    apply (durable_sole L a).
    - destruct Hst4 as ((_ & _ & _ & Hu) & _). exact Hu.
    - exact Ha3.
    - exact Hca3.
    - exact Hdt3.
    - unfold wrote. cbn [dsk]. rewrite Hbn3, Z.eqb_refl. exact Hdt3. }
  split.
  { intros h e Hh Hc.
    assert (HhL : h <> L) by (intros ->; contradiction).
    apply (current_same h s5); [exact Hsame6|rewrite Hdsk6; reflexivity|].
    apply (current_same h (wrote a s3)); [exact Hsame5|rewrite Hdsk5; reflexivity|].
    apply (current_same h s3); [apply same_contents_wrote|apply Hdsk4; exact HhL|].
    apply (current_others h a s2);
      [exact Hbut3|rewrite Hdsk3; reflexivity|apply (other_block h L); assumption
      |apply (other_block h L); assumption|].
    apply Hhome1 in Hc; [|exact Hh].
    destruct (Z.eq_dec h H) as [->|HhH].
    - apply (current_sole H b); [destruct Hok2 as (_ & _ & _ & Hu); exact Hu|exact Hb2
                                 |exact Hcb2|exact Hv2|apply Hd2; exact Hc].
    - apply (current_others h b s1); [exact Hbut2|rewrite Hdsk2; reflexivity
                                      |apply (other_block h H); assumption
                                      |apply (other_block h H); assumption|exact Hc]. }
  split.
  { intros j e HjL Hjh Hdur.
    assert (HjH : j <> H) by (intros ->; contradiction).
    apply (durable_same j s5); [exact Hsame6|rewrite Hdsk6; reflexivity|].
    apply (durable_same j (wrote a s3)); [exact Hsame5|rewrite Hdsk5; reflexivity|].
    apply (durable_same j s3); [apply same_contents_wrote|apply Hdsk4; exact HjL|].
    apply (durable_others j a s2);
      [exact Hbut3|rewrite Hdsk3; reflexivity|apply (other_block j L); assumption|].
    apply (durable_others j b s1);
      [exact Hbut2|rewrite Hdsk2; reflexivity|apply (other_block j H); assumption|].
    apply (durable_others j a s);
      [exact Hbut1|rewrite Hdsk1; reflexivity|apply (other_block j L); assumption|].
    exact Hdur. }
  intros r s'' Hk.
  eapply Does_bind; [exact HD1|]. cbv beta.
  eapply Does_bind; [exact HD2|]. cbv beta.
  eapply Does_bind; [apply (Does_rd b data)|]. cbv beta.
  eapply Does_bind; [apply Does_wr|]. fold src. fold s3.
  eapply Does_bind; [exact HD4|].
  eapply Does_bind; [exact HD5|].
  eapply Does_bind; [exact HD6|]. exact Hk.
Qed.

(** One turn of the loop of [install_trans] in a commit, with what
    it writes: the contents [d] of the log block [L] go to the home
    block [H]. *)
Lemma install_step_data {A} (k : K fs A) rest s L H d :
  pinned_ok (H :: rest) [] s -> ~ In L (H :: rest) -> ~ In H rest ->
  (B <= Z.to_nat BSIZE)%nat ->
  durable L s d ->
  exists s',
    pinned_ok rest [] s' /\ log s' = log s /\ writes s' = writes s ++ [(H, d)] /\
    (forall j e, j <> L -> j <> H -> durable j s e -> durable j s' e) /\
    forall r s'', Does k pid s' r s'' ->
      Does (lbuf <- bread ba dv L ;;
            dbuf <- bread ba dv H ;;
            src <- rd lbuf data ;;
            wr dbuf (fun x => set_data (memmove (data x) src BSIZE) x) ;;
            bwrite ba dbuf ;;
            (if 0 =? 0 then bunpin dbuf else ret tt) ;;
            brelse ba lbuf ;;
            brelse ba dbuf ;;
            k) pid s r s''.
Proof.
  intros Hst HL HH HB Hdur.
  assert (HLH : H <> L) by (intros ->; apply HL; left; reflexivity).
  destruct (bread_other_full (H :: rest) s L Hst HL)
    as (a & s1 & HD1 & Hst1 & Ha1 & HN1 & Hca1 & Hlog1 & Hdsk1 & Hwr1 & Hbut1 & _ & _ & Hd1).
  specialize (Hd1 d (durable_current L s d Hdur)).
  destruct (bread_pinned_full (H :: rest) [a] s1 H Hst1 (or_introl eq_refl))
    as (b & s2 & HD2 & Hst2 & Hb2 & HN2 & Hnin & Hcb1 & Hcb2 & Hr2 & Hbut2 &
        Hlog2 & Hdsk2 & Hwr2 & _ & _).
  { intros y [<-|[]]. apply (other_block H L); assumption. }
  apply pinned_ok_fewer in Hst2.
  assert (Hab : a <> b) by (intros ->; apply Hnin; left; reflexivity).
  assert (Ha2 : (a < NBUF_of s2)%nat) by (rewrite HN2; exact Ha1).
  assert (Hxa : get_buf a s2 = get_buf a s1) by (apply Hbut2; assumption).
  pose proof Hst2 as (Hok2 & _ & _ & Hsz2 & _).
  set (src := data (get_buf a s2)) in *.
  assert (Hsrc : src = d) by (unfold src; rewrite Hxa; exact Hd1).
  set (s3 := put_buf b (set_data (memmove (data (get_buf b s2)) src BSIZE) (get_buf b s2)) s2).
  assert (Hmv : memmove (data (get_buf b s2)) src BSIZE = d).
  { rewrite memmove_all; [exact Hsrc|apply Hsz2, Ha2|apply Hsz2, Hb2|exact HB]. }
  assert (Hst3 : pinned_ok rest [b; a] s3).
  { apply pinned_ok_set_data; try assumption.
    apply length_memmove; [apply Hsz2, Hb2|apply Hsz2, Ha2]. }
  assert (Ha3 : (a < NBUF_of s3)%nat) by (unfold s3; rewrite NBUF_put_buf; exact Ha2).
  assert (Hb3 : (b < NBUF_of s3)%nat) by (unfold s3; rewrite NBUF_put_buf; exact Hb2).
  assert (Hxb : get_buf b s3 = set_data d (get_buf b s2)).
  { unfold s3. rewrite get_put_buf, Hmv. reflexivity. }
  assert (Hcb3 : caches dv H (get_buf b s3) = true).
  { rewrite Hxb, caches_set_data. exact Hcb2. }
  assert (Hbn3 : blockno (get_buf b s3) = H) by (apply caches_iff in Hcb3; apply Hcb3).
  assert (Hdt3 : data (get_buf b s3) = d) by (rewrite Hxb; destruct (get_buf b s2); reflexivity).
  assert (Hr3 : 2 <= refcnt (get_buf b s3)).
  { rewrite Hxb. destruct (get_buf b s2); cbn in *. exact Hr2. }
  pose proof (bwrite_held ba pid [b; a] s3 b (proj1 Hst3) Hb3 (or_introl eq_refl)) as HD4.
  pose proof (pinned_ok_wrote rest [b; a] s3 b Hst3 Hb3) as Hst4.
  destruct (bunpin_pinned_ok rest [b; a] (wrote b s3) b Hst4 Hb3 (or_introl eq_refl) Hr3)
    as (HD5 & Hst5).
  { intros h Hh. apply (other_block h H); [intros ->; contradiction|exact Hcb3]. }
  set (s5 := with_refcnt (fun c => c - 1) b (wrote b s3)) in *.
  assert (Hsame5 : same_contents (wrote b s3) s5) by (apply same_contents_set_refcnt; exact Hb3).
  assert (HN5 : NBUF_of s5 = NBUF_of s3) by apply Hsame5.
  destruct (brelse_pinned_ok_full rest [b; a] [b] s5 a Hst5)
    as (s6 & HD6 & Hst6 & Hlog6 & Hdsk6 & Hwr6 & Hsame6).
  { rewrite HN5. exact Ha3. }
  { right. left. reflexivity. }
  { intros [E|[]]. congruence. }
  { intros x Hne. cbn [In].
    split; [intros [E|[]]; left; exact E|intros [E|[E|[]]]; [left; exact E|congruence]]. }
  assert (HN6 : NBUF_of s6 = NBUF_of s5) by apply Hsame6.
  destruct (brelse_pinned_ok_full rest [b] [] s6 b Hst6)
    as (s7 & HD7 & Hst7 & Hlog7 & Hdsk7 & Hwr7 & Hsame7).
  { rewrite HN6, HN5. exact Hb3. }
  { left. reflexivity. }
  { intros []. }
  { intros x Hne. cbn [In]. split; [intros []|intros [E|[]]; congruence]. }
  assert (Hl5 : log s5 = log s).
  { unfold s5. rewrite log_with_refcnt. unfold wrote, s3. cbn [log]. rewrite log_put_buf.
    congruence. }
  assert (Hd5 : dsk s5 = dsk (wrote b s3)).
  { unfold s5, with_refcnt. rewrite dsk_put_buf. reflexivity. }
  assert (Hw5 : writes s5 = writes s ++ [(H, d)]).
  { unfold s5, with_refcnt. rewrite writes_put_buf.
    change (writes (update bcache_lock (mkSpin 0 None) (wrote b s3)))
      with (writes s3 ++ [(blockno (get_buf b s3), data (get_buf b s3))]).
    rewrite Hbn3, Hdt3. unfold s3 at 1. rewrite writes_put_buf. congruence. }
  assert (Hbut3 : but_buffer b s2 s3) by (apply but_buffer_set_data; exact Hb2).
  assert (Hdsk3 : dsk s3 = dsk s2) by apply dsk_put_buf.
  assert (Hdsk4 : forall j, j <> H -> dsk (wrote b s3) j = dsk s3 j).
  { intros j Hj. unfold wrote. cbn [dsk]. rewrite Hbn3.
    destruct (Z.eqb_spec j H); [contradiction|reflexivity]. }
  exists s7.
  split; [exact Hst7|].
  split; [congruence|]. split; [congruence|].
  split.
  { intros j e HjL HjH Hj.
    apply (durable_same j s6); [exact Hsame7|rewrite Hdsk7; reflexivity|].
    apply (durable_same j s5); [exact Hsame6|rewrite Hdsk6; reflexivity|].
    apply (durable_same j (wrote b s3)); [exact Hsame5|rewrite Hd5; reflexivity|].
    apply (durable_same j s3); [apply same_contents_wrote|apply Hdsk4; exact HjH|].
    apply (durable_others j b s2);
      [exact Hbut3|rewrite Hdsk3; reflexivity|apply (other_block j H); assumption|].
    apply (durable_others j b s1);
      [exact Hbut2|rewrite Hdsk2; reflexivity|apply (other_block j H); assumption|].
    apply (durable_others j a s);
      [exact Hbut1|rewrite Hdsk1; reflexivity|apply (other_block j L); assumption|].
    exact Hj. }
  intros r s'' Hk.
  eapply Does_bind; [exact HD1|]. cbv beta.
  eapply Does_bind; [exact HD2|]. cbv beta.
  eapply Does_bind; [apply (Does_rd a data)|]. cbv beta.
  eapply Does_bind; [apply Does_wr|]. fold src. fold s3.
  eapply Does_bind; [exact HD4|].
  change (0 =? 0) with true. cbn iota.
  eapply Does_bind; [exact HD5|].
  eapply Does_bind; [exact HD6|].
  eapply Does_bind; [exact HD7|]. exact Hk.
Qed.

(** The loop of [write_log] from entry [t] on: the current contents
    [body j] of each logged block go to its log block, in order. *)
Lemma write_log_loop_data homes (body : Z -> list Z) k : forall fuel t s,
  pinned_ok homes [] s -> u32 (lg_dev (log s)) = dv ->
  lh_n (lh (log s)) = t + Z.of_nat k -> 0 <= t -> t + Z.of_nat k < 2 ^ 31 ->
  (k <= fuel)%nat -> (B <= Z.to_nat BSIZE)%nat ->
  (forall j, t <= j < t + Z.of_nat k ->
     ~ In (logblk (log s) j) homes /\ In (homeblk (log s) j) homes) ->
  List.NoDup (map (logblk (log s)) (range t k)) ->
  (forall j, t <= j < t + Z.of_nat k -> current dv (homeblk (log s) j) s (body j)) ->
  exists s',
    Does (write_log_loop ba BSIZE fuel t) pid s tt s' /\
    pinned_ok homes [] s' /\ log s' = log s /\
    writes s' = writes s ++ map (fun j => (logblk (log s) j, body j)) (range t k) /\
    (forall j, t <= j < t + Z.of_nat k -> durable (logblk (log s) j) s' (body j)) /\
    (forall j e, ~ In j (map (logblk (log s)) (range t k)) -> ~ In j homes ->
       durable j s e -> durable j s' e).
Proof.
  induction k as [|k IH]; intros fuel t s Hst Hdv Hn Ht Hlt Hf HB Hblk Hnd Hbody.
  - exists s. cbn [range seq map]. rewrite app_nil_r.
    assert (E : (t <? lh_n (lh (log s))) = false) by (apply Z.ltb_ge; lia).
    split; [|split; [exact Hst|split; [reflexivity|split; [reflexivity|]]]].
    + destruct fuel; cbn [write_log_loop];
        (eapply Does_bind; [apply Does_the_log|]); cbv beta; rewrite E; apply Does_ret.
    + split; [intros j Hj; lia|intros j e _ _ H; exact H].
  - destruct fuel as [|fuel]; [lia|].
    rewrite range_succ in Hnd |- *. cbn [map] in Hnd |- *.
    rewrite Nat2Z.inj_succ in *.
    apply List.NoDup_cons_iff in Hnd. destruct Hnd as [Hnin Hnd].
    assert (E : (t <? lh_n (lh (log s))) = true) by (apply Z.ltb_lt; lia).
    destruct (Hblk t ltac:(lia)) as [HL HH].
    destruct (write_log_step_data (write_log_loop ba BSIZE fuel (t + 1)) homes s
                (logblk (log s) t) (homeblk (log s) t) (body t) Hst HL HH HB
                (Hbody t ltac:(lia)))
      as (s1 & Hst1 & Hlog1 & Hwr1 & Hdur1 & Hhome1 & Hoth1 & Hrun).
    destruct (IH fuel (t + 1) s1 Hst1) as (s2 & HD2 & Hst2 & Hlog2 & Hwr2 & Hdur2 & Hoth2);
      rewrite ?Hlog1; try assumption; try lia.
    { intros j Hj. apply Hblk. lia. }
    { intros j Hj. apply Hhome1; [apply Hblk; lia|apply Hbody; lia]. }
    rewrite Hlog1 in *.
    exists s2.
    split.
    { cbn [write_log_loop].
      eapply Does_bind; [apply Does_the_log|]. cbv beta. rewrite E, Hdv.
      rewrite (s32_id (t + 1)) by (unfold is_s32; lia).
      apply Hrun. exact HD2. }
    split; [exact Hst2|]. split; [congruence|].
    split; [rewrite Hwr2, Hwr1, <- app_assoc; reflexivity|].
    split.
    + intros j Hj. destruct (Z.eq_dec j t) as [->|Hne].
      * apply Hoth2; [exact Hnin|exact HL|exact Hdur1].
      * apply Hdur2. lia.
    + intros j e Hj Hjh Hd. apply Hoth2; [intros Hin; apply Hj; right; exact Hin|exact Hjh|].
      apply Hoth1; [intros ->; apply Hj; left; reflexivity|exact Hjh|exact Hd].
Qed.

(** The loop of [install_trans] from entry [t] on: the contents
    [body j] of each log block go to its home block, in order. *)
Lemma install_loop_data (body : Z -> list Z) k : forall fuel t s,
  pinned_ok (map (homeblk (log s)) (range t k)) [] s -> u32 (lg_dev (log s)) = dv ->
  List.NoDup (map (homeblk (log s)) (range t k)) ->
  List.NoDup (map (logblk (log s)) (range t k)) ->
  lh_n (lh (log s)) = t + Z.of_nat k -> 0 <= t -> t + Z.of_nat k < 2 ^ 31 ->
  (k <= fuel)%nat -> (B <= Z.to_nat BSIZE)%nat ->
  (forall j, t <= j < t + Z.of_nat k ->
     ~ In (logblk (log s) j) (map (homeblk (log s)) (range t k))) ->
  (forall j, t <= j < t + Z.of_nat k -> durable (logblk (log s) j) s (body j)) ->
  exists s',
    Does (install_trans_loop ba BSIZE fuel 0 t) pid s tt s' /\
    pinned_ok [] [] s' /\ log s' = log s /\
    writes s' = writes s ++ map (fun j => (homeblk (log s) j, body j)) (range t k).
Proof.
  induction k as [|k IH]; intros fuel t s Hst Hdv Hnd Hndl Hn Ht Hlt Hf HB Hblk Hbody.
  - exists s. cbn [range seq map]. rewrite app_nil_r.
    assert (E : (t <? lh_n (lh (log s))) = false) by (apply Z.ltb_ge; lia).
    split; [|split; [exact Hst|split; reflexivity]].
    destruct fuel; cbn [install_trans_loop];
      (eapply Does_bind; [apply Does_the_log|]); cbv beta; rewrite E; apply Does_ret.
  - destruct fuel as [|fuel]; [lia|].
    rewrite range_succ in *. cbn [map] in *.
    rewrite Nat2Z.inj_succ in *.
    assert (E : (t <? lh_n (lh (log s))) = true) by (apply Z.ltb_lt; lia).
    apply List.NoDup_cons_iff in Hnd. destruct Hnd as [Hnin Hnd].
    apply List.NoDup_cons_iff in Hndl. destruct Hndl as [Hninl Hndl].
    destruct (install_step_data (install_trans_loop ba BSIZE fuel 0 (t + 1))
                (map (homeblk (log s)) (range (t + 1) k)) s
                (logblk (log s) t) (homeblk (log s) t) (body t) Hst (Hblk t ltac:(lia)) Hnin HB
                (Hbody t ltac:(lia)))
      as (s1 & Hst1 & Hlog1 & Hwr1 & Hoth1 & Hrun).
    destruct (IH fuel (t + 1) s1) as (s2 & HD2 & Hst2 & Hlog2 & Hwr2);
      rewrite ?Hlog1; try assumption; try lia.
    { intros j Hj Hin. apply (Hblk j); [lia|]. right. exact Hin. }
    { intros j Hj. apply Hoth1; [| |apply Hbody; lia].
      - intros Ej. apply Hninl. rewrite <- Ej. apply in_map. apply range_in. lia.
      - intros Ej. apply (Hblk j); [lia|]. left. symmetry. exact Ej. }
    rewrite Hlog1 in *.
    exists s2.
    split.
    { cbn [install_trans_loop].
      eapply Does_bind; [apply Does_the_log|]. cbv beta. rewrite E, Hdv.
      rewrite (s32_id (t + 1)) by (unfold is_s32; lia).
      apply Hrun. exact HD2. }
    split; [exact Hst2|]. split; [congruence|].
    rewrite Hwr2, Hwr1, <- app_assoc. reflexivity.
Qed.

(** [write_head] leaves the blocks of the log as they are. *)
Lemma write_head_keeps homes s :
  pinned_ok homes [] s -> u32 (lg_dev (log s)) = dv ->
  ~ In (u32 (lg_start (log s))) homes ->
  0 <= lh_n (lh (log s)) < 2 ^ 31 ->
  (4 + 4 * Z.to_nat (lh_n (lh (log s))) <= B)%nat ->
  exists s' h,
    Does (write_head ba) pid s tt s' /\
    pinned_ok homes [] s' /\ log s' = log s /\
    writes s' = writes s ++ [(u32 (lg_start (log s)), h)] /\
    hdr_n h = lh_n (lh (log s)) /\
    (forall i, 0 <= i < lh_n (lh (log s)) -> hdr_block h i = s32 (block_at (log s) i)) /\
    (forall j e, j <> u32 (lg_start (log s)) -> durable j s e -> durable j s' e).
Proof.
  intros Hst Hdv Hh Hn HB.
  destruct (write_head_pinned_ok homes s Hst Hdv Hh Hn HB)
    as (s9 & h & HD9 & Hst9 & Hlog9 & Hwr9 & Hn9 & Hb9).
  exists s9, h.
  split; [exact HD9|]. split; [exact Hst9|]. split; [exact Hlog9|]. split; [exact Hwr9|].
  split; [exact Hn9|]. split; [exact Hb9|].
  (* the same run, buffer by buffer *)
  destruct (bread_other_full homes s (u32 (lg_start (log s))) Hst Hh)
    as (a & s1 & HD1 & Hst1 & Ha1 & HN1 & Hca1 & Hlog1 & Hdsk1 & Hwr1 & Hbut1 & _).
  set (x1 := get_buf a s1) in *.
  set (n := lh_n (lh (log s))) in *.
  assert (Hd0 : length (data x1) = B) by (destruct Hst1 as (_ & _ & _ & Hsz & _); apply Hsz, Ha1).
  destruct (head_image_decodes s (data x1) Hn) as (D1 & D2 & D3); [lia|].
  set (s2 := put_buf a (set_data (hdr_set_n n (data x1)) x1) s1).
  set (s3 := put_buf a (set_data (head_image s (data x1)) x1) s1).
  assert (Hloop : Does (write_head_loop (Z.to_nat n) a 0) pid s2 tt s3).
  { pose proof (write_head_loop_run pid a (Z.to_nat n) (Z.to_nat n) 0 s2) as H.
    assert (Hl2 : log s2 = log s) by (unfold s2; rewrite log_put_buf; exact Hlog1).
    rewrite Hl2 in H. unfold s2 in H at 2 3 4.
    rewrite get_put_buf in H. unfold s2 in H. rewrite put_put_buf in H.
    replace (set_data (put_blocks (Z.to_nat n) 0 (log s)
                         (data (set_data (hdr_set_n n (data x1)) x1)))
               (set_data (hdr_set_n n (data x1)) x1))
      with (set_data (head_image s (data x1)) x1) in H
      by (unfold head_image; destruct x1; reflexivity).
    apply H; try (fold n; lia). rewrite NBUF_put_buf. exact Ha1. }
  assert (Hst3 : pinned_ok homes [a] s3).
  { apply pinned_ok_set_data; try assumption. rewrite D3. exact Hd0. }
  assert (Ha3 : (a < NBUF_of s3)%nat) by (unfold s3; rewrite NBUF_put_buf; exact Ha1).
  assert (Hxa : get_buf a s3 = set_data (head_image s (data x1)) x1) by apply get_put_buf.
  assert (Hca3 : caches dv (u32 (lg_start (log s))) (get_buf a s3) = true).
  { rewrite Hxa, caches_set_data. exact Hca1. }
  assert (Hbn3 : blockno (get_buf a s3) = u32 (lg_start (log s)))
    by (apply caches_iff in Hca3; apply Hca3).
  pose proof (bwrite_held ba pid [a] s3 a (proj1 Hst3) Ha3 (or_introl eq_refl)) as HD4.
  pose proof (pinned_ok_wrote homes [a] s3 a Hst3 Ha3) as Hst4.
  destruct (brelse_pinned_ok_full homes [a] [] (wrote a s3) a Hst4 Ha3 (or_introl eq_refl))
    as (s5 & HD5 & Hst5 & Hlog5 & Hdsk5 & Hwr5 & Hsame5).
  { intros []. }
  { intros x Hne. cbn [In]. split; [intros []|intros [E|[]]; congruence]. }
  assert (HD : Does (write_head ba) pid s tt s5).
  { unfold write_head.
    eapply Does_bind; [apply Does_the_log|]. cbv beta. rewrite Hdv.
    eapply Does_bind; [exact HD1|]. cbv beta.
    eapply Does_bind; [apply Does_wr|]. fold x1. fold n. fold s2.
    eapply Does_bind; [exact Hloop|].
    eapply Does_bind; [exact HD4|]. exact HD5. }
  destruct (Does_fun _ _ _ _ _ _ HD9 HD) as [_ ->].
  intros j e Hj Hdur.
  apply (durable_same j (wrote a s3)); [exact Hsame5|rewrite Hdsk5; reflexivity|].
  apply (durable_same j s3); [apply same_contents_wrote| |].
  { unfold wrote. cbn [dsk]. rewrite Hbn3.
    destruct (Z.eqb_spec j (u32 (lg_start (log s)))); [contradiction|reflexivity]. }
  apply (durable_others j a s1).
  - unfold s3. apply but_buffer_set_data. exact Ha1.
  - unfold s3. rewrite dsk_put_buf. reflexivity.
  - apply (other_block j (u32 (lg_start (log s)))); assumption.
  - apply (durable_others j a s); [exact Hbut1|rewrite Hdsk1; reflexivity| |exact Hdur].
    apply (other_block j (u32 (lg_start (log s)))); assumption.
Qed.

(** The run of [commit] with [n > 0] blocks logged, with what it
    writes. *)
Lemma commit_run_data (s : fs) (body : Z -> list Z) :
  pinned_ok (home_blocks s) [] s ->
  List.NoDup (home_blocks s) ->
  List.NoDup (log_blocks s) ->
  u32 (lg_dev (log s)) = dv ->
  0 < lh_n (lh (log s)) < 2 ^ 31 ->
  (4 + 4 * Z.to_nat (lh_n (lh (log s))) <= B)%nat ->
  (B <= Z.to_nat BSIZE)%nat ->
  (forall L, In L (log_blocks s) -> ~ In L (home_blocks s)) ->
  ~ In (u32 (lg_start (log s))) (home_blocks s) ->
  ~ In (u32 (lg_start (log s))) (log_blocks s) ->
  (forall t, 0 <= t < lh_n (lh (log s)) -> current dv (homeblk (log s) t) s (body t)) ->
  exists s' h1 h0,
    Does (commit ba BSIZE) pid s tt s' /\
    writes s' =
      writes s ++ map (fun t => (logblk (log s) t, body t)) (entries s)
        ++ [(u32 (lg_start (log s)), h1)]
        ++ map (fun t => (homeblk (log s) t, body t)) (entries s)
        ++ [(u32 (lg_start (log s)), h0)] /\
    hdr_n h1 = lh_n (lh (log s)) /\
    (forall i, 0 <= i < lh_n (lh (log s)) -> hdr_block h1 i = s32 (block_at (log s) i)) /\
    hdr_n h0 = 0 /\
    log s' = set_lh_n 0 (log s) /\
    cache_ok pid [] s'.
Proof.
  intros Hst Hnd Hndl Hdv Hn HB HBS Hlogs Hhdr Hhdrl Hbody.
  set (n := lh_n (lh (log s))) in *.
  assert (Hk : Z.of_nat (Z.to_nat n) = n) by lia.
  assert (Hin : forall j, 0 <= j < 0 + Z.of_nat (Z.to_nat n) -> In j (entries s)).
  { intros j Hj. unfold entries. apply range_in. fold n. lia. }
  (* the log blocks *)
  destruct (write_log_loop_data (home_blocks s) body (Z.to_nat n) (Z.to_nat n) 0 s Hst Hdv)
    as (s1 & HD1 & Hst1 & Hlog1 & Hwr1 & Hdur1 & _); try (fold n; lia); try assumption.
  { intros j Hj. split.
    - apply Hlogs. unfold log_blocks. apply in_map. apply Hin. exact Hj.
    - unfold home_blocks. apply in_map. apply Hin. exact Hj. }
  { intros j Hj. apply Hbody. lia. }
  (* the header *)
  destruct (write_head_keeps (home_blocks s) s1 Hst1) as
    (s2 & h1 & HD2 & Hst2 & Hlog2 & Hwr2 & Hn2 & Hb2 & Hkeep2); rewrite ?Hlog1; try assumption;
    try (fold n; lia).
  rewrite Hlog1 in Hkeep2.
  (* the home blocks *)
  assert (Hl2 : log s2 = log s) by congruence.
  destruct (install_loop_data body (Z.to_nat n) (Z.to_nat n) 0 s2) as
    (s3 & HD3 & Hst3 & Hlog3 & Hwr3); rewrite ?Hl2; try assumption;
    try (fold n; lia).
  { intros j Hj. apply Hlogs. unfold log_blocks. apply in_map. apply Hin. exact Hj. }
  { intros j Hj. apply Hkeep2; [|apply Hdur1; exact Hj].
    intros Ej. apply Hhdrl. rewrite <- Ej. unfold log_blocks. apply in_map. apply Hin.
    exact Hj. }
  (* the header again *)
  set (s4 := set_log (set_lh_n 0 (log s3)) s3).
  assert (Hst4 : pinned_ok [] [] s4) by (apply pinned_ok_set_log; exact Hst3).
  destruct (write_head_pinned_ok [] s4 Hst4) as
    (s5 & h0 & HD5 & Hst5 & Hlog5 & Hwr5 & Hn5 & _).
  { cbn [s4 set_log log set_lh_n lg_dev]. rewrite Hlog3, Hl2. exact Hdv. }
  { intros []. }
  { cbn. lia. }
  { cbn [s4 set_log log set_lh_n lh lh_n]. cbn. lia. }
  exists s5, h1, h0.
  split.
  { unfold commit.
    eapply Does_bind; [apply Does_the_log|]. cbv beta.
    assert (E : (lh_n (lh (log s)) >? 0) = true) by (apply Z.gtb_lt; fold n; lia).
    rewrite E.
    eapply Does_bind.
    { unfold write_log. eapply Does_bind; [apply Does_the_log|]. cbv beta. exact HD1. }
    eapply Does_bind; [exact HD2|].
    eapply Does_bind.
    { unfold install_trans. eapply Does_bind; [apply Does_the_log|]. cbv beta.
      rewrite Hl2. exact HD3. }
    eapply Does_bind; [apply Does_wr_log|]. exact HD5. }
  split.
  { rewrite Hwr5. cbn [s4 set_log writes log set_lh_n lg_start].
    rewrite Hwr3, Hwr2, Hwr1, Hlog3, Hl2, Hlog1. unfold entries. fold n.
    rewrite <- !app_assoc. reflexivity. }
  split; [rewrite Hn2, Hlog1; reflexivity|].
  split; [intros i Hi; rewrite Hb2, Hlog1 by (rewrite Hlog1; exact Hi); reflexivity|].
  split; [exact Hn5|].
  split; [rewrite Hlog5; cbn [s4 set_log log]; rewrite Hlog3, Hl2; reflexivity|].
  apply Hst5.
Qed.

(** C1: the disk writes of a commit. With [n > 0] blocks logged,
    each pinned in the cache with current contents [body t], [commit]
    returns after making exactly these writes, in this order: the [n]
    log blocks [start + 1 + t], each with the contents of the logged
    block it stands for; the header block, naming the [n] blocks; the
    [n] home blocks, in the order of the header, each with the contents
    that went to its log block; and the header block again, with count
    0. The in-memory count is then 0. *)
Theorem commit_writes_log_head_homes_head (s : fs) (body : Z -> list Z) :
  pinned_ok (home_blocks s) [] s ->
  List.NoDup (home_blocks s) ->
  List.NoDup (log_blocks s) ->
  u32 (lg_dev (log s)) = dv ->
  0 < lh_n (lh (log s)) < 2 ^ 31 ->
  (4 + 4 * Z.to_nat (lh_n (lh (log s))) <= B)%nat ->
  (B <= Z.to_nat BSIZE)%nat ->
  (forall L, In L (log_blocks s) -> ~ In L (home_blocks s)) ->
  ~ In (u32 (lg_start (log s))) (home_blocks s) ->
  ~ In (u32 (lg_start (log s))) (log_blocks s) ->
  (forall t, 0 <= t < lh_n (lh (log s)) -> current dv (homeblk (log s) t) s (body t)) ->
  exists s' h1 h0,
    Does (commit ba BSIZE) pid s tt s' /\
    writes s' =
      writes s ++ map (fun t => (logblk (log s) t, body t)) (entries s)
        ++ [(u32 (lg_start (log s)), h1)]
        ++ map (fun t => (homeblk (log s) t, body t)) (entries s)
        ++ [(u32 (lg_start (log s)), h0)] /\
    hdr_n h1 = lh_n (lh (log s)) /\
    (forall i, 0 <= i < lh_n (lh (log s)) -> hdr_block h1 i = s32 (block_at (log s) i)) /\
    hdr_n h0 = 0 /\
    lh_n (lh (log s')) = 0 /\
    cache_ok pid [] s'.
Proof.
  intros Hst Hnd Hndl Hdv Hn HB HBS Hlogs Hhdr Hhdrl Hbody.
  destruct (commit_run_data s body Hst Hnd Hndl Hdv Hn HB HBS Hlogs Hhdr Hhdrl Hbody)
    as (s' & h1 & h0 & HD & Hw & H1 & H2 & H3 & H4 & H5).
  exists s', h1, h0.
  split; [exact HD|]. split; [exact Hw|]. split; [exact H1|]. split; [exact H2|].
  split; [exact H3|]. split; [rewrite H4; reflexivity|exact H5].
Qed.
End CommitOrder.

(** The cache after three reads; block 10 is read again, pinned and
    released, and the header of the log names it. *)
Definition commit_fs : fs :=
  Eval vm_compute in
    set_log (mkLog (mkSpin 0 None) 2 31 0 0 1 (mkLh 1 (10 :: repeat 0 29)))
      (st (final_world ((b <- bread (fun _ => 0) 1 10 ;; bpin b ;; brelse (fun _ => 0) b)
                          lru_world))).

Lemma commit_fs_pinned_ok : pinned_ok 1 1 8 [10] [] commit_fs.
Proof.
  split; [|split; [|split; [|split]]].
  - unfold cache_ok. change (NBUF_of commit_fs) with 3%nat.
    split; [reflexivity|]. split; [|split].
    + exists [2; 1; 0]%nat. split.
      * unfold dll. change (NBUF_of commit_fs) with 3%nat.
        split; [|split].
        -- vm_compute. repeat split; lia.
        -- vm_compute. repeat split; lia.
        -- repeat constructor; cbn; lia.
      * intros x Hx. cbn. lia.
    + intros x Hx. split; [intros []|]. intros _.
      destruct x as [|[|[|x]]]; [| | |lia]; vm_compute; repeat split; congruence.
    + intros x y Hx Hy. change (NBUF_of commit_fs) with 3%nat in Hx, Hy.
      destruct x as [|[|[|x]]]; [| | |lia];
        (destruct y as [|[|[|y]]]; [| | |lia]); vm_compute; intros H1 H2;
        first [reflexivity | discriminate H2].
  - exists 1%nat. split; [vm_compute; lia|left; reflexivity].
  - intros h [<-|[]]. exists 0%nat. split; [vm_compute; lia|]. split; [reflexivity|].
    split; [vm_compute; discriminate|intros []].
  - intros x Hx. change (NBUF_of commit_fs) with 3%nat in Hx.
    destruct x as [|[|[|x]]]; [| | |lia]; reflexivity.
  - intros k. reflexivity.
Qed.

Lemma commit_write_order_witness :
  exists s', Does (commit (fun _ => 0) 8) 1 commit_fs tt s' /\
             map fst (writes s') = [3; 2; 10; 2].
Proof.
  destruct (commit_write_order (fun _ => 0) 1 1 8 8 commit_fs commit_fs_pinned_ok)
    as (s' & logw & h1 & homew & h0 & HD & Hw & H1 & H2 & _).
  - repeat constructor. intros [].
  - reflexivity.
  - cbn. lia.
  - cbn. lia.
  - intros L [<-|[]] [E|[]]. discriminate E.
  - intros [E|[]]. discriminate E.
  - exists s'. split; [exact HD|].
    rewrite Hw. change (writes commit_fs) with (@nil (Z * list Z)).
    cbn [app]. rewrite List.map_app. cbn [map fst]. rewrite List.map_app, H1, H2. reflexivity.
Defined.

(** X30 (log.c, end_op and commit): the [end_op] that closes the
    last outstanding operation commits what was logged. With [n > 0]
    blocks logged and pinned in the cache it returns, having written
    the log blocks, the header, the home blocks and the header again,
    in this order, and leaves the log empty, with no operation
    outstanding, [committing] clear and the lock of the log free. *)
Theorem end_op_commits_in_order ba log_addr BSIZE (B : nat) (w : world fs) :
  noff_ok (cpu w) -> locked (lg_lock (log (st w))) = 0 ->
  committing (log (st w)) = 0 -> outstanding (log (st w)) = 1 ->
  pinned_ok (mypid w) (u32 (lg_dev (log (st w)))) B (home_blocks (st w)) [] (st w) ->
  List.NoDup (home_blocks (st w)) ->
  0 < lh_n (lh (log (st w))) < 2 ^ 31 ->
  (4 + 4 * Z.to_nat (lh_n (lh (log (st w)))) <= B)%nat ->
  (forall L, In L (log_blocks (st w)) -> ~ In L (home_blocks (st w))) ->
  ~ In (u32 (lg_start (log (st w)))) (home_blocks (st w)) ->
  exists w' ws,
    end_op ba log_addr BSIZE w = Ok tt w' /\
    writes (st w') = writes (st w) ++ ws /\
    map fst ws =
      log_blocks (st w) ++ [u32 (lg_start (log (st w)))] ++ home_blocks (st w)
        ++ [u32 (lg_start (log (st w)))] /\
    lh_n (lh (log (st w'))) = 0 /\
    outstanding (log (st w')) = 0 /\ committing (log (st w')) = 0 /\
    lg_lock (log (st w')) = mkSpin 0 None /\
    cache_ok (mypid w) [] (st w').
Proof.
  intros Hn Hf Hc Ho Hst Hnd Hlen HB Hlogs Hhdr.
  rewrite end_op_last by assumption.
  set (s1 := set_log (committing_log (log (st w))) (st w)).
  assert (Hst1 : pinned_ok (mypid w) (u32 (lg_dev (log (st w)))) B (home_blocks s1) [] s1).
  { apply pinned_ok_set_log. exact Hst. }
  destruct (commit_run ba (mypid w) (u32 (lg_dev (log (st w)))) B BSIZE s1 Hst1 Hnd
              eq_refl Hlen HB Hlogs Hhdr)
    as (s2 & logw & h1 & homew & h0 & HD & Hw & H1 & H2 & _ & _ & _ & Hlog2 & Hok2).
  destruct (HD (settle (cpu w)) (ptable w) (env w) (settle_noff_ok _ Hn))
    as (c2 & pt2 & E2 & Hc2).
  assert (Hn2 : noff_ok c2).
  { destruct Hc2 as [->| ->]; [|apply settle_noff_ok]; apply settle_noff_ok; exact Hn. }
  unfold bind at 1. rewrite E2.
  unfold bind at 1. rewrite acquire_free; [|apply log_lock_lawful|cbn [st view log_lock];
    rewrite Hlog2; reflexivity].
  unfold bind at 1, wr_log at 1, modify at 1.
  unfold bind at 1, wakeup at 1, modify at 1.
  cbn [st set_st set_ptable cpu mypid ptable env].
  rewrite release_pushed; [|apply log_lock_lawful|exact Hn2|reflexivity].
  eexists. exists (logw ++ [(u32 (lg_start (log (st w))), h1)] ++ homew
                     ++ [(u32 (lg_start (log (st w))), h0)]).
  split; [reflexivity|]. cbn [st].
  split; [exact Hw|].
  split.
  { rewrite List.map_app. cbn [app map fst]. rewrite List.map_app. cbn [map fst].
    rewrite H1, H2. reflexivity. }
  cbn [update log_lock set_log log lh lh_n outstanding committing lg_lock set_committing].
  rewrite Hlog2.
  split; [reflexivity|]. split; [reflexivity|]. split; [reflexivity|]. split; [reflexivity|].
  apply (cache_ok_bcache _ _ s2); [reflexivity|exact Hok2].
Qed.

(** The last operation of a transaction that logged block 10. *)
Definition commit_world : world fs :=
  mkWorld boot_cpu 1 [] (set_log (set_outstanding 1 (log commit_fs)) commit_fs) [].

Lemma end_op_commits_in_order_witness :
  exists w', end_op (fun _ => 0) 0 8 commit_world = Ok tt w' /\
             map fst (writes (st w')) = [3; 2; 10; 2] /\
             lh_n (lh (log (st w'))) = 0.
Proof.
  destruct (end_op_commits_in_order (fun _ => 0) 0 8 8 commit_world)
    as (w' & ws & HE & Hw & Hm & Hl & _).
  - unfold noff_ok. cbn. lia.
  - reflexivity.
  - reflexivity.
  - reflexivity.
  - apply pinned_ok_set_log. exact commit_fs_pinned_ok.
  - repeat constructor. intros [].
  - cbn. lia.
  - cbn. lia.
  - intros L [<-|[]] [E|[]]. discriminate E.
  - intros [E|[]]. discriminate E.
  - exists w'. split; [exact HE|]. split; [|exact Hl].
    rewrite Hw. change (writes (st commit_world)) with (@nil (Z * list Z)).
    cbn [app]. rewrite Hm. reflexivity.
Defined.

(** A transaction of one operation that changes blocks 10 and 11 of
    device 1 and logs them, on a system with three buffers of 16
    bytes, up to the point where [end_op] commits. *)
Definition new_10 : list Z := [1; 2; 3; 4; 5; 6; 7; 8; 9; 10; 11; 12; 13; 14; 15; 16].
Definition new_11 : list Z :=
  [101; 102; 103; 104; 105; 106; 107; 108; 109; 110; 111; 112; 113; 114; 115; 116].

Definition two_block_op : K fs unit :=
  binit (fun _ => 0) ;;
  begin_op 0 30 10 ;;
  b <- bread (fun _ => 0) 1 10 ;;
  wr b (set_data new_10) ;; log_write 30 b ;; brelse (fun _ => 0) b ;;
  b <- bread (fun _ => 0) 1 11 ;;
  wr b (set_data new_11) ;; log_write 30 b ;; brelse (fun _ => 0) b.

Definition two_block_fs : fs :=
  Eval vm_compute in
    st (final_world (two_block_op (mkWorld boot_cpu 1 [] (blank_fs 3 16 2 31 30) []))).

Lemma two_block_op_run :
  exists w', two_block_op (mkWorld boot_cpu 1 [] (blank_fs 3 16 2 31 30) []) = Ok tt w' /\
             st w' = two_block_fs.
Proof. eexists. split; [vm_compute; reflexivity|reflexivity]. Qed.

Lemma two_block_fs_pinned_ok : pinned_ok 1 1 16 [10; 11] [] two_block_fs.
Proof.
  split; [|split; [|split; [|split]]].
  - unfold cache_ok. change (NBUF_of two_block_fs) with 3%nat.
    split; [reflexivity|]. split; [|split].
    + exists [2; 1; 0]%nat. split.
      * unfold dll. change (NBUF_of two_block_fs) with 3%nat.
        split; [|split].
        -- vm_compute. repeat split; lia.
        -- vm_compute. repeat split; lia.
        -- repeat constructor; cbn; lia.
      * intros x Hx. cbn. lia.
    + intros x Hx. split; [intros []|]. intros _.
      destruct x as [|[|[|x]]]; [| | |lia]; vm_compute; repeat split; congruence.
    + intros x y Hx Hy. change (NBUF_of two_block_fs) with 3%nat in Hx, Hy.
      destruct x as [|[|[|x]]]; [| | |lia];
        (destruct y as [|[|[|y]]]; [| | |lia]); vm_compute; intros H1 H2;
        first [reflexivity | discriminate H2 | discriminate H1].
  - exists 2%nat. split; [vm_compute; lia|left; reflexivity].
  - intros h [<-|[<-|[]]].
    + exists 0%nat. split; [vm_compute; lia|]. split; [reflexivity|].
      split; [vm_compute; discriminate|intros []].
    + exists 1%nat. split; [vm_compute; lia|]. split; [reflexivity|].
      split; [vm_compute; discriminate|intros []].
  - intros x Hx. change (NBUF_of two_block_fs) with 3%nat in Hx.
    destruct x as [|[|[|x]]]; [| | |lia]; reflexivity.
  - intros k. reflexivity.
Qed.

Lemma commit_writes_log_head_homes_head_witness :
  exists s' h1 h0,
    Does (commit (fun _ => 0) 16) 1 two_block_fs tt s' /\
    writes s' = [(3, new_10); (4, new_11); (2, h1); (10, new_10); (11, new_11); (2, h0)] /\
    hdr_n h1 = 2 /\ hdr_block h1 0 = 10 /\ hdr_block h1 1 = 11 /\ hdr_n h0 = 0.
Proof.
  destruct (commit_writes_log_head_homes_head (fun _ => 0) 1 1 16 16 two_block_fs
              (fun t => if t =? 0 then new_10 else new_11) two_block_fs_pinned_ok)
    as (s' & h1 & h0 & HD & Hw & H1 & H2 & H3 & _).
  - repeat constructor; cbn; intuition discriminate.
  - repeat constructor; cbn; intuition discriminate.
  - reflexivity.
  - cbn. lia.
  - cbn. lia.
  - cbn. lia.
  - intros L [<-|[<-|[]]] [E|[E|[]]]; discriminate E.
  - intros [E|[E|[]]]; discriminate E.
  - intros [E|[E|[]]]; discriminate E.
  - intros t Ht. change (lh_n (lh (log two_block_fs))) with 2 in Ht.
    assert (Et : t = 0 \/ t = 1) by lia.
    destruct Et as [-> | ->]; (split;
      [intros b Hb Hc Hv; change (NBUF_of two_block_fs) with 3%nat in Hb;
       destruct b as [|[|[|b]]]; [| | |lia]; first [reflexivity | discriminate Hc]
      |intros Hall]).
    + specialize (Hall 0%nat ltac:(vm_compute; lia) eq_refl). discriminate Hall.
    + specialize (Hall 1%nat ltac:(vm_compute; lia) eq_refl). discriminate Hall.
  - exists s', h1, h0. split; [exact HD|]. split; [exact Hw|]. split; [exact H1|].
    split; [apply (H2 0); cbn; lia|]. split; [apply (H2 1); cbn; lia|exact H3].
Defined.
